(** * The impedance-tensor core of mtpy: [mtpy/core/z.py]

    A shallow embedding of the classes [Z] and [Tipper] and of the
    function [correct4sensor_orientation].

    Conventions of the embedding.
    - A Python float is a real number of the Standard Library ([R]): the
      arithmetic is the exact one, there is no rounding, no infinity, no
      NaN and no signed zero.  A complex number is a pair of reals.
    - Where the code does on doubles what the real numbers cannot show,
      the model says so.  A zero stands for [+0.0], and [np_arctan2_neg]
      is [arctan2] of negated zeros.  What [np.linalg.inv] makes of a
      singular matrix is read from the class [Lapack].  The module
      [Doubles] evaluates the formulas of the resistivity on binary64
      numbers.
    - A numpy array of shape (n, 2, 2) is a list of 2x2 matrices, an array
      of shape (n, 1, 2) a list of pairs, a one-dimensional array a list.
    - A method is a computation in a state-and-exception monad over the
      object it is called on and the module logger: a raised exception
      keeps the writes made before it, as in Python.
    - The functions of [mtpy.utils.calculator] (imported as [MTcc]) are
      the fields of the class [Calculator]: every result holds for any
      implementation of them. *)

From Stdlib Require Import Reals Lra Lia List Bool ZArith.
From Stdlib Require String.
From Stdlib Require PrimFloat.
Import ListNotations.
Import String.StringSyntax.
Abbreviation string := String.string.
Delimit Scope string_scope with string.
Local Open Scope R_scope.

(** ** Python runtime: exceptions, logging, state *)

Inductive exn : Type :=
| IndexError
| TypeError
| AttributeError
| ValueError
| UnboundLocalError
| LinAlgError
| MTpyError_Z
| MTpyError_EDI
| MTpyError_inputarguments.

Definition exn_eqb (a b : exn) : bool :=
  match a, b with
  | IndexError, IndexError | TypeError, TypeError
  | AttributeError, AttributeError | ValueError, ValueError
  | UnboundLocalError, UnboundLocalError | LinAlgError, LinAlgError
  | MTpyError_Z, MTpyError_Z | MTpyError_EDI, MTpyError_EDI
  | MTpyError_inputarguments, MTpyError_inputarguments => true
  | _, _ => false
  end.

Inductive level : Type := INFO | WARNING | ERROR.

Inductive result (A : Type) : Type :=
| Ok (a : A)
| Raise (e : exn).
Arguments Ok {A} a.
Arguments Raise {A} e.

Record world (O : Type) : Type := World {
  self : O;
  log : list (level * string)
}.
Arguments World {O} self log.
Arguments self {O} w.
Arguments log {O} w.

Definition M (O A : Type) : Type := world O -> result A * world O.

Definition ret {O A} (a : A) : M O A := fun w => (Ok a, w).

Definition bind {O A B} (m : M O A) (k : A -> M O B) : M O B :=
  fun w => match m w with
           | (Ok a, w') => k a w'
           | (Raise e, w') => (Raise e, w')
           end.

Definition raise {O A} (e : exn) : M O A := fun w => (Raise e, w).

Definition lift {O A} (r : result A) : M O A := fun w => (r, w).

Definition getself {O} : M O O := fun w => (Ok (self w), w).

Definition modify {O} (f : O -> O) : M O unit :=
  fun w => (Ok tt, World (f (self w)) (log w)).

Definition logger {O} (l : level) (msg : string) : M O unit :=
  fun w => (Ok tt, World (self w) (log w ++ [(l, msg)])).

(** [try: m except e: h] *)
Definition try_except {O A} (m : M O A) (e : exn) (h : M O A) : M O A :=
  fun w => match m w with
           | (Raise e', w') => if exn_eqb e e' then h w' else (Raise e', w')
           | r => r
           end.

Declare Scope py_scope.
Delimit Scope py_scope with py.
Notation "x <- m ;; k" := (bind m (fun x => k))
  (at level 61, m at next level, right associativity) : py_scope.
Notation "m ;; k" := (bind m (fun _ => k))
  (at level 61, right associativity) : py_scope.
Local Open Scope py_scope.

(** [for x in l: body x] *)
Fixpoint for_each {O A} (l : list A) (body : A -> M O unit) : M O unit :=
  match l with
  | [] => ret tt
  | x :: l' => body x ;; for_each l' body
  end.

(** [range(n)] *)
Definition range (n : nat) : list nat := seq 0 n.

(** ** Numbers *)

Record C : Type := mkC { Re : R; Im : R }.

Definition C0 : C := mkC 0 0.
Definition RtoC (x : R) : C := mkC x 0.
Definition Cadd (a b : C) : C := mkC (Re a + Re b) (Im a + Im b).
Definition Cmul (a b : C) : C :=
  mkC (Re a * Re b - Im a * Im b) (Re a * Im b + Im a * Re b).
(** a float times a complex, a complex divided by a float *)
Definition Cscale (r : R) (a : C) : C := mkC (r * Re a) (r * Im a).
Definition Cdivr (a : C) (r : R) : C := mkC (Re a / r) (Im a / r).

(** [np.abs] of a complex number *)
Definition np_abs (z : C) : R := sqrt (Re z * Re z + Im z * Im z).

(** [math.atan2 y x].  The real numbers have one zero where the doubles
    have two, and on the doubles [atan2] tells them apart: with [x < 0],
    [atan2(+0.0, x)] is [pi] and [atan2(-0.0, x)] is [-pi].  A zero of the
    model stands for [+0.0]: that is the zero of a number typed in or
    read from a file, and of [complex(x)].  So the model gives [pi] on the
    negative real axis.  Code that negates its arguments turns such a zero
    into [-0.0]: [np_arctan2_neg] below is [atan2] for it. *)
Definition atan2 (y x : R) : R :=
  match total_order_T 0 x with
  | inleft (left _) => atan (y / x)
  | inleft (right _) =>
      match total_order_T 0 y with
      | inleft (left _) => PI / 2
      | inleft (right _) => 0
      | inright _ => - (PI / 2)
      end
  | inright _ =>
      if Rle_dec 0 y then atan (y / x) + PI else atan (y / x) - PI
  end.

(** [np.arctan2(-y, -x)] for stored numbers [y] and [x].  The negation
    of a stored zero is [-0.0], and [arctan2(-0.0, -x)] is [-pi] for
    [x >= 0] (so for [x = 0] too: [arctan2(-0.0, -0.0)] is [-pi]) and
    [-0.0] for [x < 0].  With [y] other than zero the sign of a zero [x]
    makes no difference. *)
Definition np_arctan2_neg (y x : R) : R :=
  if Req_dec_T y 0
  then if Rle_dec 0 x then - PI else 0
  else atan2 (- y) (- x).

(** [cmath.phase], [math.degrees], [math.radians], [cmath.rect] *)
Definition cmath_phase (z : C) : R := atan2 (Im z) (Re z).
Definition math_degrees (x : R) : R := x * (180 / PI).
Definition math_radians (x : R) : R := x * (PI / 180).
Definition cmath_rect (r phi : R) : C := mkC (r * cos phi) (r * sin phi).

(** Python's [x % m] on floats, for a positive [m]: the result has the
    sign of [m]. *)
Definition pymod (x m : R) : R := x - m * IZR (Zfloor (x / m)).

(** [np.isnan]: a real number is never NaN. *)
Definition np_isnan (x : R) : bool := false.

(** ** Arrays *)

Inductive idx2 : Type := i0 | i1.
Definition range2 : list idx2 := [i0; i1].

Record Mat2 (A : Type) : Type := mkMat2 { m00 : A; m01 : A; m10 : A; m11 : A }.
Arguments mkMat2 {A} m00 m01 m10 m11.
Arguments m00 {A} m.
Arguments m01 {A} m.
Arguments m10 {A} m.
Arguments m11 {A} m.

Definition mget {A} (m : Mat2 A) (ii jj : idx2) : A :=
  match ii, jj with
  | i0, i0 => m00 m
  | i0, i1 => m01 m
  | i1, i0 => m10 m
  | i1, i1 => m11 m
  end.

Definition mset {A} (m : Mat2 A) (ii jj : idx2) (v : A) : Mat2 A :=
  match ii, jj with
  | i0, i0 => mkMat2 v (m01 m) (m10 m) (m11 m)
  | i0, i1 => mkMat2 (m00 m) v (m10 m) (m11 m)
  | i1, i0 => mkMat2 (m00 m) (m01 m) v (m11 m)
  | i1, i1 => mkMat2 (m00 m) (m01 m) (m10 m) v
  end.

Definition mmap {A B} (f : A -> B) (m : Mat2 A) : Mat2 B :=
  mkMat2 (f (m00 m)) (f (m01 m)) (f (m10 m)) (f (m11 m)).

Definition mconst {A} (a : A) : Mat2 A := mkMat2 a a a a.

(** A 1x2 row, the block of an array of shape (n, 1, 2). *)
Record Vec2 (A : Type) : Type := mkVec2 { v0 : A; v1 : A }.
Arguments mkVec2 {A} v0 v1.
Arguments v0 {A} v.
Arguments v1 {A} v.

Definition vget {A} (v : Vec2 A) (jj : idx2) : A :=
  match jj with i0 => v0 v | i1 => v1 v end.

Definition vset {A} (v : Vec2 A) (jj : idx2) (x : A) : Vec2 A :=
  match jj with i0 => mkVec2 x (v1 v) | i1 => mkVec2 (v0 v) x end.

(** [l[n] = x] on a list that has an index [n] *)
Fixpoint upd {A} (l : list A) (n : nat) (x : A) : list A :=
  match l, n with
  | [], _ => []
  | _ :: l', O => x :: l'
  | y :: l', S n' => y :: upd l' n' x
  end.

(** [a[idx]] for a one-dimensional array *)
Definition item1 {A} (a : list A) (idx : nat) : result A :=
  match nth_error a idx with
  | Some x => Ok x
  | None => Raise IndexError
  end.

(** [a[idx, ii, jj]] and [a[idx, ii, jj] = v] for shape (n, 2, 2) *)
Definition item3 {A} (a : list (Mat2 A)) (idx : nat) (ii jj : idx2) : result A :=
  match nth_error a idx with
  | Some m => Ok (mget m ii jj)
  | None => Raise IndexError
  end.

Definition setitem3 {A} (a : list (Mat2 A)) (idx : nat) (ii jj : idx2) (v : A)
  : result (list (Mat2 A)) :=
  match nth_error a idx with
  | Some m => Ok (upd a idx (mset m ii jj v))
  | None => Raise IndexError
  end.

(** [a[idx, 0, jj]] and [a[idx, 0, jj] = v] for shape (n, 1, 2) *)
Definition item2 {A} (a : list (Vec2 A)) (idx : nat) (jj : idx2) : result A :=
  match nth_error a idx with
  | Some v => Ok (vget v jj)
  | None => Raise IndexError
  end.

Definition setitem2 {A} (a : list (Vec2 A)) (idx : nat) (jj : idx2) (x : A)
  : result (list (Vec2 A)) :=
  match nth_error a idx with
  | Some v => Ok (upd a idx (vset v jj x))
  | None => Raise IndexError
  end.

(** [np.zeros_like] keeps the shape. *)
Definition zeros_like3 {A} (a : list (Mat2 A)) : list (Mat2 R) :=
  map (fun _ => mconst 0) a.
Definition zeros_like2 {A} (a : list (Vec2 A)) : list (Vec2 R) :=
  map (fun _ => mkVec2 0 0) a.

(** What a constructor or a setter of [Z] can be handed as a tensor: one
    2x2 matrix, or an array of shape (n, 2, 2). *)
Inductive ndarray (A : Type) : Type :=
| Single (m : Mat2 A)
| Stack (l : list (Mat2 A)).
Arguments Single {A} m.
Arguments Stack {A} l.

(** [rotation_angle] is a float until a tensor is known, an array after. *)
Inductive rot : Type :=
| RotFloat (a : R)
| RotArray (l : list R).

(** A scalar or a one-dimensional array, for [np.iterable(alpha) == 0]. *)
Inductive scalar_or_seq : Type :=
| Scalar (a : R)
| Seq (l : list R).

(** [for x in l: ...] with local variables [acc] *)
Fixpoint fold_each {O A S} (l : list A) (body : A -> S -> M O S) (acc : S)
  : M O S :=
  match l with
  | [] => ret acc
  | x :: l' => acc' <- body x acc ;; fold_each l' body acc'
  end.

(** A list comprehension whose element expression may raise. *)
Fixpoint map_result {A B} (f : A -> result B) (l : list A) : result (list B) :=
  match l with
  | [] => Ok []
  | x :: l' =>
      match f x with
      | Raise e => Raise e
      | Ok y => match map_result f l' with
                | Raise e => Raise e
                | Ok ys => Ok (y :: ys)
                end
      end
  end.

Definition enumerate {A} (l : list A) : list (nat * A) :=
  combine (seq 0 (length l)) l.

(** [a[idx]] and [a[idx] = blk] for a block of an array *)
Definition block {A} (a : list A) (idx : nat) : result A := item1 a idx.
Definition setblock {A} (a : list A) (idx : nat) (blk : A) : result (list A) :=
  match nth_error a idx with
  | Some _ => Ok (upd a idx blk)
  | None => Raise IndexError
  end.

(** [np.sign] of a complex number, as numpy defines it before 2.0 (the
    file needs such a numpy: it calls [np.complex]): the sign of the real
    part, or of the imaginary part when the real part is zero. *)
Definition sign_real (x : R) : R :=
  match total_order_T 0 x with
  | inleft (left _) => 1
  | inleft (right _) => 0
  | inright _ => -1
  end.
Definition np_sign (z : C) : C :=
  RtoC (if Req_dec_T (Re z) 0 then sign_real (Im z) else sign_real (Re z)).

(** [np.matrix(m).I] is [np.linalg.inv]: LAPACK's [gesv], an LU
    factorisation with partial pivoting, which raises [LinAlgError] when
    a pivot is exactly zero and for no other matrix.

    For a matrix whose determinant is not zero the model returns the
    inverse over the real numbers.  For a singular matrix the last pivot
    is zero over the real numbers, but on doubles it is what rounding
    leaves of it.  That is zero for certain when a row or a column of
    the matrix is zero: the multiplier or the entry it is multiplied
    with is zero, and nothing is rounded.  For another singular matrix,
    [[c, c], [s, s]] say, it is zero or not, and when it is not [inv]
    raises nothing and returns a matrix of huge entries.  What numpy
    does with such a matrix is read from [Lapack]: [None] when [inv]
    raises, the matrix it returns otherwise. *)
Class Lapack : Type := {
  inv_singular : Mat2 R -> option (Mat2 R);
  inv_singular_C : Mat2 C -> option (Mat2 C)
}.

(** A row or a column of the matrix is zero. *)
Definition zero_line {A} (zero : A -> bool) (m : Mat2 A) : bool :=
  (zero (m00 m) && zero (m01 m)) || (zero (m10 m) && zero (m11 m))
  || (zero (m00 m) && zero (m10 m)) || (zero (m01 m) && zero (m11 m)).

Definition is_zero (x : R) : bool := if Req_dec_T x 0 then true else false.
Definition is_zero_C (z : C) : bool := is_zero (Re z) && is_zero (Im z).

(** [np.matrix(m).I] for a real 2x2 matrix *)
Definition det2 (m : Mat2 R) : R := m00 m * m11 m - m01 m * m10 m.
Definition matrix_I `{Lapack} (m : Mat2 R) : result (Mat2 R) :=
  if Req_dec_T (det2 m) 0
  then if zero_line is_zero m then Raise LinAlgError
       else match inv_singular m with
            | None => Raise LinAlgError
            | Some inv => Ok inv
            end
  else Ok (mkMat2 (m11 m / det2 m) (- m01 m / det2 m)
                  (- m10 m / det2 m) (m00 m / det2 m)).

(** [np.dot] of a real 2x2 matrix and a complex one *)
Definition dot_RC (a : Mat2 R) (b : Mat2 C) : Mat2 C :=
  mkMat2 (Cadd (Cscale (m00 a) (m00 b)) (Cscale (m01 a) (m10 b)))
         (Cadd (Cscale (m00 a) (m01 b)) (Cscale (m01 a) (m11 b)))
         (Cadd (Cscale (m10 a) (m00 b)) (Cscale (m11 a) (m10 b)))
         (Cadd (Cscale (m10 a) (m01 b)) (Cscale (m11 a) (m11 b))).

(** The distortion tensor handed to [remove_distortion], with its
    optional error: 2x2 arrays, or arrays of shape (k, 2, 2). *)
Inductive distortion_arg : Type :=
| D2 (d : Mat2 R) (err : option (Mat2 R))
| D3 (d : list (Mat2 R)) (err : option (list (Mat2 R))).

(** ** More of Python and numpy *)

(** A bare [except:] catches whatever is raised. *)
Definition try_except_all {O A} (m : M O A) (h : M O A) : M O A :=
  fun w => match m w with
           | (Raise _, w') => h w'
           | r => r
           end.

(** A list comprehension whose element expression reads the object. *)
Fixpoint for_list {O A B} (l : list A) (f : A -> M O B) : M O (list B) :=
  match l with
  | [] => ret []
  | x :: l' => y <- f x ;; ys <- for_list l' f ;; ret (y :: ys)
  end.

(** [a is b] on two integers that [len] returned.  CPython keeps one
    object for every integer from -5 to 256 and [len] builds a new object
    for a larger one: two lengths are the same object when they are equal
    and at most 256. *)
Definition int_is (a b : nat) : bool := ((a =? b) && (a <=? 256))%nat.

(** [for x in a], [a[...]] and [len(a)] on an attribute that may be
    [None] raise [TypeError] there. *)
Definition iter {A} (a : option (list A)) : result (list A) :=
  match a with
  | None => Raise TypeError
  | Some l => Ok l
  end.

Definition Copp (a : C) : C := mkC (- Re a) (- Im a).

Definition Cdiv (a b : C) : C :=
  let d := Re b * Re b + Im b * Im b in
  mkC ((Re a * Re b + Im a * Im b) / d) ((Im a * Re b - Re a * Im b) / d).

(** [np.sqrt] of a complex number: the principal square root. *)
Definition np_sqrt (w : C) : C :=
  cmath_rect (sqrt (np_abs w)) (cmath_phase w / 2).

(** [np.trace], [np.linalg.det] and [np.linalg.norm] (the Frobenius norm)
    of a complex 2x2 block *)
Definition np_trace (m : Mat2 C) : C := Cadd (m00 m) (m11 m).

Definition np_linalg_det (m : Mat2 C) : C :=
  Cadd (Cmul (m00 m) (m11 m)) (Copp (Cmul (m01 m) (m10 m))).

Definition np_linalg_norm (m : Mat2 C) : R :=
  sqrt (np_abs (m00 m) ^ 2 + np_abs (m01 m) ^ 2
        + np_abs (m10 m) ^ 2 + np_abs (m11 m) ^ 2).

(** [np.linalg.norm(np.imag(a))] for an array of shape (n, 2, 2) or
    (n, 1, 2): the 2-norm of all its entries. *)
Definition norm_imag3 (a : list (Mat2 C)) : R :=
  sqrt (fold_right (fun m acc => Im (m00 m) ^ 2 + Im (m01 m) ^ 2
                                 + Im (m10 m) ^ 2 + Im (m11 m) ^ 2 + acc) 0 a).

Definition norm_imag2 (a : list (Vec2 C)) : R :=
  sqrt (fold_right (fun v acc => Im (v0 v) ^ 2 + Im (v1 v) ^ 2 + acc) 0 a).

(** [np.matrix(m).I] for a complex 2x2 matrix: as [matrix_I], the
    inverse when the determinant is not zero, [LinAlgError] when a row or
    a column is zero, and what [Lapack] says for another singular
    matrix. *)
Definition matrix_I_C `{Lapack} (m : Mat2 C) : result (Mat2 C) :=
  let d := np_linalg_det m in
  match Req_dec_T (Re d) 0, Req_dec_T (Im d) 0 with
  | left _, left _ =>
      if zero_line is_zero_C m then Raise LinAlgError
      else match inv_singular_C m with
           | None => Raise LinAlgError
           | Some inv => Ok inv
           end
  | _, _ => Ok (mkMat2 (Cdiv (m11 m) d) (Cdiv (Copp (m01 m)) d)
                       (Cdiv (Copp (m10 m)) d) (Cdiv (m00 m) d))
  end.

(** [f(a, b)] entry by entry on two one-dimensional arrays: numpy
    stretches an array of one entry and raises [ValueError] when the
    lengths differ otherwise. *)
Definition broadcast2 {A B D} (f : A -> B -> D) (a : list A) (b : list B)
  : result (list D) :=
  if (length a =? length b)%nat
  then Ok (map (fun p => f (fst p) (snd p)) (combine a b))
  else match a, b with
       | [x], _ => Ok (map (f x) b)
       | _, [y] => Ok (map (fun x => f x y) a)
       | _, _ => Raise ValueError
       end.

(** [dst[:] = src] for a one-dimensional [dst] of [n] entries: what [dst]
    holds afterwards. *)
Definition assign_all {A} (n : nat) (src : list A) : result (list A) :=
  if (length src =? n)%nat then Ok src
  else match src with
       | [x] => Ok (repeat x n)
       | _ => Raise ValueError
       end.

(** The arrays that the dictionary of invariants holds, and the
    dictionary, in insertion order. *)
Inductive pyarray : Type :=
| CArray (l : list C)
| RArray (l : list R).

Definition dict : Type := list (string * pyarray).

Fixpoint dict_setitem (d : dict) (k : string) (v : pyarray) : dict :=
  match d with
  | [] => [(k, v)]
  | (k', v') :: d' =>
      if String.eqb k' k then (k, v) :: d'
      else (k', v') :: dict_setitem d' k v
  end.

Fixpoint dict_get (d : dict) (k : string) : option pyarray :=
  match d with
  | [] => None
  | (k', v') :: d' => if String.eqb k' k then Some v' else dict_get d' k
  end.

(** ** [mtpy.utils.calculator]

    The module is imported, it is not part of the file: its functions are
    taken as they come. *)
Class Calculator : Type := {
  z_error2r_phi_error : R -> R -> R -> R -> R * R;
  propagate_error_polar2rect : R -> R -> R -> R -> R * R;
  propagate_error_rect2polar : R -> R -> R -> R -> R * R;
  (* called with an error block, the rotation returns an error block *)
  rotatematrix_incl_errors : Mat2 C -> R -> Mat2 R -> Mat2 C * Mat2 R;
  rotatevector_incl_errors : Vec2 C -> R -> Vec2 R -> Vec2 C * Vec2 R;
  (* called without one, it returns [None] in its place *)
  rotatematrix_no_errors : Mat2 C -> R -> Mat2 C;
  rotatevector_no_errors : Vec2 C -> R -> Vec2 C;
  invertmatrix_incl_errors : Mat2 R -> Mat2 R -> Mat2 R * Mat2 R
}.

(** ** Class [Z] *)

Module ZObj.

Record t : Type := mk {
  _z : option (list (Mat2 C));
  _z_err : option (list (Mat2 R));
  _freq : option (list R);
  rotation_angle : rot;
  _resistivity : option (list (Mat2 R));
  _resistivity_err : option (list (Mat2 R));
  _phase : option (list (Mat2 R));
  _phase_err : option (list (Mat2 R))
}.

Definition set_z v s :=
  mk v (_z_err s) (_freq s) (rotation_angle s)
     (_resistivity s) (_resistivity_err s) (_phase s) (_phase_err s).
Definition set_z_err v s :=
  mk (_z s) v (_freq s) (rotation_angle s)
     (_resistivity s) (_resistivity_err s) (_phase s) (_phase_err s).
Definition set_freq v s :=
  mk (_z s) (_z_err s) v (rotation_angle s)
     (_resistivity s) (_resistivity_err s) (_phase s) (_phase_err s).
Definition set_rotation_angle v s :=
  mk (_z s) (_z_err s) (_freq s) v
     (_resistivity s) (_resistivity_err s) (_phase s) (_phase_err s).
Definition set_resistivity v s :=
  mk (_z s) (_z_err s) (_freq s) (rotation_angle s)
     v (_resistivity_err s) (_phase s) (_phase_err s).
Definition set_resistivity_err v s :=
  mk (_z s) (_z_err s) (_freq s) (rotation_angle s)
     (_resistivity s) v (_phase s) (_phase_err s).
Definition set_phase v s :=
  mk (_z s) (_z_err s) (_freq s) (rotation_angle s)
     (_resistivity s) (_resistivity_err s) v (_phase_err s).
Definition set_phase_err v s :=
  mk (_z s) (_z_err s) (_freq s) (rotation_angle s)
     (_resistivity s) (_resistivity_err s) (_phase s) v.

(** An object before [__init__] has run. *)
Definition blank : t :=
  mk None None None (RotFloat 0) None None None None.

(** [a[idx]], [a[idx, ii, jj]] on an attribute that may be [None] *)
Definition subscript1 {A} (a : option (list A)) (idx : nat) : result A :=
  match a with
  | None => Raise TypeError
  | Some l => item1 l idx
  end.

Definition subscript3 {A} (a : option (list (Mat2 A))) (idx : nat)
  (ii jj : idx2) : result A :=
  match a with
  | None => Raise TypeError
  | Some l => item3 l idx ii jj
  end.

(** [self.<attr>[idx, ii, jj] = v] *)
Definition assign3 (get : t -> option (list (Mat2 R)))
  (set : option (list (Mat2 R)) -> t -> t)
  (idx : nat) (ii jj : idx2) (v : R) : M t unit :=
  s <- getself ;;
  match get s with
  | None => raise TypeError
  | Some a => a' <- lift (setitem3 a idx ii jj v) ;; modify (set (Some a'))
  end.

(** [len(a)] *)
Definition len {A} (a : option (list A)) : result nat :=
  match a with
  | None => Raise TypeError
  | Some l => Ok (length l)
  end.

Section Methods.
Context `{Calculator} `{Lapack}.

(** The properties [freq], [z], [z_err]: [_get_freq] hands out
    [np.array(self._freq)], an array with the same entries. *)
Definition _get_freq : M t (option (list R)) :=
  s <- getself ;;
  match _freq s with
  | None => ret None
  | Some f => ret (Some f)
  end.

Definition _get_z : M t (option (list (Mat2 C))) :=
  s <- getself ;; ret (_z s).

Definition _get_z_err : M t (option (list (Mat2 R))) :=
  s <- getself ;; ret (_z_err s).

(** [self.z[idx_f, ii, jj]], [self.freq[idx_f]], [self.z_err[idx_f, ii, jj]] *)
Definition z_at (idx_f : nat) (ii jj : idx2) : M t C :=
  z <- _get_z ;; lift (subscript3 z idx_f ii jj).
Definition freq_at (idx_f : nat) : M t R :=
  f <- _get_freq ;; lift (subscript1 f idx_f).
Definition z_err_at (idx_f : nat) (ii jj : idx2) : M t R :=
  e <- _get_z_err ;; lift (subscript3 e idx_f ii jj).

(** The body of the three nested loops of [_compute_res_phase]. *)
Definition res_phase_entry (idx_f : nat) (ii jj : idx2) : M t unit :=
  zv <- z_at idx_f ii jj ;;
  fv <- freq_at idx_f ;;
  assign3 _resistivity set_resistivity idx_f ii jj
    (np_abs zv ^ 2 / fv * 0.2) ;;
  zv <- z_at idx_f ii jj ;;
  assign3 _phase set_phase idx_f ii jj (math_degrees (cmath_phase zv)) ;;
  e <- _get_z_err ;;
  match e with
  | None => ret tt
  | Some _ =>
      zr <- z_at idx_f ii jj ;;
      e1 <- z_err_at idx_f ii jj ;;
      zi <- z_at idx_f ii jj ;;
      e2 <- z_err_at idx_f ii jj ;;
      let (r_err, phi_err) := z_error2r_phi_error (Re zr) e1 (Im zi) e2 in
      zv <- z_at idx_f ii jj ;;
      fv <- freq_at idx_f ;;
      assign3 _resistivity_err set_resistivity_err idx_f ii jj
        (0.4 * np_abs zv / fv * r_err) ;;
      assign3 _phase_err set_phase_err idx_f ii jj phi_err
  end.

Definition _compute_res_phase : M t unit :=
  f <- _get_freq ;;
  match f with
  | None => logger INFO "self.freq is None - cannot calculate Res/Phase"%string
  | Some _ =>
      z <- _get_z ;;
      match z with
      | None => logger INFO "Z array is None - cannot calculate Res/Phase"%string
      | Some _ =>
          modify (set_resistivity_err None) ;;
          modify (set_phase_err None) ;;
          e <- _get_z_err ;;
          match e with
          | None => ret tt
          | Some ea =>
              modify (set_resistivity_err (Some (zeros_like3 ea))) ;;
              e' <- _get_z_err ;;
              match e' with
              | None => raise TypeError
              | Some ea' => modify (set_phase_err (Some (zeros_like3 ea')))
              end
          end ;;
          z1 <- _get_z ;;
          match z1 with
          | None => raise TypeError
          | Some za => modify (set_resistivity (Some (zeros_like3 za)))
          end ;;
          z2 <- _get_z ;;
          match z2 with
          | None => raise TypeError
          | Some za => modify (set_phase (Some (zeros_like3 za)))
          end ;;
          z3 <- _get_z ;;
          n <- lift (len z3) ;;
          for_each (range n) (fun idx_f =>
            for_each range2 (fun ii =>
              for_each range2 (fun jj =>
                res_phase_entry idx_f ii jj)))
      end
  end.

Definition __init__ (z_array : option (ndarray C))
  (z_err_array : option (ndarray R)) (freq : option (list R)) : M t unit :=
  modify (set_z match z_array with
                | None => None
                | Some (Single m) => Some [m]
                | Some (Stack l) => Some l
                end) ;;
  modify (set_z_err match z_err_array with
                    | None => None
                    | Some (Single m) => Some [m]
                    | Some (Stack l) => Some l
                    end) ;;
  modify (set_freq freq) ;;
  modify (set_rotation_angle (RotFloat 0)) ;;
  s <- getself ;;
  match _z s with
  | None => ret tt
  | Some za => modify (set_rotation_angle (RotArray (repeat 0 (length za))))
  end ;;
  modify (set_resistivity None) ;;
  modify (set_resistivity_err None) ;;
  modify (set_phase None) ;;
  modify (set_phase_err None) ;;
  s <- getself ;;
  match _z s with
  | None => ret tt
  | Some _ => _compute_res_phase
  end.

(** The recomputation that ends every setter:
    [try: self._compute_res_phase() except IndexError: logger.error(...)] *)
Definition recompute_guarded : M t unit :=
  try_except _compute_res_phase IndexError
    (logger ERROR "Need to input frequency array"%string).

Definition _set_freq (lo_freq : scalar_or_seq) : M t unit :=
  let lo_freq := match lo_freq with Scalar a => [a] | Seq l => l end in
  let store : M t unit :=
    modify (set_freq (Some lo_freq)) ;;
    s <- getself ;;
    match _z s with
    | None => ret tt
    | Some _ => recompute_guarded
    end in
  z <- _get_z ;;
  match z with
  | None => store
  | Some za =>
      if negb (length lo_freq =? length za)%nat
      then logger WARNING "length of freq list/array not correct"%string
      else store
  end.

Definition _set_z (z_array : ndarray C) : M t unit :=
  try_except
    (match z_array with
     | Stack l => modify (set_z (Some l))
     | Single _ => ret tt
     end)
    IndexError
    (try_except
       (match z_array with
        | Single m => modify (set_z (Some [m]))
        | Stack _ => ret tt
        end)
       IndexError
       (logger ERROR
          "provided Z array does not have correct dimensions- Z unchanged"%string)) ;;
  s <- getself ;;
  match rotation_angle s with
  | RotFloat a =>
      n <- lift (len (_z s)) ;;
      modify (set_rotation_angle (RotArray (repeat a n)))
  | RotArray _ => ret tt
  end ;;
  s <- getself ;;
  match _z s with
  | None => ret tt
  | Some _ => recompute_guarded
  end.

Definition _set_z_err (z_err_array : option (list (Mat2 R))) : M t unit :=
  match z_err_array with
  | None => raise AttributeError
  | Some ea =>
      z <- _get_z ;;
      match z with
      | None => raise AttributeError
      | Some za =>
          (if negb (length ea =? length za)%nat
           then logger WARNING "z_err_array shape is not same shape as z"%string
           else ret tt) ;;
          modify (set_z_err (Some ea)) ;;
          s <- getself ;;
          match _z_err s, _z s with
          | Some _, Some _ => recompute_guarded
          | _, _ => ret tt
          end
      end
  end.

(** The bodies of the two loops of [set_res_phase]: they fill the local
    arrays [z_new] and [z_err_new]. *)
Definition set_res_phase_entry (res_array phase_array : list (Mat2 R))
  (idx_f : nat) (ii jj : idx2) (z_new : list (Mat2 C))
  : M t (list (Mat2 C)) :=
  fv <- freq_at idx_f ;;
  rv <- lift (item3 res_array idx_f ii jj) ;;
  let abs_z := sqrt (5 * fv * rv) in
  pv <- lift (item3 phase_array idx_f ii jj) ;;
  lift (setitem3 z_new idx_f ii jj (cmath_rect abs_z (math_radians pv))).

Definition set_res_phase_err_entry
  (res_array phase_array reserr_array phaseerr_array : list (Mat2 R))
  (idx_f : nat) (ii jj : idx2) (z_err_new : list (Mat2 R))
  : M t (list (Mat2 R)) :=
  fv <- freq_at idx_f ;;
  rv <- lift (item3 res_array idx_f ii jj) ;;
  let abs_z := sqrt (5 * fv * rv) in
  rev <- lift (item3 reserr_array idx_f ii jj) ;;
  rv' <- lift (item3 res_array idx_f ii jj) ;;
  let rel_error_res := rev / rv' in
  let abs_z_error := 0.5 * abs_z * rel_error_res in
  pv <- lift (item3 phase_array idx_f ii jj) ;;
  pev <- lift (item3 phaseerr_array idx_f ii jj) ;;
  let (ex, ey) := propagate_error_polar2rect abs_z abs_z_error pv pev in
  lift (setitem3 z_err_new idx_f ii jj (Rmax ex ey)).

(** [set_res_phase]: the arrays handed in are real-valued, so the two
    tests on [np.imag] pass. *)
Definition set_res_phase (res_array phase_array : list (Mat2 R))
  (reserr_array phaseerr_array : option (list (Mat2 R))) : M t unit :=
  let body (z_new : list (Mat2 C)) : M t unit :=
    f <- _get_freq ;;
    match f with
    | None => raise MTpyError_EDI
    | Some fa =>
        if negb (length fa =? length res_array)%nat then raise MTpyError_EDI
        else
          z_new <- fold_each (range (length z_new)) (fun idx_f acc =>
            fold_each range2 (fun ii acc =>
              fold_each range2 (fun jj acc =>
                set_res_phase_entry res_array phase_array idx_f ii jj acc)
                acc) acc)
            z_new ;;
          _set_z (Stack z_new) ;;
          match reserr_array, phaseerr_array with
          | Some re, Some pe =>
              let err_loop (z_err_new : list (Mat2 R)) : M t unit :=
                z_err_new <- fold_each (range (length z_err_new))
                  (fun idx_f acc =>
                    fold_each range2 (fun ii acc =>
                      fold_each range2 (fun jj acc =>
                        set_res_phase_err_entry res_array phase_array re pe
                          idx_f ii jj acc) acc) acc)
                  z_err_new ;;
                _set_z_err (Some z_err_new) ;;
                _compute_res_phase in
              e <- _get_z_err ;;
              match e with
              | Some ea =>
                  if negb (length ea =? length re)%nat
                  then logger ERROR
                         "Error - shape of reserr array does not match"%string
                  else if negb (length ea =? length pe)%nat
                  then logger ERROR
                         "Error - shape of phase array does not match"%string
                  else err_loop ea
              | None =>
                  if negb (length re =? length pe)%nat
                  then logger ERROR
                         "Error - shape of phase array does not match"%string
                  else err_loop (zeros_like3 re)
              end
          | _, _ => ret tt
          end
    end in
  z <- _get_z ;;
  match z with
  | Some za =>
      if negb (length za =? length res_array)%nat
      then logger ERROR "Error - shape of res array does not match"%string
      else if negb (length za =? length phase_array)%nat
      then logger ERROR "Error - shape of phase array does not match"%string
      else body za
  | None =>
      if negb (length res_array =? length phase_array)%nat
      then logger ERROR "Error - shape of phase array does not match"%string
      else body (map (fun _ => mconst C0) res_array)
  end.

(** [lo_angles] of [rotate]: a scalar, or an array of one angle, is spread
    over the [n] blocks; a longer array is taken as it is. *)
Definition lo_angles_of (alpha : scalar_or_seq) (n : nat) : list R :=
  match alpha with
  | Scalar a => repeat (pymod a 360) n
  | Seq l =>
      match l with
      | [a] => repeat (pymod a 360) n
      | _ => map (fun a => pymod a 360) l
      end
  end.

(** [np.array([(oldangle + lo_angles[ii]) % 360
               for ii, oldangle in enumerate(self.rotation_angle)])] *)
Definition accumulate (r : rot) (lo_angles : list R) : result (list R) :=
  match r with
  | RotFloat _ => Raise TypeError
  | RotArray old =>
      map_result (fun p : nat * R =>
                    let (ii, oldangle) := p in
                    match item1 lo_angles ii with
                    | Ok a => Ok (pymod (oldangle + a) 360)
                    | Raise e => Raise e
                    end)
                 (enumerate old)
  end.

(** The body of the loop of [rotate], on the local arrays [z_rot] and
    [z_err_rot]. *)
Definition rotate_block (lo_angles : list R) (idx_freq : nat)
  (acc : list (Mat2 C) * option (list (Mat2 R)))
  : M t (list (Mat2 C) * option (list (Mat2 R))) :=
  let (z_rot, z_err_rot) := acc in
  angle <- lift (item1 lo_angles idx_freq) ;;
  let angle := if np_isnan angle then 0 else angle in
  e <- _get_z_err ;;
  z1 <- _get_z ;;
  zblk <- lift (match z1 with
                | Some a => block a idx_freq
                | None => Raise TypeError
                end) ;;
  match e with
  | Some ea =>
      eblk <- lift (block ea idx_freq) ;;
      let (zr, er) := rotatematrix_incl_errors zblk angle eblk in
      z_rot' <- lift (setblock z_rot idx_freq zr) ;;
      match z_err_rot with
      | None => raise TypeError
      | Some era =>
          era' <- lift (setblock era idx_freq er) ;;
          ret (z_rot', Some era')
      end
  | None =>
      let zr := rotatematrix_no_errors zblk angle in
      z_rot' <- lift (setblock z_rot idx_freq zr) ;;
      ret (z_rot', None)
  end.

Definition rotate (alpha : scalar_or_seq) : M t unit :=
  z <- _get_z ;;
  match z with
  | None => logger WARNING "Z array is None - I cannot rotate that"%string
  | Some za =>
      let lo_angles := lo_angles_of alpha (length za) in
      s <- getself ;;
      new_angle <- lift (accumulate (rotation_angle s) lo_angles) ;;
      modify (set_rotation_angle (RotArray new_angle)) ;;
      z <- _get_z ;;
      n <- lift (len z) ;;
      if negb (length lo_angles =? n)%nat
      then logger WARNING "Wrong number of angles"%string
      else
        s <- getself ;;
        z_rot0 <- lift (match _z s with
                        | Some a => Ok a
                        | None => Raise TypeError
                        end) ;;
        rot <- fold_each (range n) (rotate_block lo_angles)
                 (z_rot0, _z_err s) ;;
        _set_z (Stack (fst rot)) ;;
        e <- _get_z_err ;;
        match e with
        | Some _ => _set_z_err (snd rot)
        | None => ret tt
        end ;;
        _compute_res_phase
  end.

(** [lo_x_factors] of [remove_ss].  In the branch of an array of several
    factors the source reads the local [x_factor], which no statement on
    that path has assigned. *)
Definition lo_factors (reduce_res_factor : scalar_or_seq) : M t (list R) :=
  match reduce_res_factor with
  | Scalar a =>
      z <- _get_z ;; n <- lift (len z) ;; ret (repeat a n)
  | Seq l =>
      match l with
      | [a] => z <- _get_z ;; n <- lift (len z) ;; ret (repeat a n)
      | _ => raise UnboundLocalError
      end
  end.

(** The body of the loop of [remove_ss], on the local arrays
    [z_corrected] and [static_shift]. *)
Definition remove_ss_block (lo_x_factors lo_y_factors : list R) (idx_f : nat)
  (acc : list (Mat2 C) * list (Mat2 R))
  : M t (list (Mat2 C) * list (Mat2 R)) :=
  let (z_corrected, static_shift) := acc in
  (* z_corrected[idx_f, 0, :] = self.z[idx_f, 0, :] / sqrt(fx) *)
  z01 <- z_at idx_f i0 i0 ;;
  z02 <- z_at idx_f i0 i1 ;;
  fx <- lift (item1 lo_x_factors idx_f) ;;
  zc <- lift (setitem3 z_corrected idx_f i0 i0 (Cdivr z01 (sqrt fx))) ;;
  zc <- lift (setitem3 zc idx_f i0 i1 (Cdivr z02 (sqrt fx))) ;;
  (* z_corrected[idx_f, 1, :] = self.z[idx_f, 1, :] / sqrt(fy) *)
  z11 <- z_at idx_f i1 i0 ;;
  z12 <- z_at idx_f i1 i1 ;;
  fy <- lift (item1 lo_y_factors idx_f) ;;
  zc <- lift (setitem3 zc idx_f i1 i0 (Cdivr z11 (sqrt fy))) ;;
  zc <- lift (setitem3 zc idx_f i1 i1 (Cdivr z12 (sqrt fy))) ;;
  fx <- lift (item1 lo_x_factors idx_f) ;;
  ss <- lift (setitem3 static_shift idx_f i0 i0 (sqrt fx)) ;;
  fy <- lift (item1 lo_y_factors idx_f) ;;
  ss <- lift (setitem3 ss idx_f i1 i1 (sqrt fy)) ;;
  ret (zc, ss).

Definition remove_ss (reduce_res_factor_x reduce_res_factor_y : scalar_or_seq)
  : M t (option (list (Mat2 R) * list (Mat2 C))) :=
  lo_x_factors <- lo_factors reduce_res_factor_x ;;
  z <- _get_z ;;
  n <- lift (len z) ;;
  if negb (length lo_x_factors =? n)%nat
  then logger ERROR "Wrong number Number of reduce_res_factor_x"%string ;;
       ret None
  else
    lo_y_factors <- lo_factors reduce_res_factor_y ;;
    z <- _get_z ;;
    n <- lift (len z) ;;
    if negb (length lo_y_factors =? n)%nat
    then logger ERROR "Wrong number Number of reduce_res_factor_y"%string ;;
         ret None
    else
      z <- _get_z ;;
      n <- lift (len z) ;;
      z0 <- lift (match z with Some a => Ok a | None => Raise TypeError end) ;;
      r <- fold_each (range n) (remove_ss_block lo_x_factors lo_y_factors)
             (z0, repeat (mconst 0) n) ;;
      ret (Some (snd r, fst r)).

(** The body of the loop of [remove_distortion], on the local arrays
    [z_corrected] and [z_corrected_err]. *)
Definition remove_distortion_block (DI DI_err : Mat2 R) (idx_f : nat)
  (acc : list (Mat2 C) * option (list (Mat2 R)))
  : M t (list (Mat2 C) * option (list (Mat2 R))) :=
  let (z_corrected, z_corrected_err) := acc in
  z1 <- _get_z ;;
  zblk <- lift (match z1 with
                | Some a => block a idx_f
                | None => Raise TypeError
                end) ;;
  zc <- lift (setblock z_corrected idx_f (dot_RC DI zblk)) ;;
  zce <- fold_each range2 (fun ii acc =>
    fold_each range2 (fun jj acc =>
      za <- z_at idx_f i0 jj ;;
      ea <- z_err_at idx_f i0 jj ;;
      zb <- z_at idx_f i1 jj ;;
      eb <- z_err_at idx_f i1 jj ;;
      let v := np_abs (Cscale (mget DI_err ii i0) za)
               + np_abs (RtoC (mget DI ii i0 * ea))
               + np_abs (Cscale (mget DI_err ii i1) zb)
               + np_abs (RtoC (mget DI ii i1 * eb)) in
      match acc with
      | None => raise IndexError
      | Some a => a' <- lift (setitem3 a idx_f ii jj v) ;; ret (Some a')
      end) acc) z_corrected_err ;;
  ret (zc, zce).

(** [remove_distortion].  The corrected error starts as
    [np.zeros_like(self.z_err)]: with no tensor error that is not an array
    of blocks, which [None] stands for here. *)
Definition remove_distortion (distortion : distortion_arg)
  : M t (Mat2 R * list (Mat2 C) * option (list (Mat2 R))) :=
  d <- try_except
         (match distortion with
          | D2 dt de =>
              ret (dt, match de with Some e => e | None => mconst 0 end)
          | D3 dl del =>
              let del := match del with
                         | Some e => e
                         | None => zeros_like3 dl
                         end in
              logger INFO
                "Distortion is not time-dependent - take only first"%string ;;
              try_except
                (dt <- lift (block dl 0) ;;
                 de <- lift (block del 0) ;;
                 ret (dt, de))
                IndexError
                (raise ValueError)
          end)
         ValueError
         (raise MTpyError_Z) ;;
  let (distortion_tensor, distortion_err_tensor) := d in
  DI <- try_except (lift (matrix_I distortion_tensor)) LinAlgError
          (raise MTpyError_Z) ;;
  let (dummy, DI_err) :=
    invertmatrix_incl_errors distortion_tensor distortion_err_tensor in
  z <- _get_z ;;
  e <- _get_z_err ;;
  let z_corrected := match z with
                     | Some za => map (fun _ => mconst C0) za
                     | None => []
                     end in
  let z_corrected_err := match e with
                         | Some ea => Some (zeros_like3 ea)
                         | None => None
                         end in
  z <- _get_z ;;
  n <- lift (len z) ;;
  r <- fold_each (range n) (remove_distortion_block DI DI_err)
         (z_corrected, z_corrected_err) ;;
  ret (distortion_tensor, fst r, snd r).

(** [only1d] and [only2d] work on [copy.copy(self.z)]. *)
Definition _get_only1d : M t (list (Mat2 C)) :=
  s <- getself ;;
  let z1d := _z s in
  n <- lift (len z1d) ;;
  z1d <- lift (match z1d with Some a => Ok a | None => Raise TypeError end) ;;
  fold_each (range n) (fun ii z1d =>
    z1d <- lift (setitem3 z1d ii i0 i0 C0) ;;
    z1d <- lift (setitem3 z1d ii i1 i1 C0) ;;
    z01 <- lift (item3 z1d ii i0 i1) ;;
    let sign01 := np_sign z01 in
    z10 <- lift (item3 z1d ii i1 i0) ;;
    let sign10 := np_sign z10 in
    a <- lift (item3 z1d ii i1 i0) ;;
    b <- lift (item3 z1d ii i0 i1) ;;
    let mean1d := Cscale 0.5 (Cadd a b) in
    z1d <- lift (setitem3 z1d ii i0 i1 (Cmul sign01 mean1d)) ;;
    lift (setitem3 z1d ii i1 i0 (Cmul sign10 mean1d))) z1d.

Definition _get_only2d : M t (list (Mat2 C)) :=
  s <- getself ;;
  let z2d := _z s in
  n <- lift (len z2d) ;;
  z2d <- lift (match z2d with Some a => Ok a | None => Raise TypeError end) ;;
  fold_each (range n) (fun ii z2d =>
    z2d <- lift (setitem3 z2d ii i0 i0 C0) ;;
    lift (setitem3 z2d ii i1 i1 C0)) z2d.

(** [_get_real] and [_get_imag] *)
Definition _get_real : M t (option (list (Mat2 R))) :=
  z <- _get_z ;;
  match z with
  | None =>
      logger WARNING "z array is None - cannot calculate real"%string ;;
      ret None
  | Some _ => z' <- _get_z ;; ret (option_map (map (mmap Re)) z')
  end.

Definition _get_imag : M t (option (list (Mat2 R))) :=
  z <- _get_z ;;
  match z with
  | None =>
      logger ERROR "z array is None - cannot calculate imag"%string ;;
      ret None
  | Some _ => z' <- _get_z ;; ret (option_map (map (mmap Im)) z')
  end.

(** [_set_real] and [_set_imag], handed an array of shape (n, 2, 2).
    With a tensor held they go on to [self.imag()] and [self.real()]:
    the class has no attribute of these names (the properties [real] and
    [imag] are commented out), so the lookup raises [AttributeError]. *)
Definition _set_real (real_array : list (Mat2 C)) : M t unit :=
  z <- _get_z ;;
  mismatch <- match z with
              | None => ret false
              | Some _ =>
                  z' <- _get_z ;;
                  n <- lift (len z') ;;
                  ret (negb (n =? length real_array)%nat)
              end ;;
  if (mismatch : bool)
  then logger ERROR "shape of real array does not match shape of Z array"%string
  else
    if Req_dec_T (norm_imag3 real_array) 0
    then
      let ii_arr := mkC 0 1 in
      z <- _get_z ;;
      z_new <- match z with
               | Some _ => raise AttributeError
               | None => ret real_array
               end ;;
      _set_z (Stack z_new) ;;
      _compute_res_phase
    else logger ERROR "Error - array real is not real valued !"%string.

Definition _set_imag (imag_array : list (Mat2 C)) : M t unit :=
  z <- _get_z ;;
  mismatch <- match z with
              | None => ret false
              | Some _ =>
                  z' <- _get_z ;;
                  n <- lift (len z') ;;
                  ret (negb (n =? length imag_array)%nat)
              end ;;
  if (mismatch : bool)
  then logger ERROR
         "Error - shape of imag array does not match shape of Z array"%string
  else
    if Req_dec_T (norm_imag3 imag_array) 0
    then
      let i_arr := mkC 0 1 in
      z <- _get_z ;;
      z_new <- match z with
               | Some _ => raise AttributeError
               | None => ret (map (mmap (Cmul i_arr)) imag_array)
               end ;;
      _set_z (Stack z_new) ;;
      _compute_res_phase
    else logger ERROR "Error - array imag is not real valued !"%string.

(** The setters of the derived arrays only log. *)
Definition _set_resistivity : M t unit :=
  logger INFO "cannot be set individually - use method 'set_res_phase'!"%string.
Definition _set_resistivity_err : M t unit :=
  logger INFO "cannot be set individually - use method 'set_res_phase'!"%string.
Definition _set_phase : M t unit :=
  logger INFO "cannot be set individually - use method 'set_res_phase'!"%string.
Definition _set_phase_err : M t unit :=
  logger INFO "cannot be set individually - use method 'set_res_phase'!"%string.

(** [_get_inverse].  Without a tensor the method calls [logger.war]: a
    logger has no method of that name and the lookup raises
    [AttributeError]. *)
Definition inverse_block (idx_f : nat) (inverse : list (Mat2 C))
  : M t (list (Mat2 C)) :=
  try_except_all
    (z <- _get_z ;;
     zblk <- lift (match z with
                   | Some a => block a idx_f
                   | None => Raise TypeError
                   end) ;;
     inv <- lift (matrix_I_C zblk) ;;
     lift (setblock inverse idx_f inv))
    (raise MTpyError_Z).

Definition _get_inverse : M t (option (list (Mat2 C))) :=
  z <- _get_z ;;
  match z with
  | None => @raise t unit AttributeError ;; ret None
  | Some _ =>
      s <- getself ;;
      inverse <- lift (iter (_z s)) ;;
      inverse <- fold_each (range (length inverse)) inverse_block inverse ;;
      ret (Some inverse)
  end.

(** [_get_trace], [_get_skew] and [_get_det]: the value for every block
    and, when the tensor has errors, an error array of the same dtype
    (complex) written by a slice assignment. *)
Definition _get_trace : M t (list C * option (list C)) :=
  z <- _get_z ;;
  za <- lift (iter z) ;;
  let tr := map np_trace za in
  e <- _get_z_err ;;
  match e with
  | None => ret (tr, None)
  | Some _ =>
      e1 <- _get_z_err ;;
      ea <- lift (iter e1) ;;
      tr_err <- lift (assign_all (length tr)
                        (map (fun m => RtoC (m00 m + m11 m)) ea)) ;;
      ret (tr, Some tr_err)
  end.

Definition _get_skew : M t (list C * option (list C)) :=
  z <- _get_z ;;
  za <- lift (iter z) ;;
  let skew := map (fun ii => Cadd (m01 ii) (Copp (m10 ii))) za in
  e <- _get_z_err ;;
  match e with
  | None => ret (skew, None)
  | Some _ =>
      e1 <- _get_z_err ;;
      ea <- lift (iter e1) ;;
      skewerr <- lift (assign_all (length skew)
                         (map (fun m => RtoC (m01 m + m10 m)) ea)) ;;
      ret (skew, Some skewerr)
  end.

Definition _get_det : M t (list C * option (list C)) :=
  z <- _get_z ;;
  za <- lift (iter z) ;;
  let det_Z := map np_linalg_det za in
  e <- _get_z_err ;;
  match e with
  | None => ret (det_Z, None)
  | Some _ =>
      z1 <- _get_z ;;
      za1 <- lift (iter z1) ;;
      e1 <- _get_z_err ;;
      ea <- lift (iter e1) ;;
      let times (zc : C) (ev : R) : R := np_abs (Cscale ev zc) in
      t1 <- lift (broadcast2 times (map m11 za1) (map m00 ea)) ;;
      t2 <- lift (broadcast2 times (map m00 za1) (map m11 ea)) ;;
      t12 <- lift (broadcast2 Rplus t1 t2) ;;
      t3 <- lift (broadcast2 times (map m01 za1) (map m10 ea)) ;;
      t123 <- lift (broadcast2 Rplus t12 t3) ;;
      t4 <- lift (broadcast2 times (map m10 za1) (map m01 ea)) ;;
      t1234 <- lift (broadcast2 Rplus t123 t4) ;;
      det_Z_err <- lift (assign_all (length det_Z) (map RtoC t1234)) ;;
      ret (det_Z, Some det_Z_err)
  end.

(** [_get_norm]: the error of the norm of a block is
    [1. / norm * sqrt(radicand)], a float division. *)
Definition norm_radicand (error_matrix : Mat2 R) (z_tmp : Mat2 C) : R :=
  fold_left (fun radicand ii =>
    fold_left (fun radicand jj =>
      radicand + (mget error_matrix ii jj * Re (mget z_tmp ii jj)) ^ 2
               + (mget error_matrix ii jj * Im (mget z_tmp ii jj)) ^ 2)
      range2 radicand)
    range2 0.

Definition norm_err_block (znorm : list R) (p : nat * Mat2 C)
  (znormerr : list R) : M t (list R) :=
  let (idx, z_tmp) := p in
  value <- lift (item1 znorm idx) ;;
  e <- _get_z_err ;;
  error_matrix <- lift (match e with
                        | Some ea => block ea idx
                        | None => Raise TypeError
                        end) ;;
  let radicand := norm_radicand error_matrix z_tmp in
  lift (setblock znormerr idx (1 / value * sqrt radicand)).

Definition _get_norm : M t (list R * option (list R)) :=
  z <- _get_z ;;
  za <- lift (iter z) ;;
  let znorm := map np_linalg_norm za in
  e <- _get_z_err ;;
  match e with
  | None => ret (znorm, None)
  | Some _ =>
      z1 <- _get_z ;;
      za1 <- lift (iter z1) ;;
      znormerr <- fold_each (enumerate za1) (norm_err_block znorm)
                    (repeat 0 (length znorm)) ;;
      ret (znorm, Some znormerr)
  end.

(** [_get_invariants]: every use of [self.det], [self.trace],
    [self.skew] and [self.norm] runs the getter again. *)
Definition det_at (ii : nat) : M t C :=
  d <- _get_det ;; lift (item1 (fst d) ii).
Definition norm_at (ii : nat) : M t R :=
  n <- _get_norm ;; lift (item1 (fst n) ii).

Definition _get_invariants : M t dict :=
  let invariants_dict : dict := [] in
  z <- _get_z ;;
  za <- lift (iter z) ;;
  let z1 := map (fun m => Cdivr (Cadd (m01 m) (Copp (m10 m))) 2) za in
  let invariants_dict := dict_setitem invariants_dict "z1"%string (CArray z1) in
  d <- _get_det ;;
  let invariants_dict := dict_setitem invariants_dict "det"%string (CArray (fst d)) in
  z <- _get_z ;;
  za <- lift (iter z) ;;
  let det_real := map (fun ii => det2 (mmap Re ii)) za in
  let invariants_dict :=
    dict_setitem invariants_dict "det_real"%string (RArray det_real) in
  z <- _get_z ;;
  za <- lift (iter z) ;;
  let det_imag := map (fun ii => det2 (mmap Im ii)) za in
  let invariants_dict :=
    dict_setitem invariants_dict "det_imag"%string (RArray det_imag) in
  tr <- _get_trace ;;
  let invariants_dict :=
    dict_setitem invariants_dict "trace"%string (CArray (fst tr)) in
  sk <- _get_skew ;;
  let invariants_dict :=
    dict_setitem invariants_dict "skew"%string (CArray (fst sk)) in
  nm <- _get_norm ;;
  let invariants_dict :=
    dict_setitem invariants_dict "norm"%string (RArray (fst nm)) in
  lambda_plus <- for_list (range (length z1)) (fun ii =>
    a <- lift (item1 z1 ii) ;;
    b <- lift (item1 z1 ii) ;;
    c <- lift (item1 z1 ii) ;;
    dv <- det_at ii ;;
    ret (Cadd a (np_sqrt (Cadd (Cmul b c) (Copp dv))))) ;;
  let invariants_dict :=
    dict_setitem invariants_dict "lambda_plus"%string (CArray lambda_plus) in
  lambda_minus <- for_list (range (length z1)) (fun ii =>
    a <- lift (item1 z1 ii) ;;
    b <- lift (item1 z1 ii) ;;
    c <- lift (item1 z1 ii) ;;
    dv <- det_at ii ;;
    ret (Cadd a (Copp (np_sqrt (Cadd (Cmul b c) (Copp dv)))))) ;;
  let invariants_dict :=
    dict_setitem invariants_dict "lambda_minus"%string (CArray lambda_minus) in
  nm <- _get_norm ;;
  sigma_plus <- for_list (range (length (fst nm))) (fun ii =>
    n1 <- norm_at ii ;;
    n2 <- norm_at ii ;;
    dv <- det_at ii ;;
    ret (0.5 * n1 ^ 2 + sqrt (0.25 * n2 ^ 4 + np_abs dv ^ 2))) ;;
  let invariants_dict :=
    dict_setitem invariants_dict "sigma_plus"%string (RArray sigma_plus) in
  nm <- _get_norm ;;
  sigma_minus <- for_list (range (length (fst nm))) (fun ii =>
    n1 <- norm_at ii ;;
    n2 <- norm_at ii ;;
    dv <- det_at ii ;;
    ret (0.5 * n1 ^ 2 - sqrt (0.25 * n2 ^ 4 + np_abs dv ^ 2))) ;;
  let invariants_dict :=
    dict_setitem invariants_dict "sigma_minus"%string (RArray sigma_minus) in
  ret invariants_dict.

End Methods.
End ZObj.

(** ** Class [Tipper] *)

Module TipperObj.

Record t : Type := mk {
  _tipper : option (list (Vec2 C));
  _tipper_err : option (list (Vec2 R));
  _freq : option (list R);
  rotation_angle : rot;
  amplitude : option (list (Vec2 R));
  amplitude_err : option (list (Vec2 R));
  _phase : option (list (Vec2 R));
  _phase_err : option (list (Vec2 R));
  mag_real : option (list R);
  mag_imag : option (list R);
  angle_real : option (list R);
  angle_imag : option (list R);
  mag_err : option (list R);
  angle_err : option (list R)
}.

Definition set_tipper v s :=
  mk v (_tipper_err s) (_freq s) (rotation_angle s) (amplitude s)
     (amplitude_err s) (_phase s) (_phase_err s) (mag_real s) (mag_imag s)
     (angle_real s) (angle_imag s) (mag_err s) (angle_err s).
Definition set_tipper_err v s :=
  mk (_tipper s) v (_freq s) (rotation_angle s) (amplitude s)
     (amplitude_err s) (_phase s) (_phase_err s) (mag_real s) (mag_imag s)
     (angle_real s) (angle_imag s) (mag_err s) (angle_err s).
Definition set_freq v s :=
  mk (_tipper s) (_tipper_err s) v (rotation_angle s) (amplitude s)
     (amplitude_err s) (_phase s) (_phase_err s) (mag_real s) (mag_imag s)
     (angle_real s) (angle_imag s) (mag_err s) (angle_err s).
Definition set_rotation_angle v s :=
  mk (_tipper s) (_tipper_err s) (_freq s) v (amplitude s)
     (amplitude_err s) (_phase s) (_phase_err s) (mag_real s) (mag_imag s)
     (angle_real s) (angle_imag s) (mag_err s) (angle_err s).
Definition set_amplitude v s :=
  mk (_tipper s) (_tipper_err s) (_freq s) (rotation_angle s) v
     (amplitude_err s) (_phase s) (_phase_err s) (mag_real s) (mag_imag s)
     (angle_real s) (angle_imag s) (mag_err s) (angle_err s).
Definition set_amplitude_err v s :=
  mk (_tipper s) (_tipper_err s) (_freq s) (rotation_angle s) (amplitude s)
     v (_phase s) (_phase_err s) (mag_real s) (mag_imag s)
     (angle_real s) (angle_imag s) (mag_err s) (angle_err s).
Definition set_phase v s :=
  mk (_tipper s) (_tipper_err s) (_freq s) (rotation_angle s) (amplitude s)
     (amplitude_err s) v (_phase_err s) (mag_real s) (mag_imag s)
     (angle_real s) (angle_imag s) (mag_err s) (angle_err s).
Definition set_phase_err v s :=
  mk (_tipper s) (_tipper_err s) (_freq s) (rotation_angle s) (amplitude s)
     (amplitude_err s) (_phase s) v (mag_real s) (mag_imag s)
     (angle_real s) (angle_imag s) (mag_err s) (angle_err s).
Definition set_mag_real v s :=
  mk (_tipper s) (_tipper_err s) (_freq s) (rotation_angle s) (amplitude s)
     (amplitude_err s) (_phase s) (_phase_err s) v (mag_imag s)
     (angle_real s) (angle_imag s) (mag_err s) (angle_err s).
Definition set_mag_imag v s :=
  mk (_tipper s) (_tipper_err s) (_freq s) (rotation_angle s) (amplitude s)
     (amplitude_err s) (_phase s) (_phase_err s) (mag_real s) v
     (angle_real s) (angle_imag s) (mag_err s) (angle_err s).
Definition set_angle_real v s :=
  mk (_tipper s) (_tipper_err s) (_freq s) (rotation_angle s) (amplitude s)
     (amplitude_err s) (_phase s) (_phase_err s) (mag_real s) (mag_imag s)
     v (angle_imag s) (mag_err s) (angle_err s).
Definition set_angle_imag v s :=
  mk (_tipper s) (_tipper_err s) (_freq s) (rotation_angle s) (amplitude s)
     (amplitude_err s) (_phase s) (_phase_err s) (mag_real s) (mag_imag s)
     (angle_real s) v (mag_err s) (angle_err s).
Definition set_mag_err v s :=
  mk (_tipper s) (_tipper_err s) (_freq s) (rotation_angle s) (amplitude s)
     (amplitude_err s) (_phase s) (_phase_err s) (mag_real s) (mag_imag s)
     (angle_real s) (angle_imag s) v (angle_err s).
Definition set_angle_err v s :=
  mk (_tipper s) (_tipper_err s) (_freq s) (rotation_angle s) (amplitude s)
     (amplitude_err s) (_phase s) (_phase_err s) (mag_real s) (mag_imag s)
     (angle_real s) (angle_imag s) (mag_err s) v.

(** An object before [__init__] has run. *)
Definition blank : t :=
  mk None None None (RotFloat 0) None None None None
     None None None None None None.

Definition subscript2 {A} (a : option (list (Vec2 A))) (idx : nat) (jj : idx2)
  : result A :=
  match a with
  | None => Raise TypeError
  | Some l => item2 l idx jj
  end.

(** [self.<attr>[idx, 0, jj] = v] *)
Definition assign2 (get : t -> option (list (Vec2 R)))
  (set : option (list (Vec2 R)) -> t -> t)
  (idx : nat) (jj : idx2) (v : R) : M t unit :=
  s <- getself ;;
  match get s with
  | None => raise TypeError
  | Some a => a' <- lift (setitem2 a idx jj v) ;; modify (set (Some a'))
  end.

Section Methods.
Context `{Calculator}.

Definition __init__ (tipper_array : option (list (Vec2 C)))
  (tipper_err_array : option (list (Vec2 R))) (freq : option (list R))
  : M t unit :=
  modify (set_tipper tipper_array) ;;
  modify (set_tipper_err tipper_err_array) ;;
  modify (set_freq freq) ;;
  modify (set_rotation_angle (RotFloat 0)) ;;
  s <- getself ;;
  match _tipper s with
  | None => ret tt
  | Some ta => modify (set_rotation_angle (RotArray (repeat 0 (length ta))))
  end ;;
  modify (set_amplitude None) ;;
  modify (set_amplitude_err None) ;;
  modify (set_phase None) ;;
  modify (set_phase_err None) ;;
  modify (set_mag_real None) ;;
  modify (set_mag_imag None) ;;
  modify (set_angle_real None) ;;
  modify (set_angle_imag None) ;;
  modify (set_mag_err None) ;;
  modify (set_angle_err None).

Definition _get_tipper : M t (option (list (Vec2 C))) :=
  s <- getself ;; ret (_tipper s).
Definition _get_tipper_err : M t (option (list (Vec2 R))) :=
  s <- getself ;; ret (_tipper_err s).

Definition tipper_at (idx_f : nat) (jj : idx2) : M t C :=
  a <- _get_tipper ;; lift (subscript2 a idx_f jj).
Definition tipper_err_at (idx_f : nat) (jj : idx2) : M t R :=
  a <- _get_tipper_err ;; lift (subscript2 a idx_f jj).

Definition _compute_amp_phase : M t unit :=
  a <- _get_tipper ;;
  match a with
  | None => ret tt
  | Some _ =>
      modify (set_amplitude_err None) ;;
      modify (set_phase_err None) ;;
      e <- _get_tipper_err ;;
      match e with
      | None => ret tt
      | Some ea =>
          modify (set_amplitude_err (Some (zeros_like2 ea))) ;;
          modify (set_phase_err (Some (zeros_like2 ea)))
      end ;;
      a <- _get_tipper ;;
      match a with
      | None => raise AttributeError
      | Some ta =>
          modify (set_amplitude (Some (zeros_like2 ta))) ;;
          modify (set_phase (Some (zeros_like2 ta))) ;;
          for_each (range (length ta)) (fun idx_f =>
            for_each range2 (fun jj =>
              tv <- tipper_at idx_f jj ;;
              assign2 amplitude set_amplitude idx_f jj (np_abs tv) ;;
              tv <- tipper_at idx_f jj ;;
              assign2 _phase set_phase idx_f jj
                (math_degrees (cmath_phase tv)) ;;
              e <- _get_tipper_err ;;
              match e with
              | None => ret tt
              | Some _ =>
                  tr <- tipper_at idx_f jj ;;
                  e1 <- tipper_err_at idx_f jj ;;
                  ti <- tipper_at idx_f jj ;;
                  e2 <- tipper_err_at idx_f jj ;;
                  let (r_err, phi_err) :=
                    propagate_error_rect2polar (Re tr) e1 (Im ti) e2 in
                  assign2 amplitude_err set_amplitude_err idx_f jj r_err ;;
                  assign2 _phase_err set_phase_err idx_f jj phi_err
              end))
      end
  end.

Definition _compute_mag_direction : M t unit :=
  a <- _get_tipper ;;
  match a with
  | None => ret tt
  | Some ta =>
      modify (set_mag_real
        (Some (map (fun v => sqrt (Re (v0 v) ^ 2 + Re (v1 v) ^ 2)) ta))) ;;
      modify (set_mag_imag
        (Some (map (fun v => sqrt (Im (v0 v) ^ 2 + Im (v1 v) ^ 2)) ta))) ;;
      modify (set_mag_err None) ;;
      modify (set_angle_err None) ;;
      modify (set_angle_real
        (Some (map (fun v => math_degrees (np_arctan2_neg (Re (v1 v)) (Re (v0 v))))
                   ta))) ;;
      modify (set_angle_imag
        (Some (map (fun v => math_degrees (np_arctan2_neg (Im (v1 v)) (Im (v0 v))))
                   ta))) ;;
      e <- _get_tipper_err ;;
      match e with
      | None => ret tt
      | Some ea =>
          modify (set_mag_err
            (Some (map (fun v => sqrt (v0 v ^ 2 + v1 v ^ 2)) ea))) ;;
          modify (set_angle_err
            (Some (map (fun v => pymod (math_degrees (atan2 (v0 v) (v1 v))) 45)
                       ea)))
      end
  end.

Definition _set_tipper (tipper_array : list (Vec2 C)) : M t unit :=
  modify (set_tipper (Some tipper_array)) ;;
  s <- getself ;;
  match _tipper s with
  | Some ta =>
      if negb (length ta =? length tipper_array)%nat
      then logger ERROR
             "Error - shape of tipper array does not match shape of tipper-array"%string
      else
        modify (set_tipper (Some tipper_array)) ;;
        _compute_mag_direction ;;
        _compute_amp_phase
  | None =>
      modify (set_tipper (Some tipper_array)) ;;
      _compute_mag_direction ;;
      _compute_amp_phase
  end.

Definition _set_tipper_err (tipper_err_array : option (list (Vec2 R)))
  : M t unit :=
  match tipper_err_array with
  | None => raise AttributeError
  | Some ea =>
      modify (set_tipper_err (Some ea)) ;;
      s <- getself ;;
      match _tipper s, _tipper_err s with
      | Some ta, Some ea' =>
          if negb (length ta =? length ea')%nat
          then modify (set_tipper_err None)
          else ret tt
      | _, _ => ret tt
      end ;;
      s <- getself ;;
      let store : M t unit :=
        modify (set_tipper_err (Some ea)) ;;
        _compute_mag_direction ;;
        _compute_amp_phase in
      match _tipper_err s with
      | Some ea' =>
          if negb (length ea' =? length ea)%nat
          then logger ERROR
                 "Error - shape of tipper_err array does not match"%string
          else store
      | None => store
      end
  end.

(** The body of the loop of [rotate], on the local arrays [tipper_rot]
    and [tipper_err_rot]. *)
Definition rotate_block (lo_angles : list R) (idx_freq : nat)
  (acc : list (Vec2 C) * option (list (Vec2 R)))
  : M t (list (Vec2 C) * option (list (Vec2 R))) :=
  let (tipper_rot, tipper_err_rot) := acc in
  angle <- lift (item1 lo_angles idx_freq) ;;
  e <- _get_tipper_err ;;
  a1 <- _get_tipper ;;
  tblk <- lift (match a1 with
                | Some a => block a idx_freq
                | None => Raise TypeError
                end) ;;
  match e with
  | Some ea =>
      eblk <- lift (block ea idx_freq) ;;
      let (tr, er) := rotatevector_incl_errors tblk angle eblk in
      tipper_rot' <- lift (setblock tipper_rot idx_freq tr) ;;
      match tipper_err_rot with
      | None => raise TypeError
      | Some era =>
          era' <- lift (setblock era idx_freq er) ;;
          ret (tipper_rot', Some era')
      end
  | None =>
      let tr := rotatevector_no_errors tblk angle in
      tipper_rot' <- lift (setblock tipper_rot idx_freq tr) ;;
      ret (tipper_rot', None)
  end.

Definition rotate (alpha : scalar_or_seq) : M t unit :=
  a <- _get_tipper ;;
  match a with
  | None => logger ERROR "tipper array is None - I cannot rotate that"%string
  | Some ta =>
      let lo_angles := ZObj.lo_angles_of alpha (length ta) in
      s <- getself ;;
      new_angle <- lift (ZObj.accumulate (rotation_angle s) lo_angles) ;;
      modify (set_rotation_angle (RotArray new_angle)) ;;
      a <- _get_tipper ;;
      n <- lift (ZObj.len a) ;;
      if negb (length lo_angles =? n)%nat
      then logger ERROR "Wrong number Number of angles"%string ;;
           modify (set_rotation_angle (RotFloat 0))
      else
        s <- getself ;;
        tipper_rot0 <- lift (match _tipper s with
                             | Some a => Ok a
                             | None => Raise TypeError
                             end) ;;
        rot <- fold_each (range (length tipper_rot0)) (rotate_block lo_angles)
                 (tipper_rot0, _tipper_err s) ;;
        _set_tipper (fst rot) ;;
        _set_tipper_err (snd rot) ;;
        _compute_mag_direction ;;
        _compute_amp_phase
  end.

(** [_set_freq]: the lengths are compared by [is not]. *)
Definition _set_freq (lo_freq : scalar_or_seq) : M t unit :=
  n1 <- lift (match lo_freq with
              | Scalar _ => Raise TypeError
              | Seq l => Ok (length l)
              end) ;;
  a <- _get_tipper ;;
  n2 <- lift (ZObj.len a) ;;
  if negb (int_is n1 n2)
  then logger INFO "length of freq list/array not correct"%string
  else
    modify (set_freq (Some match lo_freq with
                           | Scalar x => [x]
                           | Seq l => l
                           end)) ;;
    _compute_amp_phase.

(** [_get_freq] stores [np.array(self._freq)] and returns what it
    stored. *)
Definition _get_freq : M t (option (list R)) :=
  s <- getself ;;
  match _freq s with
  | Some f => modify (set_freq (Some f))
  | None => ret tt
  end ;;
  s <- getself ;;
  ret (_freq s).

Definition _get_real : M t (option (list (Vec2 R))) :=
  a <- _get_tipper ;;
  match a with
  | None =>
      logger ERROR "tipper array is None - cannot calculate real"%string ;;
      ret None
  | Some _ =>
      a' <- _get_tipper ;;
      ret (option_map (map (fun v => mkVec2 (Re (v0 v)) (Re (v1 v)))) a')
  end.

Definition _get_imag : M t (option (list (Vec2 R))) :=
  a <- _get_tipper ;;
  match a with
  | None =>
      logger ERROR "tipper array is None - cannot calculate imag"%string ;;
      ret None
  | Some _ =>
      a' <- _get_tipper ;;
      ret (option_map (map (fun v => mkVec2 (Im (v0 v)) (Im (v1 v)))) a')
  end.

(** [_set_real] and [_set_imag], handed an array of shape (n, 1, 2).
    With a tipper held they go on to [self.imag()] and [self.real()]:
    the class has the properties [_real] and [_imag], and no attribute
    [real] or [imag], so the lookup raises [AttributeError]. *)
Definition _set_real (real_array : list (Vec2 C)) : M t unit :=
  a <- _get_tipper ;;
  mismatch <- match a with
              | None => ret false
              | Some _ =>
                  a' <- _get_tipper ;;
                  n <- lift (ZObj.len a') ;;
                  ret (negb (n =? length real_array)%nat)
              end ;;
  if (mismatch : bool)
  then logger ERROR
         "shape of real array does not match shape of tipper array"%string
  else
    if Req_dec_T (norm_imag2 real_array) 0
    then
      a <- _get_tipper ;;
      tipper_new <- match a with
                    | Some _ => raise AttributeError
                    | None => ret real_array
                    end ;;
      _set_tipper tipper_new ;;
      _compute_mag_direction ;;
      _compute_amp_phase
    else logger ERROR "Error - array real is not real valued !"%string.

Definition _set_imag (imag_array : list (Vec2 C)) : M t unit :=
  a <- _get_tipper ;;
  mismatch <- match a with
              | None => ret false
              | Some _ =>
                  a' <- _get_tipper ;;
                  n <- lift (ZObj.len a') ;;
                  ret (negb (n =? length imag_array)%nat)
              end ;;
  if (mismatch : bool)
  then logger ERROR
         "shape of real array does not match shape of tipper array"%string
  else
    if Req_dec_T (norm_imag2 imag_array) 0
    then
      let ii_arr := mkC 0 1 in
      a <- _get_tipper ;;
      tipper_new <- match a with
                    | Some _ => raise AttributeError
                    | None =>
                        ret (map (fun v => mkVec2 (Cmul ii_arr (v0 v))
                                                  (Cmul ii_arr (v1 v)))
                                 imag_array)
                    end ;;
      _set_tipper tipper_new ;;
      _compute_mag_direction ;;
      _compute_amp_phase
    else logger ERROR "Error - array imag is not real valued !"%string.

(** The body of the loop of [set_amp_phase], on the local array
    [tipper_new]. *)
Definition set_amp_phase_entry (r_array phi_array : list (Vec2 R))
  (idx_f : nat) (jj : idx2) (tipper_new : list (Vec2 C))
  : M t (list (Vec2 C)) :=
  rv <- lift (item2 r_array idx_f jj) ;;
  pv <- lift (item2 phi_array idx_f jj) ;;
  lift (setitem2 tipper_new idx_f jj (cmath_rect rv (math_radians pv))).

(** [set_amp_phase]: the arrays handed in are real-valued, so the two
    tests on [np.imag] pass. *)
Definition set_amp_phase (r_array phi_array : list (Vec2 R)) : M t unit :=
  let body (tipper_new : list (Vec2 C)) : M t unit :=
    tipper_new <- fold_each (range (length r_array)) (fun idx_f acc =>
      fold_each range2 (fun jj acc =>
        set_amp_phase_entry r_array phi_array idx_f jj acc) acc)
      tipper_new ;;
    _set_tipper tipper_new ;;
    _compute_amp_phase in
  a <- _get_tipper ;;
  match a with
  | Some ta =>
      if negb (length ta =? length r_array)%nat
      then logger ERROR
             "Error - shape of r array does not match shape of tipper array"%string
      else if negb (length ta =? length phi_array)%nat
      then logger ERROR
             "Error - shape of phi array does not match shape of tipper array"%string
      else body ta
  | None =>
      if negb (length r_array =? length phi_array)%nat
      then logger ERROR
             "Error - shape of phi array does not match shape of r array"%string
      else body (map (fun _ => mkVec2 C0 C0) r_array)
  end.

End Methods.
End TipperObj.

(** ** The arrays handed out by [Z.freq]

    [_get_freq] returns [np.array(self._freq)], a new array, while
    [_get_z] returns the stored array itself.  To tell the two apart the
    arrays live in a store and an attribute holds a reference. *)

Module FreqStore.

Definition ref := nat.

(** The float arrays allocated so far, by reference. *)
Definition store := list (list R).

Definition read (h : store) (r : ref) : option (list R) := nth_error h r.

(** [np.array(a)]: a new array with the entries of [a] *)
Definition np_array (h : store) (a : list R) : ref * store :=
  (length h, h ++ [a]).

(** [a[i] = v] through the reference [r]; nothing is written when the
    reference or the index does not exist (Python raises there). *)
Definition setitem (h : store) (r : ref) (i : nat) (v : R) : store :=
  match nth_error h r with
  | Some a => if (i <? length a)%nat then upd h r (upd a i v) else h
  | None => h
  end.

Definition setitems (h : store) (r : ref) (ws : list (nat * R)) : store :=
  fold_left (fun h' iv => setitem h' r (fst iv) (snd iv)) ws h.

(** A [Z] object whose [_freq] attribute is a reference into the store;
    the other attributes are those of [obj]. *)
Record zref : Type := mkzref {
  obj : ZObj.t;
  _freq : option ref
}.

Definition _get_freq (o : zref) (h : store) : option ref * store :=
  match _freq o with
  | None => (None, h)
  | Some r =>
      match read h r with
      | Some a => let (r', h') := np_array h a in (Some r', h')
      | None => (None, h)
      end
  end.

(** The object as the methods of [ZObj] see it. *)
Definition view (o : zref) (h : store) : ZObj.t :=
  ZObj.set_freq (match _freq o with
                 | None => None
                 | Some r => read h r
                 end) (obj o).

End FreqStore.

(** ** The array handed out by [Tipper.freq]

    [Tipper._get_freq] replaces [self._freq] by [np.array(self._freq)] and
    returns the attribute itself: the caller holds the stored array. *)

Module TipperFreqStore.

Import FreqStore.

(** A [Tipper] object whose [_freq] attribute is a reference into the
    store; the other attributes are those of [obj]. *)
Record tref : Type := mktref {
  obj : TipperObj.t;
  _freq : option ref
}.

Definition _get_freq (o : tref) (h : store) : option ref * tref * store :=
  match _freq o with
  | None => (None, o, h)
  | Some r =>
      match read h r with
      | Some a =>
          let (r', h') := np_array h a in
          (Some r', mktref (obj o) (Some r'), h')
      | None => (None, o, h)
      end
  end.

(** The object as the methods of [TipperObj] see it. *)
Definition view (o : tref) (h : store) : TipperObj.t :=
  TipperObj.set_freq (match _freq o with
                      | None => None
                      | Some r => read h r
                      end) (obj o).

End TipperFreqStore.

(** ** The derived quantities, as the documentation states them *)

Definition res_value (z : C) (f : R) : R := np_abs z ^ 2 / f * 0.2.
Definition phase_value (z : C) : R := math_degrees (cmath_phase z).

(** The blocks of an array handed to the constructor. *)
Definition blocks {A} (a : ndarray A) : list (Mat2 A) :=
  match a with
  | Single m => [m]
  | Stack l => l
  end.

(** The error array covers the tensor: every block of the tensor has an
    error block. *)
Definition covers {A B} (e : option (list A)) (zs : list B) : Prop :=
  match e with
  | None => True
  | Some ea => (length zs <= length ea)%nat
  end.

(** Resistivity and phase of [s] are the ones computed from its tensor and
    its frequencies, entry by entry, and are absent when the frequencies
    are. *)
Definition derived_from_state (s : ZObj.t) : Prop :=
  (forall zs fs,
      ZObj._z s = Some zs -> ZObj._freq s = Some fs ->
      (length zs <= length fs)%nat -> covers (ZObj._z_err s) zs ->
      exists rs ps,
        ZObj._resistivity s = Some rs /\ ZObj._phase s = Some ps /\
        length rs = length zs /\ length ps = length zs /\
        forall i z f,
          nth_error zs i = Some z -> nth_error fs i = Some f ->
          nth_error rs i = Some (mmap (fun c => res_value c f) z) /\
          nth_error ps i = Some (mmap phase_value z)) /\
  (ZObj._freq s = None ->
   ZObj._resistivity s = None /\ ZObj._phase s = None /\
   ZObj._resistivity_err s = None /\ ZObj._phase_err s = None).

(** The calls that change the tensor, its error or the frequencies. *)
Inductive setter_call : Type :=
| Set_z (z_array : ndarray C)
| Set_z_err (z_err_array : option (list (Mat2 R)))
| Set_freq (lo_freq : scalar_or_seq).

Definition run_setter `{Calculator} (c : setter_call) : M ZObj.t unit :=
  match c with
  | Set_z a => ZObj._set_z a
  | Set_z_err e => ZObj._set_z_err e
  | Set_freq f => ZObj._set_freq f
  end.

(** [Z(z_array, z_err_array, freq)] and [Tipper(...)] with an empty log *)
Definition new_Z `{Calculator} (z_array : option (ndarray C))
  (z_err_array : option (ndarray R)) (freq : option (list R))
  : result unit * world ZObj.t :=
  ZObj.__init__ z_array z_err_array freq (World ZObj.blank []).

Definition new_Tipper `{Calculator} (tipper_array : option (list (Vec2 C)))
  (tipper_err_array : option (list (Vec2 R))) (freq : option (list R))
  : result unit * world TipperObj.t :=
  TipperObj.__init__ tipper_array tipper_err_array freq
    (World TipperObj.blank []).

(** ** Sample data *)

(** [[0, 1+1j], [-1-1j, 0]] *)
Definition z_test : Mat2 C :=
  mkMat2 C0 (mkC 1 1) (mkC (-1) (-1)) C0.

(** [[[0.1+0j, 0.2+0j]]] *)
Definition tipper_test : list (Vec2 C) := [mkVec2 (mkC 0.1 0) (mkC 0.2 0)].

Definition identity2 : Mat2 R := mkMat2 1 0 0 1.

(** Modelled from the spec: [mtpy.utils.calculator] is not among the
    sources.  This instance follows section 4.3 (first-order propagation
    of the errors, rotation by the matrix of the angle, analytic inverse
    of a 2x2 matrix); it serves to run the methods on the sample data. *)
Definition rect2polar_error (re re_err im im_err : R) : R * R :=
  let r := sqrt (re * re + im * im) in
  (sqrt ((re * re_err) ^ 2 + (im * im_err) ^ 2) / r,
   math_degrees (sqrt ((im * re_err) ^ 2 + (re * im_err) ^ 2) / (r * r))).

Definition polar2rect_error (r r_err phi phi_err : R) : R * R :=
  let p := math_radians phi in
  let pe := math_radians phi_err in
  (sqrt ((cos p * r_err) ^ 2 + (r * sin p * pe) ^ 2),
   sqrt ((sin p * r_err) ^ 2 + (r * cos p * pe) ^ 2)).

Definition rotation_matrix (angle : R) : Mat2 R :=
  let a := math_radians angle in
  mkMat2 (cos a) (sin a) (- sin a) (cos a).

Definition transpose {A} (m : Mat2 A) : Mat2 A :=
  mkMat2 (m00 m) (m10 m) (m01 m) (m11 m).

Definition dot_CR (a : Mat2 C) (b : Mat2 R) : Mat2 C :=
  mkMat2 (Cadd (Cscale (m00 b) (m00 a)) (Cscale (m10 b) (m01 a)))
         (Cadd (Cscale (m01 b) (m00 a)) (Cscale (m11 b) (m01 a)))
         (Cadd (Cscale (m00 b) (m10 a)) (Cscale (m10 b) (m11 a)))
         (Cadd (Cscale (m01 b) (m10 a)) (Cscale (m11 b) (m11 a))).

Definition dot_RR (a b : Mat2 R) : Mat2 R :=
  mkMat2 (m00 a * m00 b + m01 a * m10 b) (m00 a * m01 b + m01 a * m11 b)
         (m10 a * m00 b + m11 a * m10 b) (m10 a * m01 b + m11 a * m11 b).

Definition rotate_matrix (m : Mat2 C) (angle : R) : Mat2 C :=
  dot_CR (dot_RC (rotation_matrix angle) m) (transpose (rotation_matrix angle)).

Definition rotate_matrix_error (e : Mat2 R) (angle : R) : Mat2 R :=
  let r := mmap Rabs (rotation_matrix angle) in
  dot_RR (dot_RR r e) (transpose r).

Definition rotate_vector (v : Vec2 C) (angle : R) : Vec2 C :=
  let r := rotation_matrix angle in
  mkVec2 (Cadd (Cscale (m00 r) (v0 v)) (Cscale (m01 r) (v1 v)))
         (Cadd (Cscale (m10 r) (v0 v)) (Cscale (m11 r) (v1 v))).

Definition rotate_vector_error (e : Vec2 R) (angle : R) : Vec2 R :=
  let r := mmap Rabs (rotation_matrix angle) in
  mkVec2 (m00 r * v0 e + m01 r * v1 e) (m10 r * v0 e + m11 r * v1 e).

(** A LAPACK that does not round: every singular matrix is found
    singular. *)
Definition exact_pivots : Lapack := {|
  inv_singular := fun _ => None;
  inv_singular_C := fun _ => None
|}.

Definition invert_matrix_error (m e : Mat2 R) : Mat2 R * Mat2 R :=
  let inv := match @matrix_I exact_pivots m with
             | Ok i => i
             | Raise _ => mconst 0
             end in
  let entry (i j : idx2) : R :=
    Rabs (mget inv i i0 * mget inv i0 j * mget e i0 i0)
    + Rabs (mget inv i i0 * mget inv i1 j * mget e i0 i1)
    + Rabs (mget inv i i1 * mget inv i0 j * mget e i1 i0)
    + Rabs (mget inv i i1 * mget inv i1 j * mget e i1 i1) in
  (inv, mkMat2 (entry i0 i0) (entry i0 i1) (entry i1 i0) (entry i1 i1)).

Definition first_order : Calculator := {|
  z_error2r_phi_error := rect2polar_error;
  propagate_error_polar2rect := polar2rect_error;
  propagate_error_rect2polar := rect2polar_error;
  rotatematrix_incl_errors :=
    fun m a e => (rotate_matrix m a, rotate_matrix_error e a);
  rotatevector_incl_errors :=
    fun v a e => (rotate_vector v a, rotate_vector_error e a);
  rotatematrix_no_errors := rotate_matrix;
  rotatevector_no_errors := rotate_vector;
  invertmatrix_incl_errors := invert_matrix_error
|}.

(** ** [correct4sensor_orientation]

    The function at the end of the module.  It is handed the tensor
    [Z_prime], the orientations of the four sensors in degrees (by
    default [Bx=0, By=90, Ex=0, Ey=90]) and, optionally, the error of the
    tensor; an argument that is not a 2x2 array raises. *)
Definition correct4sensor_orientation `{Lapack} (Z_prime : ndarray C)
  (Bx By Ex Ey : R) (Z_prime_error : option (ndarray R))
  : result (Mat2 C * option (Mat2 R)) :=
  match Z_prime with
  | Stack _ => Raise MTpyError_inputarguments
  | Single Z_prime =>
      match match Z_prime_error with
            | Some (Stack _) => Raise MTpyError_inputarguments
            | Some (Single e) => Ok (Some e)
            | None => Ok None
            end with
      | Raise e => Raise e
      | Ok Z_prime_error =>
          let dummy1 := cmath_rect 1 (math_radians Ex) in
          let dummy2 := cmath_rect 1 (math_radians Ey) in
          let T := mkMat2 (Re dummy1) (Re dummy2) (Im dummy1) (Im dummy2) in
          let dummy3 := cmath_rect 1 (math_radians Bx) in
          let dummy4 := cmath_rect 1 (math_radians By) in
          let U := mkMat2 (Re dummy3) (Re dummy4) (Im dummy3) (Im dummy4) in
          match matrix_I U with
          | Raise _ => Raise MTpyError_inputarguments
          | Ok UI =>
              let z_arr := dot_RC T (dot_CR Z_prime UI) in
              let z_err_arr := Z_prime_error in
              Ok (z_arr, z_err_arr)
          end
      end
  end.

(** ** Notions used by the statements *)

(** The claim on the setters without its two provisos: every block of the
    tensor has a frequency and its resistivity is the one computed from
    them. *)
Definition derived_everywhere (s : ZObj.t) : Prop :=
  forall zs fs,
    ZObj._z s = Some zs -> ZObj._freq s = Some fs ->
    exists rs,
      ZObj._resistivity s = Some rs /\
      forall i z, nth_error zs i = Some z ->
        exists f, nth_error fs i = Some f /\
                  nth_error rs i = Some (mmap (fun c => res_value c f) z).

Definition absent_without_freq (s : ZObj.t) : Prop :=
  ZObj._freq s = None ->
  ZObj._resistivity s = None /\ ZObj._phase s = None /\
  ZObj._resistivity_err s = None /\ ZObj._phase_err s = None.

(** The error entries that [_compute_res_phase] derives. *)
Definition reserr_value `{Calculator} (z : C) (f e : R) : R :=
  0.4 * np_abs z / f * fst (z_error2r_phi_error (Re z) e (Im z) e).
Definition phaseerr_value `{Calculator} (z : C) (e : R) : R :=
  snd (z_error2r_phi_error (Re z) e (Im z) e).

(** A loop that writes the blocks [idxs] of an array, one after the other,
    and one that rewrites each of them from what it holds. *)
Definition fill {A} (blk : nat -> A) (idxs : list nat) (l : list A) : list A :=
  fold_left (fun acc i => upd acc i (blk i)) idxs l.

Definition fillmap {A} (f : A -> A) (idxs : list nat) (l : list A) : list A :=
  fold_left (fun acc i => match nth_error acc i with
                          | Some b => upd acc i (f b)
                          | None => acc
                          end) idxs l.

Definition res_block (zs : list (Mat2 C)) (fs : list R) (i : nat) : Mat2 R :=
  mmap (fun c => res_value c (nth i fs 0)) (nth i zs (mconst C0)).
Definition phase_block (zs : list (Mat2 C)) (i : nat) : Mat2 R :=
  mmap phase_value (nth i zs (mconst C0)).
Definition reserr_block `{Calculator} (zs : list (Mat2 C)) (fs : list R)
  (ea : list (Mat2 R)) (i : nat) : Mat2 R :=
  let z := nth i zs (mconst C0) in
  let f := nth i fs 0 in
  let e := nth i ea (mconst 0) in
  mkMat2 (reserr_value (m00 z) f (m00 e)) (reserr_value (m01 z) f (m01 e))
         (reserr_value (m10 z) f (m10 e)) (reserr_value (m11 z) f (m11 e)).
Definition phaseerr_block `{Calculator} (zs : list (Mat2 C))
  (ea : list (Mat2 R)) (i : nat) : Mat2 R :=
  let z := nth i zs (mconst C0) in
  let e := nth i ea (mconst 0) in
  mkMat2 (phaseerr_value (m00 z) (m00 e)) (phaseerr_value (m01 z) (m01 e))
         (phaseerr_value (m10 z) (m10 e)) (phaseerr_value (m11 z) (m11 e)).

(** What a computation leaves as it is, whether it returns or raises. *)
Definition preserves {O A} (P : world O -> world O -> Prop) (m : M O A)
  : Prop :=
  forall w, P w (snd (m w)).

(** The tensor, its error, the frequencies and the rotation angle are the
    same in both worlds, and nothing was taken from the log. *)
Definition same_inputs (w w' : world ZObj.t) : Prop :=
  ZObj._z (self w') = ZObj._z (self w) /\
  ZObj._z_err (self w') = ZObj._z_err (self w) /\
  ZObj._freq (self w') = ZObj._freq (self w) /\
  ZObj.rotation_angle (self w') = ZObj.rotation_angle (self w) /\
  exists l, log w' = log w ++ l.

(** A computation that returns, keeping [I], or raises [IndexError]. *)
Definition safe {O} (I : world O -> Prop) (m : M O unit) : Prop :=
  forall w, I w ->
    (exists w', m w = (Ok tt, w') /\ I w') \/
    (exists w', m w = (Raise IndexError, w')).

(** The arrays that the loop of [_compute_res_phase] writes exist. *)
Definition arrays_allocated (w : world ZObj.t) : Prop :=
  ZObj._z (self w) <> None /\ ZObj._freq (self w) <> None /\
  ZObj._resistivity (self w) <> None /\ ZObj._phase (self w) <> None /\
  (ZObj._z_err (self w) <> None ->
   ZObj._resistivity_err (self w) <> None /\ ZObj._phase_err (self w) <> None).

(** ** The resistivity on doubles

    The two lines that turn the modulus of an entry into a resistivity,
    in [_compute_res_phase], and the resistivity back into the modulus,
    in [set_res_phase],

      [np.abs(z) ** 2 / freq * 0.2]     [np.sqrt(5 * freq * res)]

    on binary64 numbers with the rounding of IEEE 754, and the test of a
    relative tolerance [|x - y| > tol * |y|]. *)
Module Doubles.
Import PrimFloat.
#[local] Set Warnings "-inexact-float".

Definition resistivity (abs_z freq : float) : float :=
  (abs_z * abs_z / freq * 0.2)%float.

Definition abs_z (freq res : float) : float :=
  sqrt (5 * freq * res)%float.


End Doubles.

(** The blocks that [only1d] and [only2d] build. *)
Definition only1d_block (z : Mat2 C) : Mat2 C :=
  let mean1d := Cscale 0.5 (Cadd (m10 z) (m01 z)) in
  mkMat2 C0 (Cmul (np_sign (m01 z)) mean1d) (Cmul (np_sign (m10 z)) mean1d) C0.

Definition only2d_block (z : Mat2 C) : Mat2 C :=
  mkMat2 C0 (m01 z) (m10 z) C0.

(** The blocks that [remove_ss] builds from scalar factors. *)
Definition ss_corrected (fx fy : R) (z : Mat2 C) : Mat2 C :=
  mkMat2 (Cdivr (m00 z) (sqrt fx)) (Cdivr (m01 z) (sqrt fx))
         (Cdivr (m10 z) (sqrt fy)) (Cdivr (m11 z) (sqrt fy)).

Definition ss_matrix (fx fy : R) : Mat2 R := mkMat2 (sqrt fx) 0 0 (sqrt fy).

(** The error block that [remove_distortion] builds. *)
Definition distortion_err_value (DI DI_err : Mat2 R) (z : Mat2 C) (e : Mat2 R)
  (ii jj : idx2) : R :=
  np_abs (Cscale (mget DI_err ii i0) (mget z i0 jj))
  + np_abs (RtoC (mget DI ii i0 * mget e i0 jj))
  + np_abs (Cscale (mget DI_err ii i1) (mget z i1 jj))
  + np_abs (RtoC (mget DI ii i1 * mget e i1 jj)).

Definition distortion_err_block (DI DI_err : Mat2 R) (z : Mat2 C) (e : Mat2 R)
  : Mat2 R :=
  mkMat2 (distortion_err_value DI DI_err z e i0 i0)
         (distortion_err_value DI DI_err z e i0 i1)
         (distortion_err_value DI DI_err z e i1 i0)
         (distortion_err_value DI DI_err z e i1 i1).

Definition nonneg_block (e : Mat2 R) : Prop :=
  0 <= m00 e /\ 0 <= m01 e /\ 0 <= m10 e /\ 0 <= m11 e.

(** ** Sample objects *)

Definition e_test : Mat2 R := mconst 0.1.

(** [Z(z_array=z_test, freq=[1])] *)
Definition sample_Z : world ZObj.t :=
  snd (@new_Z first_order (Some (Single z_test)) None (Some [1])).


(** [Z(z_array=[z_test, z_test, z_test], freq=[1, 1, 1])] *)
Definition sample_Z3 : world ZObj.t :=
  snd (@new_Z first_order (Some (Stack [z_test; z_test; z_test])) None
         (Some [1; 1; 1])).

(** [Tipper(tipper_array=tipper_test, freq=[1])] *)
Definition sample_Tipper : world TipperObj.t :=
  snd (@new_Tipper first_order (Some tipper_test) None (Some [1])).

(** A store that holds the frequencies [[1, 2]] of an object. *)
Definition sample_store : FreqStore.store := [[1; 2]].
Definition sample_zref : FreqStore.zref :=
  FreqStore.mkzref (self sample_Z) (Some 0%nat).

(** ** Notions and sample objects of the further properties *)

(** The basis of a pair of sensors that point to [x] and [y] degrees: the
    matrices [T] and [U] of [correct4sensor_orientation]. *)
Definition sensor_basis (x y : R) : Mat2 R :=
  mkMat2 (cos (math_radians x)) (cos (math_radians y))
         (sin (math_radians x)) (sin (math_radians y)).

(** The product of two complex 2x2 matrices and the complex identity. *)
Definition dot_CC (a b : Mat2 C) : Mat2 C :=
  mkMat2 (Cadd (Cmul (m00 a) (m00 b)) (Cmul (m01 a) (m10 b)))
         (Cadd (Cmul (m00 a) (m01 b)) (Cmul (m01 a) (m11 b)))
         (Cadd (Cmul (m10 a) (m00 b)) (Cmul (m11 a) (m10 b)))
         (Cadd (Cmul (m10 a) (m01 b)) (Cmul (m11 a) (m11 b))).

Definition identity2C : Mat2 C := mkMat2 (RtoC 1) C0 C0 (RtoC 1).

(** The block that [inverse] writes for a block of the tensor. *)
Definition inverse_of (z : Mat2 C) : Mat2 C :=
  let d := np_linalg_det z in
  mkMat2 (Cdiv (m11 z) d) (Cdiv (Copp (m01 z)) d)
         (Cdiv (Copp (m10 z)) d) (Cdiv (m00 z) d).

(** [Z(z_array=[z_test, 0])]: the second block is singular. *)
Definition sample_Z_singular : world ZObj.t :=
  snd (@new_Z first_order (Some (Stack [z_test; mconst C0])) None None).

(** The tensor error, when there is one, has as many blocks as the
    tensor. *)
Definition same_shape {A B} (e : option (list A)) (zs : list B) : Prop :=
  match e with
  | None => True
  | Some ea => length ea = length zs
  end.

(** The entries of the dictionary of invariants for one block. *)
Definition z1_of (z : Mat2 C) : C := Cdivr (Cadd (m01 z) (Copp (m10 z))) 2.

Definition lambda_plus_of (z : Mat2 C) : C :=
  Cadd (z1_of z)
       (np_sqrt (Cadd (Cmul (z1_of z) (z1_of z)) (Copp (np_linalg_det z)))).

Definition lambda_minus_of (z : Mat2 C) : C :=
  Cadd (z1_of z)
       (Copp (np_sqrt (Cadd (Cmul (z1_of z) (z1_of z))
                            (Copp (np_linalg_det z))))).

Definition sigma_plus_of (z : Mat2 C) : R :=
  0.5 * np_linalg_norm z ^ 2
  + sqrt (0.25 * np_linalg_norm z ^ 4 + np_abs (np_linalg_det z) ^ 2).

Definition sigma_minus_of (z : Mat2 C) : R :=
  0.5 * np_linalg_norm z ^ 2
  - sqrt (0.25 * np_linalg_norm z ^ 4 + np_abs (np_linalg_det z) ^ 2).

(** The dictionary that [invariants] returns for the blocks [zs]. *)
Definition invariants_of (zs : list (Mat2 C)) : dict :=
  [("z1"%string, CArray (map z1_of zs));
   ("det"%string, CArray (map np_linalg_det zs));
   ("det_real"%string, RArray (map (fun z => det2 (mmap Re z)) zs));
   ("det_imag"%string, RArray (map (fun z => det2 (mmap Im z)) zs));
   ("trace"%string, CArray (map np_trace zs));
   ("skew"%string, CArray (map (fun z => Cadd (m01 z) (Copp (m10 z))) zs));
   ("norm"%string, RArray (map np_linalg_norm zs));
   ("lambda_plus"%string, CArray (map lambda_plus_of zs));
   ("lambda_minus"%string, CArray (map lambda_minus_of zs));
   ("sigma_plus"%string, RArray (map sigma_plus_of zs));
   ("sigma_minus"%string, RArray (map sigma_minus_of zs))].

(** The error of the norm of a block. *)
Definition norm_err_of (z : Mat2 C) (e : Mat2 R) : R :=
  1 / np_linalg_norm z * sqrt (ZObj.norm_radicand e z).

(** [Z(z_array=z_test, z_err_array=e_test, freq=[1])] *)
Definition sample_Z_err : world ZObj.t :=
  snd (@new_Z first_order (Some (Single z_test)) (Some (Single e_test))
         (Some [1])).

(** [sample_Z3] after [z_err = two blocks]: the setter stored them. *)
Definition sample_Z3_err2 : world ZObj.t :=
  snd (@ZObj._set_z_err first_order (Some [e_test; e_test]) sample_Z3).

(** The tensor and the error that [rotate] leaves when every block is
    rotated by [angle]. *)
Definition rotated_tensor `{Calculator} (zs : list (Mat2 C))
  (oe : option (list (Mat2 R))) (angle : R) : list (Mat2 C) :=
  match oe with
  | None => map (fun z => rotatematrix_no_errors z angle) zs
  | Some ea =>
      map (fun p => fst (rotatematrix_incl_errors (fst p) angle (snd p)))
          (combine zs ea)
  end.

Definition rotated_error `{Calculator} (zs : list (Mat2 C))
  (oe : option (list (Mat2 R))) (angle : R) : option (list (Mat2 R)) :=
  match oe with
  | None => None
  | Some ea =>
      Some (map (fun p => snd (rotatematrix_incl_errors (fst p) angle (snd p)))
                (combine zs ea))
  end.

(** The body of the loop of [Tipper._compute_amp_phase]. *)
Definition amp_phase_entry `{Calculator} (idx_f : nat) (jj : idx2)
  : M TipperObj.t unit :=
  tv <- TipperObj.tipper_at idx_f jj ;;
  TipperObj.assign2 TipperObj.amplitude TipperObj.set_amplitude idx_f jj
    (np_abs tv) ;;
  tv <- TipperObj.tipper_at idx_f jj ;;
  TipperObj.assign2 TipperObj._phase TipperObj.set_phase idx_f jj
    (math_degrees (cmath_phase tv)) ;;
  e <- TipperObj._get_tipper_err ;;
  match e with
  | None => ret tt
  | Some _ =>
      tr <- TipperObj.tipper_at idx_f jj ;;
      e1 <- TipperObj.tipper_err_at idx_f jj ;;
      ti <- TipperObj.tipper_at idx_f jj ;;
      e2 <- TipperObj.tipper_err_at idx_f jj ;;
      let (r_err, phi_err) :=
        propagate_error_rect2polar (Re tr) e1 (Im ti) e2 in
      TipperObj.assign2 TipperObj.amplitude_err TipperObj.set_amplitude_err
        idx_f jj r_err ;;
      TipperObj.assign2 TipperObj._phase_err TipperObj.set_phase_err
        idx_f jj phi_err
  end.

(** Amplitude and phase of a tipper, and their errors, block by block. *)
Definition amplitude_of (ta : list (Vec2 C)) : list (Vec2 R) :=
  map (fun t => mkVec2 (np_abs (v0 t)) (np_abs (v1 t))) ta.

Definition phase_of (ta : list (Vec2 C)) : list (Vec2 R) :=
  map (fun t => mkVec2 (phase_value (v0 t)) (phase_value (v1 t))) ta.

Definition polar_err `{Calculator} (t : C) (e : R) : R * R :=
  propagate_error_rect2polar (Re t) e (Im t) e.

Definition amplitude_err_of `{Calculator} (ta : list (Vec2 C))
  (ea : list (Vec2 R)) : list (Vec2 R) :=
  map (fun p => mkVec2 (fst (polar_err (v0 (fst p)) (v0 (snd p))))
                       (fst (polar_err (v1 (fst p)) (v1 (snd p)))))
      (combine ta ea).

Definition phase_err_of `{Calculator} (ta : list (Vec2 C))
  (ea : list (Vec2 R)) : list (Vec2 R) :=
  map (fun p => mkVec2 (snd (polar_err (v0 (fst p)) (v0 (snd p))))
                       (snd (polar_err (v1 (fst p)) (v1 (snd p)))))
      (combine ta ea).

(** Magnitude and direction of the induction arrows of a tipper. *)
Definition mag_real_of (ta : list (Vec2 C)) : list R :=
  map (fun v => sqrt (Re (v0 v) ^ 2 + Re (v1 v) ^ 2)) ta.
Definition mag_imag_of (ta : list (Vec2 C)) : list R :=
  map (fun v => sqrt (Im (v0 v) ^ 2 + Im (v1 v) ^ 2)) ta.
Definition angle_real_of (ta : list (Vec2 C)) : list R :=
  map (fun v => math_degrees (np_arctan2_neg (Re (v1 v)) (Re (v0 v)))) ta.
Definition angle_imag_of (ta : list (Vec2 C)) : list R :=
  map (fun v => math_degrees (np_arctan2_neg (Im (v1 v)) (Im (v0 v)))) ta.

(** The tipper, its error, the frequencies and the rotation angle are the
    same in both worlds. *)
Definition same_tipper_inputs (w w' : world TipperObj.t) : Prop :=
  TipperObj._tipper (self w') = TipperObj._tipper (self w) /\
  TipperObj._tipper_err (self w') = TipperObj._tipper_err (self w) /\
  TipperObj._freq (self w') = TipperObj._freq (self w) /\
  TipperObj.rotation_angle (self w') = TipperObj.rotation_angle (self w).

(** The tipper that [rotate] leaves when every block is rotated by
    [angle], and its error. *)
Definition rotated_tipper `{Calculator} (ta : list (Vec2 C))
  (oe : option (list (Vec2 R))) (angle : R) : list (Vec2 C) :=
  match oe with
  | None => map (fun t => rotatevector_no_errors t angle) ta
  | Some ea =>
      map (fun p => fst (rotatevector_incl_errors (fst p) angle (snd p)))
          (combine ta ea)
  end.

Definition rotated_tipper_err `{Calculator} (ta : list (Vec2 C))
  (ea : list (Vec2 R)) (angle : R) : list (Vec2 R) :=
  map (fun p => snd (rotatevector_incl_errors (fst p) angle (snd p)))
      (combine ta ea).

(** [Tipper(tipper_array=tipper_test, tipper_err_array=[[[0.01, 0.01]]],
    freq=[1])] *)
Definition sample_Tipper_err : world TipperObj.t :=
  snd (@new_Tipper first_order (Some tipper_test) (Some [mkVec2 0.01 0.01])
         (Some [1])).

(** The sample tipper with its frequencies held in the store, as the
    first array. *)
Definition sample_tref : TipperFreqStore.tref :=
  TipperFreqStore.mktref (self sample_Tipper) (Some 0%nat).
(** The tipper that [set_amp_phase] builds from amplitudes and phases,
    and the tensor that [set_res_phase] builds from resistivities, phases
    and frequencies. *)
Definition tipper_from_polar (rs ps : list (Vec2 R)) : list (Vec2 C) :=
  map (fun p => mkVec2 (cmath_rect (v0 (fst p)) (math_radians (v0 (snd p))))
                       (cmath_rect (v1 (fst p)) (math_radians (v1 (snd p)))))
      (combine rs ps).

Definition z_entry_from_polar (f r p : R) : C :=
  cmath_rect (sqrt (5 * f * r)) (math_radians p).

(** Every entry of the blocks satisfies [P]. *)
Definition all_entries2 (P : R -> Prop) (l : list (Vec2 R)) : Prop :=
  Forall (fun v => P (v0 v) /\ P (v1 v)) l.

Definition all_entries3 (P : R -> Prop) (l : list (Mat2 R)) : Prop :=
  Forall (fun m => forall ii jj, P (mget m ii jj)) l.

(** [Z(freq=[2])]: an object without tensor. *)
Definition sample_Z_empty : world ZObj.t :=
  snd (@new_Z first_order None None (Some [2])).


(** * Proofs *)

(** ** Arrays as lists *)

Lemma upd_length {A} (l : list A) n x : length (upd l n x) = length l.
Proof. revert n; induction l; intros [|n]; simpl; auto. Qed.

Lemma nth_error_upd_eq {A} (l : list A) n x y :
  nth_error l n = Some y -> nth_error (upd l n x) n = Some x.
Proof. revert n; induction l; intros [|n]; simpl; intros; try discriminate; eauto. Qed.

Lemma nth_error_upd_neq {A} (l : list A) n m x :
  n <> m -> nth_error (upd l n x) m = nth_error l m.
Proof.
  revert n m; induction l; intros [|n] [|m]; simpl; intros; auto; try congruence.
Qed.

Lemma upd_upd {A} (l : list A) n x y : upd (upd l n x) n y = upd l n y.
Proof. revert n; induction l; intros [|n]; simpl; auto. now rewrite IHl. Qed.

Lemma upd_same {A} (l : list A) n x : nth_error l n = Some x -> upd l n x = l.
Proof.
  revert n; induction l; intros [|n]; cbn; intros E; try discriminate.
  - congruence.
  - now rewrite IHl.
Qed.

Lemma nth_error_nth_lt {A} (l : list A) i d :
  (i < length l)%nat -> nth_error l i = Some (nth i l d).
Proof. intros. apply nth_error_nth'. assumption. Qed.

Lemma mset_all {A} (m : Mat2 A) a b c d :
  mset (mset (mset (mset m i0 i0 a) i0 i1 b) i1 i0 c) i1 i1 d = mkMat2 a b c d.
Proof. reflexivity. Qed.

Lemma mmap_mget {A B} (f : A -> B) m ii jj :
  mget (mmap f m) ii jj = f (mget m ii jj).
Proof. destruct ii, jj; reflexivity. Qed.

Lemma zeros_like3_length {A} (a : list (Mat2 A)) :
  length (zeros_like3 a) = length a.
Proof. apply length_map. Qed.

Lemma fill_length {A} (blk : nat -> A) idxs l :
  length (fill blk idxs l) = length l.
Proof.
  unfold fill. revert l; induction idxs; simpl; intros; auto.
  rewrite IHidxs. apply upd_length.
Qed.

Lemma fill_nth_error {A} (blk : nat -> A) m : forall k l i,
  (k + m <= length l)%nat ->
  nth_error (fill blk (seq k m) l) i =
  if (k <=? i)%nat && (i <? k + m)%nat then Some (blk i) else nth_error l i.
Proof.
  unfold fill. induction m; intros k l i Hl.
  - simpl. destruct (k <=? i)%nat eqn:E1, (i <? k + 0)%nat eqn:E2; simpl; auto.
    apply Nat.leb_le in E1. apply Nat.ltb_lt in E2. lia.
  - simpl. rewrite IHm by (rewrite upd_length; lia).
    destruct (Nat.eq_dec i k) as [->|Hne].
    + replace (S k <=? k)%nat with false by (symmetry; apply Nat.leb_gt; lia).
      rewrite Nat.leb_refl. simpl.
      replace (k <? k + S m)%nat with true by (symmetry; apply Nat.ltb_lt; lia).
      destruct (nth_error l k) eqn:E.
      * eapply nth_error_upd_eq; eauto.
      * apply nth_error_None in E. lia.
    + rewrite nth_error_upd_neq by congruence.
      destruct (Nat.leb_spec (S k) i), (Nat.leb_spec k i),
        (Nat.ltb_spec i (S k + m)), (Nat.ltb_spec i (k + S m));
        simpl; auto; lia.
Qed.

Lemma fillmap_nth_error {A} (f : A -> A) m : forall k l i,
  (k + m <= length l)%nat ->
  nth_error (fillmap f (seq k m) l) i =
  if (k <=? i)%nat && (i <? k + m)%nat
  then option_map f (nth_error l i) else nth_error l i.
Proof.
  unfold fillmap. induction m; intros k l i Hl.
  - cbn [seq fold_left].
    destruct (Nat.leb_spec k i), (Nat.ltb_spec i (k + 0)); cbn; auto; lia.
  - cbn [seq fold_left].
    destruct (nth_error l k) as [b|] eqn:Eb;
      [|apply nth_error_None in Eb; lia].
    rewrite IHm by (rewrite upd_length; lia).
    destruct (Nat.eq_dec i k) as [->|Hne].
    + erewrite nth_error_upd_eq by eassumption. rewrite Eb.
      destruct (Nat.leb_spec (S k) k), (Nat.leb_spec k k),
        (Nat.ltb_spec k (S k + m)), (Nat.ltb_spec k (k + S m));
        cbn; auto; lia.
    + rewrite nth_error_upd_neq by congruence.
      destruct (Nat.leb_spec (S k) i), (Nat.leb_spec k i),
        (Nat.ltb_spec i (S k + m)), (Nat.ltb_spec i (k + S m));
        cbn; auto; lia.
Qed.

Lemma fillmap_length {A} (f : A -> A) idxs l :
  length (fillmap f idxs l) = length l.
Proof.
  unfold fillmap. revert l; induction idxs; cbn; intros; auto.
  rewrite IHidxs. destruct (nth_error l a); auto. apply upd_length.
Qed.

Lemma fillmap_all {A} (f : A -> A) l :
  fillmap f (seq 0 (length l)) l = map f l.
Proof.
  apply nth_error_ext. intro i.
  rewrite fillmap_nth_error by lia. rewrite nth_error_map.
  destruct (Nat.leb_spec 0 i), (Nat.ltb_spec i (0 + length l)); cbn; auto;
    try lia.
  assert (E : nth_error l i = None) by (apply nth_error_None; lia).
  rewrite E. reflexivity.
Qed.

Lemma fold_each_fillmap {O A} (f : A -> A) (body : nat -> list A -> M O (list A))
  (w : world O) :
  (forall i acc b, nth_error acc i = Some b ->
                   body i acc w = (Ok (upd acc i (f b)), w)) ->
  forall m k acc, (k + m <= length acc)%nat ->
    fold_each (seq k m) body acc w = (Ok (fillmap f (seq k m) acc), w).
Proof.
  intros Hb. induction m; intros k acc Hl.
  - reflexivity.
  - cbn [seq fold_each]. unfold bind.
    destruct (nth_error acc k) as [b|] eqn:Eb;
      [|apply nth_error_None in Eb; lia].
    rewrite (Hb k acc b Eb).
    rewrite IHm by (rewrite upd_length; lia).
    unfold fillmap. cbn [fold_left]. rewrite Eb. reflexivity.
Qed.

(** ** Polar form *)

Lemma C_eq (a b : C) : Re a = Re b -> Im a = Im b -> a = b.
Proof. destruct a, b; cbn; intros; subst; reflexivity. Qed.


Lemma np_abs_nonneg z : 0 <= np_abs z.
Proof. apply sqrt_pos. Qed.

Lemma np_abs_sqr z : np_abs z ^ 2 = Re z * Re z + Im z * Im z.
Proof.
  unfold np_abs. rewrite <- Rsqr_pow2, Rsqr_sqrt; [reflexivity|nra].
Qed.

Lemma sqrt_one_plus_sqr_pos t : 0 < sqrt (1 + t²).
Proof. apply sqrt_lt_R0. unfold Rsqr. nra. Qed.

Lemma hypot_pos x y :
  0 < x -> sqrt (x * x + y * y) = x * sqrt (1 + (y / x)²).
Proof.
  intro Hx.
  replace (x * x + y * y) with (x² * (1 + (y / x)²))
    by (unfold Rsqr; field; lra).
  rewrite sqrt_mult; [|apply Rle_0_sqr| unfold Rsqr; nra].
  rewrite sqrt_Rsqr by lra. reflexivity.
Qed.

Lemma hypot_neg x y :
  x < 0 -> sqrt (x * x + y * y) = - x * sqrt (1 + (y / x)²).
Proof.
  intro Hx.
  replace (x * x + y * y) with ((- x)² * (1 + (y / x)²))
    by (unfold Rsqr; field; lra).
  rewrite sqrt_mult; [|apply Rle_0_sqr| unfold Rsqr; nra].
  rewrite sqrt_Rsqr by lra. reflexivity.
Qed.

(** [cmath.rect(abs(z), cmath.phase(z))] is [z]. *)
Lemma rect_abs_phase z : cmath_rect (np_abs z) (cmath_phase z) = z.
Proof.
  destruct z as [x y]. unfold cmath_rect, np_abs, cmath_phase, atan2. cbn.
  pose proof (sqrt_one_plus_sqr_pos (y / x)) as Hs.
  destruct (total_order_T 0 x) as [[Hx|Hx]|Hx].
  - rewrite cos_atan, sin_atan, hypot_pos by assumption.
    apply C_eq; cbn; field; lra.
  - subst x.
    replace (0 * 0 + y * y) with (y²) by (unfold Rsqr; ring).
    destruct (total_order_T 0 y) as [[Hy|Hy]|Hy].
    + rewrite cos_PI2, sin_PI2, sqrt_Rsqr by lra. apply C_eq; cbn; ring.
    + subst y. rewrite cos_0, sin_0, Rsqr_0, sqrt_0. apply C_eq; cbn; ring.
    + rewrite cos_neg, sin_neg, cos_PI2, sin_PI2.
      rewrite Rsqr_neg, sqrt_Rsqr by lra. apply C_eq; cbn; ring.
  - rewrite hypot_neg by assumption.
    destruct (Rle_dec 0 y).
    + rewrite neg_cos, neg_sin, cos_atan, sin_atan.
      apply C_eq; cbn; field; lra.
    + unfold Rminus. rewrite cos_plus, sin_plus, cos_neg, sin_neg.
      rewrite cos_PI, sin_PI, cos_atan, sin_atan.
      apply C_eq; cbn; field; lra.
Qed.


Lemma np_abs_RtoC x : np_abs (RtoC x) = Rabs x.
Proof.
  unfold np_abs, RtoC. cbn.
  replace (x * x + 0 * 0) with (x²) by (unfold Rsqr; ring).
  apply sqrt_Rsqr_abs.
Qed.

Lemma np_abs_Cscale_0 z : np_abs (Cscale 0 z) = 0.
Proof.
  unfold np_abs, Cscale. cbn.
  replace (0 * Re z * (0 * Re z) + 0 * Im z * (0 * Im z)) with 0 by ring.
  apply sqrt_0.
Qed.

(** ** What a computation leaves as it is *)

Lemma preserves_ret {O A} (P : world O -> world O -> Prop) (a : A) :
  (forall w, P w w) -> preserves P (@ret O A a).
Proof. intros Hr w. apply Hr. Qed.

Lemma preserves_raise {O A} (P : world O -> world O -> Prop) e :
  (forall w, P w w) -> preserves P (@raise O A e).
Proof. intros Hr w. apply Hr. Qed.

Lemma preserves_lift {O A} (P : world O -> world O -> Prop) (r : result A) :
  (forall w, P w w) -> preserves P (@lift O A r).
Proof. intros Hr w. apply Hr. Qed.

Lemma preserves_getself {O} (P : world O -> world O -> Prop) :
  (forall w, P w w) -> preserves P (@getself O).
Proof. intros Hr w. apply Hr. Qed.

Lemma preserves_bind {O A B} (P : world O -> world O -> Prop)
  (m : M O A) (k : A -> M O B) :
  (forall a b c, P a b -> P b c -> P a c) ->
  preserves P m -> (forall a, preserves P (k a)) -> preserves P (bind m k).
Proof.
  intros Ht Hm Hk w. unfold bind. specialize (Hm w).
  destruct (m w) as [[a|e] w']; cbn in *; auto.
  eapply Ht; [eassumption | apply Hk].
Qed.

Lemma preserves_try_except {O A} (P : world O -> world O -> Prop)
  (m h : M O A) e :
  (forall a b c, P a b -> P b c -> P a c) ->
  preserves P m -> preserves P h -> preserves P (try_except m e h).
Proof.
  intros Ht Hm Hh w. unfold try_except. specialize (Hm w).
  destruct (m w) as [[a|e'] w']; cbn in *; auto.
  destruct (exn_eqb e e'); cbn; auto.
  eapply Ht; [eassumption | apply Hh].
Qed.

Lemma preserves_for_each {O A} (P : world O -> world O -> Prop)
  (l : list A) (body : A -> M O unit) :
  (forall w, P w w) -> (forall a b c, P a b -> P b c -> P a c) ->
  (forall x, preserves P (body x)) -> preserves P (for_each l body).
Proof.
  intros Hr Ht Hb. induction l; cbn [for_each].
  - apply preserves_ret. assumption.
  - apply preserves_bind; auto.
Qed.

Lemma same_inputs_refl w : same_inputs w w.
Proof. repeat split; auto. exists []. now rewrite app_nil_r. Qed.

Lemma same_inputs_trans a b c :
  same_inputs a b -> same_inputs b c -> same_inputs a c.
Proof.
  intros (H1 & H2 & H3 & H4 & l & H5) (G1 & G2 & G3 & G4 & l' & G5).
  repeat split; try congruence.
  exists (l ++ l'). rewrite G5, H5. now rewrite app_assoc.
Qed.

Lemma same_inputs_logger l msg :
  preserves same_inputs (@logger ZObj.t l msg).
Proof. intro w. repeat split; auto. cbn. eauto. Qed.

Lemma same_inputs_modify f :
  (forall s, ZObj._z (f s) = ZObj._z s /\ ZObj._z_err (f s) = ZObj._z_err s /\
             ZObj._freq (f s) = ZObj._freq s /\
             ZObj.rotation_angle (f s) = ZObj.rotation_angle s) ->
  preserves same_inputs (modify f).
Proof.
  intros Hf w. destruct (Hf (self w)) as (? & ? & ? & ?).
  repeat split; cbn; auto. exists []. now rewrite app_nil_r.
Qed.

Ltac frame_step :=
  match goal with
  | |- preserves _ (bind _ _) =>
      apply preserves_bind; [exact same_inputs_trans | | intros]
  | |- preserves _ (ret _) => apply preserves_ret; exact same_inputs_refl
  | |- preserves _ (raise _) => apply preserves_raise; exact same_inputs_refl
  | |- preserves _ (lift _) => apply preserves_lift; exact same_inputs_refl
  | |- preserves _ getself => apply preserves_getself; exact same_inputs_refl
  | |- preserves _ (logger _ _) => apply same_inputs_logger
  | |- preserves _ (modify _) =>
      apply same_inputs_modify; intros; repeat split; reflexivity
  | |- preserves _ (for_each _ _) =>
      apply preserves_for_each;
      [exact same_inputs_refl | exact same_inputs_trans | intros]
  | |- preserves _ (try_except _ _ _) =>
      apply preserves_try_except; [exact same_inputs_trans | | ]
  | |- preserves _ (match ?x with _ => _ end) => destruct x
  end.

(** Running a method on sample data: everything is computed but the
    operations on real numbers. *)
Ltac run :=
  cbv -[Rplus Rmult Rminus Ropp Rdiv Rinv sqrt atan PI cos sin IZR
        total_order_T Rle_dec Req_dec_T Rmax Zfloor pow Rabs Rlt Rle].

Lemma safe_for_each {O A} (I : world O -> Prop) (l : list A)
  (body : A -> M O unit) :
  (forall x, safe I (body x)) -> safe I (for_each l body).
Proof.
  intro Hb. induction l as [|x l IH]; intros w Hw; cbn [for_each].
  - left. exists w. split; [reflexivity | assumption].
  - unfold bind. destruct (Hb x w Hw) as [(w' & E & Hw') | (w' & E)];
      rewrite E.
    + apply IH. assumption.
    + right. eauto.
Qed.

Ltac lookup :=
  match goal with
  | |- context [nth_error ?l ?k] =>
      let E := fresh "E" in destruct (nth_error l k) eqn:E
  end.

(** ** The recomputation of resistivity and phase *)

Section Recompute.

Context `{Calculator}.

Lemma entry_None zs fs ra rs ore ps ope lg k ii jj z f rb pb :
  nth_error zs k = Some z -> nth_error fs k = Some f ->
  nth_error rs k = Some rb -> nth_error ps k = Some pb ->
  ZObj.res_phase_entry k ii jj
    (World (ZObj.mk (Some zs) None (Some fs) ra (Some rs) ore (Some ps) ope) lg)
  = (Ok tt,
     World (ZObj.mk (Some zs) None (Some fs) ra
              (Some (upd rs k (mset rb ii jj (res_value (mget z ii jj) f))))
              ore
              (Some (upd ps k (mset pb ii jj (phase_value (mget z ii jj)))))
              ope) lg).
Proof.
  intros Hz Hf Hr Hp.
  unfold ZObj.res_phase_entry, ZObj.z_at, ZObj.freq_at, ZObj.assign3,
    ZObj._get_z, ZObj._get_freq, ZObj._get_z_err, bind, ret, lift, getself, modify,
    ZObj.subscript3, ZObj.subscript1, item3, item1, setitem3.
  cbn. rewrite Hz. cbn. rewrite Hf. cbn. rewrite Hr. cbn. rewrite Hz. cbn. rewrite Hp. cbn.
  reflexivity.
Qed.

Lemma entry_Some zs ea fs ra rs re ps pe lg k ii jj z f e rb pb reb peb :
  nth_error zs k = Some z -> nth_error fs k = Some f ->
  nth_error ea k = Some e ->
  nth_error rs k = Some rb -> nth_error ps k = Some pb ->
  nth_error re k = Some reb -> nth_error pe k = Some peb ->
  ZObj.res_phase_entry k ii jj
    (World (ZObj.mk (Some zs) (Some ea) (Some fs) ra
              (Some rs) (Some re) (Some ps) (Some pe)) lg)
  = (Ok tt,
     World (ZObj.mk (Some zs) (Some ea) (Some fs) ra
              (Some (upd rs k (mset rb ii jj (res_value (mget z ii jj) f))))
              (Some (upd re k (mset reb ii jj
                        (reserr_value (mget z ii jj) f (mget e ii jj)))))
              (Some (upd ps k (mset pb ii jj (phase_value (mget z ii jj)))))
              (Some (upd pe k (mset peb ii jj
                        (phaseerr_value (mget z ii jj) (mget e ii jj))))))
           lg).
Proof.
  intros Hz Hf He Hr Hp Hre Hpe.
  unfold ZObj.res_phase_entry, ZObj.z_at, ZObj.freq_at, ZObj.z_err_at, ZObj.assign3,
    ZObj._get_z, ZObj._get_freq, ZObj._get_z_err, bind, ret, lift, getself, modify,
    ZObj.subscript3, ZObj.subscript1, item3, item1, setitem3,
    reserr_value, phaseerr_value.
  repeat (progress (cbn; try rewrite Hz; try rewrite Hf; try rewrite He;
                    try rewrite Hr; try rewrite Hp)).
  destruct (z_error2r_phi_error _ _ _ _) as [r_err phi_err].
  repeat (progress (cbn; try rewrite Hz; try rewrite Hf; try rewrite Hre;
                    try rewrite Hpe)).
  reflexivity.
Qed.

Lemma block_None zs fs ra rs ore ps ope lg k z f rb pb :
  nth_error zs k = Some z -> nth_error fs k = Some f ->
  nth_error rs k = Some rb -> nth_error ps k = Some pb ->
  for_each range2 (fun ii => for_each range2 (fun jj =>
     ZObj.res_phase_entry k ii jj))
    (World (ZObj.mk (Some zs) None (Some fs) ra (Some rs) ore (Some ps) ope) lg)
  = (Ok tt,
     World (ZObj.mk (Some zs) None (Some fs) ra
              (Some (upd rs k (mmap (fun c => res_value c f) z)))
              ore
              (Some (upd ps k (mmap phase_value z)))
              ope) lg).
Proof.
  intros Hz Hf Hr Hp.
  unfold range2, for_each.
  unfold bind at 1 2.
  erewrite entry_None by eassumption.
  unfold bind at 1.
  erewrite entry_None; try eassumption; try (eapply nth_error_upd_eq; eassumption).
  unfold bind at 1 2. cbn [ret].
  erewrite entry_None; try eassumption; try (eapply nth_error_upd_eq, nth_error_upd_eq; eassumption).
  unfold bind at 1.
  erewrite entry_None; try eassumption;
    try (eapply nth_error_upd_eq, nth_error_upd_eq, nth_error_upd_eq; eassumption).
  cbn. rewrite !upd_upd. reflexivity.
Qed.

Lemma block_Some zs ea fs ra rs re ps pe lg k z f e rb pb reb peb :
  nth_error zs k = Some z -> nth_error fs k = Some f ->
  nth_error ea k = Some e ->
  nth_error rs k = Some rb -> nth_error ps k = Some pb ->
  nth_error re k = Some reb -> nth_error pe k = Some peb ->
  for_each range2 (fun ii => for_each range2 (fun jj =>
     ZObj.res_phase_entry k ii jj))
    (World (ZObj.mk (Some zs) (Some ea) (Some fs) ra
              (Some rs) (Some re) (Some ps) (Some pe)) lg)
  = (Ok tt,
     World (ZObj.mk (Some zs) (Some ea) (Some fs) ra
              (Some (upd rs k (mmap (fun c => res_value c f) z)))
              (Some (upd re k
                 (mkMat2 (reserr_value (m00 z) f (m00 e))
                         (reserr_value (m01 z) f (m01 e))
                         (reserr_value (m10 z) f (m10 e))
                         (reserr_value (m11 z) f (m11 e)))))
              (Some (upd ps k (mmap phase_value z)))
              (Some (upd pe k
                 (mkMat2 (phaseerr_value (m00 z) (m00 e))
                         (phaseerr_value (m01 z) (m01 e))
                         (phaseerr_value (m10 z) (m10 e))
                         (phaseerr_value (m11 z) (m11 e))))))
           lg).
Proof.
  intros Hz Hf He Hr Hp Hre Hpe.
  unfold range2, for_each.
  unfold bind at 1 2.
  erewrite entry_Some by eassumption.
  unfold bind at 1.
  erewrite entry_Some; try eassumption; try (eapply nth_error_upd_eq; eassumption).
  unfold bind at 1 2. cbn [ret].
  erewrite entry_Some; try eassumption;
    try (eapply nth_error_upd_eq, nth_error_upd_eq; eassumption).
  unfold bind at 1.
  erewrite entry_Some; try eassumption;
    try (eapply nth_error_upd_eq, nth_error_upd_eq, nth_error_upd_eq; eassumption).
  cbn. rewrite !upd_upd. reflexivity.
Qed.

Lemma loop_None zs fs ra ore ope lg m : forall k rs ps,
  (k + m <= length zs)%nat -> (k + m <= length fs)%nat ->
  length rs = length zs -> length ps = length zs ->
  for_each (seq k m) (fun idx_f =>
    for_each range2 (fun ii => for_each range2 (fun jj =>
      ZObj.res_phase_entry idx_f ii jj)))
    (World (ZObj.mk (Some zs) None (Some fs) ra (Some rs) ore (Some ps) ope) lg)
  = (Ok tt,
     World (ZObj.mk (Some zs) None (Some fs) ra
              (Some (fill (res_block zs fs) (seq k m) rs)) ore
              (Some (fill (phase_block zs) (seq k m) ps)) ope) lg).
Proof.
  induction m; intros k rs ps Hz Hf Hr Hp.
  - reflexivity.
  - cbn [seq for_each]. unfold bind at 1.
    erewrite block_None.
    + rewrite IHm; try lia; try (rewrite upd_length; assumption).
      reflexivity.
    + apply nth_error_nth_lt with (d := mconst C0). lia.
    + apply nth_error_nth_lt with (d := 0). lia.
    + apply nth_error_nth_lt with (d := mconst 0). lia.
    + apply nth_error_nth_lt with (d := mconst 0). lia.
Qed.

Lemma loop_Some zs ea fs ra lg m : forall k rs re ps pe,
  (k + m <= length zs)%nat -> (k + m <= length fs)%nat ->
  (k + m <= length ea)%nat ->
  length rs = length zs -> length ps = length zs ->
  length re = length ea -> length pe = length ea ->
  for_each (seq k m) (fun idx_f =>
    for_each range2 (fun ii => for_each range2 (fun jj =>
      ZObj.res_phase_entry idx_f ii jj)))
    (World (ZObj.mk (Some zs) (Some ea) (Some fs) ra
              (Some rs) (Some re) (Some ps) (Some pe)) lg)
  = (Ok tt,
     World (ZObj.mk (Some zs) (Some ea) (Some fs) ra
              (Some (fill (res_block zs fs) (seq k m) rs))
              (Some (fill (reserr_block zs fs ea) (seq k m) re))
              (Some (fill (phase_block zs) (seq k m) ps))
              (Some (fill (phaseerr_block zs ea) (seq k m) pe))) lg).
Proof.
  induction m; intros k rs re ps pe Hz Hf He Hr Hp Hre Hpe.
  - reflexivity.
  - cbn [seq for_each]. unfold bind at 1.
    erewrite block_Some.
    + rewrite IHm; try lia; try (rewrite upd_length; assumption).
      reflexivity.
    + apply nth_error_nth_lt with (d := mconst C0). lia.
    + apply nth_error_nth_lt with (d := 0). lia.
    + apply nth_error_nth_lt with (d := mconst 0). lia.
    + apply nth_error_nth_lt with (d := mconst 0). lia.
    + apply nth_error_nth_lt with (d := mconst 0). lia.
    + apply nth_error_nth_lt with (d := mconst 0). lia.
    + apply nth_error_nth_lt with (d := mconst 0). lia.
Qed.

(** [_compute_res_phase] on an object that holds a tensor, frequencies for
    every block and, if any, an error block for every block. *)
Lemma compute_res_phase_ok s lg zs fs :
  ZObj._z s = Some zs -> ZObj._freq s = Some fs ->
  (length zs <= length fs)%nat -> covers (ZObj._z_err s) zs ->
  exists rs ps ore ope,
    ZObj._compute_res_phase (World s lg)
    = (Ok tt, World (ZObj.mk (Some zs) (ZObj._z_err s) (Some fs)
                       (ZObj.rotation_angle s) (Some rs) ore (Some ps) ope) lg)
    /\ length rs = length zs /\ length ps = length zs
    /\ forall i z f,
         nth_error zs i = Some z -> nth_error fs i = Some f ->
         nth_error rs i = Some (mmap (fun c => res_value c f) z) /\
         nth_error ps i = Some (mmap phase_value z).
Proof.
  destruct s as [oz oe ofr ra r0 re0 p0 pe0]; cbn.
  intros -> -> Hlen Hcov.
  assert (Hent : forall rs ps,
    rs = fill (res_block zs fs) (seq 0 (length zs)) (zeros_like3 zs) ->
    ps = fill (phase_block zs) (seq 0 (length zs)) (zeros_like3 zs) ->
    length rs = length zs /\ length ps = length zs /\
    forall i z f,
      nth_error zs i = Some z -> nth_error fs i = Some f ->
      nth_error rs i = Some (mmap (fun c => res_value c f) z) /\
      nth_error ps i = Some (mmap phase_value z)).
  { intros rs ps -> ->.
    rewrite !fill_length, !zeros_like3_length. repeat split; auto.
    - rewrite fill_nth_error by (rewrite zeros_like3_length; lia).
      assert (i < length zs)%nat by (apply nth_error_Some; congruence).
      replace (0 <=? i)%nat with true by (symmetry; apply Nat.leb_le; lia).
      replace (i <? 0 + length zs)%nat with true
        by (symmetry; apply Nat.ltb_lt; lia).
      cbn. unfold res_block.
      erewrite (nth_error_nth zs) by eassumption.
      erewrite (nth_error_nth fs) by eassumption. reflexivity.
    - rewrite fill_nth_error by (rewrite zeros_like3_length; lia).
      assert (i < length zs)%nat by (apply nth_error_Some; congruence).
      replace (0 <=? i)%nat with true by (symmetry; apply Nat.leb_le; lia).
      replace (i <? 0 + length zs)%nat with true
        by (symmetry; apply Nat.ltb_lt; lia).
      cbn. unfold phase_block.
      erewrite (nth_error_nth zs) by eassumption. reflexivity. }
  destruct oe as [ea|]; cbn in Hcov.
  - do 4 eexists. split; [|apply Hent; reflexivity].
    unfold ZObj._compute_res_phase, ZObj._get_freq, ZObj._get_z,
      ZObj._get_z_err, ZObj.len, range.
    cbn -[for_each].
    unfold ZObj.set_phase, ZObj.set_resistivity, ZObj.set_phase_err,
      ZObj.set_resistivity_err; cbn -[for_each].
    apply loop_Some; rewrite ?zeros_like3_length; auto; lia.
  - do 4 eexists. split; [|apply Hent; reflexivity].
    unfold ZObj._compute_res_phase, ZObj._get_freq, ZObj._get_z,
      ZObj._get_z_err, ZObj.len, range.
    cbn -[for_each].
    unfold ZObj.set_phase, ZObj.set_resistivity, ZObj.set_phase_err,
      ZObj.set_resistivity_err; cbn -[for_each].
    apply loop_None; rewrite ?zeros_like3_length; auto; lia.
Qed.

Lemma compute_res_phase_same_inputs :
  preserves same_inputs ZObj._compute_res_phase.
Proof.
  unfold ZObj._compute_res_phase, ZObj.res_phase_entry, ZObj.z_at,
    ZObj.freq_at, ZObj.z_err_at, ZObj.assign3, ZObj._get_freq, ZObj._get_z,
    ZObj._get_z_err.
  repeat frame_step.
Qed.

Lemma recompute_guarded_same_inputs :
  preserves same_inputs ZObj.recompute_guarded.
Proof.
  unfold ZObj.recompute_guarded. frame_step.
  - apply compute_res_phase_same_inputs.
  - frame_step.
Qed.

Lemma compute_res_phase_no_freq s lg :
  ZObj._freq s = None ->
  self (snd (ZObj._compute_res_phase (World s lg))) = s.
Proof.
  destruct s; cbn. intros ->. reflexivity.
Qed.

Lemma recompute_guarded_derived s lg :
  absent_without_freq s ->
  derived_from_state (self (snd (ZObj.recompute_guarded (World s lg)))).
Proof.
  intro Habs.
  destruct (recompute_guarded_same_inputs (World s lg))
    as (Hz & He & Hf & _ & _). cbn in Hz, He, Hf.
  split.
  - intros zs fs Hzs Hfs Hlen Hcov.
    rewrite Hz in Hzs. rewrite Hf in Hfs. rewrite He in Hcov.
    destruct (compute_res_phase_ok s lg zs fs Hzs Hfs Hlen Hcov)
      as (rs & ps & ore & ope & Hrun & Hlr & Hlp & Hent).
    unfold ZObj.recompute_guarded, try_except. rewrite Hrun. cbn.
    exists rs, ps. auto.
  - intro Hnone. rewrite Hf in Hnone.
    unfold ZObj.recompute_guarded, try_except.
    pose proof (compute_res_phase_no_freq s lg Hnone) as Hs.
    destruct (ZObj._compute_res_phase (World s lg)) as [[[]|e] w'] eqn:E;
      cbn in Hs; subst.
    + cbn. auto.
    + destruct (exn_eqb IndexError e); cbn; auto.
Qed.

Lemma derived_absent s : derived_from_state s -> absent_without_freq s.
Proof. intros [_ H']. exact H'. Qed.

Lemma res_phase_entry_safe k ii jj :
  safe arrays_allocated (ZObj.res_phase_entry k ii jj).
Proof.
  intros [s lg] (Hz & Hf & Hr & Hp & He).
  destruct s as [[zs|] oe [fs|] ra [rs|] ore [ps|] ope]; cbn in *;
    try congruence.
  unfold ZObj.res_phase_entry, ZObj.z_at, ZObj.freq_at, ZObj.z_err_at,
    ZObj.assign3, ZObj._get_z, ZObj._get_freq, ZObj._get_z_err, bind, ret,
    lift, getself, modify, raise, ZObj.subscript3, ZObj.subscript1, item3,
    item1, setitem3, arrays_allocated.
  destruct oe as [ea|].
  - destruct He as [Hre Hpe]; [discriminate|].
    destruct ore as [re|], ope as [pe|]; try congruence.
    cbn. repeat (lookup; cbn; eauto).
    destruct (z_error2r_phi_error _ _ _ _) as [r_err phi_err]; cbn.
    repeat (lookup; cbn; eauto).
    left. eexists. split; [reflexivity|]. cbn.
    repeat split; intros; first [discriminate | congruence].
  - cbn. repeat (lookup; cbn; eauto).
    left. eexists. split; [reflexivity|]. cbn.
    repeat split; intros; first [discriminate | congruence].
Qed.

Lemma compute_res_phase_raises_only_IndexError w :
  fst (ZObj._compute_res_phase w) = Ok tt \/
  fst (ZObj._compute_res_phase w) = Raise IndexError.
Proof.
  destruct w as [s lg].
  destruct s as [[zs|] oe [fs|] ra r0 re0 p0 pe0];
    try (left; reflexivity).
  assert (Hloop : safe arrays_allocated
    (for_each (range (length zs)) (fun idx_f =>
       for_each range2 (fun ii =>
         for_each range2 (fun jj => ZObj.res_phase_entry idx_f ii jj))))).
  { repeat (apply safe_for_each; intro). apply res_phase_entry_safe. }
  unfold ZObj._compute_res_phase, ZObj._get_freq, ZObj._get_z,
    ZObj._get_z_err, ZObj.len.
  destruct oe as [ea|]; cbn -[for_each range].
  - match goal with |- context [for_each _ _ ?w] =>
      destruct (Hloop w) as [(w' & E & _) | (w' & E)] end.
    + unfold arrays_allocated. cbn. repeat split; intros; first [discriminate | congruence].
    + rewrite E. left; reflexivity.
    + rewrite E. right; reflexivity.
  - match goal with |- context [for_each _ _ ?w] =>
      destruct (Hloop w) as [(w' & E & _) | (w' & E)] end.
    + unfold arrays_allocated. cbn. repeat split; intros; first [discriminate | congruence].
    + rewrite E. left; reflexivity.
    + rewrite E. right; reflexivity.
Qed.

Lemma recompute_guarded_returns w :
  fst (ZObj.recompute_guarded w) = Ok tt.
Proof.
  unfold ZObj.recompute_guarded, try_except.
  destruct (compute_res_phase_raises_only_IndexError w) as [E|E];
    destruct (ZObj._compute_res_phase w) as [[[]|e] w']; cbn in E;
    try discriminate; try reflexivity.
  injection E as ->. reflexivity.
Qed.

End Recompute.

Lemma init_runs_compute `{Calculator} zin ein fq :
  ZObj.__init__ (Some zin) ein fq (World ZObj.blank [])
  = ZObj._compute_res_phase
      (World (ZObj.mk (Some (blocks zin)) (option_map blocks ein) fq
                (RotArray (repeat 0 (length (blocks zin))))
                None None None None) []).
Proof.
  destruct zin, ein as [[|]|]; reflexivity.
Qed.

Lemma init_without_tensor `{Calculator} ein fq :
  ZObj.__init__ None ein fq (World ZObj.blank [])
  = (Ok tt, World (ZObj.mk None (option_map blocks ein) fq (RotFloat 0)
                     None None None None) []).
Proof.
  destruct ein as [[|]|]; reflexivity.
Qed.

Lemma compute_res_phase_derived `{Calculator} s lg :
  absent_without_freq s ->
  derived_from_state (self (snd (ZObj._compute_res_phase (World s lg)))).
Proof.
  intro Habs.
  destruct (compute_res_phase_same_inputs (World s lg))
    as (Hz & He & Hf & _ & _). cbn [self] in Hz, He, Hf.
  split.
  - intros zs fs Hzs Hfs Hlen Hcov.
    rewrite Hz in Hzs. rewrite Hf in Hfs. rewrite He in Hcov.
    destruct (compute_res_phase_ok s lg zs fs Hzs Hfs Hlen Hcov)
      as (rs & ps & ore & ope & Hrun & Hlr & Hlp & Hent).
    rewrite Hrun. cbn [snd self ZObj._resistivity ZObj._phase].
    exists rs, ps. auto.
  - intro Hnone. rewrite Hf in Hnone.
    rewrite (compute_res_phase_no_freq s lg Hnone). apply Habs. assumption.
Qed.

(** The constructor leaves an object whose derived arrays are those of
    its tensor and frequencies. *)
Lemma init_derived `{Calculator} zin ein fq :
  derived_from_state (self (snd (new_Z zin ein fq))).
Proof.
  unfold new_Z. destruct zin as [zin|].
  - rewrite init_runs_compute. apply compute_res_phase_derived.
    intro. cbn [ZObj._resistivity ZObj._phase ZObj._resistivity_err
                ZObj._phase_err]. auto.
  - rewrite init_without_tensor. cbn [snd self].
    split.
    + intros zs fs E. discriminate E.
    + intros _. cbn [ZObj._resistivity ZObj._phase ZObj._resistivity_err
                     ZObj._phase_err]. auto.
Qed.

(** ** Construction (C1) *)

Section Construction.

Context `{Calculator}.

(** C1.  A [Z] built from a tensor and frequencies, one for every block
    (and, when errors are given, an error block for every block): the
    constructor returns, and at every index [i] and component [(ii, jj)]
    the resistivity is [|Z[i,ii,jj]|^2 / freq[i] * 0.2] and the phase is
    the argument of [Z[i,ii,jj]], by [atan2], in degrees.  The scenario of
    the matrix [[0, 1+1j], [-1-1j, 0]] with [freq = [1]] is the instance
    proved next: resistivity 0.4 and phase 45 at [(0, 0, 1)]. *)
Theorem Z_init_res_phase zin ein fs :
  (length (blocks zin) <= length fs)%nat ->
  covers (option_map blocks ein) (blocks zin) ->
  let r := new_Z (Some zin) ein (Some fs) in
  fst r = Ok tt /\
  forall i ii jj z f,
    nth_error (blocks zin) i = Some z -> nth_error fs i = Some f ->
    ZObj.subscript3 (ZObj._resistivity (self (snd r))) i ii jj
      = Ok (res_value (mget z ii jj) f) /\
    ZObj.subscript3 (ZObj._phase (self (snd r))) i ii jj
      = Ok (phase_value (mget z ii jj)).
Proof.
  intros Hlen Hcov. unfold new_Z. rewrite init_runs_compute.
  edestruct (compute_res_phase_ok
    (ZObj.mk (Some (blocks zin)) (option_map blocks ein) (Some fs)
       (RotArray (repeat 0 (length (blocks zin)))) None None None None)
    [] (blocks zin) fs) as (rs & ps & ore & ope & Hc & _ & _ & Hent);
    try reflexivity; try assumption.
  cbn zeta. rewrite Hc. cbn. split; [reflexivity|].
  intros i ii jj z f Hz Hf. destruct (Hent i z f Hz Hf) as [Hr Hp].
  unfold item3. rewrite Hr, Hp. rewrite !mmap_mget. auto.
Qed.

End Construction.

Lemma res_value_scenario : res_value (mkC 1 1) 1 = 0.4.
Proof.
  unfold res_value. rewrite np_abs_sqr. cbn [Re Im]. lra.
Qed.

Lemma phase_value_scenario : phase_value (mkC 1 1) = 45.
Proof.
  unfold phase_value, cmath_phase, atan2, math_degrees. cbn [Re Im].
  destruct (total_order_T 0 1) as [[?|?]|?]; try lra.
  replace (1 / 1) with 1 by lra. rewrite atan_1.
  pose proof PI_neq0. field. assumption.
Qed.

Lemma Z_init_scenario :
  let r := @new_Z first_order (Some (Single z_test)) None (Some [1]) in
  ((length (blocks (Single z_test)) <= length [1])%nat /\
   covers (option_map blocks (@None (ndarray R))) (blocks (Single z_test))) /\
  fst r = Ok tt /\
  ZObj.subscript3 (ZObj._resistivity (self (snd r))) 0 i0 i1 = Ok 0.4 /\
  ZObj.subscript3 (ZObj._phase (self (snd r))) 0 i0 i1 = Ok 45.
Proof.
  assert (Hl : (length (blocks (Single z_test)) <= length [1])%nat)
    by (cbn; lia).
  assert (Hc : covers (option_map blocks (@None (ndarray R)))
                      (blocks (Single z_test))) by exact I.
  destruct (@Z_init_res_phase first_order (Single z_test) None [1] Hl Hc)
    as [Hok Hent].
  destruct (Hent 0%nat i0 i1 z_test 1 eq_refl eq_refl) as [Hr Hp].
  cbn zeta. rewrite Hr, Hp. cbn [mget z_test m01].
  rewrite res_value_scenario, phase_value_scenario. auto.
Defined.

(** With fewer frequencies than blocks the constructor raises: it calls
    [_compute_res_phase] outside any [try]. *)
Lemma Z_init_without_enough_frequencies :
  fst (@new_Z first_order (Some (Stack [z_test; z_test])) None (Some [1]))
  = Raise IndexError.
Proof. run. reflexivity. Qed.

(** ** The setters (C2, C4) *)

Section Setters.

Context `{Calculator}.

(** C2, as amended.  Whatever the setter of [z], [z_err] or [freq] is
    handed, and whether it returns or raises: afterwards, when every block
    of the tensor has a frequency and, if an error array is held, an error
    block, resistivity and phase are the arrays computed from the tensor
    and the frequencies held then, entry by entry; and when the
    frequencies are absent, resistivity, phase and their errors are
    absent. *)
Lemma setters_keep_derived (c : setter_call) s lg :
  derived_from_state s ->
  derived_from_state (self (snd (run_setter c (World s lg)))).
Proof.
  intro Hd. pose proof (derived_absent s Hd) as Habs.
  destruct s as [oz oe ofr ra r0 re0 p0 pe0].
  destruct c as [[m|l]|[ea|]|fq]; cbn [run_setter].
  - (* z = a 2x2 matrix *)
    unfold ZObj._set_z, try_except, bind, getself, ret, modify, lift, ZObj.len.
    cbn. destruct ra as [a|old]; cbn.
    + destruct oz as [zs|]; cbn; [|exact Hd].
      apply recompute_guarded_derived. exact Habs.
    + destruct oz as [zs|]; cbn; [|exact Hd].
      apply recompute_guarded_derived. exact Habs.
  - (* z = an array of blocks *)
    unfold ZObj._set_z, try_except, bind, getself, ret, modify, lift, ZObj.len.
    cbn. destruct ra as [a|old]; cbn;
      apply recompute_guarded_derived; exact Habs.
  - (* z_err = an array *)
    unfold ZObj._set_z_err, ZObj._get_z, bind, getself, ret, modify, raise.
    cbn. destruct oz as [zs|]; cbn; [|exact Hd].
    destruct (negb (length ea =? length zs)%nat); cbn;
      apply recompute_guarded_derived; exact Habs.
  - (* z_err = None *)
    exact Hd.
  - (* freq *)
    unfold ZObj._set_freq, ZObj._get_z, bind, getself, ret, modify.
    cbn. destruct oz as [zs|]; cbn.
    + destruct (negb (length _ =? length zs)%nat); cbn; [exact Hd|].
      apply recompute_guarded_derived. intro Hn; discriminate Hn.
    + split; [intros ? ? Hz; discriminate Hz | intro Hn; discriminate Hn].
Qed.

End Setters.

Lemma setters_keep_derived_sample :
  derived_from_state (self sample_Z) /\
  derived_from_state
    (self (snd (@run_setter first_order (Set_freq (Seq [2]))
                  (World (self sample_Z) (log sample_Z))))).
Proof.
  assert (Hd : derived_from_state (self sample_Z))
    by apply (@init_derived first_order).
  split; [exact Hd|].
  apply (@setters_keep_derived first_order (Set_freq (Seq [2]))
           (self sample_Z) (log sample_Z) Hd).
Defined.

Lemma res_value_m01_nonzero f : 0 < f -> res_value (m01 z_test) f <> 0.
Proof.
  intro Hf. unfold res_value. rewrite np_abs_sqr. cbn [z_test m01 Re Im].
  apply Rgt_not_eq. apply Rmult_lt_0_compat; [|lra].
  apply Rdiv_lt_0_compat; lra.
Qed.

(** The claim C2 as it stands fails.  A tensor of two blocks set on an
    object with one frequency: the setter returns, the resistivity has a
    second block of zeros that no frequency gave.  A tensor of two blocks
    set on an object with two frequencies and one error block: the setter
    returns, and the resistivity at [(1, 0, 1)] is 0 although the tensor
    and the frequency there give 0.4. *)
Lemma setters_can_leave_partial_arrays :
  (let r := @ZObj._set_z first_order (Stack [z_test; z_test]) sample_Z in
   fst r = Ok tt /\
   ZObj._z (self (snd r)) = Some [z_test; z_test] /\
   ZObj._freq (self (snd r)) = Some [1] /\
   ZObj._resistivity (self sample_Z)
     = Some [mmap (fun c => res_value c 1) z_test] /\
   ZObj._resistivity (self (snd r))
     = Some [mmap (fun c => res_value c 1) z_test; mconst 0] /\
   ~ derived_everywhere (self (snd r))) /\
  (let w := snd (@new_Z first_order (Some (Single z_test))
                   (Some (Single e_test)) (Some [1; 1])) in
   let r := @ZObj._set_z first_order (Stack [z_test; z_test]) w in
   fst r = Ok tt /\
   ZObj._z (self (snd r)) = Some [z_test; z_test] /\
   ZObj._freq (self (snd r)) = Some [1; 1] /\
   ZObj.subscript3 (ZObj._resistivity (self (snd r))) 1 i0 i1 = Ok 0 /\
   res_value (mget z_test i0 i1) 1 <> 0 /\
   ~ derived_everywhere (self (snd r))).
Proof.
  split.
  - cbn zeta. split; [run; reflexivity|]. split; [run; reflexivity|].
    split; [run; reflexivity|]. split; [run; reflexivity|].
    split; [run; reflexivity|].
    intro Hd.
    assert (Hz : ZObj._z (self (snd (@ZObj._set_z first_order
                 (Stack [z_test; z_test]) sample_Z))) = Some [z_test; z_test])
      by (run; reflexivity).
    assert (Hf : ZObj._freq (self (snd (@ZObj._set_z first_order
                 (Stack [z_test; z_test]) sample_Z))) = Some [1])
      by (run; reflexivity).
    destruct (Hd [z_test; z_test] [1] Hz Hf) as (rs & _ & Hent).
    destruct (Hent 1%nat z_test eq_refl) as (f & Hf' & _).
    discriminate Hf'.
  - cbn zeta. split; [run; reflexivity|]. split; [run; reflexivity|].
    split; [run; reflexivity|]. split; [run; reflexivity|].
    split; [apply res_value_m01_nonzero; lra|].
    intro Hd.
    match type of Hd with derived_everywhere (self (snd ?r)) =>
      assert (Hz : ZObj._z (self (snd r)) = Some [z_test; z_test])
        by (run; reflexivity);
      assert (Hf : ZObj._freq (self (snd r)) = Some [1; 1])
        by (run; reflexivity);
      assert (Hr : ZObj.subscript3 (ZObj._resistivity (self (snd r))) 1 i0 i1
                   = Ok 0) by (run; reflexivity)
    end.
    destruct (Hd [z_test; z_test] [1; 1] Hz Hf) as (rs & Hrs & Hent).
    destruct (Hent 1%nat z_test eq_refl) as (f & Hf' & Hv).
    injection Hf' as <-.
    rewrite Hrs in Hr. unfold ZObj.subscript3, item3 in Hr. rewrite Hv in Hr.
    injection Hr as Hr.
    apply (res_value_m01_nonzero 1); [lra|]. exact Hr.
Qed.

Section ErrorSetter.

Context `{Calculator}.

(** C4, on the code.  The setter of [z_err], handed an array whose shape
    is not that of the tensor, logs its warning and returns without an
    exception, but the array is stored all the same: the error held
    before is replaced.  ([_set_freq] returns after the like warning.) *)
Theorem set_z_err_stores_mismatched_array s lg zs ea :
  ZObj._z s = Some zs -> length ea <> length zs ->
  let r := ZObj._set_z_err (Some ea) (World s lg) in
  fst r = Ok tt /\
  ZObj._z_err (self (snd r)) = Some ea /\
  In (WARNING, "z_err_array shape is not same shape as z"%string)
     (log (snd r)).
Proof.
  intros Hz Hne.
  destruct s as [oz oe ofr ra r0 re0 p0 pe0]. cbn in Hz. subst.
  unfold ZObj._set_z_err, ZObj._get_z, bind, getself, ret, modify, logger.
  cbn -[ZObj.recompute_guarded].
  replace (length ea =? length zs)%nat with false
    by (symmetry; apply Nat.eqb_neq; assumption).
  cbn -[ZObj.recompute_guarded].
  match goal with |- context [ZObj.recompute_guarded ?w] =>
    pose proof (recompute_guarded_returns w) as Hok;
    pose proof (recompute_guarded_same_inputs w) as (_ & He & _ & _ & l & Hl);
    destruct (ZObj.recompute_guarded w) as [res w'] end.
  cbn in Hok, He, Hl |- *. subst res.
  repeat split; auto.
  rewrite Hl. apply in_or_app. left. apply in_or_app. right. left. reflexivity.
Qed.

End ErrorSetter.

Lemma set_z_err_mismatch_sample :
  (ZObj._z (self sample_Z) = Some [z_test] /\
   ZObj._z_err (self sample_Z) = None /\
   length [e_test; e_test] <> length [z_test]) /\
  let r := @ZObj._set_z_err first_order (Some [e_test; e_test])
             (World (self sample_Z) (log sample_Z)) in
  fst r = Ok tt /\
  ZObj._z_err (self (snd r)) = Some [e_test; e_test] /\
  In (WARNING, "z_err_array shape is not same shape as z"%string)
     (log (snd r)).
Proof.
  assert (Hz : ZObj._z (self sample_Z) = Some [z_test])
    by (run; reflexivity).
  assert (He : ZObj._z_err (self sample_Z) = None) by (run; reflexivity).
  assert (Hn : length [e_test; e_test] <> length [z_test])
    by (cbn; lia).
  split; [split; [exact Hz | split; [exact He | exact Hn]]|].
  apply (@set_z_err_stores_mismatched_array first_order (self sample_Z)
           (log sample_Z) [z_test] [e_test; e_test] Hz Hn).
Defined.

(** ** One entry of the loop of [set_res_phase] *)

Section RoundTrip.

Context `{Calculator}.

Lemma set_res_phase_entry_ok w fs rs ps k ii jj acc f rb pb ab :
  ZObj._freq (self w) = Some fs ->
  nth_error fs k = Some f -> nth_error rs k = Some rb ->
  nth_error ps k = Some pb -> nth_error acc k = Some ab ->
  ZObj.set_res_phase_entry rs ps k ii jj acc w
  = (Ok (upd acc k (mset ab ii jj
           (cmath_rect (sqrt (5 * f * mget rb ii jj))
                       (math_radians (mget pb ii jj))))), w).
Proof.
  intros Hfs Hf Hr Hp Ha.
  destruct w as [s lg]. destruct s; cbn in Hfs; subst.
  unfold ZObj.set_res_phase_entry, ZObj.freq_at, ZObj._get_freq, bind, ret, lift,
    getself, ZObj.subscript1, item1, item3, setitem3.
  cbn. rewrite Hf, Hr, Hp, Ha. reflexivity.
Qed.

End RoundTrip.

(** ** Rotation angles (C5) *)

Lemma pymod_add_pymod o a : pymod (o + pymod a 360) 360 = pymod (o + a) 360.
Proof.
  unfold pymod.
  replace ((o + (a - 360 * IZR (Zfloor (a / 360)))) / 360)
    with ((o + a) / 360 + IZR (- Zfloor (a / 360)))
    by (rewrite opp_IZR; field).
  rewrite Zfloor_addz, plus_IZR, opp_IZR. ring.
Qed.

Lemma map_result_accumulate lo : forall old k,
  (k + length old <= length lo)%nat ->
  exists new,
    map_result (fun p : nat * R =>
                  let (ii, oldangle) := p in
                  match item1 lo ii with
                  | Ok a => Ok (pymod (oldangle + a) 360)
                  | Raise e => Raise e
                  end)
               (combine (seq k (length old)) old) = Ok new /\
    length new = length old /\
    forall i o a, nth_error old i = Some o -> nth_error lo (k + i) = Some a ->
                  nth_error new i = Some (pymod (o + a) 360).
Proof.
  induction old as [|o old IH]; intros k Hk; cbn [length seq combine map_result].
  - exists []. repeat split; auto. intros [|i] ? ? E; discriminate E.
  - cbn [length] in Hk.
    destruct (nth_error lo k) as [a|] eqn:Ea;
      [|apply nth_error_None in Ea; lia].
    unfold item1 at 1. rewrite Ea.
    assert (Hk' : (S k + length old <= length lo)%nat) by lia.
    destruct (IH (S k) Hk') as (new & Hm & Hl & Hent).
    rewrite Hm. exists (pymod (o + a) 360 :: new).
    repeat split; cbn; auto.
    intros [|i] o' a' Ho Ha; cbn [nth_error] in Ho |- *.
    + rewrite Nat.add_0_r in Ha. congruence.
    + apply Hent; auto.
      replace (S k + i)%nat with (k + S i)%nat by lia. assumption.
Qed.

Lemma accumulate_ok old lo :
  (length old <= length lo)%nat ->
  exists new,
    ZObj.accumulate (RotArray old) lo = Ok new /\
    length new = length old /\
    forall i o a, nth_error old i = Some o -> nth_error lo i = Some a ->
                  nth_error new i = Some (pymod (o + a) 360).
Proof.
  intro Hl. unfold ZObj.accumulate, enumerate.
  assert (Hk : (0 + length old <= length lo)%nat) by lia.
  destruct (map_result_accumulate lo old 0 Hk) as (new & Hm & Hn & He).
  exists new. repeat split; auto.
Qed.


Section Rotation.

Context `{Calculator}.


End Rotation.


(** With fewer angles than blocks (and not one), the list comprehension
    that advances [rotation_angle] runs out of angles: [rotate] raises
    [IndexError] and [rotation_angle] is the one it was. *)
Lemma accumulate_too_few lo : forall old k,
  (k <= length lo < k + length old)%nat ->
  map_result (fun p : nat * R =>
                let (ii, oldangle) := p in
                match item1 lo ii with
                | Ok a => Ok (pymod (oldangle + a) 360)
                | Raise e => Raise e
                end)
             (combine (seq k (length old)) old) = Raise IndexError.
Proof.
  induction old as [|o old IH]; intros k Hk; cbn [length] in Hk.
  - lia.
  - cbn [length seq combine map_result]. unfold item1 at 1.
    destruct (nth_error lo k) as [a|] eqn:Ea; [|reflexivity].
    assert (Hlt : (k < length lo)%nat) by (apply nth_error_Some; congruence).
    rewrite IH by lia. reflexivity.
Qed.



(** ** Distortion removal (C6) *)

Section Distortion.

Context `{Calculator} `{Lapack}.

Lemma matrix_I_regular D :
  det2 D <> 0 -> exists DI, matrix_I D = Ok DI.
Proof.
  intro Hd. unfold matrix_I. destruct (Req_dec_T (det2 D) 0); [contradiction|].
  eauto.
Qed.

Lemma is_zero_true x : is_zero x = true -> x = 0.
Proof. unfold is_zero. destruct (Req_dec_T x 0); [auto | discriminate]. Qed.

Lemma zero_line_det2 D : zero_line is_zero D = true -> det2 D = 0.
Proof.
  unfold zero_line, det2. intro Hz.
  repeat (apply orb_true_iff in Hz; destruct Hz as [Hz|Hz]);
    apply andb_true_iff in Hz; destruct Hz as [Ha Hb];
    apply is_zero_true in Ha, Hb; rewrite Ha, Hb; ring.
Qed.

(** A matrix with a zero row or a zero column is found singular. *)
Lemma matrix_I_zero_line D :
  zero_line is_zero D = true -> matrix_I D = Raise LinAlgError.
Proof.
  intro Hz. unfold matrix_I. rewrite Hz.
  destruct (Req_dec_T (det2 D) 0) as [|Hd]; [reflexivity|].
  contradiction Hd. apply zero_line_det2. assumption.
Qed.

(** A matrix that numpy finds singular raises [MTpyError_Z]. *)
Lemma remove_distortion_singular s lg D err :
  matrix_I D = Raise LinAlgError ->
  ZObj.remove_distortion (D2 D err) (World s lg)
  = (Raise MTpyError_Z, World s lg).
Proof.
  intro Hd.
  unfold ZObj.remove_distortion, try_except, bind, ret, lift, raise.
  cbn -[matrix_I]. rewrite Hd. reflexivity.
Qed.

Lemma remove_distortion_block_ok s lg zs ea DI DI_err k zc zce z e zcb zceb :
  ZObj._z s = Some zs -> ZObj._z_err s = Some ea ->
  nth_error zs k = Some z -> nth_error ea k = Some e ->
  nth_error zc k = Some zcb -> nth_error zce k = Some zceb ->
  ZObj.remove_distortion_block DI DI_err k (zc, Some zce) (World s lg)
  = (Ok (upd zc k (dot_RC DI z),
         Some (upd zce k (distortion_err_block DI DI_err z e))),
     World s lg).
Proof.
  intros Hz He Hzk Hek Hc Hce.
  unfold ZObj.remove_distortion_block, ZObj.z_at, ZObj.z_err_at, ZObj._get_z,
    ZObj._get_z_err, range2, fold_each, bind, ret, lift, getself,
    ZObj.subscript3, item3, setitem3, block, setblock, item1.
  repeat (progress (cbn beta iota delta [self];
                    rewrite ?Hz, ?He, ?Hzk, ?Hek, ?Hc, ?Hce, ?upd_upd;
                    rewrite ?(nth_error_upd_eq _ _ _ _ Hce))).
  reflexivity.
Qed.

Lemma remove_distortion_loop s lg zs ea DI DI_err m : forall k zc zce,
  ZObj._z s = Some zs -> ZObj._z_err s = Some ea ->
  (k + m <= length zs)%nat -> (k + m <= length ea)%nat ->
  length zc = length zs -> length zce = length ea ->
  fold_each (seq k m) (ZObj.remove_distortion_block DI DI_err)
    (zc, Some zce) (World s lg)
  = (Ok (fill (fun i => dot_RC DI (nth i zs (mconst C0))) (seq k m) zc,
         Some (fill (fun i => distortion_err_block DI DI_err
                                 (nth i zs (mconst C0)) (nth i ea (mconst 0)))
                    (seq k m) zce)),
     World s lg).
Proof.
  induction m; intros k zc zce Hz He Hk Hke Hlc Hle.
  - reflexivity.
  - cbn [seq fold_each]. unfold bind at 1.
    destruct (nth_error zs k) as [z|] eqn:Ez;
      [|apply nth_error_None in Ez; lia].
    destruct (nth_error ea k) as [e|] eqn:Ee;
      [|apply nth_error_None in Ee; lia].
    destruct (nth_error zc k) as [zcb|] eqn:Ec;
      [|apply nth_error_None in Ec; lia].
    destruct (nth_error zce k) as [zceb|] eqn:Ece;
      [|apply nth_error_None in Ece; lia].
    rewrite (remove_distortion_block_ok s lg zs ea DI DI_err k zc zce
               z e zcb zceb) by auto.
    rewrite IHm by (rewrite ?upd_length; auto; lia).
    unfold fill. cbn [fold_left].
    erewrite (nth_error_nth zs), (nth_error_nth ea) by eassumption.
    reflexivity.
Qed.

Lemma matrix_I_identity :
  matrix_I identity2 = Ok (mkMat2 (1 / 1) (- 0 / 1) (- 0 / 1) (1 / 1)).
Proof.
  unfold matrix_I, det2, identity2. cbn.
  destruct (Req_dec_T (1 * 1 - 0 * 0) 0) as [E|E]; [lra|].
  replace (1 * 1 - 0 * 0) with 1 by ring. reflexivity.
Qed.

Lemma dot_identity z :
  dot_RC (mkMat2 (1 / 1) (- 0 / 1) (- 0 / 1) (1 / 1)) z = z.
Proof.
  destruct z as [[a b] [c d] [e f] [g h]].
  unfold dot_RC, Cadd, Cscale. cbn. f_equal; apply C_eq; cbn; field.
Qed.

Lemma distortion_err_identity z e :
  0 <= m00 e -> 0 <= m01 e -> 0 <= m10 e -> 0 <= m11 e ->
  distortion_err_block (mkMat2 (1 / 1) (- 0 / 1) (- 0 / 1) (1 / 1))
    (mconst 0) z e = e.
Proof.
  intros H00 H01 H10 H11. destruct e as [a b c d]. cbn in *.
  unfold distortion_err_block, distortion_err_value. cbn.
  rewrite !np_abs_Cscale_0, !np_abs_RtoC.
  replace (1 / 1 * a) with a by field. replace (1 / 1 * b) with b by field.
  replace (1 / 1 * c) with c by field. replace (1 / 1 * d) with d by field.
  replace (- 0 / 1 * a) with 0 by field. replace (- 0 / 1 * b) with 0 by field.
  replace (- 0 / 1 * c) with 0 by field. replace (- 0 / 1 * d) with 0 by field.
  rewrite Rabs_R0, !Rabs_pos_eq by assumption.
  f_equal; ring.
Qed.

(** With the identity and no distortion error, on a tensor that has its
    errors, [remove_distortion] returns the tensor and the errors. *)
Lemma remove_distortion_identity s lg zs ea :
  snd (invertmatrix_incl_errors identity2 (mconst 0)) = mconst 0 ->
  ZObj._z s = Some zs -> ZObj._z_err s = Some ea ->
  length ea = length zs -> Forall nonneg_block ea ->
  ZObj.remove_distortion (D2 identity2 None) (World s lg)
  = (Ok (identity2, zs, Some ea), World s lg).
Proof.
  intros Hinv Hz He Hlen Hnn.
  pose proof (remove_distortion_loop s lg zs ea
    (mkMat2 (1 / 1) (- 0 / 1) (- 0 / 1) (1 / 1)) (mconst 0)
    (length zs) 0 (map (fun _ => mconst C0) zs) (zeros_like3 ea) Hz He) as Hloop.
  rewrite length_map, zeros_like3_length in Hloop.
  specialize (Hloop ltac:(lia) ltac:(lia) eq_refl eq_refl).
  unfold ZObj.remove_distortion, ZObj._get_z, ZObj._get_z_err, ZObj.len, range,
    try_except, bind, getself, ret, lift.
  cbn beta iota delta [self exn_eqb]. rewrite matrix_I_identity.
  cbn beta iota.
  destruct (invertmatrix_incl_errors identity2 (mconst 0)) as [dummy DI_err].
  cbn [snd] in Hinv. subst DI_err.
  repeat (progress (cbn beta iota delta [self]; rewrite ?Hz, ?He)).
  rewrite Hloop. cbn [fst snd]. repeat f_equal.
  - apply nth_error_ext. intro i. rewrite fill_nth_error by (rewrite length_map; lia).
    destruct (Nat.leb_spec 0 i), (Nat.ltb_spec i (0 + length zs));
      cbn [andb]; try lia.
    + rewrite dot_identity. symmetry. apply nth_error_nth'. lia.
    + rewrite nth_error_map.
      assert (E : nth_error zs i = None) by (apply nth_error_None; lia).
      rewrite E. reflexivity.
  - apply nth_error_ext. intro i.
    rewrite fill_nth_error by (rewrite zeros_like3_length; lia).
    destruct (Nat.leb_spec 0 i), (Nat.ltb_spec i (0 + length zs));
      cbn [andb]; try lia.
    + assert (Ei : nth_error ea i = Some (nth i ea (mconst 0)))
        by (apply nth_error_nth'; lia).
      rewrite Ei. f_equal.
      rewrite Forall_forall in Hnn.
      destruct (Hnn _ (nth_error_In _ _ Ei)) as (? & ? & ? & ?).
      apply distortion_err_identity; assumption.
    + unfold zeros_like3. rewrite nth_error_map.
      assert (E : nth_error ea i = None) by (apply nth_error_None; lia).
      rewrite E. reflexivity.
Qed.

End Distortion.

Section DistortionClaim.

Context `{Calculator} `{Lapack}.

(** C6, on the code.  On an object that holds a tensor (one block at
    least) and no tensor error, [remove_distortion] with an invertible
    matrix (the identity is one) raises [TypeError] at the first entry of
    the error loop, which reads [self.z_err[idx_f, 0, jj]]: nothing is
    returned.  (A matrix that numpy finds singular raises [MTpyError_Z]:
    [remove_distortion_singular]; on a tensor with its errors the identity
    returns tensor and errors: [remove_distortion_identity].) *)
Theorem remove_distortion_without_error s lg zs D err :
  ZObj._z s = Some zs -> zs <> [] -> ZObj._z_err s = None -> det2 D <> 0 ->
  ZObj.remove_distortion (D2 D err) (World s lg)
  = (Raise TypeError, World s lg).
Proof.
  intros Hz Hne He Hd.
  destruct (matrix_I_regular D Hd) as (DI & HDI).
  destruct s as [oz oe ofr ra r0 re0 p0 pe0]. cbn in Hz, He. subst.
  destruct zs as [|z zs]; [contradiction|].
  unfold ZObj.remove_distortion, try_except, bind, ret, lift, raise.
  cbn. rewrite HDI. cbn.
  destruct (invertmatrix_incl_errors _ _) as [dummy DI_err].
  reflexivity.
Qed.

End DistortionClaim.

Lemma remove_distortion_without_error_sample :
  (ZObj._z (self sample_Z) = Some [z_test] /\
   [z_test] <> [] /\
   ZObj._z_err (self sample_Z) = None /\
   det2 identity2 <> 0) /\
  @ZObj.remove_distortion first_order exact_pivots (D2 identity2 None)
    (World (self sample_Z) (log sample_Z))
  = (Raise TypeError, World (self sample_Z) (log sample_Z)).
Proof.
  assert (Hz : ZObj._z (self sample_Z) = Some [z_test])
    by (run; reflexivity).
  assert (Hn : [z_test] <> []) by discriminate.
  assert (He : ZObj._z_err (self sample_Z) = None) by (run; reflexivity).
  assert (Hd : det2 identity2 <> 0)
    by (unfold det2, identity2; cbn [m00 m01 m10 m11]; lra).
  split.
  { split; [exact Hz|]. split; [exact Hn|]. split; [exact He | exact Hd]. }
  apply (@remove_distortion_without_error first_order exact_pivots (self sample_Z)
           (log sample_Z) [z_test] identity2 None Hz Hn He Hd).
Defined.

(** ** Static shift (C7) *)

Lemma ss_reapplied fx fy z :
  0 < fx -> 0 < fy -> dot_RC (ss_matrix fx fy) (ss_corrected fx fy z) = z.
Proof.
  intros Hx Hy.
  pose proof (sqrt_lt_R0 fx Hx). pose proof (sqrt_lt_R0 fy Hy).
  destruct z as [[a b] [c d] [e f] [g h]].
  unfold dot_RC, ss_matrix, ss_corrected, Cadd, Cscale, Cdivr. cbn.
  f_equal; apply C_eq; cbn; field; lra.
Qed.

Section StaticShift.

Context `{Calculator}.

Lemma remove_ss_body s lg zs fx fy n k zc ss z zcb ssb :
  ZObj._z s = Some zs -> nth_error zs k = Some z -> (k < n)%nat ->
  nth_error zc k = Some zcb -> nth_error ss k = Some ssb ->
  ZObj.remove_ss_block (repeat fx n) (repeat fy n) k (zc, ss) (World s lg)
  = (Ok (upd zc k (ss_corrected fx fy z),
         upd ss k (mset (mset ssb i0 i0 (sqrt fx)) i1 i1 (sqrt fy))),
     World s lg).
Proof.
  intros Hz Hzk Hk Hc Hs.
  assert (Hrx : nth_error (repeat fx n) k = Some fx)
    by (apply nth_error_repeat; assumption).
  assert (Hry : nth_error (repeat fy n) k = Some fy)
    by (apply nth_error_repeat; assumption).
  unfold ZObj.remove_ss_block, ZObj.z_at, ZObj._get_z, bind, ret, lift,
    getself, ZObj.subscript3, item3, item1, setitem3.
  cbn beta iota delta [self]. rewrite Hz, Hzk, Hrx, Hry, Hc, Hs.
  repeat (progress (cbn beta iota; rewrite ?upd_upd, ?Hrx, ?Hry;
                    rewrite ?(nth_error_upd_eq _ _ _ _ Hc);
                    rewrite ?(nth_error_upd_eq _ _ _ _ Hs))).
  reflexivity.
Qed.

Lemma remove_ss_loop s lg zs fx fy n m : forall k zc ss,
  ZObj._z s = Some zs -> (k + m <= length zs)%nat -> (k + m <= n)%nat ->
  length zc = length zs -> length ss = length zs ->
  fold_each (seq k m) (ZObj.remove_ss_block (repeat fx n) (repeat fy n))
    (zc, ss) (World s lg)
  = (Ok (fill (fun i => ss_corrected fx fy (nth i zs (mconst C0))) (seq k m) zc,
         fillmap (fun b => mset (mset b i0 i0 (sqrt fx)) i1 i1 (sqrt fy))
                 (seq k m) ss),
     World s lg).
Proof.
  induction m; intros k zc ss Hz Hk Hn Hlc Hls.
  - reflexivity.
  - cbn [seq fold_each]. unfold bind at 1.
    destruct (nth_error zs k) as [z|] eqn:Ez;
      [|apply nth_error_None in Ez; lia].
    destruct (nth_error zc k) as [zcb|] eqn:Ec;
      [|apply nth_error_None in Ec; lia].
    destruct (nth_error ss k) as [ssb|] eqn:Es;
      [|apply nth_error_None in Es; lia].
    rewrite (remove_ss_body s lg zs fx fy n k zc ss z zcb ssb) by (auto; lia).
    rewrite IHm by (rewrite ?upd_length; auto; lia).
    unfold fill, fillmap. cbn [fold_left]. rewrite Es.
    erewrite (nth_error_nth zs) by eassumption. reflexivity.
Qed.

(** [remove_ss] with scalar factors: the tensor is left as it is, and the
    static-shift matrix times the corrected block is the block. *)
Lemma remove_ss_scalar s lg zs fx fy :
  ZObj._z s = Some zs -> 0 < fx -> 0 < fy ->
  exists S Z0,
    ZObj.remove_ss (Scalar fx) (Scalar fy) (World s lg)
    = (Ok (Some (S, Z0)), World s lg) /\
    length S = length zs /\ length Z0 = length zs /\
    forall i z, nth_error zs i = Some z ->
      nth_error S i = Some (ss_matrix fx fy) /\
      exists z0, nth_error Z0 i = Some z0 /\ dot_RC (ss_matrix fx fy) z0 = z.
Proof.
  intros Hz Hx Hy.
  pose proof (remove_ss_loop s lg zs fx fy (length zs) (length zs) 0 zs
                (repeat (mconst 0) (length zs)) Hz) as Hloop.
  rewrite repeat_length in Hloop.
  specialize (Hloop ltac:(lia) ltac:(lia) eq_refl eq_refl).
  exists (fillmap (fun b => mset (mset b i0 i0 (sqrt fx)) i1 i1 (sqrt fy))
            (seq 0 (length zs)) (repeat (mconst 0) (length zs))),
    (fill (fun i => ss_corrected fx fy (nth i zs (mconst C0)))
          (seq 0 (length zs)) zs).
  split; [|split; [|split]].
  - unfold ZObj.remove_ss, ZObj.lo_factors, ZObj._get_z, ZObj.len, range.
    unfold bind, getself, ret, lift.
    repeat (progress (cbn beta iota delta [self negb];
                      rewrite ?Hz, ?repeat_length, ?Nat.eqb_refl)).
    rewrite Hloop. reflexivity.
  - rewrite fillmap_length, repeat_length; reflexivity.
  - apply fill_length.
  - intros i z Hi.
    assert (Hlt : (i < length zs)%nat) by (apply nth_error_Some; congruence).
    split.
    + rewrite fillmap_nth_error by (rewrite repeat_length; lia).
      destruct (Nat.leb_spec 0 i), (Nat.ltb_spec i (0 + length zs));
        cbn [andb]; try lia.
      rewrite nth_error_repeat by assumption. reflexivity.
    + rewrite fill_nth_error by lia.
      destruct (Nat.leb_spec 0 i), (Nat.ltb_spec i (0 + length zs));
        cbn [andb]; try lia.
      eexists; split; [reflexivity|].
      erewrite (nth_error_nth zs) by eassumption.
      apply ss_reapplied; assumption.
Qed.

End StaticShift.

Section StaticShiftClaim.

Context `{Calculator}.

(** C7, on the code.  [remove_ss] handed an array of factors that has
    not exactly one entry, for x or for y, raises [UnboundLocalError] and
    returns nothing: that branch repeats the local [x_factor]
    ([y_factor]), which only the other branches assign.  (With scalar
    factors the claim holds: [remove_ss_scalar].) *)
Theorem remove_ss_with_factor_arrays s lg lx ly a fy :
  (length lx <> 1)%nat -> (length ly <> 1)%nat -> ZObj._z s <> None ->
  ZObj.remove_ss (Seq lx) fy (World s lg)
    = (Raise UnboundLocalError, World s lg) /\
  ZObj.remove_ss (Scalar a) (Seq ly) (World s lg)
    = (Raise UnboundLocalError, World s lg).
Proof.
  intros Hx Hy Hz. split.
  - destruct lx as [|x [|x' lx]]; cbn in Hx; try lia; reflexivity.
  - destruct s as [[zs|] oe ofr ra r0 re0 p0 pe0]; [|contradiction Hz; reflexivity].
    unfold ZObj.remove_ss, ZObj.lo_factors, ZObj._get_z, ZObj.len, bind, ret,
      lift, getself, raise.
    cbn. rewrite repeat_length, Nat.eqb_refl. cbn.
    destruct ly as [|y [|y' ly]]; cbn in Hy; try lia; reflexivity.
Qed.

End StaticShiftClaim.

Lemma remove_ss_with_factor_arrays_sample :
  ((length [2; 3] <> 1)%nat /\ ZObj._z (self sample_Z3) <> None) /\
  ZObj.remove_ss (Seq [2; 3]) (Seq [2; 3])
    (World (self sample_Z3) (log sample_Z3))
    = (Raise UnboundLocalError, World (self sample_Z3) (log sample_Z3)) /\
  ZObj.remove_ss (Scalar 2) (Seq [2; 3])
    (World (self sample_Z3) (log sample_Z3))
    = (Raise UnboundLocalError, World (self sample_Z3) (log sample_Z3)).
Proof.
  assert (Hl : (length [2; 3] <> 1)%nat) by (cbn; lia).
  assert (Hz : ZObj._z (self sample_Z3) <> None)
    by (run; discriminate).
  split; [split; assumption|].
  apply (remove_ss_with_factor_arrays (self sample_Z3)
           (log sample_Z3) [2; 3] [2; 3] 2 (Seq [2; 3]) Hl Hl Hz).
Defined.

(** ** 1-D and 2-D forms (C8) *)

Lemma only1d_blocks s lg zs :
  ZObj._z s = Some zs ->
  ZObj._get_only1d (World s lg) = (Ok (map only1d_block zs), World s lg).
Proof.
  intro Hz. unfold ZObj._get_only1d, ZObj.len.
  unfold bind at 1. cbn [getself self]. rewrite Hz.
  unfold bind at 1. cbn [lift]. unfold bind at 1. cbn [lift]. unfold range.
  rewrite <- fillmap_all.
  apply fold_each_fillmap with (f := only1d_block); [|lia].
  intros i acc b Hb.
  unfold bind, lift, item3, setitem3. rewrite Hb.
  repeat (progress (cbn beta iota; rewrite ?upd_upd;
                    rewrite ?(nth_error_upd_eq _ _ _ _ Hb))).
  reflexivity.
Qed.

Lemma only2d_blocks s lg zs :
  ZObj._z s = Some zs ->
  ZObj._get_only2d (World s lg) = (Ok (map only2d_block zs), World s lg).
Proof.
  intro Hz. unfold ZObj._get_only2d, ZObj.len.
  unfold bind at 1. cbn [getself self]. rewrite Hz.
  unfold bind at 1. cbn [lift]. unfold bind at 1. cbn [lift]. unfold range.
  rewrite <- fillmap_all.
  apply fold_each_fillmap with (f := only2d_block); [|lia].
  intros i acc b Hb.
  unfold bind, lift, item3, setitem3. rewrite Hb.
  repeat (progress (cbn beta iota; rewrite ?upd_upd;
                    rewrite ?(nth_error_upd_eq _ _ _ _ Hb))).
  reflexivity.
Qed.

(** C8, on the code.  [only1d] of the tensor [[0, 1+1j], [-1-1j, 0]],
    whose off-diagonal entries both have the absolute value [sqrt 2]: the
    two off-diagonal entries returned are 0, since the code takes the
    mean of the entries, [0.5 * (z10 + z01)], where its documentation
    says the mean of their absolute values.  The stored tensor is left as
    it was.  (What [only1d] and [only2d] return in general:
    [only1d_blocks], [only2d_blocks].) *)

Theorem only1d_of_a_1d_tensor `{Calculator} :
  let w := snd (new_Z (Some (Single z_test)) None (Some [1])) in
  let r := ZObj._get_only1d w in
  ZObj._z (self w) = Some [z_test] /\
  fst r = Ok [mkMat2 C0 C0 C0 C0] /\
  snd r = w /\
  np_abs (m01 z_test) = sqrt 2 /\ np_abs (m10 z_test) = sqrt 2 /\ 0 < sqrt 2.
Proof.
  cbn zeta.
  assert (Hz : ZObj._z (self (snd (new_Z (Some (Single z_test)) None
                                      (Some [1])))) = Some [z_test]).
  { pose proof (compute_res_phase_same_inputs
      (World (ZObj.mk (Some [z_test]) None (Some [1]) (RotArray [0])
                None None None None) [])) as (Hz & _).
    unfold new_Z. rewrite init_runs_compute. exact Hz. }
  split; [exact Hz|].
  destruct (snd (new_Z _ _ _)) as [s lg] eqn:Ew. cbn [self] in Hz.
  rewrite (only1d_blocks s lg [z_test] Hz). cbn [fst snd map].
  repeat split.
  - unfold only1d_block, z_test. cbn [m00 m01 m10 m11].
    unfold Cmul, Cscale, Cadd, C0. cbn [Re Im].
    do 2 f_equal; f_equal; apply C_eq; cbn [Re Im]; ring.
  - unfold z_test, np_abs; cbn [m01 Re Im]. f_equal; lra.
  - unfold z_test, np_abs; cbn [m10 Re Im]. f_equal; lra.
  - apply sqrt_lt_R0. lra.
Qed.

(** ** The induction arrows of the tipper (C9) *)

(** C9, on the code.  The constructor of [Tipper] stores its arguments
    and leaves [angle_real] (with the other derived attributes) [None]:
    it does not call [_compute_mag_direction], as the constructor of [Z]
    calls [_compute_res_phase].  So for
    [Tipper(tipper_array=[[[0.1+0j, 0.2+0j]]], freq=[1])] as for any
    other arguments, [angle_real] is not the angle of the claim.  (Once
    [_compute_mag_direction] has run, [angle_real] is
    [arctan2(-Re(Ty), -Re(Tx))] in degrees at every index:
    [compute_mag_direction_angle_real].) *)

Theorem Tipper_init_leaves_angle_real_absent `{Calculator} ta te fq :
  let r := new_Tipper ta te fq in
  fst r = Ok tt /\
  TipperObj._tipper (self (snd r)) = ta /\
  TipperObj.angle_real (self (snd r)) = None /\
  TipperObj.angle_imag (self (snd r)) = None /\
  TipperObj.mag_real (self (snd r)) = None /\
  TipperObj.mag_imag (self (snd r)) = None.
Proof.
  destruct ta; repeat split; reflexivity.
Qed.

Lemma compute_mag_direction_angle_real `{Calculator} st lg ta :
  TipperObj._tipper st = Some ta ->
  let r := TipperObj._compute_mag_direction (World st lg) in
  fst r = Ok tt /\
  TipperObj.angle_real (self (snd r))
  = Some (map (fun v => math_degrees (np_arctan2_neg (Re (v1 v)) (Re (v0 v)))) ta).
Proof.
  intro Ht. destruct st as [ot oe]. cbn [TipperObj._tipper] in Ht. subst ot.
  unfold TipperObj._compute_mag_direction, TipperObj._get_tipper,
    TipperObj._get_tipper_err, bind, getself, ret, modify.
  destruct oe; split; reflexivity.
Qed.

(** After [_compute_mag_direction] the sample tipper has the angle of the
    scenario. *)
Lemma sample_Tipper_angle_real :
  TipperObj.angle_real
    (self (snd (TipperObj._compute_mag_direction sample_Tipper)))
  = Some [math_degrees (atan2 (- (0.2)) (- (0.1)))].
Proof.
  run. destruct (Req_dec_T _ 0) as [E|E]; [lra | reflexivity].
Qed.

(** ** The array handed out by [freq] (C10) *)

Module FreqStoreFacts.

Import FreqStore.
Lemma setitem_other h r1 r i v :
  r1 <> r -> read (setitem h r1 i v) r = read h r.
Proof.
  intro Hne. unfold setitem, read.
  destruct (nth_error h r1); [|reflexivity].
  destruct (i <? length l)%nat; [|reflexivity].
  apply nth_error_upd_neq. assumption.
Qed.

Lemma setitems_other ws : forall h r1 r,
  r1 <> r -> read (setitems h r1 ws) r = read h r.
Proof.
  unfold setitems. induction ws as [|[i v] ws IH]; intros h r1 r Hne; cbn.
  - reflexivity.
  - rewrite IH by assumption. apply setitem_other. assumption.
Qed.

Lemma read_np_array_old h a r :
  (r < length h)%nat -> read (snd (np_array h a)) r = read h r.
Proof. intro Hr. unfold np_array, read. cbn. apply nth_error_app1. assumption. Qed.

Lemma read_np_array_new h a :
  read (snd (np_array h a)) (fst (np_array h a)) = Some a.
Proof.
  unfold np_array, read. cbn. rewrite nth_error_app2 by lia.
  rewrite Nat.sub_diag. reflexivity.
Qed.

Section Copy.

Context `{Calculator}.

(** C10.  On an object whose frequencies are set, [_get_freq] hands out
    an array that is not the stored one and holds the same entries;
    whatever is then written into the array handed out, the stored
    frequencies, the object as its methods see it and the result of
    [_compute_res_phase] are what they were; a second read hands out
    another array with the same entries again. *)
Theorem get_freq_hands_out_a_copy (o : zref) (h : store) r a :
  _freq o = Some r -> read h r = Some a ->
  exists r1 h1,
    _get_freq o h = (Some r1, h1) /\
    r1 <> r /\ read h1 r1 = Some a /\ read h1 r = Some a /\
    (* whatever is written into the array handed out *)
    (forall ws lg,
        let h2 := setitems h1 r1 ws in
        read h2 r = Some a /\
        view o h2 = view o h /\
        ZObj._compute_res_phase (World (view o h2) lg)
        = ZObj._compute_res_phase (World (view o h) lg)) /\
    (* a second read *)
    exists r2 h3,
      _get_freq o h1 = (Some r2, h3) /\ read h3 r2 = Some a /\
      read h3 r1 = Some a.
Proof.
  intros Hf Hr.
  assert (Hlt : (r < length h)%nat) by (apply nth_error_Some; unfold read in Hr; congruence).
  exists (length h), (h ++ [a]).
  assert (Hnew : read (h ++ [a]) (length h) = Some a)
    by apply (read_np_array_new h a).
  assert (Hold : read (h ++ [a]) r = Some a)
    by (rewrite <- Hr; apply (read_np_array_old h a r Hlt)).
  unfold _get_freq. rewrite Hf, Hr. cbn [np_array].
  split; [reflexivity|]. split; [lia|]. split; [exact Hnew|].
  split; [exact Hold|]. split.
  - intros ws lg. cbn zeta.
    assert (Hsame : read (setitems (h ++ [a]) (length h) ws) r = Some a)
      by (rewrite setitems_other by lia; exact Hold).
    assert (Hview : view o (setitems (h ++ [a]) (length h) ws) = view o h)
      by (unfold view; rewrite Hf, Hsame, Hr; reflexivity).
    rewrite Hview. auto.
  - rewrite Hold.
    exists (length (h ++ [a])), ((h ++ [a]) ++ [a]).
    split; [reflexivity|]. split.
    + apply (read_np_array_new (h ++ [a]) a).
    + rewrite <- Hnew. apply (read_np_array_old (h ++ [a]) a).
      rewrite length_app. cbn. lia.
Qed.

End Copy.

Lemma get_freq_sample :
  (FreqStore._freq sample_zref = Some 0%nat /\
   FreqStore.read sample_store 0%nat = Some [1; 2]) /\
  exists r1 h1,
    FreqStore._get_freq sample_zref sample_store = (Some r1, h1) /\
    r1 <> 0%nat /\
    FreqStore.read (FreqStore.setitems h1 r1 [(0%nat, 99)]) 0%nat
    = Some [1; 2].
Proof.
  assert (Hf : FreqStore._freq sample_zref = Some 0%nat) by reflexivity.
  assert (Hr : FreqStore.read sample_store 0%nat = Some [1; 2])
    by reflexivity.
  split; [split; assumption|].
  destruct (@get_freq_hands_out_a_copy first_order sample_zref sample_store
              0%nat [1; 2] Hf Hr)
    as (r1 & h1 & Hg & Hne & _ & _ & Hw & _).
  exists r1, h1. split; [exact Hg|]. split; [exact Hne|].
  destruct (Hw [(0%nat, 99)] []) as (Hread & _). exact Hread.
Defined.

End FreqStoreFacts.

(** * Further properties *)

(** ** Sensor orientation *)

Lemma radians_0 : math_radians 0 = 0.
Proof. unfold math_radians. ring. Qed.

Lemma radians_90 : math_radians 90 = PI / 2.
Proof. unfold math_radians. pose proof PI_neq0. field. Qed.

Lemma det2_sensor_basis x y :
  det2 (sensor_basis x y) = sin (math_radians y - math_radians x).
Proof.
  unfold det2, sensor_basis. cbn [m00 m01 m10 m11].
  rewrite sin_minus. ring.
Qed.

Lemma sensor_basis_default : sensor_basis 0 90 = identity2.
Proof.
  unfold sensor_basis, identity2.
  rewrite radians_0, radians_90, cos_0, sin_0, cos_PI2, sin_PI2. reflexivity.
Qed.

Lemma dot_CR_cancel z U :
  det2 U <> 0 ->
  dot_CR (dot_CR z (mkMat2 (m11 U / det2 U) (- m01 U / det2 U)
                           (- m10 U / det2 U) (m00 U / det2 U))) U = z.
Proof.
  intro Hd.
  destruct z as [[a b] [c d] [e f] [g h]], U as [u00 u01 u10 u11].
  unfold det2 in *. cbn [m00 m01 m10 m11] in *.
  unfold dot_CR, Cadd, Cscale. cbn [m00 m01 m10 m11 Re Im].
  f_equal; apply C_eq; cbn [Re Im]; field; assumption.
Qed.

Lemma dot_RC_CR_assoc T z U :
  dot_CR (dot_RC T z) U = dot_RC T (dot_CR z U).
Proof.
  destruct z as [[a b] [c d] [e f] [g h]], U as [u00 u01 u10 u11],
    T as [t00 t01 t10 t11].
  unfold dot_CR, dot_RC, Cadd, Cscale. cbn [m00 m01 m10 m11 Re Im].
  f_equal; apply C_eq; cbn [Re Im]; ring.
Qed.

(** The function inverts the basis of the B sensors and nothing else. *)
Lemma correct4sensor_run `{Lapack} zp Bx By Ex Ey e :
  correct4sensor_orientation (Single zp) Bx By Ex Ey (option_map Single e)
  = match matrix_I (sensor_basis Bx By) with
    | Ok UI => Ok (dot_RC (sensor_basis Ex Ey) (dot_CR zp UI), e)
    | Raise _ => Raise MTpyError_inputarguments
    end.
Proof.
  unfold correct4sensor_orientation, cmath_rect, sensor_basis. cbn [Re Im].
  rewrite !Rmult_1_l. destruct e; reflexivity.
Qed.

(** X1.  [correct4sensor_orientation] with sensors [Bx], [By] that are
    not parallel (the sine of the angle between them is not zero)
    returns [Z] with [Z * U = T * Z'], where the columns of [T] and [U]
    are the directions of the E and of the B sensors: [Z = T * Z' * U^-1].
    The error handed in is returned as it is. *)
Theorem correct4sensor_change_of_basis `{Lapack} zp Bx By Ex Ey e :
  sin (math_radians By - math_radians Bx) <> 0 ->
  exists z,
    correct4sensor_orientation (Single zp) Bx By Ex Ey (option_map Single e)
    = Ok (z, e) /\
    dot_CR z (sensor_basis Bx By) = dot_RC (sensor_basis Ex Ey) zp.
Proof.
  intro Hs. rewrite <- det2_sensor_basis in Hs.
  rewrite correct4sensor_run.
  unfold matrix_I. destruct (Req_dec_T (det2 (sensor_basis Bx By)) 0) as [|Hd];
    [contradiction|].
  eexists. split; [reflexivity|].
  rewrite dot_RC_CR_assoc. f_equal. apply dot_CR_cancel. exact Hd.
Qed.

Lemma correct4sensor_change_of_basis_sample :
  sin (math_radians 90 - math_radians 0) <> 0 /\
  exists z,
    @correct4sensor_orientation exact_pivots (Single z_test) 0 90 30 120
      (option_map Single None)
    = Ok (z, None) /\
    dot_CR z (sensor_basis 0 90) = dot_RC (sensor_basis 30 120) z_test.
Proof.
  assert (Hs : sin (math_radians 90 - math_radians 0) <> 0).
  { rewrite radians_0, radians_90, Rminus_0_r, sin_PI2. lra. }
  split; [exact Hs|].
  apply (@correct4sensor_change_of_basis exact_pivots z_test 0 90 30 120
           None Hs).
Defined.


(** X3.  With the default orientations [Bx=0, By=90, Ex=0, Ey=90] the
    function returns the tensor and the error it was handed. *)
Theorem correct4sensor_default_angles `{Lapack} zp e :
  correct4sensor_orientation (Single zp) 0 90 0 90 (option_map Single e)
  = Ok (zp, e).
Proof.
  rewrite correct4sensor_run, sensor_basis_default, matrix_I_identity.
  do 2 f_equal.
  destruct zp as [[a b] [c d] [e' f] [g h]].
  unfold dot_CR, dot_RC, identity2, Cadd, Cscale. cbn [m00 m01 m10 m11 Re Im].
  f_equal; apply C_eq; cbn [Re Im]; field.
Qed.

(** ** The inverse of the tensor *)

Lemma fold_each_fill {O A} (blk : nat -> A)
  (body : nat -> list A -> M O (list A)) (w : world O) n :
  (forall i acc, (i < n)%nat -> length acc = n ->
                 body i acc w = (Ok (upd acc i (blk i)), w)) ->
  forall m k acc, (k + m <= n)%nat -> length acc = n ->
    fold_each (seq k m) body acc w = (Ok (fill blk (seq k m) acc), w).
Proof.
  intros Hb. induction m; intros k acc Hk Hl.
  - reflexivity.
  - cbn [seq fold_each]. unfold bind.
    rewrite Hb by (auto; lia).
    rewrite IHm by (rewrite ?upd_length; auto; lia).
    reflexivity.
Qed.

Lemma fill_all {A} (blk : A -> A) (l : list A) i x d :
  nth_error l i = Some x ->
  nth_error (fill (fun j => blk (nth j l d)) (seq 0 (length l)) l) i
  = Some (blk x).
Proof.
  intro Hi.
  assert (i < length l)%nat by (apply nth_error_Some; congruence).
  rewrite fill_nth_error by lia.
  destruct (Nat.leb_spec 0 i), (Nat.ltb_spec i (0 + length l)); cbn [andb];
    try lia.
  erewrite nth_error_nth by eassumption. reflexivity.
Qed.

Lemma matrix_I_C_regular `{Lapack} z :
  np_linalg_det z <> C0 -> matrix_I_C z = Ok (inverse_of z).
Proof.
  intro Hd. unfold matrix_I_C.
  destruct (Req_dec_T (Re (np_linalg_det z)) 0) as [Er|Er];
    destruct (Req_dec_T (Im (np_linalg_det z)) 0) as [Ei|Ei];
    try reflexivity.
  exfalso. apply Hd. apply C_eq; assumption.
Qed.

Lemma is_zero_C_true z : is_zero_C z = true -> z = C0.
Proof.
  unfold is_zero_C, is_zero. intro Hz. apply C_eq; cbn [C0 Re Im].
  - destruct (Req_dec_T (Re z) 0); [assumption | discriminate].
  - destruct (Req_dec_T (Re z) 0); [|discriminate].
    destruct (Req_dec_T (Im z) 0); [assumption | discriminate].
Qed.

Lemma zero_line_det z : zero_line is_zero_C z = true -> np_linalg_det z = C0.
Proof.
  unfold zero_line, np_linalg_det. intro Hz.
  repeat (apply orb_true_iff in Hz; destruct Hz as [Hz|Hz]);
    apply andb_true_iff in Hz; destruct Hz as [Ha Hb];
    apply is_zero_C_true in Ha, Hb; rewrite Ha, Hb;
    apply C_eq; unfold Cadd, Cmul, Copp, C0; cbn [Re Im]; ring.
Qed.

(** A block with a zero row or a zero column is found singular. *)
Lemma matrix_I_C_zero_line `{Lapack} z :
  zero_line is_zero_C z = true -> matrix_I_C z = Raise LinAlgError.
Proof.
  intro Hz. unfold matrix_I_C. rewrite (zero_line_det z Hz), Hz.
  cbn [C0 Re Im].
  destruct (Req_dec_T 0 0) as [|E]; [reflexivity | contradiction E; reflexivity].
Qed.

(** The inverse raises nothing but [LinAlgError]. *)
Lemma matrix_I_C_raises `{Lapack} z e :
  matrix_I_C z = Raise e -> e = LinAlgError.
Proof.
  unfold matrix_I_C.
  destruct (Req_dec_T (Re (np_linalg_det z)) 0);
    destruct (Req_dec_T (Im (np_linalg_det z)) 0); try discriminate.
  destruct (zero_line is_zero_C z); [congruence|].
  destruct (inv_singular_C z); [discriminate | congruence].
Qed.

Lemma Cmul_Cdiv a x d : Cmul a (Cdiv x d) = Cdiv (Cmul a x) d.
Proof. apply C_eq; unfold Cmul, Cdiv, Rdiv; cbn [Re Im]; ring. Qed.

Lemma Cdiv_Cmul x a d : Cmul (Cdiv x d) a = Cdiv (Cmul x a) d.
Proof. apply C_eq; unfold Cmul, Cdiv, Rdiv; cbn [Re Im]; ring. Qed.

Lemma Cadd_Cdiv x y d : Cadd (Cdiv x d) (Cdiv y d) = Cdiv (Cadd x y) d.
Proof. apply C_eq; unfold Cadd, Cdiv, Rdiv; cbn [Re Im]; ring. Qed.

Lemma Cdiv_same d : d <> C0 -> Cdiv d d = RtoC 1.
Proof.
  intro Hd.
  assert (Hn : Re d * Re d + Im d * Im d <> 0).
  { intro E. apply Hd. apply C_eq; cbn [C0 Re Im]; nra. }
  apply C_eq; unfold Cdiv, RtoC; cbn [Re Im]; field; exact Hn.
Qed.

Lemma Cdiv_zero x d : Re x = 0 -> Im x = 0 -> Cdiv x d = C0.
Proof.
  intros Hr Hi. apply C_eq; unfold Cdiv, C0, Rdiv; cbn [Re Im];
    rewrite Hr, Hi; ring.
Qed.

Lemma inverse_of_right z :
  np_linalg_det z <> C0 -> dot_CC z (inverse_of z) = identity2C.
Proof.
  intro Hd. unfold dot_CC, inverse_of, identity2C.
  cbn [m00 m01 m10 m11]. rewrite !Cmul_Cdiv, !Cadd_Cdiv.
  f_equal.
  - rewrite <- (Cdiv_same _ Hd). f_equal.
    apply C_eq; unfold np_linalg_det, Cadd, Cmul, Copp; cbn [Re Im]; ring.
  - apply Cdiv_zero; unfold Cadd, Cmul, Copp; cbn [Re Im]; ring.
  - apply Cdiv_zero; unfold Cadd, Cmul, Copp; cbn [Re Im]; ring.
  - rewrite <- (Cdiv_same _ Hd). f_equal.
    apply C_eq; unfold np_linalg_det, Cadd, Cmul, Copp; cbn [Re Im]; ring.
Qed.

Lemma inverse_of_left z :
  np_linalg_det z <> C0 -> dot_CC (inverse_of z) z = identity2C.
Proof.
  intro Hd. unfold dot_CC, inverse_of, identity2C.
  cbn [m00 m01 m10 m11]. rewrite !Cdiv_Cmul, !Cadd_Cdiv.
  f_equal.
  - rewrite <- (Cdiv_same _ Hd). f_equal.
    apply C_eq; unfold np_linalg_det, Cadd, Cmul, Copp; cbn [Re Im]; ring.
  - apply Cdiv_zero; unfold Cadd, Cmul, Copp; cbn [Re Im]; ring.
  - apply Cdiv_zero; unfold Cadd, Cmul, Copp; cbn [Re Im]; ring.
  - rewrite <- (Cdiv_same _ Hd). f_equal.
    apply C_eq; unfold np_linalg_det, Cadd, Cmul, Copp; cbn [Re Im]; ring.
Qed.

(** One turn of the loop of [inverse]: the inverse of the block is
    stored, or the exception of numpy becomes [MTpyError_Z]. *)
Lemma inverse_block_run `{Lapack} s lg zs k z acc :
  ZObj._z s = Some zs -> nth_error zs k = Some z -> (k < length acc)%nat ->
  ZObj.inverse_block k acc (World s lg)
  = match matrix_I_C z with
    | Ok b => (Ok (upd acc k b), World s lg)
    | Raise _ => (Raise MTpyError_Z, World s lg)
    end.
Proof.
  intros Hz Hk Hacc.
  destruct (nth_error acc k) as [b|] eqn:Eb;
    [|apply nth_error_None in Eb; lia].
  unfold ZObj.inverse_block, try_except_all, ZObj._get_z, bind, getself, ret,
    lift, raise, block, item1, setblock.
  cbn beta iota delta [self]. rewrite Hz, Hk.
  cbn beta iota. destruct (matrix_I_C z); [|reflexivity].
  cbn beta iota. rewrite Eb. reflexivity.
Qed.

Lemma inverse_block_regular `{Lapack} s lg zs k z acc :
  ZObj._z s = Some zs -> nth_error zs k = Some z -> np_linalg_det z <> C0 ->
  (k < length acc)%nat ->
  ZObj.inverse_block k acc (World s lg)
  = (Ok (upd acc k (inverse_of z)), World s lg).
Proof.
  intros Hz Hk Hd Hacc.
  rewrite (inverse_block_run s lg zs k z acc Hz Hk Hacc).
  rewrite (matrix_I_C_regular z Hd). reflexivity.
Qed.

(** The loop of [inverse] stops at the first block that numpy finds
    singular. *)
Lemma inverse_loop_singular `{Lapack} s lg zs m : forall k acc,
  ZObj._z s = Some zs -> (k + m <= length zs)%nat -> length acc = length zs ->
  (exists i z, (k <= i < k + m)%nat /\ nth_error zs i = Some z /\
               matrix_I_C z = Raise LinAlgError) ->
  fold_each (seq k m) ZObj.inverse_block acc (World s lg)
  = (Raise MTpyError_Z, World s lg).
Proof.
  induction m; intros k acc Hz Hk Hl (i & z & Hi & Hzi & Hd); [lia|].
  cbn [seq fold_each]. unfold bind.
  destruct (nth_error zs k) as [zk|] eqn:Ezk;
    [|apply nth_error_None in Ezk; lia].
  rewrite (inverse_block_run s lg zs k zk acc Hz Ezk) by lia.
  destruct (matrix_I_C zk) as [b|e] eqn:E; [|reflexivity].
  apply IHm; auto; try lia.
  - rewrite upd_length. assumption.
  - exists i, z. split; [|split; assumption].
    destruct (Nat.eq_dec i k) as [->|]; [|lia]. congruence.
Qed.

(** X4.  On a tensor whose blocks all have a determinant other than
    zero, [inverse] returns an array of as many blocks, leaves the object
    as it is, and every block returned is the inverse of the block of the
    tensor: both products are the identity. *)
Theorem inverse_of_a_regular_tensor `{Lapack} s lg zs :
  ZObj._z s = Some zs -> Forall (fun z => np_linalg_det z <> C0) zs ->
  exists inv,
    ZObj._get_inverse (World s lg) = (Ok (Some inv), World s lg) /\
    length inv = length zs /\
    forall i z, nth_error zs i = Some z ->
      exists b, nth_error inv i = Some b /\
                dot_CC z b = identity2C /\ dot_CC b z = identity2C.
Proof.
  intros Hz Hreg. rewrite Forall_forall in Hreg.
  exists (fill (fun j => inverse_of (nth j zs (mconst C0)))
               (seq 0 (length zs)) zs).
  split; [|split].
  - unfold ZObj._get_inverse, ZObj._get_z, iter, range, bind, getself, ret, lift.
    repeat (progress (cbn beta iota delta [self]; rewrite ?Hz)).
    rewrite (fold_each_fill (fun j => inverse_of (nth j zs (mconst C0)))
               ZObj.inverse_block (World s lg) (length zs)); auto.
    intros i acc Hi Hacc.
    assert (Ei : nth_error zs i = Some (nth i zs (mconst C0)))
      by (apply nth_error_nth'; assumption).
    apply (inverse_block_regular s lg zs i _ acc Hz Ei); [|lia].
    apply Hreg. eapply nth_error_In; eassumption.
  - apply fill_length.
  - intros i z Hi. exists (inverse_of z).
    assert (Hd : np_linalg_det z <> C0)
      by (apply Hreg; eapply nth_error_In; eassumption).
    split; [|split].
    + apply fill_all with (blk := inverse_of). assumption.
    + apply inverse_of_right; assumption.
    + apply inverse_of_left; assumption.
Qed.

Lemma det_z_test : np_linalg_det z_test <> C0.
Proof.
  unfold np_linalg_det, z_test, Cadd, Cmul, Copp, C0. cbn [m00 m01 m10 m11 Re Im].
  intro E. injection E as _ E. lra.
Qed.

Lemma inverse_of_a_regular_tensor_sample :
  (ZObj._z (self sample_Z) = Some [z_test] /\
   Forall (fun z => np_linalg_det z <> C0) [z_test]) /\
  exists inv,
    @ZObj._get_inverse exact_pivots (World (self sample_Z) (log sample_Z))
    = (Ok (Some inv), World (self sample_Z) (log sample_Z)) /\
    length inv = length [z_test].
Proof.
  assert (Hz : ZObj._z (self sample_Z) = Some [z_test]) by (run; reflexivity).
  assert (Hr : Forall (fun z => np_linalg_det z <> C0) [z_test])
    by (repeat constructor; exact det_z_test).
  split; [split; assumption|].
  destruct (@inverse_of_a_regular_tensor exact_pivots (self sample_Z)
              (log sample_Z) [z_test] Hz Hr) as (inv & Hrun & Hlen & _).
  exists inv. split; assumption.
Defined.

(** X5.  [inverse] raises [MTpyError_Z] as soon as numpy fails to invert
    one block of the tensor, and leaves the object as it is, whatever the
    blocks before it are.  Numpy fails for certain on a block with a zero
    row or a zero column; a block whose determinant is zero for another
    reason may be inverted without error, into a matrix of huge entries
    (see [matrix_I_C]). *)
Theorem inverse_of_a_singular_block `{Lapack} s lg zs :
  ZObj._z s = Some zs ->
  Exists (fun z => zero_line is_zero_C z = true \/
                   matrix_I_C z = Raise LinAlgError) zs ->
  ZObj._get_inverse (World s lg) = (Raise MTpyError_Z, World s lg).
Proof.
  intros Hz Hex. rewrite Exists_exists in Hex. destruct Hex as (z & Hin & Hd).
  assert (Hr : matrix_I_C z = Raise LinAlgError).
  { destruct Hd as [Hd|Hd]; [apply matrix_I_C_zero_line|]; assumption. }
  apply In_nth_error in Hin. destruct Hin as (i & Hi).
  assert (i < length zs)%nat by (apply nth_error_Some; congruence).
  unfold ZObj._get_inverse, ZObj._get_z, iter, range, bind, getself, ret, lift.
  repeat (progress (cbn beta iota delta [self]; rewrite ?Hz)).
  rewrite (inverse_loop_singular s lg zs (length zs) 0 zs Hz); auto.
  exists i, z. split; [lia|]. split; assumption.
Qed.

Lemma inverse_of_a_singular_block_sample :
  (ZObj._z (self sample_Z_singular) = Some [z_test; mconst C0] /\
   Exists (fun z => zero_line is_zero_C z = true \/
                    @matrix_I_C exact_pivots z = Raise LinAlgError)
     [z_test; mconst C0]) /\
  @ZObj._get_inverse exact_pivots
    (World (self sample_Z_singular) (log sample_Z_singular))
  = (Raise MTpyError_Z,
     World (self sample_Z_singular) (log sample_Z_singular)).
Proof.
  assert (Hz : ZObj._z (self sample_Z_singular) = Some [z_test; mconst C0])
    by (run; reflexivity).
  assert (He : Exists (fun z => zero_line is_zero_C z = true \/
                               @matrix_I_C exact_pivots z = Raise LinAlgError)
                 [z_test; mconst C0]).
  { apply Exists_cons_tl. apply Exists_cons_hd. left.
    unfold zero_line, is_zero_C, is_zero, mconst, C0. cbn [m00 m01 m10 m11 Re Im].
    destruct (Req_dec_T 0 0) as [|E]; [reflexivity | contradiction E; reflexivity]. }
  split; [split; assumption|].
  apply (@inverse_of_a_singular_block exact_pivots (self sample_Z_singular)
           (log sample_Z_singular) [z_test; mconst C0] Hz He).
Defined.

(** ** Trace, skew, determinant and norm *)

Lemma broadcast2_same {A B D} (f : A -> B -> D) a b :
  length a = length b ->
  broadcast2 f a b = Ok (map (fun p => f (fst p) (snd p)) (combine a b)).
Proof. intro E. unfold broadcast2. rewrite E, Nat.eqb_refl. reflexivity. Qed.

Lemma broadcast2_length {A B D} (f : A -> B -> D) a b :
  length a = length b ->
  exists r, broadcast2 f a b = Ok r /\ length r = length a.
Proof.
  intro E. rewrite broadcast2_same by assumption. eexists. split; [reflexivity|].
  rewrite length_map, length_combine. lia.
Qed.

Lemma broadcast2_mismatch {A B D} (f : A -> B -> D) a b :
  length a <> length b -> length a <> 1%nat -> length b <> 1%nat ->
  broadcast2 f a b = Raise ValueError.
Proof.
  intros Hne Ha Hb. unfold broadcast2.
  replace (length a =? length b)%nat with false
    by (symmetry; apply Nat.eqb_neq; assumption).
  destruct a as [|x [|x' a]], b as [|y [|y' b]]; cbn in *; try lia; reflexivity.
Qed.

Lemma broadcast2_stretch_left {A B D} (f : A -> B -> D) x b :
  length b <> 1%nat -> broadcast2 f [x] b = Ok (map (f x) b).
Proof.
  intro Hb. unfold broadcast2. cbn [length].
  replace (1 =? length b)%nat with false
    by (symmetry; apply Nat.eqb_neq; lia).
  reflexivity.
Qed.

Lemma assign_all_same {A} n (src : list A) :
  length src = n -> assign_all n src = Ok src.
Proof. intro E. unfold assign_all. rewrite E, Nat.eqb_refl. reflexivity. Qed.

Lemma assign_all_mismatch {A} n (src : list A) :
  length src <> n -> length src <> 1%nat -> assign_all n src = Raise ValueError.
Proof.
  intros Hne H1. unfold assign_all.
  replace (length src =? n)%nat with false
    by (symmetry; apply Nat.eqb_neq; assumption).
  destruct src as [|x [|x' src]]; cbn in *; try lia; reflexivity.
Qed.

Lemma get_trace_ok s zs :
  ZObj._z s = Some zs -> same_shape (ZObj._z_err s) zs ->
  exists terr, forall lg,
    ZObj._get_trace (World s lg) = (Ok (map np_trace zs, terr), World s lg).
Proof.
  intros Hz Hsh. unfold same_shape in Hsh.
  destruct (ZObj._z_err s) as [ea|] eqn:He.
  - eexists. intro lg.
    unfold ZObj._get_trace, ZObj._get_z, ZObj._get_z_err, iter, bind, getself,
      ret, lift.
    repeat (progress (cbn beta iota delta [self]; rewrite ?Hz, ?He)).
    rewrite assign_all_same by (rewrite !length_map; assumption).
    reflexivity.
  - exists None. intro lg.
    unfold ZObj._get_trace, ZObj._get_z, ZObj._get_z_err, iter, bind, getself,
      ret, lift.
    repeat (progress (cbn beta iota delta [self]; rewrite ?Hz, ?He)).
    reflexivity.
Qed.

Lemma get_skew_ok s zs :
  ZObj._z s = Some zs -> same_shape (ZObj._z_err s) zs ->
  exists serr, forall lg,
    ZObj._get_skew (World s lg)
    = (Ok (map (fun z => Cadd (m01 z) (Copp (m10 z))) zs, serr), World s lg).
Proof.
  intros Hz Hsh. unfold same_shape in Hsh.
  destruct (ZObj._z_err s) as [ea|] eqn:He.
  - eexists. intro lg.
    unfold ZObj._get_skew, ZObj._get_z, ZObj._get_z_err, iter, bind, getself,
      ret, lift.
    repeat (progress (cbn beta iota delta [self]; rewrite ?Hz, ?He)).
    rewrite assign_all_same by (rewrite !length_map; assumption).
    reflexivity.
  - exists None. intro lg.
    unfold ZObj._get_skew, ZObj._get_z, ZObj._get_z_err, iter, bind, getself,
      ret, lift.
    repeat (progress (cbn beta iota delta [self]; rewrite ?Hz, ?He)).
    reflexivity.
Qed.

Lemma get_det_ok s zs :
  ZObj._z s = Some zs -> same_shape (ZObj._z_err s) zs ->
  exists derr, forall lg,
    ZObj._get_det (World s lg)
    = (Ok (map np_linalg_det zs, derr), World s lg).
Proof.
  intros Hz Hsh. unfold same_shape in Hsh.
  destruct (ZObj._z_err s) as [ea|] eqn:He.
  - set (times := fun (zc : C) (ev : R) => np_abs (Cscale ev zc)).
    destruct (broadcast2_length times (map m11 zs) (map m00 ea))
      as (t1 & E1 & L1); [rewrite !length_map; lia|].
    destruct (broadcast2_length times (map m00 zs) (map m11 ea))
      as (t2 & E2 & L2); [rewrite !length_map; lia|].
    rewrite length_map in L1, L2.
    destruct (broadcast2_length Rplus t1 t2) as (t12 & E12 & L12); [lia|].
    destruct (broadcast2_length times (map m01 zs) (map m10 ea))
      as (t3 & E3 & L3); [rewrite !length_map; lia|].
    rewrite length_map in L3.
    destruct (broadcast2_length Rplus t12 t3) as (t123 & E123 & L123); [lia|].
    destruct (broadcast2_length times (map m10 zs) (map m01 ea))
      as (t4 & E4 & L4); [rewrite !length_map; lia|].
    rewrite length_map in L4.
    destruct (broadcast2_length Rplus t123 t4) as (t1234 & E1234 & L1234);
      [lia|].
    exists (Some (map RtoC t1234)). intro lg.
    unfold ZObj._get_det, ZObj._get_z, ZObj._get_z_err, iter, bind, getself,
      ret, lift.
    fold times.
    repeat (progress (cbn beta iota delta [self];
                      rewrite ?Hz, ?He, ?E1, ?E2, ?E12, ?E3, ?E123, ?E4, ?E1234)).
    rewrite assign_all_same by (rewrite !length_map; lia).
    reflexivity.
  - exists None. intro lg.
    unfold ZObj._get_det, ZObj._get_z, ZObj._get_z_err, iter, bind, getself,
      ret, lift.
    repeat (progress (cbn beta iota delta [self]; rewrite ?Hz, ?He)).
    reflexivity.
Qed.

(** X6.  On an object whose error array has neither as many blocks as
    the tensor nor exactly one block (the setter of [z_err] stores such
    an array), [trace], [skew] and [det] raise [ValueError]: the error of
    each is written by a slice assignment, which numpy refuses for
    arrays of different lengths. *)
Theorem decompositions_of_a_mismatched_error s lg zs ea :
  ZObj._z s = Some zs -> ZObj._z_err s = Some ea ->
  length ea <> length zs -> length ea <> 1%nat ->
  ZObj._get_trace (World s lg) = (Raise ValueError, World s lg) /\
  ZObj._get_skew (World s lg) = (Raise ValueError, World s lg) /\
  ZObj._get_det (World s lg) = (Raise ValueError, World s lg).
Proof.
  intros Hz He Hn H1. split; [|split].
  - unfold ZObj._get_trace, ZObj._get_z, ZObj._get_z_err, iter, bind, getself,
      ret, lift.
    repeat (progress (cbn beta iota delta [self]; rewrite ?Hz, ?He)).
    rewrite assign_all_mismatch by (rewrite !length_map; assumption).
    reflexivity.
  - unfold ZObj._get_skew, ZObj._get_z, ZObj._get_z_err, iter, bind, getself,
      ret, lift.
    repeat (progress (cbn beta iota delta [self]; rewrite ?Hz, ?He)).
    rewrite assign_all_mismatch by (rewrite !length_map; assumption).
    reflexivity.
  - unfold ZObj._get_det, ZObj._get_z, ZObj._get_z_err, iter, bind, getself,
      ret, lift.
    repeat (progress (cbn beta iota delta [self]; rewrite ?Hz, ?He)).
    destruct (Nat.eq_dec (length zs) 1) as [Ez|Ez].
    + (* one block: the products stretch it, the assignment fails *)
      destruct zs as [|z [|z' zs]]; cbn in Ez; try lia.
      cbn [map length] in *.
      set (times := fun (zc : C) (ev : R) => np_abs (Cscale ev zc)).
      rewrite !(broadcast2_stretch_left times) by (rewrite length_map; assumption).
      cbn beta iota.
      destruct (broadcast2_length Rplus (map (times (m11 z)) (map m00 ea))
                  (map (times (m00 z)) (map m11 ea)))
        as (t12 & E12 & L12); [rewrite !length_map; reflexivity|].
      rewrite E12. cbn beta iota. rewrite !length_map in L12.
      destruct (broadcast2_length Rplus t12 (map (times (m01 z)) (map m10 ea)))
        as (t123 & E123 & L123); [rewrite !length_map; assumption|].
      rewrite E123. cbn beta iota.
      destruct (broadcast2_length Rplus t123 (map (times (m10 z)) (map m01 ea)))
        as (t1234 & E1234 & L1234); [rewrite !length_map; lia|].
      rewrite E1234. cbn beta iota.
      rewrite assign_all_mismatch by (rewrite length_map; lia).
      reflexivity.
    + rewrite broadcast2_mismatch by (rewrite !length_map; auto).
      reflexivity.
Qed.

Lemma fold_each_ext {O A St} (f g : A -> St -> M O St) (l : list A) :
  (forall x acc w, In x l -> f x acc w = g x acc w) ->
  forall acc w, fold_each l f acc w = fold_each l g acc w.
Proof.
  induction l as [|x l IH]; intros Hfg acc w; cbn [fold_each].
  - reflexivity.
  - unfold bind. rewrite Hfg by (left; reflexivity).
    destruct (g x acc w) as [[acc'|e] w']; [|reflexivity].
    apply IH. intros. apply Hfg. right. assumption.
Qed.

Lemma fold_each_enumerate {O A St} (body : nat * A -> St -> M O St) d :
  forall (l : list A) k acc w,
    fold_each (combine (seq k (length l)) l) body acc w
    = fold_each (seq k (length l)) (fun i => body (i, nth (i - k) l d)) acc w.
Proof.
  induction l as [|x l IH]; intros k acc w; cbn [length seq combine fold_each].
  - reflexivity.
  - unfold bind. rewrite Nat.sub_diag. cbn [nth].
    destruct (body (k, x) acc w) as [[acc'|e] w']; [|reflexivity].
    rewrite IH. apply fold_each_ext.
    intros i acc0 w0 Hi. apply in_seq in Hi.
    replace (i - k)%nat with (S (i - S k))%nat by lia. reflexivity.
Qed.

Lemma norm_err_block_ok s lg zs ea i acc z e :
  ZObj._z_err s = Some ea ->
  nth_error zs i = Some z -> nth_error ea i = Some e ->
  (i < length acc)%nat ->
  ZObj.norm_err_block (map np_linalg_norm zs) (i, z) acc (World s lg)
  = (Ok (upd acc i (norm_err_of z e)), World s lg).
Proof.
  intros He Hz Hei Hacc.
  destruct (nth_error acc i) as [b|] eqn:Eb;
    [|apply nth_error_None in Eb; lia].
  unfold ZObj.norm_err_block, ZObj._get_z_err, bind, getself, ret, lift, block,
    item1, setblock.
  rewrite nth_error_map, Hz.
  repeat (progress (cbn beta iota delta [self option_map]; rewrite ?He, ?Hei, ?Eb)).
  reflexivity.
Qed.

Lemma get_norm_without_error s lg zs :
  ZObj._z s = Some zs -> ZObj._z_err s = None ->
  ZObj._get_norm (World s lg)
  = (Ok (map np_linalg_norm zs, None), World s lg).
Proof.
  intros Hz He.
  unfold ZObj._get_norm, ZObj._get_z, ZObj._get_z_err, iter, bind, getself, ret,
    lift.
  repeat (progress (cbn beta iota delta [self]; rewrite ?Hz, ?He)).
  reflexivity.
Qed.

Lemma get_norm_with_error s lg zs ea :
  ZObj._z s = Some zs -> ZObj._z_err s = Some ea -> length ea = length zs ->
  ZObj._get_norm (World s lg)
  = (Ok (map np_linalg_norm zs,
         Some (fill (fun i => norm_err_of (nth i zs (mconst C0))
                                          (nth i ea (mconst 0)))
                    (seq 0 (length zs)) (repeat 0 (length zs)))),
     World s lg).
Proof.
  intros Hz He Hlen.
  unfold ZObj._get_norm, ZObj._get_z, ZObj._get_z_err, iter, enumerate, bind,
    getself, ret, lift.
  repeat (progress (cbn beta iota delta [self]; rewrite ?Hz, ?He)).
  rewrite (fold_each_enumerate _ (mconst C0)).
  rewrite length_map.
  rewrite (fold_each_fill
    (fun i => norm_err_of (nth i zs (mconst C0)) (nth i ea (mconst 0)))
    _ (World s lg) (length zs));
    [reflexivity | | lia | apply repeat_length].
  intros i acc Hi Hacc. rewrite Nat.sub_0_r.
  apply (norm_err_block_ok s lg zs ea i acc); auto; try lia.
  - apply nth_error_nth'. assumption.
  - apply nth_error_nth'. lia.
Qed.

Lemma get_norm_ok s zs :
  ZObj._z s = Some zs -> same_shape (ZObj._z_err s) zs ->
  exists nerr, forall lg,
    ZObj._get_norm (World s lg)
    = (Ok (map np_linalg_norm zs, nerr), World s lg).
Proof.
  intros Hz Hsh. unfold same_shape in Hsh.
  destruct (ZObj._z_err s) as [ea|] eqn:He.
  - eexists. intro lg. apply get_norm_with_error; eassumption.
  - exists None. intro lg. apply get_norm_without_error; assumption.
Qed.

(** The radicand is the sum of the squared errors, each weighted by the
    squared modulus of its entry. *)
Lemma norm_radicand_sum e z :
  ZObj.norm_radicand e z
  = m00 e ^ 2 * np_abs (m00 z) ^ 2 + m01 e ^ 2 * np_abs (m01 z) ^ 2
    + m10 e ^ 2 * np_abs (m10 z) ^ 2 + m11 e ^ 2 * np_abs (m11 z) ^ 2.
Proof.
  unfold ZObj.norm_radicand, range2. cbn [fold_left mget].
  rewrite !np_abs_sqr. ring.
Qed.

Lemma norm_sqr z :
  np_linalg_norm z ^ 2
  = np_abs (m00 z) ^ 2 + np_abs (m01 z) ^ 2
    + np_abs (m10 z) ^ 2 + np_abs (m11 z) ^ 2.
Proof.
  unfold np_linalg_norm. rewrite <- Rsqr_pow2, Rsqr_sqrt; [reflexivity|].
  pose proof (pow2_ge_0 (np_abs (m00 z))). pose proof (pow2_ge_0 (np_abs (m01 z))).
  pose proof (pow2_ge_0 (np_abs (m10 z))). pose proof (pow2_ge_0 (np_abs (m11 z))).
  lra.
Qed.

Lemma norm_nonneg z : 0 <= np_linalg_norm z.
Proof. apply sqrt_pos. Qed.

Lemma norm_err_bound z e E :
  np_linalg_norm z <> 0 ->
  (forall ii jj, Rabs (mget e ii jj) <= E) ->
  0 <= norm_err_of z e <= E.
Proof.
  intros Hn Hb.
  assert (Hpos : 0 < np_linalg_norm z) by (pose proof (norm_nonneg z); lra).
  assert (HE : 0 <= E) by (pose proof (Rabs_pos (mget e i0 i0)); specialize (Hb i0 i0); lra).
  assert (Hsq : forall x, Rabs x <= E -> x ^ 2 <= E ^ 2).
  { intros x Hx. rewrite <- (pow2_abs x). apply pow_incr. split; [apply Rabs_pos | assumption]. }
  pose proof (Hsq _ (Hb i0 i0)) as H00. pose proof (Hsq _ (Hb i0 i1)) as H01.
  pose proof (Hsq _ (Hb i1 i0)) as H10. pose proof (Hsq _ (Hb i1 i1)) as H11.
  cbn [mget] in H00, H01, H10, H11.
  pose proof (pow2_ge_0 (np_abs (m00 z))) as P00.
  pose proof (pow2_ge_0 (np_abs (m01 z))) as P01.
  pose proof (pow2_ge_0 (np_abs (m10 z))) as P10.
  pose proof (pow2_ge_0 (np_abs (m11 z))) as P11.
  pose proof (pow2_ge_0 (m00 e)) as Q00. pose proof (pow2_ge_0 (m01 e)) as Q01.
  pose proof (pow2_ge_0 (m10 e)) as Q10. pose proof (pow2_ge_0 (m11 e)) as Q11.
  assert (Hrad0 : 0 <= ZObj.norm_radicand e z).
  { rewrite norm_radicand_sum.
    repeat apply Rplus_le_le_0_compat; apply Rmult_le_pos; assumption. }
  assert (Hrad : ZObj.norm_radicand e z <= (E * np_linalg_norm z) ^ 2).
  { rewrite Rpow_mult_distr, norm_sqr, norm_radicand_sum.
    assert (forall a p, 0 <= p -> a <= E ^ 2 -> a * p <= E ^ 2 * p)
      by (intros; apply Rmult_le_compat_r; assumption).
    pose proof (H _ _ P00 H00). pose proof (H _ _ P01 H01).
    pose proof (H _ _ P10 H10). pose proof (H _ _ P11 H11). lra. }
  unfold norm_err_of. split.
  - apply Rmult_le_pos; [|apply sqrt_pos].
    apply Rlt_le. apply Rdiv_lt_0_compat; lra.
  - assert (Hs : sqrt (ZObj.norm_radicand e z) <= E * np_linalg_norm z).
    { rewrite <- (sqrt_pow2 (E * np_linalg_norm z))
        by (apply Rmult_le_pos; lra).
      apply sqrt_le_1_alt. assumption. }
    apply (Rmult_le_reg_l (np_linalg_norm z)); [assumption|].
    replace (np_linalg_norm z * (1 / np_linalg_norm z * sqrt (ZObj.norm_radicand e z)))
      with (sqrt (ZObj.norm_radicand e z)) by (field; assumption).
    lra.
Qed.

(** X7.  On a tensor with an error array of the same shape and no block
    of zeros, [norm] returns the Frobenius norm of every block and, as
    its error, a value between 0 and the largest absolute error of the
    block.  The object is left as it is. *)
Theorem norm_error_is_bounded s lg zs ea E :
  ZObj._z s = Some zs -> ZObj._z_err s = Some ea -> length ea = length zs ->
  Forall (fun z => np_linalg_norm z <> 0) zs ->
  Forall (fun e => forall ii jj, Rabs (mget e ii jj) <= E) ea ->
  exists nerr,
    ZObj._get_norm (World s lg)
    = (Ok (map np_linalg_norm zs, Some nerr), World s lg) /\
    length nerr = length zs /\
    Forall (fun x => 0 <= x <= E) nerr.
Proof.
  intros Hz He Hlen Hnz Hb.
  rewrite (get_norm_with_error s lg zs ea Hz He Hlen).
  eexists. split; [reflexivity|]. split.
  - rewrite fill_length. apply repeat_length.
  - rewrite Forall_forall in *. intros x Hx.
    apply In_nth_error in Hx. destruct Hx as (i & Hi).
    assert (Hlt : (i < length zs)%nat).
    { match type of Hi with nth_error ?l _ = _ =>
        assert (Hn : nth_error l i <> None) by congruence end.
      apply nth_error_Some in Hn.
      rewrite fill_length, repeat_length in Hn. exact Hn. }
    rewrite fill_nth_error in Hi by (rewrite repeat_length; lia).
    destruct (Nat.leb_spec 0 i), (Nat.ltb_spec i (0 + length zs));
      cbn [andb] in Hi; try lia.
    injection Hi as <-.
    apply norm_err_bound.
    + apply Hnz. apply nth_In. assumption.
    + apply Hb. apply nth_In. lia.
Qed.

(** ** The dictionary of invariants *)

Lemma bind_Ok {O A B} (m : M O A) (k : A -> M O B) w a w' :
  m w = (Ok a, w') -> bind m k w = k a w'.
Proof. intro E. unfold bind. rewrite E. reflexivity. Qed.

Lemma for_list_map {O A B} (g : A -> B) (f : A -> M O B) (w : world O) l :
  (forall x, In x l -> f x w = (Ok (g x), w)) ->
  for_list l f w = (Ok (map g l), w).
Proof.
  induction l as [|x l IH]; intro Hf; cbn [for_list map].
  - reflexivity.
  - unfold bind, ret. rewrite Hf by (left; reflexivity).
    rewrite IH by (intros; apply Hf; right; assumption). reflexivity.
Qed.

Lemma map_nth_seq {A B} (g : A -> B) (l : list A) d :
  map (fun i => g (nth i l d)) (seq 0 (length l)) = map g l.
Proof.
  apply nth_error_ext. intro i. rewrite !nth_error_map.
  destruct (nth_error l i) as [x|] eqn:E.
  - assert (i < length l)%nat by (apply nth_error_Some; congruence).
    rewrite nth_error_seq.
    replace (i <? length l)%nat with true by (symmetry; apply Nat.ltb_lt; lia).
    cbn. erewrite nth_error_nth by eassumption. reflexivity.
  - apply nth_error_None in E.
    rewrite nth_error_seq.
    replace (i <? length l)%nat with false by (symmetry; apply Nat.ltb_ge; lia).
    reflexivity.
Qed.

(** [invariants] on a tensor whose error, if any, has its shape. *)
Lemma get_invariants_ok s lg zs :
  ZObj._z s = Some zs -> same_shape (ZObj._z_err s) zs ->
  ZObj._get_invariants (World s lg) = (Ok (invariants_of zs), World s lg).
Proof.
  intros Hz Hsh.
  destruct (get_det_ok s zs Hz Hsh) as (derr & Hdet).
  destruct (get_trace_ok s zs Hz Hsh) as (terr & Htr).
  destruct (get_skew_ok s zs Hz Hsh) as (serr & Hsk).
  destruct (get_norm_ok s zs Hz Hsh) as (nerr & Hnm).
  assert (Hdet_at : forall i, (i < length zs)%nat ->
    ZObj.det_at i (World s lg)
    = (Ok (np_linalg_det (nth i zs (mconst C0))), World s lg)).
  { intros i Hi. unfold ZObj.det_at, bind, lift, item1. rewrite Hdet.
    cbn [fst]. rewrite nth_error_map.
    rewrite (nth_error_nth' zs (mconst C0) Hi). reflexivity. }
  assert (Hnorm_at : forall i, (i < length zs)%nat ->
    ZObj.norm_at i (World s lg)
    = (Ok (np_linalg_norm (nth i zs (mconst C0))), World s lg)).
  { intros i Hi. unfold ZObj.norm_at, bind, lift, item1. rewrite Hnm.
    cbn [fst]. rewrite nth_error_map.
    rewrite (nth_error_nth' zs (mconst C0) Hi). reflexivity. }
  assert (Hz1 : forall i, (i < length zs)%nat ->
    nth_error (map (fun m => Cdivr (Cadd (m01 m) (Copp (m10 m))) 2) zs) i
    = Some (z1_of (nth i zs (mconst C0)))).
  { intros i Hi. rewrite nth_error_map.
    rewrite (nth_error_nth' zs (mconst C0) Hi). reflexivity. }
  assert (Hlp : for_list (seq 0 (length zs)) (fun ii =>
      a <- lift (item1 (map (fun m => Cdivr (Cadd (m01 m) (Copp (m10 m))) 2) zs) ii) ;;
      b <- lift (item1 (map (fun m => Cdivr (Cadd (m01 m) (Copp (m10 m))) 2) zs) ii) ;;
      c <- lift (item1 (map (fun m => Cdivr (Cadd (m01 m) (Copp (m10 m))) 2) zs) ii) ;;
      dv <- ZObj.det_at ii ;;
      ret (Cadd a (np_sqrt (Cadd (Cmul b c) (Copp dv))))) (World s lg)
    = (Ok (map lambda_plus_of zs), World s lg)).
  { rewrite <- (map_nth_seq lambda_plus_of zs (mconst C0)).
    apply for_list_map. intros i Hi. apply in_seq in Hi.
    unfold bind, lift, ret, item1.
    repeat (progress (rewrite ?Hz1, ?Hdet_at by lia; cbn beta iota)).
    reflexivity. }
  assert (Hlm : for_list (seq 0 (length zs)) (fun ii =>
      a <- lift (item1 (map (fun m => Cdivr (Cadd (m01 m) (Copp (m10 m))) 2) zs) ii) ;;
      b <- lift (item1 (map (fun m => Cdivr (Cadd (m01 m) (Copp (m10 m))) 2) zs) ii) ;;
      c <- lift (item1 (map (fun m => Cdivr (Cadd (m01 m) (Copp (m10 m))) 2) zs) ii) ;;
      dv <- ZObj.det_at ii ;;
      ret (Cadd a (Copp (np_sqrt (Cadd (Cmul b c) (Copp dv)))))) (World s lg)
    = (Ok (map lambda_minus_of zs), World s lg)).
  { rewrite <- (map_nth_seq lambda_minus_of zs (mconst C0)).
    apply for_list_map. intros i Hi. apply in_seq in Hi.
    unfold bind, lift, ret, item1.
    repeat (progress (rewrite ?Hz1, ?Hdet_at by lia; cbn beta iota)).
    reflexivity. }
  assert (Hsp : for_list (seq 0 (length zs)) (fun ii =>
      n1 <- ZObj.norm_at ii ;;
      n2 <- ZObj.norm_at ii ;;
      dv <- ZObj.det_at ii ;;
      ret (0.5 * n1 ^ 2 + sqrt (0.25 * n2 ^ 4 + np_abs dv ^ 2))) (World s lg)
    = (Ok (map sigma_plus_of zs), World s lg)).
  { rewrite <- (map_nth_seq sigma_plus_of zs (mconst C0)).
    apply for_list_map. intros i Hi. apply in_seq in Hi.
    unfold bind, ret.
    repeat (progress (rewrite ?Hnorm_at, ?Hdet_at by lia; cbn beta iota)).
    reflexivity. }
  assert (Hsm : for_list (seq 0 (length zs)) (fun ii =>
      n1 <- ZObj.norm_at ii ;;
      n2 <- ZObj.norm_at ii ;;
      dv <- ZObj.det_at ii ;;
      ret (0.5 * n1 ^ 2 - sqrt (0.25 * n2 ^ 4 + np_abs dv ^ 2))) (World s lg)
    = (Ok (map sigma_minus_of zs), World s lg)).
  { rewrite <- (map_nth_seq sigma_minus_of zs (mconst C0)).
    apply for_list_map. intros i Hi. apply in_seq in Hi.
    unfold bind, ret.
    repeat (progress (rewrite ?Hnorm_at, ?Hdet_at by lia; cbn beta iota)).
    reflexivity. }
  unfold ZObj._get_invariants, range.
  repeat first
    [ erewrite bind_Ok
        by first [ apply Hdet | apply Htr | apply Hsk | apply Hnm
                 | apply Hlp | apply Hlm | apply Hsp | apply Hsm ]
    | erewrite bind_Ok by (unfold ZObj._get_z, iter, lift, bind, getself, ret;
                           cbn [self]; rewrite ?Hz; reflexivity)
    | progress (cbn [fst]; rewrite ?length_map) ].
  reflexivity.
Qed.

Lemma np_sqrt_sqr w : Cmul (np_sqrt w) (np_sqrt w) = w.
Proof.
  transitivity (cmath_rect (np_abs w) (cmath_phase w));
    [|apply rect_abs_phase].
  unfold np_sqrt, cmath_rect, Cmul. cbn [Re Im].
  remember (cmath_phase w / 2) as h eqn:Eh.
  assert (Hh : cmath_phase w = 2 * h) by (rewrite Eh; field).
  rewrite Hh, cos_2a, sin_2a.
  pose proof (sqrt_sqrt (np_abs w) (np_abs_nonneg w)) as Hs.
  remember (sqrt (np_abs w)) as r eqn:Er.
  rewrite <- Hs.
  apply C_eq; cbn [Re Im]; ring.
Qed.

Lemma lambda_sum z :
  Cadd (lambda_plus_of z) (lambda_minus_of z) = Cadd (m01 z) (Copp (m10 z)).
Proof.
  unfold lambda_plus_of, lambda_minus_of, z1_of.
  apply C_eq; unfold Cadd, Copp, Cdivr; cbn [Re Im]; field.
Qed.

Lemma lambda_product z :
  Cmul (lambda_plus_of z) (lambda_minus_of z) = np_linalg_det z.
Proof.
  unfold lambda_plus_of, lambda_minus_of.
  set (W := Cadd (Cmul (z1_of z) (z1_of z)) (Copp (np_linalg_det z))).
  pose proof (np_sqrt_sqr W) as Hq.
  set (q := np_sqrt W) in *.
  transitivity (Cadd (Cmul (z1_of z) (z1_of z)) (Copp (Cmul q q))).
  - apply C_eq; unfold Cmul, Cadd, Copp; cbn [Re Im]; ring.
  - rewrite Hq. unfold W.
    apply C_eq; unfold Cmul, Cadd, Copp; cbn [Re Im]; ring.
Qed.

Lemma sigma_radicand_nonneg z :
  0 <= 0.25 * np_linalg_norm z ^ 4 + np_abs (np_linalg_det z) ^ 2.
Proof.
  pose proof (pow2_ge_0 (np_linalg_norm z ^ 2)).
  pose proof (pow2_ge_0 (np_abs (np_linalg_det z))).
  replace (np_linalg_norm z ^ 4) with ((np_linalg_norm z ^ 2) ^ 2) by ring.
  lra.
Qed.

Lemma sigma_sum z :
  sigma_plus_of z + sigma_minus_of z = np_linalg_norm z ^ 2.
Proof. unfold sigma_plus_of, sigma_minus_of. lra. Qed.

Lemma sigma_product z :
  sigma_plus_of z * sigma_minus_of z = - np_abs (np_linalg_det z) ^ 2.
Proof.
  unfold sigma_plus_of, sigma_minus_of.
  pose proof (sqrt_sqrt _ (sigma_radicand_nonneg z)) as Hs.
  remember (sqrt (0.25 * np_linalg_norm z ^ 4 + np_abs (np_linalg_det z) ^ 2))
    as r eqn:Er.
  replace 0.25 with (/ 4) in Hs by lra. replace 0.5 with (/ 2) by lra.
  transitivity (/ 4 * np_linalg_norm z ^ 4 - r * r); [field|].
  rewrite Hs. ring.
Qed.

Lemma sigma_signs z : sigma_minus_of z <= 0 <= sigma_plus_of z.
Proof.
  unfold sigma_plus_of, sigma_minus_of.
  pose proof (pow2_ge_0 (np_linalg_norm z)) as Hn.
  pose proof (pow2_ge_0 (np_abs (np_linalg_det z))) as Hd.
  assert (Hr : 0.5 * np_linalg_norm z ^ 2
               <= sqrt (0.25 * np_linalg_norm z ^ 4 + np_abs (np_linalg_det z) ^ 2)).
  { rewrite <- (sqrt_pow2 (0.5 * np_linalg_norm z ^ 2)) by lra.
    apply sqrt_le_1_alt.
    replace 0.5 with (/ 2) by lra. replace 0.25 with (/ 4) by lra.
    replace ((/ 2 * np_linalg_norm z ^ 2) ^ 2) with (/ 4 * np_linalg_norm z ^ 4)
      by field.
    lra. }
  lra.
Qed.

Lemma det_real_imag z :
  Re (np_linalg_det z) = det2 (mmap Re z) - det2 (mmap Im z).
Proof.
  unfold np_linalg_det, det2, mmap, Cadd, Cmul, Copp. cbn [m00 m01 m10 m11 Re Im].
  ring.
Qed.

Lemma nth_error_map_inv {A B} (f : A -> B) l i y :
  nth_error (map f l) i = Some y -> exists x, nth_error l i = Some x /\ y = f x.
Proof.
  rewrite nth_error_map. destruct (nth_error l i) as [x|]; cbn; intro E;
    [|discriminate]. injection E as <-. eauto.
Qed.

(** X8.  On a tensor whose error, if any, has its shape, [invariants]
    returns a dictionary and leaves the object as it is; at every index
    [lambda_plus + lambda_minus] is the entry of [skew] and
    [lambda_plus * lambda_minus] is the entry of [det]: the two are the
    roots of [x^2 - 2*z1*x + det]. *)
Theorem invariants_lambda_are_roots s lg zs :
  ZObj._z s = Some zs -> same_shape (ZObj._z_err s) zs ->
  exists d lp lm sk dt,
    ZObj._get_invariants (World s lg) = (Ok d, World s lg) /\
    dict_get d "lambda_plus"%string = Some (CArray lp) /\
    dict_get d "lambda_minus"%string = Some (CArray lm) /\
    dict_get d "skew"%string = Some (CArray sk) /\
    dict_get d "det"%string = Some (CArray dt) /\
    length lp = length zs /\ length lm = length zs /\
    length sk = length zs /\ length dt = length zs /\
    forall i a b k t,
      nth_error lp i = Some a -> nth_error lm i = Some b ->
      nth_error sk i = Some k -> nth_error dt i = Some t ->
      Cadd a b = k /\ Cmul a b = t.
Proof.
  intros Hz Hsh.
  exists (invariants_of zs), (map lambda_plus_of zs), (map lambda_minus_of zs),
    (map (fun z => Cadd (m01 z) (Copp (m10 z))) zs), (map np_linalg_det zs).
  split; [apply get_invariants_ok; assumption|].
  do 4 (split; [reflexivity|]).
  rewrite !length_map. do 4 (split; [reflexivity|]).
  intros i a b k t Ha Hb Hk Ht.
  apply nth_error_map_inv in Ha, Hb, Hk, Ht.
  destruct Ha as (z & Hzi & ->). destruct Hb as (z' & Hzi' & ->).
  destruct Hk as (z'' & Hzi'' & ->). destruct Ht as (z''' & Hzi''' & ->).
  assert (z' = z) by congruence. assert (z'' = z) by congruence.
  assert (z''' = z) by congruence. subst.
  split; [apply lambda_sum | apply lambda_product].
Qed.

Lemma invariants_lambda_are_roots_sample :
  (ZObj._z (self sample_Z) = Some [z_test] /\
   same_shape (ZObj._z_err (self sample_Z)) [z_test]) /\
  exists d lp lm,
    ZObj._get_invariants (World (self sample_Z) (log sample_Z))
    = (Ok d, World (self sample_Z) (log sample_Z)) /\
    dict_get d "lambda_plus"%string = Some (CArray lp) /\
    dict_get d "lambda_minus"%string = Some (CArray lm) /\
    length lp = 1%nat /\ length lm = 1%nat.
Proof.
  assert (Hz : ZObj._z (self sample_Z) = Some [z_test]) by (run; reflexivity).
  assert (Hs : same_shape (ZObj._z_err (self sample_Z)) [z_test])
    by (run; exact I).
  split; [split; assumption|].
  destruct (invariants_lambda_are_roots (self sample_Z) (log sample_Z)
              [z_test] Hz Hs)
    as (d & lp & lm & sk & dt & Hrun & Hlp & Hlm & _ & _ & Llp & Llm & _).
  exists d, lp, lm.
  split; [exact Hrun|]. split; [exact Hlp|]. split; [exact Hlm|].
  split; [exact Llp | exact Llm].
Defined.

(** X9.  In the dictionary of invariants, at every index,
    [sigma_plus + sigma_minus] is the square of the entry of [norm],
    [sigma_plus * sigma_minus] is minus the square of the modulus of the
    entry of [det], and [sigma_minus <= 0 <= sigma_plus]. *)
Theorem invariants_sigma_relations s lg zs :
  ZObj._z s = Some zs -> same_shape (ZObj._z_err s) zs ->
  exists d sp sm nm dt,
    ZObj._get_invariants (World s lg) = (Ok d, World s lg) /\
    dict_get d "sigma_plus"%string = Some (RArray sp) /\
    dict_get d "sigma_minus"%string = Some (RArray sm) /\
    dict_get d "norm"%string = Some (RArray nm) /\
    dict_get d "det"%string = Some (CArray dt) /\
    length sp = length zs /\ length sm = length zs /\
    length nm = length zs /\ length dt = length zs /\
    forall i a b n t,
      nth_error sp i = Some a -> nth_error sm i = Some b ->
      nth_error nm i = Some n -> nth_error dt i = Some t ->
      a + b = n ^ 2 /\ a * b = - np_abs t ^ 2 /\ b <= 0 <= a.
Proof.
  intros Hz Hsh.
  exists (invariants_of zs), (map sigma_plus_of zs), (map sigma_minus_of zs),
    (map np_linalg_norm zs), (map np_linalg_det zs).
  split; [apply get_invariants_ok; assumption|].
  do 4 (split; [reflexivity|]).
  rewrite !length_map. do 4 (split; [reflexivity|]).
  intros i a b n t Ha Hb Hn Ht.
  apply nth_error_map_inv in Ha, Hb, Hn, Ht.
  destruct Ha as (z & Hzi & ->). destruct Hb as (z' & Hzi' & ->).
  destruct Hn as (z'' & Hzi'' & ->). destruct Ht as (z''' & Hzi''' & ->).
  assert (z' = z) by congruence. assert (z'' = z) by congruence.
  assert (z''' = z) by congruence. subst.
  split; [apply sigma_sum | split; [apply sigma_product | apply sigma_signs]].
Qed.

Lemma invariants_sigma_relations_sample :
  (ZObj._z (self sample_Z) = Some [z_test] /\
   same_shape (ZObj._z_err (self sample_Z)) [z_test]) /\
  exists d sp sm,
    ZObj._get_invariants (World (self sample_Z) (log sample_Z))
    = (Ok d, World (self sample_Z) (log sample_Z)) /\
    dict_get d "sigma_plus"%string = Some (RArray sp) /\
    dict_get d "sigma_minus"%string = Some (RArray sm) /\
    length sp = 1%nat /\ length sm = 1%nat.
Proof.
  assert (Hz : ZObj._z (self sample_Z) = Some [z_test]) by (run; reflexivity).
  assert (Hs : same_shape (ZObj._z_err (self sample_Z)) [z_test])
    by (run; exact I).
  split; [split; assumption|].
  destruct (invariants_sigma_relations (self sample_Z) (log sample_Z)
              [z_test] Hz Hs)
    as (d & sp & sm & nm & dt & Hrun & Hsp & Hsm & _ & _ & Lsp & Lsm & _).
  exists d, sp, sm.
  split; [exact Hrun|]. split; [exact Hsp|]. split; [exact Hsm|].
  split; [exact Lsp | exact Lsm].
Defined.

(** X10.  In the dictionary of invariants, at every index, [z1] is half
    the entry of [skew], and the real part of the entry of [det] is the
    entry of [det_real] minus the entry of [det_imag]. *)
Theorem invariants_det_parts s lg zs :
  ZObj._z s = Some zs -> same_shape (ZObj._z_err s) zs ->
  exists d z1 sk dt dr di,
    ZObj._get_invariants (World s lg) = (Ok d, World s lg) /\
    dict_get d "z1"%string = Some (CArray z1) /\
    dict_get d "skew"%string = Some (CArray sk) /\
    dict_get d "det"%string = Some (CArray dt) /\
    dict_get d "det_real"%string = Some (RArray dr) /\
    dict_get d "det_imag"%string = Some (RArray di) /\
    length z1 = length zs /\ length sk = length zs /\ length dt = length zs /\
    length dr = length zs /\ length di = length zs /\
    forall i a k t r m,
      nth_error z1 i = Some a -> nth_error sk i = Some k ->
      nth_error dt i = Some t -> nth_error dr i = Some r ->
      nth_error di i = Some m ->
      a = Cdivr k 2 /\ Re t = r - m.
Proof.
  intros Hz Hsh.
  exists (invariants_of zs), (map z1_of zs),
    (map (fun z => Cadd (m01 z) (Copp (m10 z))) zs), (map np_linalg_det zs),
    (map (fun z => det2 (mmap Re z)) zs), (map (fun z => det2 (mmap Im z)) zs).
  split; [apply get_invariants_ok; assumption|].
  do 5 (split; [reflexivity|]).
  rewrite !length_map. do 5 (split; [reflexivity|]).
  intros i a k t r m Ha Hk Ht Hr Hm.
  apply nth_error_map_inv in Ha, Hk, Ht, Hr, Hm.
  destruct Ha as (z & Hzi & ->). destruct Hk as (z1' & Hz1 & ->).
  destruct Ht as (z2 & Hz2 & ->). destruct Hr as (z3 & Hz3 & ->).
  destruct Hm as (z4 & Hz4 & ->).
  assert (z1' = z) by congruence. assert (z2 = z) by congruence.
  assert (z3 = z) by congruence. assert (z4 = z) by congruence. subst.
  split; [reflexivity | apply det_real_imag].
Qed.

Lemma invariants_det_parts_sample :
  (ZObj._z (self sample_Z) = Some [z_test] /\
   same_shape (ZObj._z_err (self sample_Z)) [z_test]) /\
  exists d z1,
    ZObj._get_invariants (World (self sample_Z) (log sample_Z))
    = (Ok d, World (self sample_Z) (log sample_Z)) /\
    dict_get d "z1"%string = Some (CArray z1) /\ length z1 = 1%nat.
Proof.
  assert (Hz : ZObj._z (self sample_Z) = Some [z_test]) by (run; reflexivity).
  assert (Hs : same_shape (ZObj._z_err (self sample_Z)) [z_test])
    by (run; exact I).
  split; [split; assumption|].
  destruct (invariants_det_parts (self sample_Z) (log sample_Z)
              [z_test] Hz Hs)
    as (d & z1 & sk & dt & dr & di & Hrun & Hz1 & _ & _ & _ & _ & L & _).
  exists d, z1.
  split; [exact Hrun|]. split; [exact Hz1 | exact L].
Defined.

Lemma decompositions_of_a_mismatched_error_sample :
  (ZObj._z (self sample_Z3_err2) = Some [z_test; z_test; z_test] /\
   ZObj._z_err (self sample_Z3_err2) = Some [e_test; e_test]) /\
  ZObj._get_trace (World (self sample_Z3_err2) [])
  = (Raise ValueError, World (self sample_Z3_err2) []).
Proof.
  assert (Hz : ZObj._z (self sample_Z3_err2) = Some [z_test; z_test; z_test])
    by (run; reflexivity).
  assert (He : ZObj._z_err (self sample_Z3_err2) = Some [e_test; e_test])
    by (run; reflexivity).
  assert (Hn : length [e_test; e_test] <> length [z_test; z_test; z_test])
    by (cbn; lia).
  assert (H1 : length [e_test; e_test] <> 1%nat) by (cbn; lia).
  split; [split; assumption|].
  destruct (decompositions_of_a_mismatched_error (self sample_Z3_err2) []
              [z_test; z_test; z_test] [e_test; e_test] Hz He Hn H1)
    as (Ht & _).
  exact Ht.
Defined.

Lemma norm_z_test : np_linalg_norm z_test <> 0.
Proof.
  intro E. pose proof (norm_sqr z_test) as H. rewrite E in H.
  rewrite !np_abs_sqr in H. cbn [z_test m00 m01 m10 m11 C0 Re Im] in H. lra.
Qed.

Lemma norm_error_is_bounded_sample :
  (ZObj._z (self sample_Z_err) = Some [z_test] /\
   ZObj._z_err (self sample_Z_err) = Some [e_test] /\
   Forall (fun z => np_linalg_norm z <> 0) [z_test] /\
   Forall (fun e => forall ii jj, Rabs (mget e ii jj) <= 0.1) [e_test]) /\
  exists nerr,
    ZObj._get_norm (World (self sample_Z_err) [])
    = (Ok (map np_linalg_norm [z_test], Some nerr),
       World (self sample_Z_err) []) /\
    Forall (fun x => 0 <= x <= 0.1) nerr.
Proof.
  assert (Hz : ZObj._z (self sample_Z_err) = Some [z_test])
    by (run; reflexivity).
  assert (He : ZObj._z_err (self sample_Z_err) = Some [e_test])
    by (run; reflexivity).
  assert (Hl : length [e_test] = length [z_test]) by reflexivity.
  assert (Hn : Forall (fun z => np_linalg_norm z <> 0) [z_test])
    by (apply Forall_cons; [exact norm_z_test | apply Forall_nil]).
  assert (Hb : Forall (fun e => forall ii jj, Rabs (mget e ii jj) <= 0.1)
                 [e_test]).
  { apply Forall_cons; [|apply Forall_nil].
    intros [] []; cbn [mget e_test mconst m00 m01 m10 m11];
      rewrite Rabs_pos_eq; lra. }
  split; [split; [exact Hz | split; [exact He | split; [exact Hn | exact Hb]]]|].
  destruct (norm_error_is_bounded (self sample_Z_err) [] [z_test] [e_test] 0.1
              Hz He Hl Hn Hb) as (nerr & Hrun & _ & Hall).
  exists nerr. split; [exact Hrun | exact Hall].
Defined.

(** ** Real and imaginary parts *)

Section RealImag.

Context `{Calculator}.

(** X11.  On an object that holds a tensor, [_set_real] and [_set_imag]
    never change anything: handed an array of another shape or one that
    is not real-valued they log an error and return; handed an array
    they accept they raise [AttributeError], since they call
    [self.imag()] and [self.real()] and the class has no such
    attribute. *)
Theorem set_real_imag_never_change_a_tensor s lg zs a :
  ZObj._z s = Some zs ->
  let r := ZObj._set_real a (World s lg) in
  let i := ZObj._set_imag a (World s lg) in
  self (snd r) = s /\ self (snd i) = s /\
  (length a = length zs -> norm_imag3 a = 0 ->
   r = (Raise AttributeError, World s lg) /\
   i = (Raise AttributeError, World s lg)) /\
  (length a <> length zs \/ norm_imag3 a <> 0 ->
   fst r = Ok tt /\ fst i = Ok tt).
Proof.
  intro Hz.
  unfold ZObj._set_real, ZObj._set_imag, ZObj._get_z, ZObj.len, bind, getself,
    ret, lift, raise, logger.
  repeat (progress (cbn beta iota zeta delta [self log]; rewrite ?Hz)).
  destruct (Nat.eqb_spec (length zs) (length a)) as [E|E];
    cbn beta iota delta [negb];
    [destruct (Req_dec_T (norm_imag3 a) 0) as [En|En]|];
    repeat (progress (cbn beta iota zeta delta [self log fst snd]; rewrite ?Hz)).
  - split; [reflexivity|]. split; [reflexivity|]. split.
    + intros _ _. split; reflexivity.
    + intros [Hl|Hn]; [congruence | contradiction].
  - split; [reflexivity|]. split; [reflexivity|]. split.
    + intros _ Hn. contradiction.
    + intros _. split; reflexivity.
  - split; [reflexivity|]. split; [reflexivity|]. split.
    + intros Hl _. congruence.
    + intros _. split; reflexivity.
Qed.

End RealImag.

Lemma set_real_imag_never_change_a_tensor_sample :
  ZObj._z (self sample_Z) = Some [z_test] /\
  self (snd (@ZObj._set_real first_order [mconst C0]
               (World (self sample_Z) []))) = self sample_Z /\
  self (snd (@ZObj._set_imag first_order [mconst C0]
               (World (self sample_Z) []))) = self sample_Z.
Proof.
  assert (Hz : ZObj._z (self sample_Z) = Some [z_test]) by (run; reflexivity).
  split; [exact Hz|].
  destruct (@set_real_imag_never_change_a_tensor first_order (self sample_Z)
              [] [z_test] [mconst C0] Hz) as (Hr & Hi & _).
  split; [exact Hr | exact Hi].
Defined.

(** ** What [set_res_phase] refuses *)

Section Refusals.

Context `{Calculator}.

(** X12.  On an object that holds a tensor, [set_res_phase] changes
    nothing when it refuses its arguments: handed arrays of another
    shape it logs an error and returns; handed arrays of the right shape
    while the frequencies are absent, or not one per block, it raises
    [MTpyError_EDI]. *)
Theorem set_res_phase_refusals s lg zs rs ps re pe :
  ZObj._z s = Some zs ->
  let r := ZObj.set_res_phase rs ps re pe (World s lg) in
  (length rs <> length zs \/ length ps <> length zs ->
   fst r = Ok tt /\ self (snd r) = s /\
   exists msg, log (snd r) = lg ++ [(ERROR, msg)]) /\
  (length rs = length zs -> length ps = length zs ->
   match ZObj._freq s with
   | None => True
   | Some fs => length fs <> length rs
   end ->
   r = (Raise MTpyError_EDI, World s lg)).
Proof.
  intro Hz.
  destruct s as [oz oe ofr ra r0 re0 p0 pe0]. cbn [ZObj._z] in Hz. subst oz.
  unfold ZObj.set_res_phase, ZObj._get_z, ZObj._get_freq, bind, getself, ret,
    raise, logger.
  cbn beta iota zeta delta [self log ZObj._z ZObj._freq].
  destruct (Nat.eqb_spec (length zs) (length rs)) as [Er|Er];
    [destruct (Nat.eqb_spec (length zs) (length ps)) as [Ep|Ep]|];
    cbn beta iota delta [negb].
  - split; [intros [Hr|Hp]; congruence|].
    intros _ _ Hf.
    destruct ofr as [fs|];
      cbn beta iota zeta delta [self log ZObj._z ZObj._freq]; [|reflexivity].
    destruct (Nat.eqb_spec (length fs) (length rs)) as [Ef|Ef];
      [contradiction|reflexivity].
  - split; [|intros _ Hp; congruence].
    intros _. cbn [fst snd self log]. eauto.
  - split; [|intros Hr; congruence].
    intros _. cbn [fst snd self log]. eauto.
Qed.

End Refusals.

Lemma set_res_phase_refusals_sample :
  ZObj._z (self sample_Z) = Some [z_test] /\
  self (snd (@ZObj.set_res_phase first_order [] [] None None
               (World (self sample_Z) []))) = self sample_Z.
Proof.
  assert (Hz : ZObj._z (self sample_Z) = Some [z_test]) by (run; reflexivity).
  split; [exact Hz|].
  destruct (@set_res_phase_refusals first_order (self sample_Z) [] [z_test]
              [] [] None None Hz) as (Hrej & _).
  assert (Hne : length (@nil (Mat2 R)) <> length [z_test] \/
                length (@nil (Mat2 R)) <> length [z_test])
    by (left; cbn; lia).
  destruct (Hrej Hne) as (_ & Hs & _). exact Hs.
Defined.

(** ** An object without a tensor *)

Section Empty.

Context `{Calculator} `{Lapack}.

(** X13.  On an object that holds no tensor, [rotate] logs a warning
    and returns, [_get_real] and [_get_imag] log and return [None],
    while [only1d], [only2d], [trace], [skew], [det], [norm],
    [invariants] and [remove_ss] raise [TypeError] and [inverse] raises
    [AttributeError] (it calls [logger.war]).  None of them changes the
    object. *)
Theorem methods_of_a_Z_without_tensor s lg alpha fx fy :
  ZObj._z s = None ->
  let w := World s lg in
  (exists msg, ZObj.rotate alpha w = (Ok tt, World s (lg ++ [(WARNING, msg)]))) /\
  (exists msg, ZObj._get_real w = (Ok None, World s (lg ++ [(WARNING, msg)]))) /\
  (exists msg, ZObj._get_imag w = (Ok None, World s (lg ++ [(ERROR, msg)]))) /\
  ZObj._get_only1d w = (Raise TypeError, w) /\
  ZObj._get_only2d w = (Raise TypeError, w) /\
  ZObj._get_trace w = (Raise TypeError, w) /\
  ZObj._get_skew w = (Raise TypeError, w) /\
  ZObj._get_det w = (Raise TypeError, w) /\
  ZObj._get_norm w = (Raise TypeError, w) /\
  ZObj._get_invariants w = (Raise TypeError, w) /\
  ZObj.remove_ss (Scalar fx) (Scalar fy) w = (Raise TypeError, w) /\
  ZObj._get_inverse w = (Raise AttributeError, w).
Proof.
  intro Hz. cbn zeta.
  unfold ZObj.rotate, ZObj._get_real, ZObj._get_imag, ZObj._get_only1d,
    ZObj._get_only2d, ZObj._get_trace, ZObj._get_skew, ZObj._get_det,
    ZObj._get_norm, ZObj._get_invariants, ZObj.remove_ss, ZObj.lo_factors,
    ZObj._get_inverse, ZObj._get_z, ZObj.len, iter, bind, getself, ret, lift,
    raise, logger.
  repeat (progress (cbn beta iota zeta delta [self log]; rewrite ?Hz)).
  repeat (split; [first [reflexivity | eauto]|]). reflexivity.
Qed.

End Empty.

Lemma methods_of_a_Z_without_tensor_sample :
  ZObj._z ZObj.blank = None /\
  @ZObj._get_only1d (World ZObj.blank [])
  = (Raise TypeError, World ZObj.blank []) /\
  @ZObj._get_inverse exact_pivots (World ZObj.blank [])
  = (Raise AttributeError, World ZObj.blank []).
Proof.
  assert (Hz : ZObj._z ZObj.blank = None) by reflexivity.
  split; [exact Hz|].
  destruct (@methods_of_a_Z_without_tensor first_order exact_pivots ZObj.blank
              [] (Scalar 0) 1 1 Hz) as (_ & _ & _ & H1 & _ & _ & _ & _ & _ & _ & _ & Hi).
  split; [exact H1 | exact Hi].
Defined.

(** ** The errors of resistivity and phase, and the ranges *)

Section DerivedErrors.

Context `{Calculator}.

(** [_compute_res_phase] on an object that holds a tensor, its errors and
    frequencies for every block: the four arrays it leaves. *)
Lemma compute_res_phase_with_errors s lg zs ea fs :
  ZObj._z s = Some zs -> ZObj._z_err s = Some ea -> ZObj._freq s = Some fs ->
  (length zs <= length fs)%nat -> (length zs <= length ea)%nat ->
  ZObj._compute_res_phase (World s lg)
  = (Ok tt,
     World (ZObj.mk (Some zs) (Some ea) (Some fs) (ZObj.rotation_angle s)
       (Some (fill (res_block zs fs) (seq 0 (length zs)) (zeros_like3 zs)))
       (Some (fill (reserr_block zs fs ea) (seq 0 (length zs)) (zeros_like3 ea)))
       (Some (fill (phase_block zs) (seq 0 (length zs)) (zeros_like3 zs)))
       (Some (fill (phaseerr_block zs ea) (seq 0 (length zs)) (zeros_like3 ea))))
       lg).
Proof.
  destruct s as [oz oe ofr ra r0 re0 p0 pe0]; cbn.
  intros -> -> -> Hlen Hcov.
  unfold ZObj._compute_res_phase, ZObj._get_freq, ZObj._get_z,
    ZObj._get_z_err, ZObj.len, range.
  cbn -[for_each].
  unfold ZObj.set_phase, ZObj.set_resistivity, ZObj.set_phase_err,
    ZObj.set_resistivity_err; cbn -[for_each].
  apply loop_Some; rewrite ?zeros_like3_length; auto; lia.
Qed.

(** X14.  A [Z] built from a tensor, its errors and frequencies, with an
    error block and a frequency for every block: at every index and
    component the error of the resistivity is
    [0.4 * |Z| / freq * r_err] and the error of the phase is [phi_err],
    where [(r_err, phi_err)] is what [z_error2r_phi_error] returns for
    the real part, the imaginary part and the error of the entry. *)
Theorem Z_init_error_arrays zin ein fs :
  (length (blocks zin) <= length fs)%nat ->
  (length (blocks zin) <= length (blocks ein))%nat ->
  let r := new_Z (Some zin) (Some ein) (Some fs) in
  fst r = Ok tt /\
  forall i ii jj z e f,
    nth_error (blocks zin) i = Some z -> nth_error (blocks ein) i = Some e ->
    nth_error fs i = Some f ->
    let zv := mget z ii jj in
    let ev := mget e ii jj in
    let (r_err, phi_err) := z_error2r_phi_error (Re zv) ev (Im zv) ev in
    ZObj.subscript3 (ZObj._resistivity_err (self (snd r))) i ii jj
      = Ok (0.4 * np_abs zv / f * r_err) /\
    ZObj.subscript3 (ZObj._phase_err (self (snd r))) i ii jj = Ok phi_err.
Proof.
  intros Hlen Hcov. unfold new_Z. rewrite init_runs_compute.
  rewrite (compute_res_phase_with_errors _ _ (blocks zin) (blocks ein) fs);
    try reflexivity; try assumption.
  cbn zeta. cbn [fst snd self ZObj._resistivity_err ZObj._phase_err].
  split; [reflexivity|].
  intros i ii jj z e f Hz He Hf.
  assert (Hi : (i < length (blocks zin))%nat) by (apply nth_error_Some; congruence).
  destruct (z_error2r_phi_error _ _ _ _) as [r_err phi_err] eqn:Ecalc.
  unfold ZObj.subscript3, item3.
  rewrite !fill_nth_error by (rewrite zeros_like3_length; lia).
  destruct (Nat.leb_spec 0 i), (Nat.ltb_spec i (0 + length (blocks zin)));
    cbn [andb]; try lia.
  unfold reserr_block, phaseerr_block.
  rewrite (nth_error_nth _ _ _ Hz), (nth_error_nth _ _ _ He),
    (nth_error_nth _ _ _ Hf).
  unfold reserr_value, phaseerr_value.
  destruct ii, jj; cbn [mget m00 m01 m10 m11] in *; rewrite Ecalc; auto.
Qed.

End DerivedErrors.

Lemma Z_init_error_arrays_sample :
  ((length (blocks (Single z_test)) <= length [1])%nat /\
   (length (blocks (Single z_test)) <= length (blocks (Single e_test)))%nat) /\
  fst (@new_Z first_order (Some (Single z_test)) (Some (Single e_test))
         (Some [1])) = Ok tt.
Proof.
  assert (H1 : (length (blocks (Single z_test)) <= length [1])%nat)
    by (cbn; lia).
  assert (H2 : (length (blocks (Single z_test))
                <= length (blocks (Single e_test)))%nat) by (cbn; lia).
  split; [split; assumption|].
  destruct (@Z_init_error_arrays first_order (Single z_test) (Single e_test)
              [1] H1 H2) as (Hok & _).
  exact Hok.
Defined.

(** The range of [atan2] and of the phase in degrees. *)
Lemma atan2_range y x : - PI < atan2 y x <= PI.
Proof.
  pose proof PI_RGT_0 as Hpi. unfold atan2.
  destruct (total_order_T 0 x) as [[Hx|Hx]|Hx].
  - pose proof (atan_bound (y / x)). lra.
  - destruct (total_order_T 0 y) as [[Hy|Hy]|Hy]; lra.
  - destruct (Rle_dec 0 y) as [Hy|Hy].
    + pose proof (atan_bound (y / x)) as Hb.
      assert (Hq : y / x <= 0).
      { assert (/ x < 0) by (apply Rinv_lt_0_compat; lra).
        unfold Rdiv. nra. }
      assert (atan (y / x) <= 0).
      { destruct Hq as [Hq|Hq].
        - apply Rlt_le. rewrite <- atan_0. apply atan_increasing. assumption.
        - rewrite Hq, atan_0. lra. }
      lra.
    + pose proof (atan_bound (y / x)) as Hb.
      assert (Hq : 0 < y / x).
      { assert (/ x < 0) by (apply Rinv_lt_0_compat; lra).
        unfold Rdiv. nra. }
      assert (0 < atan (y / x)).
      { rewrite <- atan_0. apply atan_increasing. assumption. }
      lra.
Qed.

Lemma phase_value_range z : - 180 < phase_value z <= 180.
Proof.
  unfold phase_value, math_degrees, cmath_phase.
  pose proof (atan2_range (Im z) (Re z)) as [Hl Hu].
  pose proof PI_RGT_0 as Hpi.
  assert (Hk : 0 < 180 / PI) by (apply Rdiv_lt_0_compat; lra).
  split.
  - replace (-180) with (- PI * (180 / PI)) by (field; lra).
    apply Rmult_lt_compat_r; assumption.
  - replace 180 with (PI * (180 / PI)) at 2 by (field; lra).
    apply Rmult_le_compat_r; lra.
Qed.

Lemma res_value_nonneg z f : 0 < f -> 0 <= res_value z f.
Proof.
  intro Hf. unfold res_value.
  pose proof (pow2_ge_0 (np_abs z)).
  apply Rmult_le_pos; [|lra].
  apply Rmult_le_pos; [assumption|]. apply Rlt_le. apply Rinv_0_lt_compat. assumption.
Qed.

Section Ranges.

Context `{Calculator}.

(** X15.  A [Z] built from a tensor and positive frequencies, one for
    every block (and, when errors are given, an error block for every
    block): every resistivity is at least 0 and every phase lies in
    [-180, 180].  (Both ends are reached: [cmath.phase] gives [pi] on the
    negative real axis when the imaginary part is [+0.0], the zero of the
    model, and [-pi] when it is [-0.0].) *)
Theorem Z_init_ranges zin ein fs :
  (length (blocks zin) <= length fs)%nat ->
  covers (option_map blocks ein) (blocks zin) ->
  Forall (fun f => 0 < f) fs ->
  let s := self (snd (new_Z (Some zin) ein (Some fs))) in
  forall i ii jj,
    (i < length (blocks zin))%nat ->
    exists rv pv,
      ZObj.subscript3 (ZObj._resistivity s) i ii jj = Ok rv /\
      ZObj.subscript3 (ZObj._phase s) i ii jj = Ok pv /\
      0 <= rv /\ - 180 <= pv <= 180.
Proof.
  intros Hlen Hcov Hpos. unfold new_Z. rewrite init_runs_compute.
  edestruct (compute_res_phase_ok
    (ZObj.mk (Some (blocks zin)) (option_map blocks ein) (Some fs)
       (RotArray (repeat 0 (length (blocks zin)))) None None None None)
    [] (blocks zin) fs) as (rs & ps & ore & ope & Hc & _ & _ & Hent);
    try reflexivity; try assumption.
  rewrite Hc. cbn zeta. cbn [snd self ZObj._resistivity ZObj._phase].
  intros i ii jj Hi.
  assert (Ez : nth_error (blocks zin) i = Some (nth i (blocks zin) (mconst C0)))
    by (apply nth_error_nth'; assumption).
  assert (Ef : nth_error fs i = Some (nth i fs 0))
    by (apply nth_error_nth'; lia).
  destruct (Hent i _ _ Ez Ef) as [Hri Hpi].
  unfold ZObj.subscript3, item3. rewrite Hri, Hpi.
  do 2 eexists. split; [reflexivity|]. split; [reflexivity|].
  rewrite !mmap_mget. split.
  - apply res_value_nonneg. rewrite Forall_forall in Hpos. apply Hpos.
    eapply nth_error_In; eassumption.
  - pose proof (phase_value_range (mget (nth i (blocks zin) (mconst C0)) ii jj)).
    lra.
Qed.

End Ranges.

Lemma Z_init_ranges_sample :
  ((length (blocks (Single z_test)) <= length [1])%nat /\
   Forall (fun f => 0 < f) [1]) /\
  exists rv pv,
    ZObj.subscript3 (ZObj._resistivity (self sample_Z)) 0 i0 i1 = Ok rv /\
    ZObj.subscript3 (ZObj._phase (self sample_Z)) 0 i0 i1 = Ok pv /\
    0 <= rv /\ - 180 <= pv <= 180.
Proof.
  assert (Hl : (length (blocks (Single z_test)) <= length [1])%nat)
    by (cbn; lia).
  assert (Hc : covers (option_map blocks (@None (ndarray R)))
                 (blocks (Single z_test))) by exact I.
  assert (Hp : Forall (fun f => 0 < f) [1])
    by (apply Forall_cons; [lra | apply Forall_nil]).
  assert (Hi : (0 < length (blocks (Single z_test)))%nat) by (cbn; lia).
  split; [split; [exact Hl | exact Hp]|].
  apply (@Z_init_ranges first_order (Single z_test) None [1] Hl Hc Hp
           0%nat i0 i1 Hi).
Defined.

(** One step of a computation whose first part returns. *)
Ltac bind_step tac :=
  erewrite bind_Ok by tac; cbn beta iota zeta delta [self log fst snd].

(** ** Rotation *)

Section RotateRun.

Context `{Calculator}.

Lemma get_z_run (s : ZObj.t) lg :
  ZObj._get_z (World s lg) = (Ok (ZObj._z s), World s lg).
Proof. reflexivity. Qed.

Lemma get_z_err_run (s : ZObj.t) lg :
  ZObj._get_z_err (World s lg) = (Ok (ZObj._z_err s), World s lg).
Proof. reflexivity. Qed.

Lemma rotate_block_None s lg zs lo k acc z a b :
  ZObj._z s = Some zs -> ZObj._z_err s = None ->
  nth_error zs k = Some z -> nth_error lo k = Some a ->
  nth_error acc k = Some b ->
  ZObj.rotate_block lo k (acc, None) (World s lg)
  = (Ok (upd acc k (rotatematrix_no_errors z a), None), World s lg).
Proof.
  intros Hz He Hk Ha Hb.
  unfold ZObj.rotate_block, ZObj._get_z, ZObj._get_z_err, np_isnan, bind,
    getself, ret, lift, block, item1, setblock.
  repeat (progress (cbn beta iota delta [self]; rewrite ?Hz, ?He, ?Hk, ?Ha, ?Hb)).
  reflexivity.
Qed.

Lemma rotate_block_Some s lg zs ea lo k acc era z a e b eb :
  ZObj._z s = Some zs -> ZObj._z_err s = Some ea ->
  nth_error zs k = Some z -> nth_error lo k = Some a ->
  nth_error ea k = Some e ->
  nth_error acc k = Some b -> nth_error era k = Some eb ->
  ZObj.rotate_block lo k (acc, Some era) (World s lg)
  = (Ok (upd acc k (fst (rotatematrix_incl_errors z a e)),
         Some (upd era k (snd (rotatematrix_incl_errors z a e)))),
     World s lg).
Proof.
  intros Hz He Hk Ha Hek Hb Heb.
  unfold ZObj.rotate_block, ZObj._get_z, ZObj._get_z_err, np_isnan, bind,
    getself, ret, lift, block, item1, setblock.
  repeat (progress (cbn beta iota delta [self];
                    rewrite ?Hz, ?He, ?Hk, ?Ha, ?Hek)).
  destruct (rotatematrix_incl_errors z a e) as [zr er].
  repeat (progress (cbn beta iota delta [fst snd]; rewrite ?Hb, ?Heb)).
  reflexivity.
Qed.

Lemma rotate_loop_None s lg zs lo m : forall k acc,
  ZObj._z s = Some zs -> ZObj._z_err s = None ->
  (k + m <= length zs)%nat -> (k + m <= length lo)%nat ->
  length acc = length zs ->
  fold_each (seq k m) (ZObj.rotate_block lo) (acc, None) (World s lg)
  = (Ok (fill (fun i => rotatematrix_no_errors (nth i zs (mconst C0))
                                               (nth i lo 0))
              (seq k m) acc, None),
     World s lg).
Proof.
  induction m; intros k acc Hz He Hk Hlo Hacc.
  - reflexivity.
  - cbn [seq fold_each]. unfold bind at 1.
    destruct (nth_error acc k) as [b|] eqn:Eb;
      [|apply nth_error_None in Eb; lia].
    rewrite (rotate_block_None s lg zs lo k acc
               (nth k zs (mconst C0)) (nth k lo 0) b); auto;
      try (apply nth_error_nth'; lia).
    rewrite IHm by (rewrite ?upd_length; auto; lia).
    reflexivity.
Qed.

Lemma rotate_loop_Some s lg zs ea lo m : forall k acc era,
  ZObj._z s = Some zs -> ZObj._z_err s = Some ea ->
  (k + m <= length zs)%nat -> (k + m <= length lo)%nat ->
  (k + m <= length ea)%nat ->
  length acc = length zs -> length era = length ea ->
  fold_each (seq k m) (ZObj.rotate_block lo) (acc, Some era) (World s lg)
  = (Ok (fill (fun i => fst (rotatematrix_incl_errors
                               (nth i zs (mconst C0)) (nth i lo 0)
                               (nth i ea (mconst 0))))
              (seq k m) acc,
         Some (fill (fun i => snd (rotatematrix_incl_errors
                                     (nth i zs (mconst C0)) (nth i lo 0)
                                     (nth i ea (mconst 0))))
                    (seq k m) era)),
     World s lg).
Proof.
  induction m; intros k acc era Hz He Hk Hlo Hea Hacc Hera.
  - reflexivity.
  - cbn [seq fold_each]. unfold bind at 1.
    destruct (nth_error acc k) as [b|] eqn:Eb;
      [|apply nth_error_None in Eb; lia].
    destruct (nth_error era k) as [eb|] eqn:Eeb;
      [|apply nth_error_None in Eeb; lia].
    rewrite (rotate_block_Some s lg zs ea lo k acc era
               (nth k zs (mconst C0)) (nth k lo 0) (nth k ea (mconst 0)) b eb);
      auto; try (apply nth_error_nth'; lia).
    rewrite IHm by (rewrite ?upd_length; auto; lia).
    reflexivity.
Qed.

(** The setter of [z], handed an array of blocks on an object whose
    rotation angle is an array: it stores the array and returns. *)
Lemma set_z_stack_run s lg l old :
  ZObj.rotation_angle s = RotArray old ->
  exists w',
    ZObj._set_z (Stack l) (World s lg) = (Ok tt, w') /\
    same_inputs (World (ZObj.set_z (Some l) s) lg) w'.
Proof.
  intro Hra. destruct s as [oz oe ofr ra r0 re0 p0 pe0].
  cbn [ZObj.rotation_angle] in Hra. subst ra.
  unfold ZObj._set_z, try_except, bind, getself, ret, modify, lift.
  cbn -[ZObj.recompute_guarded].
  match goal with |- context [ZObj.recompute_guarded ?w] =>
    pose proof (recompute_guarded_returns w) as Hok;
    pose proof (recompute_guarded_same_inputs w) as Hsame;
    destruct (ZObj.recompute_guarded w) as [res w'] end.
  cbn [fst snd] in Hok, Hsame. subst res.
  exists w'. split; [reflexivity | exact Hsame].
Qed.

Lemma set_z_err_run s lg ea zs :
  ZObj._z s = Some zs ->
  exists w',
    ZObj._set_z_err (Some ea) (World s lg) = (Ok tt, w') /\
    same_inputs (World (ZObj.set_z_err (Some ea) s) lg) w'.
Proof.
  intro Hz. destruct s as [oz oe ofr ra r0 re0 p0 pe0].
  cbn [ZObj._z] in Hz. subst oz.
  unfold ZObj._set_z_err, ZObj._get_z, bind, getself, ret, modify, logger.
  cbn -[ZObj.recompute_guarded].
  destruct (negb (length ea =? length zs)%nat); cbn -[ZObj.recompute_guarded];
    match goal with |- context [ZObj.recompute_guarded ?w] =>
      pose proof (recompute_guarded_returns w) as Hok;
      pose proof (recompute_guarded_same_inputs w) as Hsame;
      destruct (ZObj.recompute_guarded w) as [res w'] end;
    cbn [fst snd] in Hok, Hsame; subst res;
    exists w'; (split; [reflexivity|]).
  - destruct Hsame as (H1 & H2 & H3 & H4 & l & H5).
    cbn [self log] in *. repeat split; auto.
    exists ((WARNING, "z_err_array shape is not same shape as z"%string) :: l).
    rewrite H5, <- app_assoc. reflexivity.
  - exact Hsame.
Qed.

Lemma fill_map_all {A} (g : A -> A) (blk : nat -> A) (l : list A) d :
  (forall i, (i < length l)%nat -> blk i = g (nth i l d)) ->
  fill blk (seq 0 (length l)) l = map g l.
Proof.
  intro Hb. apply nth_error_ext. intro i.
  rewrite fill_nth_error by lia. rewrite nth_error_map.
  destruct (Nat.leb_spec 0 i), (Nat.ltb_spec i (0 + length l)); cbn [andb];
    try lia.
  - rewrite Hb by lia. rewrite (nth_error_nth' l d) by lia. reflexivity.
  - assert (E : nth_error l i = None) by (apply nth_error_None; lia).
    rewrite E. reflexivity.
Qed.

Lemma fill_combine {A B D} (g : A * B -> D) (blk : nat -> D) (la : list A)
  (lb : list B) (l : list D) da db :
  length la = length l -> length lb = length l ->
  (forall i, (i < length l)%nat -> blk i = g (nth i la da, nth i lb db)) ->
  fill blk (seq 0 (length l)) l = map g (combine la lb).
Proof.
  intros Ha Hl Hb. apply nth_error_ext. intro i.
  rewrite fill_nth_error by lia. rewrite nth_error_map.
  destruct (Nat.leb_spec 0 i), (Nat.ltb_spec i (0 + length l)); cbn [andb];
    try lia.
  - rewrite Hb by lia.
    assert (E : nth_error (combine la lb) i = Some (nth i la da, nth i lb db)).
    { rewrite (nth_error_nth' (combine la lb) (da, db))
        by (rewrite length_combine; lia).
      rewrite combine_nth by lia. reflexivity. }
    rewrite E. reflexivity.
  - assert (E : nth_error l i = None) by (apply nth_error_None; lia).
    assert (E' : nth_error (combine la lb) i = None)
      by (apply nth_error_None; rewrite length_combine; lia).
    rewrite E, E'. reflexivity.
Qed.

Lemma accumulate_scalar old n a :
  (length old <= n)%nat ->
  ZObj.accumulate (RotArray old) (repeat (pymod a 360) n)
  = Ok (map (fun o => pymod (o + a) 360) old).
Proof.
  intro Hn.
  destruct (accumulate_ok old (repeat (pymod a 360) n)) as (new & Hacc & Hl & Hent);
    [rewrite repeat_length; assumption|].
  rewrite Hacc. f_equal. apply nth_error_ext. intro i.
  rewrite nth_error_map.
  destruct (nth_error old i) as [o|] eqn:Eo.
  - assert (i < length old)%nat by (apply nth_error_Some; congruence).
    rewrite (Hent i o (pymod a 360) Eo) by (apply nth_error_repeat; lia).
    cbn. rewrite pymod_add_pymod. reflexivity.
  - apply nth_error_None in Eo. apply nth_error_None. lia.
Qed.

(** [rotate] by one angle, on an object with frequencies for every block
    and errors, if any, of the shape of the tensor. *)
Lemma rotate_scalar_run s lg zs fs old a :
  ZObj._z s = Some zs -> ZObj._freq s = Some fs ->
  (length zs <= length fs)%nat -> same_shape (ZObj._z_err s) zs ->
  ZObj.rotation_angle s = RotArray old -> (length old <= length zs)%nat ->
  exists w',
    ZObj.rotate (Scalar a) (World s lg) = (Ok tt, w') /\
    ZObj._z (self w') = Some (rotated_tensor zs (ZObj._z_err s) (pymod a 360)) /\
    ZObj._z_err (self w') = rotated_error zs (ZObj._z_err s) (pymod a 360) /\
    ZObj._freq (self w') = Some fs /\
    ZObj.rotation_angle (self w')
    = RotArray (map (fun o => pymod (o + a) 360) old) /\
    derived_from_state (self w').
Proof.
  intros Hz Hf Hlen Hsh Hra Hold.
  set (ang := pymod a 360).
  set (new := map (fun o => pymod (o + a) 360) old).
  set (s1 := ZObj.set_rotation_angle (RotArray new) s).
  assert (Hz1 : ZObj._z s1 = Some zs) by (destruct s; exact Hz).
  assert (He1 : ZObj._z_err s1 = ZObj._z_err s) by (destruct s; reflexivity).
  assert (Hn : forall i, (i < length zs)%nat ->
                         nth i (repeat ang (length zs)) 0 = ang).
  { intros i Hi. apply nth_error_nth. apply nth_error_repeat. assumption. }
  (* the loop *)
  assert (Hloop :
    fold_each (seq 0 (length zs)) (ZObj.rotate_block (repeat ang (length zs)))
      (zs, ZObj._z_err s1) (World s1 lg)
    = (Ok (rotated_tensor zs (ZObj._z_err s) ang,
           rotated_error zs (ZObj._z_err s) ang), World s1 lg)).
  { rewrite He1. unfold same_shape in Hsh.
    destruct (ZObj._z_err s) as [ea|] eqn:He.
    - rewrite (rotate_loop_Some s1 lg zs ea); auto;
        rewrite ?repeat_length; try lia.
      unfold rotated_tensor, rotated_error. do 3 f_equal; [|f_equal].
      + apply (fill_combine
          (fun p => fst (rotatematrix_incl_errors (fst p) ang (snd p)))
          _ zs ea zs (mconst C0) (mconst 0)); auto.
        intros i Hi. rewrite Hn by assumption. reflexivity.
      + rewrite <- Hsh.
        apply (fill_combine
          (fun p => snd (rotatematrix_incl_errors (fst p) ang (snd p)))
          _ zs ea ea (mconst C0) (mconst 0)); auto.
        intros i Hi. rewrite Hsh, Hn by lia. reflexivity.
    - rewrite (rotate_loop_None s1 lg zs); auto; rewrite ?repeat_length; try lia.
      unfold rotated_tensor, rotated_error. do 3 f_equal.
      apply (fill_map_all (fun z => rotatematrix_no_errors z ang) _ zs (mconst C0)).
      intros i Hi. rewrite Hn by assumption. reflexivity. }
  set (zr := rotated_tensor zs (ZObj._z_err s) ang) in *.
  set (er := rotated_error zs (ZObj._z_err s) ang) in *.
  assert (Lzr : length zr = length zs).
  { unfold zr, rotated_tensor, same_shape in *.
    destruct (ZObj._z_err s); rewrite length_map, ?length_combine; lia. }
  (* the setter of z *)
  destruct (set_z_stack_run s1 lg zr new) as (w2 & Hset & Hsame2);
    [destruct s; reflexivity|].
  destruct Hsame2 as (Hz2 & He2 & Hf2 & Hr2 & l2 & Hl2).
  cbn [self log] in Hz2, He2, Hf2, Hr2, Hl2.
  assert (Hz2' : ZObj._z (self w2) = Some zr) by (rewrite Hz2; destruct s; reflexivity).
  assert (He2' : ZObj._z_err (self w2) = ZObj._z_err s)
    by (rewrite He2; destruct s; reflexivity).
  assert (Hf2' : ZObj._freq (self w2) = Some fs)
    by (rewrite Hf2; destruct s; exact Hf).
  assert (Hr2' : ZObj.rotation_angle (self w2) = RotArray new)
    by (rewrite Hr2; destruct s; reflexivity).
  (* the setter of z_err *)
  assert (Hserr : exists w3,
    match ZObj._z_err (self w2) with
    | Some _ => ZObj._set_z_err er
    | None => ret tt
    end w2 = (Ok tt, w3) /\
    ZObj._z (self w3) = Some zr /\ ZObj._z_err (self w3) = er /\
    ZObj._freq (self w3) = Some fs /\
    ZObj.rotation_angle (self w3) = RotArray new).
  { rewrite He2'.
    unfold er, rotated_error.
    destruct (ZObj._z_err s) as [ea|] eqn:He.
    - destruct w2 as [s2 lg2]. cbn [self] in *.
      destruct (set_z_err_run s2 lg2
        (map (fun p => snd (rotatematrix_incl_errors (fst p) ang (snd p)))
             (combine zs ea)) zr Hz2') as (w3 & Hrun & H1 & H2 & H3 & H4 & _).
      cbn [self] in H1, H2, H3, H4.
      exists w3. split; [exact Hrun|].
      split; [rewrite H1; destruct s2; exact Hz2'|].
      split; [rewrite H2; destruct s2; reflexivity|].
      split; [rewrite H3; destruct s2; exact Hf2'|].
      rewrite H4; destruct s2; exact Hr2'.
    - exists w2. repeat split; auto. }
  destruct Hserr as (w3 & Hserr & Hz3 & He3 & Hf3 & Hr3).
  (* the last recomputation *)
  destruct w3 as [s3 lg3]. cbn [self] in *.
  assert (Hcov3 : covers (ZObj._z_err s3) zr).
  { rewrite He3. unfold er, rotated_error, covers, same_shape in *.
    destruct (ZObj._z_err s); [|exact I].
    rewrite length_map, length_combine, Lzr. lia. }
  destruct (compute_res_phase_ok s3 lg3 zr fs Hz3 Hf3 ltac:(lia) Hcov3)
    as (rs & ps & ore & ope & Hc & _).
  pose proof (compute_res_phase_derived s3 lg3) as Hd.
  rewrite Hc in Hd. cbn [snd self] in Hd.
  eexists. split.
  - subst s1 new ang. unfold ZObj.rotate, ZObj.lo_angles_of, range.
    bind_step ltac:(apply get_z_run). rewrite Hz.
    cbn beta iota zeta.
    bind_step ltac:(reflexivity).
    rewrite Hra, accumulate_scalar by assumption.
    bind_step ltac:(reflexivity).
    bind_step ltac:(reflexivity).
    bind_step ltac:(apply get_z_run). rewrite Hz1. cbn [ZObj.len].
    bind_step ltac:(reflexivity).
    rewrite repeat_length, Nat.eqb_refl. cbn [negb].
    bind_step ltac:(reflexivity). rewrite Hz1.
    bind_step ltac:(reflexivity).
    bind_step ltac:(apply Hloop).
    bind_step ltac:(apply Hset).
    destruct w2 as [s2 lg2].
    bind_step ltac:(apply get_z_err_run).
    bind_step ltac:(apply Hserr).
    apply Hc.
  - cbn [self ZObj._z ZObj._z_err ZObj._freq ZObj.rotation_angle].
    split; [reflexivity|]. split; [exact He3|]. split; [reflexivity|].
    split; [exact Hr3|].
    apply Hd. intro Hnone. rewrite Hf3 in Hnone. discriminate.
Qed.

End RotateRun.

Section RotateFacts.

Context `{Calculator}.

Lemma rotate_scalar_too_few s lg zs old a :
  ZObj._z s = Some zs -> ZObj.rotation_angle s = RotArray old ->
  (length zs < length old)%nat ->
  ZObj.rotate (Scalar a) (World s lg) = (Raise IndexError, World s lg).
Proof.
  intros Hz Hra Hlt.
  destruct s as [oz oe ofr ra r0 re0 p0 pe0]. cbn in Hz, Hra. subst.
  unfold ZObj.rotate, ZObj._get_z, bind, getself, ret, lift, ZObj.lo_angles_of.
  cbn beta iota delta [self ZObj._z ZObj.rotation_angle].
  unfold ZObj.accumulate, enumerate.
  rewrite accumulate_too_few by (rewrite repeat_length; lia).
  reflexivity.
Qed.

Lemma pymod_twice o a b :
  pymod (pymod (o + a) 360 + b) 360 = pymod (o + (a + b)) 360.
Proof.
  rewrite (Rplus_comm (pymod (o + a) 360) b), pymod_add_pymod.
  f_equal. ring.
Qed.

Lemma rotated_tensor_length zs (oe : option (list (Mat2 R))) ang :
  same_shape oe zs -> length (rotated_tensor zs oe ang) = length zs.
Proof.
  unfold rotated_tensor, same_shape. destruct oe; intro Hs;
    rewrite length_map, ?length_combine; lia.
Qed.

Lemma rotated_error_shape zs (oe : option (list (Mat2 R))) ang :
  same_shape oe zs ->
  same_shape (rotated_error zs oe ang) (rotated_tensor zs oe ang).
Proof.
  unfold rotated_error, rotated_tensor, same_shape. destruct oe; intro Hs;
    [|exact I].
  rewrite !length_map. reflexivity.
Qed.

(** X16.  [rotate] handed one angle, on an object that holds a tensor,
    a frequency for every block, an error (if any) of the shape of the
    tensor and an array of rotation angles no longer than the tensor:
    the method returns; every block, and every block of the error, is the
    one that [rotatematrix_incl_errors] gives for the angle modulo 360;
    the frequencies are kept; every entry of [rotation_angle] is the old
    entry plus the angle, modulo 360; resistivity and phase are those of
    the rotated tensor. *)
Theorem rotate_by_an_angle s lg zs fs old a :
  ZObj._z s = Some zs -> ZObj._freq s = Some fs ->
  (length zs <= length fs)%nat -> same_shape (ZObj._z_err s) zs ->
  ZObj.rotation_angle s = RotArray old -> (length old <= length zs)%nat ->
  exists w',
    ZObj.rotate (Scalar a) (World s lg) = (Ok tt, w') /\
    ZObj._z (self w') = Some (rotated_tensor zs (ZObj._z_err s) (pymod a 360)) /\
    ZObj._z_err (self w') = rotated_error zs (ZObj._z_err s) (pymod a 360) /\
    ZObj._freq (self w') = Some fs /\
    ZObj.rotation_angle (self w')
    = RotArray (map (fun o => pymod (o + a) 360) old) /\
    derived_from_state (self w').
Proof.
  intros Hz Hf Hlen Hsh Hra Hold.
  exact (rotate_scalar_run s lg zs fs old a Hz Hf Hlen Hsh Hra Hold).
Qed.

(** X17.  Two rotations in a row, by [a] and then by [b]: both return,
    every entry of [rotation_angle] is the first entry plus [a + b],
    modulo 360, and the tensor is the one rotated by [a] and then rotated
    by [b], each angle modulo 360, with the error rotated along. *)
Theorem rotate_twice_adds_the_angles s lg zs fs old a b :
  ZObj._z s = Some zs -> ZObj._freq s = Some fs ->
  (length zs <= length fs)%nat -> same_shape (ZObj._z_err s) zs ->
  ZObj.rotation_angle s = RotArray old -> (length old <= length zs)%nat ->
  exists w1 w2,
    ZObj.rotate (Scalar a) (World s lg) = (Ok tt, w1) /\
    ZObj.rotate (Scalar b) w1 = (Ok tt, w2) /\
    ZObj.rotation_angle (self w2)
    = RotArray (map (fun o => pymod (o + (a + b)) 360) old) /\
    ZObj._z (self w2)
    = Some (rotated_tensor
              (rotated_tensor zs (ZObj._z_err s) (pymod a 360))
              (rotated_error zs (ZObj._z_err s) (pymod a 360))
              (pymod b 360)) /\
    ZObj._z_err (self w2)
    = rotated_error
        (rotated_tensor zs (ZObj._z_err s) (pymod a 360))
        (rotated_error zs (ZObj._z_err s) (pymod a 360))
        (pymod b 360) /\
    ZObj._freq (self w2) = Some fs.
Proof.
  intros Hz Hf Hlen Hsh Hra Hold.
  destruct (rotate_scalar_run s lg zs fs old a Hz Hf Hlen Hsh Hra Hold)
    as ([s1 lg1] & Hr1 & Hz1 & He1 & Hf1 & Hra1 & _).
  cbn [self] in Hz1, He1, Hf1, Hra1.
  pose proof (rotated_tensor_length zs (ZObj._z_err s) (pymod a 360) Hsh) as L.
  pose proof (rotated_error_shape zs (ZObj._z_err s) (pymod a 360) Hsh) as Hsh1.
  rewrite <- He1 in Hsh1.
  destruct (rotate_scalar_run s1 lg1 _ fs _ b Hz1 Hf1 ltac:(lia) Hsh1 Hra1
              ltac:(rewrite length_map; lia))
    as (w2 & Hr2 & Hz2 & He2 & Hf2 & Hra2 & _).
  exists (World s1 lg1), w2.
  split; [exact Hr1|]. split; [exact Hr2|].
  split; [|split; [|split]].
  - rewrite Hra2, map_map. f_equal. apply map_ext. intro o. apply pymod_twice.
  - rewrite Hz2, He1. reflexivity.
  - rewrite He2, He1. reflexivity.
  - exact Hf2.
Qed.

(** X18.  The setter of [z] does not reset [rotation_angle] (its
    docstring announces it): handed an array of blocks on an object whose
    [rotation_angle] is an array, it returns, stores the array and leaves
    [rotation_angle] as it was.  When the new tensor has fewer blocks than
    there are rotation angles, a following [rotate] by one angle raises
    [IndexError] and changes nothing. *)
Theorem set_z_keeps_rotation_angle s lg l old :
  ZObj.rotation_angle s = RotArray old ->
  exists w',
    ZObj._set_z (Stack l) (World s lg) = (Ok tt, w') /\
    ZObj._z (self w') = Some l /\
    ZObj.rotation_angle (self w') = RotArray old /\
    ((length l < length old)%nat ->
     forall a, ZObj.rotate (Scalar a) w' = (Raise IndexError, w')).
Proof.
  intro Hra.
  destruct (set_z_stack_run s lg l old Hra)
    as ([s' lg'] & Hset & Hz & _ & _ & Hr & _).
  cbn [self] in Hz, Hr.
  assert (Hz' : ZObj._z s' = Some l) by (rewrite Hz; destruct s; reflexivity).
  assert (Hr' : ZObj.rotation_angle s' = RotArray old)
    by (rewrite Hr; destruct s; exact Hra).
  exists (World s' lg'). split; [exact Hset|].
  split; [exact Hz'|]. split; [exact Hr'|].
  intros Hlt a. apply (rotate_scalar_too_few s' lg' l old a Hz' Hr' Hlt).
Qed.

End RotateFacts.

Lemma rotate_by_an_angle_sample :
  (ZObj._z (self sample_Z) = Some [z_test] /\
   ZObj._freq (self sample_Z) = Some [1] /\
   (length [z_test] <= length [1])%nat /\
   same_shape (ZObj._z_err (self sample_Z)) [z_test] /\
   ZObj.rotation_angle (self sample_Z) = RotArray [0] /\
   (length [0] <= length [z_test])%nat) /\
  exists w',
    @ZObj.rotate first_order (Scalar 30) (World (self sample_Z) []) = (Ok tt, w') /\
    ZObj._z (self w')
    = Some (@rotated_tensor first_order [z_test]
              (ZObj._z_err (self sample_Z)) (pymod 30 360)) /\
    ZObj._z_err (self w')
    = @rotated_error first_order [z_test]
        (ZObj._z_err (self sample_Z)) (pymod 30 360) /\
    ZObj._freq (self w') = Some [1] /\
    ZObj.rotation_angle (self w')
    = RotArray (map (fun o => pymod (o + 30) 360) [0]) /\
    derived_from_state (self w').
Proof.
  assert (Hz : ZObj._z (self sample_Z) = Some [z_test]) by (run; reflexivity).
  assert (Hf : ZObj._freq (self sample_Z) = Some [1]) by (run; reflexivity).
  assert (Hl : (length [z_test] <= length [1])%nat) by (cbn; lia).
  assert (He : ZObj._z_err (self sample_Z) = None) by (run; reflexivity).
  assert (Hs : same_shape (ZObj._z_err (self sample_Z)) [z_test])
    by (rewrite He; exact I).
  assert (Hr : ZObj.rotation_angle (self sample_Z) = RotArray [0])
    by (run; reflexivity).
  assert (Ho : (length [0] <= length [z_test])%nat) by (cbn; lia).
  split.
  { split; [exact Hz|]. split; [exact Hf|]. split; [exact Hl|].
    split; [exact Hs|]. split; [exact Hr | exact Ho]. }
  exact (@rotate_by_an_angle first_order (self sample_Z) [] [z_test] [1] [0] 30
           Hz Hf Hl Hs Hr Ho).
Defined.

Lemma rotate_twice_adds_the_angles_sample :
  (ZObj._z (self sample_Z3) = Some [z_test; z_test; z_test] /\
   ZObj._freq (self sample_Z3) = Some [1; 1; 1] /\
   (length [z_test; z_test; z_test] <= length [1; 1; 1])%nat /\
   same_shape (ZObj._z_err (self sample_Z3)) [z_test; z_test; z_test] /\
   ZObj.rotation_angle (self sample_Z3) = RotArray [0; 0; 0] /\
   (length [0; 0; 0] <= length [z_test; z_test; z_test])%nat) /\
  exists w1 w2,
    @ZObj.rotate first_order (Scalar 350) (World (self sample_Z3) [])
    = (Ok tt, w1) /\
    @ZObj.rotate first_order (Scalar 20) w1 = (Ok tt, w2) /\
    ZObj.rotation_angle (self w2)
    = RotArray (map (fun o => pymod (o + (350 + 20)) 360) [0; 0; 0]) /\
    ZObj._z (self w2)
    = Some (@rotated_tensor first_order
              (@rotated_tensor first_order [z_test; z_test; z_test]
                 (ZObj._z_err (self sample_Z3)) (pymod 350 360))
              (@rotated_error first_order [z_test; z_test; z_test]
                 (ZObj._z_err (self sample_Z3)) (pymod 350 360))
              (pymod 20 360)) /\
    ZObj._z_err (self w2)
    = @rotated_error first_order
        (@rotated_tensor first_order [z_test; z_test; z_test]
           (ZObj._z_err (self sample_Z3)) (pymod 350 360))
        (@rotated_error first_order [z_test; z_test; z_test]
           (ZObj._z_err (self sample_Z3)) (pymod 350 360))
        (pymod 20 360) /\
    ZObj._freq (self w2) = Some [1; 1; 1].
Proof.
  assert (Hz : ZObj._z (self sample_Z3) = Some [z_test; z_test; z_test])
    by (run; reflexivity).
  assert (Hf : ZObj._freq (self sample_Z3) = Some [1; 1; 1])
    by (run; reflexivity).
  assert (Hl : (length [z_test; z_test; z_test] <= length [1; 1; 1])%nat)
    by (cbn; lia).
  assert (He : ZObj._z_err (self sample_Z3) = None) by (run; reflexivity).
  assert (Hs : same_shape (ZObj._z_err (self sample_Z3))
                 [z_test; z_test; z_test])
    by (rewrite He; exact I).
  assert (Hr : ZObj.rotation_angle (self sample_Z3) = RotArray [0; 0; 0])
    by (run; reflexivity).
  assert (Ho : (length [0; 0; 0] <= length [z_test; z_test; z_test])%nat)
    by (cbn; lia).
  split.
  { split; [exact Hz|]. split; [exact Hf|]. split; [exact Hl|].
    split; [exact Hs|]. split; [exact Hr | exact Ho]. }
  exact (@rotate_twice_adds_the_angles first_order (self sample_Z3) []
           [z_test; z_test; z_test] [1; 1; 1] [0; 0; 0] 350 20
           Hz Hf Hl Hs Hr Ho).
Defined.

Lemma set_z_keeps_rotation_angle_sample :
  ZObj.rotation_angle (self sample_Z3) = RotArray [0; 0; 0] /\
  exists w',
    @ZObj._set_z first_order (Stack [z_test]) (World (self sample_Z3) [])
    = (Ok tt, w') /\
    ZObj._z (self w') = Some [z_test] /\
    ZObj.rotation_angle (self w') = RotArray [0; 0; 0] /\
    ((length [z_test] < length [0; 0; 0])%nat ->
     forall a, @ZObj.rotate first_order (Scalar a) w' = (Raise IndexError, w')).
Proof.
  assert (Hr : ZObj.rotation_angle (self sample_Z3) = RotArray [0; 0; 0])
    by (run; reflexivity).
  split; [exact Hr|].
  exact (@set_z_keeps_rotation_angle first_order (self sample_Z3) []
           [z_test] [0; 0; 0] Hr).
Defined.

(** ** Static shift and distortion *)

Lemma res_value_scaled z z0 r t f :
  0 < r -> z = Cadd (Cscale (sqrt r) z0) (Cscale 0 t) ->
  res_value z0 f = res_value z f / r.
Proof.
  intros Hr ->. unfold res_value. rewrite !np_abs_sqr.
  unfold Cadd, Cscale. cbn [Re Im].
  pose proof (sqrt_sqrt r ltac:(lra)) as Hs.
  replace ((sqrt r * Re z0 + 0 * Re t) * (sqrt r * Re z0 + 0 * Re t)
           + (sqrt r * Im z0 + 0 * Im t) * (sqrt r * Im z0 + 0 * Im t))
    with (sqrt r * sqrt r * (Re z0 * Re z0 + Im z0 * Im z0)) by ring.
  rewrite Hs. set (A := Re z0 * Re z0 + Im z0 * Im z0). set (c := 0.2).
  unfold Rdiv.
  replace (r * A * / f * c * / r) with (A * / f * c * (r * / r)) by ring.
  rewrite Rinv_r by lra. ring.
Qed.

Lemma res_value_scaled' z z0 r t f :
  0 < r -> z = Cadd (Cscale 0 t) (Cscale (sqrt r) z0) ->
  res_value z0 f = res_value z f / r.
Proof.
  intros Hr ->. apply (res_value_scaled _ z0 r t f Hr).
  apply C_eq; cbn; ring.
Qed.

Lemma dot_matrix_I `{Lapack} D DI z :
  det2 D <> 0 -> matrix_I D = Ok DI -> dot_RC D (dot_RC DI z) = z.
Proof.
  intro E. unfold matrix_I.
  destruct (Req_dec_T (det2 D) 0) as [E'|_]; [contradiction|].
  intro HDI. injection HDI as <-.
  destruct z as [[a b] [c d] [e f] [g h]]. destruct D as [p q r t].
  unfold det2 in *. cbn [m00 m01 m10 m11] in *.
  unfold dot_RC, Cadd, Cscale. cbn [m00 m01 m10 m11 Re Im].
  f_equal; apply C_eq; cbn [Re Im]; field; assumption.
Qed.

Lemma distortion_err_block_nonneg DI DI_err z e :
  nonneg_block (distortion_err_block DI DI_err z e).
Proof.
  unfold nonneg_block, distortion_err_block, distortion_err_value.
  cbn [m00 m01 m10 m11].
  repeat split;
    repeat (apply Rplus_le_le_0_compat); apply np_abs_nonneg.
Qed.

Lemma fill_is_map {A B} (g : B -> A) (blk : nat -> A) (src : list B)
  (l : list A) d n :
  n = length src -> length l = length src ->
  (forall i, (i < length src)%nat -> blk i = g (nth i src d)) ->
  fill blk (seq 0 n) l = map g src.
Proof.
  intros -> Hl Hb. apply nth_error_ext. intro i.
  rewrite fill_nth_error by lia. rewrite nth_error_map.
  destruct (Nat.leb_spec 0 i), (Nat.ltb_spec i (0 + length src)); cbn [andb];
    try lia.
  - rewrite Hb by lia. rewrite (nth_error_nth' src d) by lia. reflexivity.
  - assert (E : nth_error l i = None) by (apply nth_error_None; lia).
    assert (E' : nth_error src i = None) by (apply nth_error_None; lia).
    rewrite E, E'. reflexivity.
Qed.

Section ShiftAndDistortion.

Context `{Calculator} `{Lapack}.

(** [remove_distortion] with an invertible 2x2 matrix, on a tensor with
    errors of its shape. *)
Lemma remove_distortion_run s lg zs ea D err DI :
  ZObj._z s = Some zs -> ZObj._z_err s = Some ea -> length ea = length zs ->
  matrix_I D = Ok DI ->
  let DI_err := snd (invertmatrix_incl_errors D
                       match err with Some e => e | None => mconst 0 end) in
  ZObj.remove_distortion (D2 D err) (World s lg)
  = (Ok (D, map (dot_RC DI) zs,
         Some (map (fun p => distortion_err_block DI DI_err (fst p) (snd p))
                   (combine zs ea))),
     World s lg).
Proof.
  intros Hz He Hlen HDI DI_err.
  pose proof (remove_distortion_loop s lg zs ea DI DI_err
    (length zs) 0 (map (fun _ => mconst C0) zs) (zeros_like3 ea) Hz He) as Hloop.
  rewrite length_map, zeros_like3_length in Hloop.
  specialize (Hloop ltac:(lia) ltac:(lia) eq_refl eq_refl).
  unfold ZObj.remove_distortion, ZObj._get_z, ZObj._get_z_err, ZObj.len, range,
    try_except, bind, getself, ret, lift.
  cbn beta iota delta [self exn_eqb]. rewrite HDI.
  cbn beta iota. subst DI_err.
  destruct (invertmatrix_incl_errors D _) as [dummy DI_err].
  cbn [snd] in *.
  repeat (progress (cbn beta iota delta [self]; rewrite ?Hz, ?He)).
  rewrite Hloop. cbn [fst snd]. repeat f_equal.
  - apply (fill_is_map (dot_RC DI) _ zs _ (mconst C0));
      [reflexivity | apply length_map | reflexivity].
  - apply (fill_is_map
             (fun p => distortion_err_block DI DI_err (fst p) (snd p))
             _ (combine zs ea) _ (mconst C0, mconst 0)).
    + rewrite length_combine. lia.
    + rewrite zeros_like3_length, length_combine. lia.
    + intros i Hi. rewrite length_combine in Hi.
      rewrite combine_nth by lia. reflexivity.
Qed.

(** X19.  [remove_ss] with two positive factors: the method returns the
    array of static-shift matrices and the corrected tensor and leaves
    the object as it is; every static-shift matrix is the diagonal of the
    square roots of the factors; at a positive frequency the resistivity
    of an entry of the corrected tensor is that of the entry of the
    tensor divided by the factor of its row. *)
Theorem remove_ss_divides_the_resistivity s lg zs fx fy :
  ZObj._z s = Some zs -> 0 < fx -> 0 < fy ->
  exists S Z0,
    ZObj.remove_ss (Scalar fx) (Scalar fy) (World s lg)
    = (Ok (Some (S, Z0)), World s lg) /\
    length S = length zs /\ length Z0 = length zs /\
    forall i z, nth_error zs i = Some z ->
      nth_error S i = Some (mkMat2 (sqrt fx) 0 0 (sqrt fy)) /\
      exists z0, nth_error Z0 i = Some z0 /\
        forall f jj, 0 < f ->
          res_value (mget z0 i0 jj) f = res_value (mget z i0 jj) f / fx /\
          res_value (mget z0 i1 jj) f = res_value (mget z i1 jj) f / fy.
Proof.
  intros Hz Hx Hy.
  destruct (remove_ss_scalar s lg zs fx fy Hz Hx Hy)
    as (S & Z0 & Hrun & HS & HZ & Hent).
  exists S, Z0. split; [exact Hrun|]. split; [exact HS|]. split; [exact HZ|].
  intros i z Hi. destruct (Hent i z Hi) as (HSi & z0 & Hz0 & Hdot).
  split; [exact HSi|]. exists z0. split; [exact Hz0|].
  intros f jj _. subst z. unfold dot_RC, ss_matrix. cbn [m00 m01 m10 m11].
  destruct jj; cbn [mget m00 m01 m10 m11]; split;
    first [ eapply res_value_scaled; [eassumption | reflexivity]
          | eapply res_value_scaled'; [eassumption | reflexivity] ].
Qed.

(** X20.  [remove_distortion] with an invertible 2x2 matrix [D], on a
    tensor with errors of its shape: the method returns [D], a corrected
    tensor and a corrected error of the shape of the tensor, and leaves
    the object as it is; [D] times a block of the corrected tensor is the
    block of the tensor; no entry of the corrected error is negative. *)
Theorem remove_distortion_by_a_regular_matrix s lg zs ea D err :
  ZObj._z s = Some zs -> ZObj._z_err s = Some ea -> length ea = length zs ->
  det2 D <> 0 ->
  exists Z0 Z0_err,
    ZObj.remove_distortion (D2 D err) (World s lg)
    = (Ok (D, Z0, Some Z0_err), World s lg) /\
    length Z0 = length zs /\ length Z0_err = length zs /\
    (forall i z, nth_error zs i = Some z ->
       exists z0, nth_error Z0 i = Some z0 /\ dot_RC D z0 = z) /\
    Forall nonneg_block Z0_err.
Proof.
  intros Hz He Hlen Hd.
  destruct (matrix_I_regular D Hd) as (DI & HDI).
  pose proof (remove_distortion_run s lg zs ea D err DI Hz He Hlen HDI) as Hrun.
  cbn zeta in Hrun.
  eexists _, _. split; [exact Hrun|].
  split; [apply length_map|].
  split; [rewrite length_map, length_combine; lia|].
  split.
  - intros i z Hi. exists (dot_RC DI z). split.
    + rewrite nth_error_map, Hi. reflexivity.
    + apply dot_matrix_I; assumption.
  - apply Forall_forall. intros e Hin. apply in_map_iff in Hin.
    destruct Hin as (p & <- & _). apply distortion_err_block_nonneg.
Qed.

(** [np.sign] of a complex number other than 0 has the absolute value 1:
    multiplying by it keeps the absolute value. *)
Lemma np_abs_sign_mul w m : w <> C0 -> np_abs (Cmul (np_sign w) m) = np_abs m.
Proof.
  intro Hw.
  assert (Hs : exists g, np_sign w = RtoC g /\ g * g = 1).
  { unfold np_sign, sign_real.
    destruct (Req_dec_T (Re w) 0) as [E|E].
    - destruct (total_order_T 0 (Im w)) as [[L|L]|L].
      + exists 1. split; [reflexivity | ring].
      + exfalso. apply Hw. apply C_eq; cbn; congruence.
      + exists (-1). split; [reflexivity | ring].
    - destruct (total_order_T 0 (Re w)) as [[L|L]|L].
      + exists 1. split; [reflexivity | ring].
      + exfalso. apply E. congruence.
      + exists (-1). split; [reflexivity | ring]. }
  destruct Hs as (g & -> & Hg).
  unfold np_abs, Cmul, RtoC. cbn [Re Im]. f_equal.
  replace ((g * Re m - 0 * Im m) * (g * Re m - 0 * Im m)
           + (g * Im m + 0 * Re m) * (g * Im m + 0 * Re m))
    with (g * g * (Re m * Re m + Im m * Im m)) by ring.
  rewrite Hg. ring.
Qed.

Lemma np_abs_half x : np_abs (Cscale 0.5 x) = np_abs x / 2.
Proof.
  unfold np_abs, Cscale. cbn [Re Im].
  replace (0.5 * Re x * (0.5 * Re x) + 0.5 * Im x * (0.5 * Im x))
    with ((Re x * Re x + Im x * Im x) * (/ 2)²) by (unfold Rsqr; lra).
  rewrite sqrt_mult_alt by nra.
  rewrite sqrt_Rsqr by lra. reflexivity.
Qed.

(** X21.  [only1d] on an object that holds a tensor returns an array of
    the shape of the tensor and leaves the object as it is.  In every
    block the diagonal is 0 and an off-diagonal entry, where the entry of
    the tensor is not 0, has half the absolute value of the sum of the
    two off-diagonal entries of the tensor: the mean is taken of the
    entries, not of their absolute values.  A block with [z10 = -z01]
    comes out as the zero block. *)
Theorem only1d_takes_the_mean_of_the_entries s lg zs :
  ZObj._z s = Some zs ->
  exists z1d,
    ZObj._get_only1d (World s lg) = (Ok z1d, World s lg) /\
    length z1d = length zs /\
    forall i z, nth_error zs i = Some z ->
      exists b, nth_error z1d i = Some b /\
        m00 b = C0 /\ m11 b = C0 /\
        (m01 z <> C0 ->
         np_abs (m01 b) = np_abs (Cadd (m10 z) (m01 z)) / 2) /\
        (m10 z <> C0 ->
         np_abs (m10 b) = np_abs (Cadd (m10 z) (m01 z)) / 2) /\
        (m10 z = Copp (m01 z) -> b = mconst C0).
Proof.
  intro Hz. exists (map only1d_block zs).
  split; [apply only1d_blocks; exact Hz|]. split; [apply length_map|].
  intros i z Hi. exists (only1d_block z).
  split; [rewrite nth_error_map, Hi; reflexivity|].
  unfold only1d_block. cbn [m00 m01 m10 m11].
  split; [reflexivity|]. split; [reflexivity|].
  split; [|split].
  - intro H01. rewrite np_abs_sign_mul by assumption. apply np_abs_half.
  - intro H10. rewrite np_abs_sign_mul by assumption. apply np_abs_half.
  - intro Hanti. rewrite Hanti. unfold mconst, Cmul, Cscale, Cadd, Copp, C0.
    cbn [Re Im]. f_equal; apply C_eq; cbn [Re Im]; ring.
Qed.

(** X22.  [only2d] on an object that holds a tensor returns, for every
    block, the block with its diagonal set to 0 and its off-diagonal
    entries kept, and leaves the object, its tensor included, as it is. *)
Theorem only2d_zeroes_the_diagonal s lg zs :
  ZObj._z s = Some zs ->
  ZObj._get_only2d (World s lg)
  = (Ok (map (fun z => mkMat2 C0 (m01 z) (m10 z) C0) zs), World s lg).
Proof.
  intro Hz. apply only2d_blocks. exact Hz.
Qed.

End ShiftAndDistortion.

Lemma remove_ss_divides_the_resistivity_sample :
  (ZObj._z (self sample_Z3) = Some [z_test; z_test; z_test] /\ 0 < 2 /\ 0 < 4) /\
  exists S Z0,
    ZObj.remove_ss (Scalar 2) (Scalar 4) (World (self sample_Z3) [])
    = (Ok (Some (S, Z0)), World (self sample_Z3) []) /\
    length S = length [z_test; z_test; z_test] /\
    length Z0 = length [z_test; z_test; z_test] /\
    forall i z, nth_error [z_test; z_test; z_test] i = Some z ->
      nth_error S i = Some (mkMat2 (sqrt 2) 0 0 (sqrt 4)) /\
      exists z0, nth_error Z0 i = Some z0 /\
        forall f jj, 0 < f ->
          res_value (mget z0 i0 jj) f = res_value (mget z i0 jj) f / 2 /\
          res_value (mget z0 i1 jj) f = res_value (mget z i1 jj) f / 4.
Proof.
  assert (Hz : ZObj._z (self sample_Z3) = Some [z_test; z_test; z_test])
    by (run; reflexivity).
  assert (H2 : 0 < 2) by lra.
  assert (H4 : 0 < 4) by lra.
  split; [split; [exact Hz | split; [exact H2 | exact H4]]|].
  exact (remove_ss_divides_the_resistivity (self sample_Z3) []
           [z_test; z_test; z_test] 2 4 Hz H2 H4).
Defined.

Lemma remove_distortion_by_a_regular_matrix_sample :
  (ZObj._z (self sample_Z_err) = Some [z_test] /\
   ZObj._z_err (self sample_Z_err) = Some [e_test] /\
   length [e_test] = length [z_test] /\
   det2 (mkMat2 1.2 0.5 0.35 2.1) <> 0) /\
  exists Z0 Z0_err,
    @ZObj.remove_distortion first_order exact_pivots
      (D2 (mkMat2 1.2 0.5 0.35 2.1) None) (World (self sample_Z_err) [])
    = (Ok (mkMat2 1.2 0.5 0.35 2.1, Z0, Some Z0_err),
       World (self sample_Z_err) []) /\
    length Z0 = length [z_test] /\ length Z0_err = length [z_test] /\
    (forall i z, nth_error [z_test] i = Some z ->
       exists z0, nth_error Z0 i = Some z0 /\
                  dot_RC (mkMat2 1.2 0.5 0.35 2.1) z0 = z) /\
    Forall nonneg_block Z0_err.
Proof.
  assert (Hz : ZObj._z (self sample_Z_err) = Some [z_test])
    by (run; reflexivity).
  assert (He : ZObj._z_err (self sample_Z_err) = Some [e_test])
    by (run; reflexivity).
  assert (Hl : length [e_test] = length [z_test]) by reflexivity.
  assert (Hd : det2 (mkMat2 1.2 0.5 0.35 2.1) <> 0)
    by (unfold det2; cbn [m00 m01 m10 m11]; lra).
  split; [split; [exact Hz | split; [exact He | split; [exact Hl | exact Hd]]]|].
  exact (@remove_distortion_by_a_regular_matrix first_order exact_pivots
           (self sample_Z_err) [] [z_test] [e_test]
           (mkMat2 1.2 0.5 0.35 2.1) None Hz He Hl Hd).
Defined.

Lemma only1d_takes_the_mean_of_the_entries_sample :
  ZObj._z (self sample_Z) = Some [z_test] /\
  exists z1d,
    ZObj._get_only1d (World (self sample_Z) [])
    = (Ok z1d, World (self sample_Z) []) /\
    length z1d = length [z_test] /\
    forall i z, nth_error [z_test] i = Some z ->
      exists b, nth_error z1d i = Some b /\
        m00 b = C0 /\ m11 b = C0 /\
        (m01 z <> C0 ->
         np_abs (m01 b) = np_abs (Cadd (m10 z) (m01 z)) / 2) /\
        (m10 z <> C0 ->
         np_abs (m10 b) = np_abs (Cadd (m10 z) (m01 z)) / 2) /\
        (m10 z = Copp (m01 z) -> b = mconst C0).
Proof.
  assert (Hz : ZObj._z (self sample_Z) = Some [z_test]) by (run; reflexivity).
  split; [exact Hz|].
  exact (only1d_takes_the_mean_of_the_entries (self sample_Z) []
           [z_test] Hz).
Defined.

Lemma only2d_zeroes_the_diagonal_sample :
  ZObj._z (self sample_Z) = Some [z_test] /\
  ZObj._get_only2d (World (self sample_Z) [])
  = (Ok (map (fun z => mkMat2 C0 (m01 z) (m10 z) C0) [z_test]),
     World (self sample_Z) []).
Proof.
  assert (Hz : ZObj._z (self sample_Z) = Some [z_test]) by (run; reflexivity).
  split; [exact Hz|].
  exact (only2d_zeroes_the_diagonal (self sample_Z) []
           [z_test] Hz).
Defined.

(** ** The tipper *)

Section TipperRecompute.

Context `{Calculator}.

Lemma amp_phase_entry_None ta fq ra am ae ph pe mr mi ar ai me ane lg k jj
  t ab pb :
  nth_error ta k = Some t ->
  nth_error am k = Some ab -> nth_error ph k = Some pb ->
  amp_phase_entry k jj
    (World (TipperObj.mk (Some ta) None fq ra (Some am) ae (Some ph) pe
              mr mi ar ai me ane) lg)
  = (Ok tt,
     World (TipperObj.mk (Some ta) None fq ra
              (Some (upd am k (vset ab jj (np_abs (vget t jj))))) ae
              (Some (upd ph k (vset pb jj (phase_value (vget t jj))))) pe
              mr mi ar ai me ane) lg).
Proof.
  intros Ht Ha Hp.
  unfold amp_phase_entry, TipperObj.tipper_at, TipperObj.assign2,
    TipperObj._get_tipper, TipperObj._get_tipper_err, bind, ret, lift,
    getself, modify, TipperObj.subscript2, item2, setitem2, phase_value.
  cbn. rewrite Ht. cbn. rewrite Ha. cbn. rewrite Ht. cbn. rewrite Hp. cbn.
  reflexivity.
Qed.

Lemma amp_phase_entry_Some ta ea fq ra am ae ph pe mr mi ar ai me ane lg k jj
  t e ab pb aeb peb :
  nth_error ta k = Some t -> nth_error ea k = Some e ->
  nth_error am k = Some ab -> nth_error ph k = Some pb ->
  nth_error ae k = Some aeb -> nth_error pe k = Some peb ->
  amp_phase_entry k jj
    (World (TipperObj.mk (Some ta) (Some ea) fq ra (Some am) (Some ae)
              (Some ph) (Some pe) mr mi ar ai me ane) lg)
  = (Ok tt,
     World (TipperObj.mk (Some ta) (Some ea) fq ra
              (Some (upd am k (vset ab jj (np_abs (vget t jj)))))
              (Some (upd ae k (vset aeb jj
                        (fst (polar_err (vget t jj) (vget e jj))))))
              (Some (upd ph k (vset pb jj (phase_value (vget t jj)))))
              (Some (upd pe k (vset peb jj
                        (snd (polar_err (vget t jj) (vget e jj))))))
              mr mi ar ai me ane) lg).
Proof.
  intros Ht He Ha Hp Hae Hpe.
  unfold amp_phase_entry, TipperObj.tipper_at, TipperObj.tipper_err_at,
    TipperObj.assign2, TipperObj._get_tipper, TipperObj._get_tipper_err,
    bind, ret, lift, getself, modify, TipperObj.subscript2, item2, setitem2,
    phase_value, polar_err.
  repeat (progress (cbn; try rewrite Ht; try rewrite He; try rewrite Ha;
                    try rewrite Hp)).
  destruct (propagate_error_rect2polar _ _ _ _) as [r_err phi_err].
  repeat (progress (cbn; try rewrite Hae; try rewrite Hpe)).
  reflexivity.
Qed.

Lemma vset_both {A} (v : Vec2 A) x y : vset (vset v i0 x) i1 y = mkVec2 x y.
Proof. reflexivity. Qed.

Lemma amp_phase_block_None ta fq ra am ae ph pe mr mi ar ai me ane lg k
  t ab pb :
  nth_error ta k = Some t ->
  nth_error am k = Some ab -> nth_error ph k = Some pb ->
  for_each range2 (fun jj => amp_phase_entry k jj)
    (World (TipperObj.mk (Some ta) None fq ra (Some am) ae (Some ph) pe
              mr mi ar ai me ane) lg)
  = (Ok tt,
     World (TipperObj.mk (Some ta) None fq ra
              (Some (upd am k (mkVec2 (np_abs (v0 t)) (np_abs (v1 t))))) ae
              (Some (upd ph k (mkVec2 (phase_value (v0 t))
                                      (phase_value (v1 t))))) pe
              mr mi ar ai me ane) lg).
Proof.
  intros Ht Ha Hp.
  unfold range2, for_each.
  unfold bind at 1.
  erewrite amp_phase_entry_None by eassumption.
  unfold bind at 1.
  erewrite amp_phase_entry_None; try eassumption;
    try (eapply nth_error_upd_eq; eassumption).
  cbn. rewrite !upd_upd. reflexivity.
Qed.

Lemma amp_phase_block_Some ta ea fq ra am ae ph pe mr mi ar ai me ane lg k
  t e ab pb aeb peb :
  nth_error ta k = Some t -> nth_error ea k = Some e ->
  nth_error am k = Some ab -> nth_error ph k = Some pb ->
  nth_error ae k = Some aeb -> nth_error pe k = Some peb ->
  for_each range2 (fun jj => amp_phase_entry k jj)
    (World (TipperObj.mk (Some ta) (Some ea) fq ra (Some am) (Some ae)
              (Some ph) (Some pe) mr mi ar ai me ane) lg)
  = (Ok tt,
     World (TipperObj.mk (Some ta) (Some ea) fq ra
              (Some (upd am k (mkVec2 (np_abs (v0 t)) (np_abs (v1 t)))))
              (Some (upd ae k (mkVec2 (fst (polar_err (v0 t) (v0 e)))
                                      (fst (polar_err (v1 t) (v1 e))))))
              (Some (upd ph k (mkVec2 (phase_value (v0 t))
                                      (phase_value (v1 t)))))
              (Some (upd pe k (mkVec2 (snd (polar_err (v0 t) (v0 e)))
                                      (snd (polar_err (v1 t) (v1 e))))))
              mr mi ar ai me ane) lg).
Proof.
  intros Ht He Ha Hp Hae Hpe.
  unfold range2, for_each.
  unfold bind at 1.
  erewrite amp_phase_entry_Some by eassumption.
  unfold bind at 1.
  erewrite amp_phase_entry_Some; try eassumption;
    try (eapply nth_error_upd_eq; eassumption).
  cbn. rewrite !upd_upd. reflexivity.
Qed.

Lemma amp_phase_loop_None ta fq ra ae pe mr mi ar ai me ane lg m :
  forall k am ph,
  (k + m <= length ta)%nat ->
  length am = length ta -> length ph = length ta ->
  for_each (seq k m) (fun idx_f =>
    for_each range2 (fun jj => amp_phase_entry idx_f jj))
    (World (TipperObj.mk (Some ta) None fq ra (Some am) ae (Some ph) pe
              mr mi ar ai me ane) lg)
  = (Ok tt,
     World (TipperObj.mk (Some ta) None fq ra
              (Some (fill (fun i => let t := nth i ta (mkVec2 C0 C0) in
                                    mkVec2 (np_abs (v0 t)) (np_abs (v1 t)))
                          (seq k m) am)) ae
              (Some (fill (fun i => let t := nth i ta (mkVec2 C0 C0) in
                                    mkVec2 (phase_value (v0 t))
                                           (phase_value (v1 t)))
                          (seq k m) ph)) pe
              mr mi ar ai me ane) lg).
Proof.
  induction m; intros k am ph Hk Ha Hp.
  - reflexivity.
  - cbn [seq for_each]. unfold bind at 1.
    erewrite amp_phase_block_None.
    + rewrite IHm; try lia; try (rewrite upd_length; assumption).
      reflexivity.
    + apply nth_error_nth_lt with (d := mkVec2 C0 C0). lia.
    + apply nth_error_nth_lt with (d := mkVec2 0 0). lia.
    + apply nth_error_nth_lt with (d := mkVec2 0 0). lia.
Qed.

Lemma amp_phase_loop_Some ta ea fq ra mr mi ar ai me ane lg m :
  forall k am ae ph pe,
  (k + m <= length ta)%nat -> (k + m <= length ea)%nat ->
  length am = length ta -> length ph = length ta ->
  length ae = length ea -> length pe = length ea ->
  for_each (seq k m) (fun idx_f =>
    for_each range2 (fun jj => amp_phase_entry idx_f jj))
    (World (TipperObj.mk (Some ta) (Some ea) fq ra (Some am) (Some ae)
              (Some ph) (Some pe) mr mi ar ai me ane) lg)
  = (Ok tt,
     World (TipperObj.mk (Some ta) (Some ea) fq ra
              (Some (fill (fun i => let t := nth i ta (mkVec2 C0 C0) in
                                    mkVec2 (np_abs (v0 t)) (np_abs (v1 t)))
                          (seq k m) am))
              (Some (fill (fun i => let t := nth i ta (mkVec2 C0 C0) in
                                    let e := nth i ea (mkVec2 0 0) in
                                    mkVec2 (fst (polar_err (v0 t) (v0 e)))
                                           (fst (polar_err (v1 t) (v1 e))))
                          (seq k m) ae))
              (Some (fill (fun i => let t := nth i ta (mkVec2 C0 C0) in
                                    mkVec2 (phase_value (v0 t))
                                           (phase_value (v1 t)))
                          (seq k m) ph))
              (Some (fill (fun i => let t := nth i ta (mkVec2 C0 C0) in
                                    let e := nth i ea (mkVec2 0 0) in
                                    mkVec2 (snd (polar_err (v0 t) (v0 e)))
                                           (snd (polar_err (v1 t) (v1 e))))
                          (seq k m) pe))
              mr mi ar ai me ane) lg).
Proof.
  induction m; intros k am ae ph pe Hk Hke Ha Hp Hae Hpe.
  - reflexivity.
  - cbn [seq for_each]. unfold bind at 1.
    erewrite amp_phase_block_Some.
    + rewrite IHm; try lia; try (rewrite upd_length; assumption).
      reflexivity.
    + apply nth_error_nth_lt with (d := mkVec2 C0 C0). lia.
    + apply nth_error_nth_lt with (d := mkVec2 0 0). lia.
    + apply nth_error_nth_lt with (d := mkVec2 0 0). lia.
    + apply nth_error_nth_lt with (d := mkVec2 0 0). lia.
    + apply nth_error_nth_lt with (d := mkVec2 0 0). lia.
    + apply nth_error_nth_lt with (d := mkVec2 0 0). lia.
Qed.

Lemma zeros_like2_length {A} (a : list (Vec2 A)) :
  length (zeros_like2 a) = length a.
Proof. apply length_map. Qed.

Lemma compute_amp_phase_loop :
  TipperObj._compute_amp_phase
  = (a <- TipperObj._get_tipper ;;
     match a with
     | None => ret tt
     | Some _ =>
         modify (TipperObj.set_amplitude_err None) ;;
         modify (TipperObj.set_phase_err None) ;;
         e <- TipperObj._get_tipper_err ;;
         match e with
         | None => ret tt
         | Some ea =>
             modify (TipperObj.set_amplitude_err (Some (zeros_like2 ea))) ;;
             modify (TipperObj.set_phase_err (Some (zeros_like2 ea)))
         end ;;
         a <- TipperObj._get_tipper ;;
         match a with
         | None => raise AttributeError
         | Some ta =>
             modify (TipperObj.set_amplitude (Some (zeros_like2 ta))) ;;
             modify (TipperObj.set_phase (Some (zeros_like2 ta))) ;;
             for_each (seq 0 (length ta)) (fun idx_f =>
               for_each range2 (fun jj => amp_phase_entry idx_f jj))
         end
     end).
Proof. reflexivity. Qed.

Ltac tipper_run :=
  cbv beta iota zeta delta
    [bind getself ret modify self log
     TipperObj._get_tipper TipperObj._get_tipper_err
     TipperObj._tipper TipperObj._tipper_err TipperObj._freq
     TipperObj.rotation_angle TipperObj.amplitude TipperObj.amplitude_err
     TipperObj._phase TipperObj._phase_err TipperObj.mag_real
     TipperObj.mag_imag TipperObj.angle_real TipperObj.angle_imag
     TipperObj.mag_err TipperObj.angle_err
     TipperObj.set_tipper TipperObj.set_tipper_err TipperObj.set_freq
     TipperObj.set_rotation_angle TipperObj.set_amplitude
     TipperObj.set_amplitude_err TipperObj.set_phase TipperObj.set_phase_err
     TipperObj.set_mag_real TipperObj.set_mag_imag TipperObj.set_angle_real
     TipperObj.set_angle_imag TipperObj.set_mag_err TipperObj.set_angle_err].

(** [_compute_amp_phase] on an object that holds a tipper and no error,
    or an error of the shape of the tipper. *)
Lemma compute_amp_phase_None ta fq ra am ae ph pe mr mi ar ai me ane lg :
  TipperObj._compute_amp_phase
    (World (TipperObj.mk (Some ta) None fq ra am ae ph pe
              mr mi ar ai me ane) lg)
  = (Ok tt,
     World (TipperObj.mk (Some ta) None fq ra (Some (amplitude_of ta)) None
              (Some (phase_of ta)) None mr mi ar ai me ane) lg).
Proof.
  rewrite compute_amp_phase_loop. tipper_run.
  rewrite amp_phase_loop_None by (rewrite ?zeros_like2_length; lia).
  unfold amplitude_of, phase_of. do 3 f_equal; f_equal.
  - apply (fill_is_map _ _ ta _ (mkVec2 C0 C0));
      [reflexivity | apply zeros_like2_length | reflexivity].
  - apply (fill_is_map _ _ ta _ (mkVec2 C0 C0));
      [reflexivity | apply zeros_like2_length | reflexivity].
Qed.

Lemma compute_amp_phase_Some ta ea fq ra am ae ph pe mr mi ar ai me ane lg :
  length ea = length ta ->
  TipperObj._compute_amp_phase
    (World (TipperObj.mk (Some ta) (Some ea) fq ra am ae ph pe
              mr mi ar ai me ane) lg)
  = (Ok tt,
     World (TipperObj.mk (Some ta) (Some ea) fq ra (Some (amplitude_of ta))
              (Some (amplitude_err_of ta ea))
              (Some (phase_of ta)) (Some (phase_err_of ta ea))
              mr mi ar ai me ane) lg).
Proof.
  intro Hlen.
  rewrite compute_amp_phase_loop. tipper_run.
  rewrite amp_phase_loop_Some by (rewrite ?zeros_like2_length; lia).
  unfold amplitude_of, phase_of, amplitude_err_of, phase_err_of.
  assert (Lc : length ta = length (combine ta ea))
    by (rewrite length_combine; lia).
  do 3 f_equal; f_equal.
  - apply (fill_is_map _ _ ta _ (mkVec2 C0 C0));
      [reflexivity | apply zeros_like2_length | reflexivity].
  - f_equal.
    apply (fill_is_map _ _ (combine ta ea) _ (mkVec2 C0 C0, mkVec2 0 0)).
    + exact Lc.
    + rewrite zeros_like2_length. lia.
    + intros i Hi. rewrite combine_nth by lia. reflexivity.
  - f_equal.
    apply (fill_is_map _ _ ta _ (mkVec2 C0 C0));
      [reflexivity | apply zeros_like2_length | reflexivity].
  - f_equal.
    apply (fill_is_map _ _ (combine ta ea) _ (mkVec2 C0 C0, mkVec2 0 0)).
    + exact Lc.
    + rewrite zeros_like2_length. lia.
    + intros i Hi. rewrite combine_nth by lia. reflexivity.
Qed.

End TipperRecompute.

Section TipperSetters.

Context `{Calculator}.

Lemma compute_mag_direction_None ta fq ra am ae ph pe mr mi ar ai me ane lg :
  TipperObj._compute_mag_direction
    (World (TipperObj.mk (Some ta) None fq ra am ae ph pe
              mr mi ar ai me ane) lg)
  = (Ok tt,
     World (TipperObj.mk (Some ta) None fq ra am ae ph pe
              (Some (mag_real_of ta)) (Some (mag_imag_of ta))
              (Some (angle_real_of ta)) (Some (angle_imag_of ta))
              None None) lg).
Proof. reflexivity. Qed.

Lemma compute_mag_direction_Some ta ea fq ra am ae ph pe mr mi ar ai me ane
  lg :
  TipperObj._compute_mag_direction
    (World (TipperObj.mk (Some ta) (Some ea) fq ra am ae ph pe
              mr mi ar ai me ane) lg)
  = (Ok tt,
     World (TipperObj.mk (Some ta) (Some ea) fq ra am ae ph pe
              (Some (mag_real_of ta)) (Some (mag_imag_of ta))
              (Some (angle_real_of ta)) (Some (angle_imag_of ta))
              (Some (map (fun v => sqrt (v0 v ^ 2 + v1 v ^ 2)) ea))
              (Some (map (fun v => pymod (math_degrees (atan2 (v0 v) (v1 v)))
                                         45) ea))) lg).
Proof. reflexivity. Qed.

(** The setter of the tipper on an object without error array. *)
Lemma set_tipper_None ta' ot fq ra am ae ph pe mr mi ar ai me ane lg :
  TipperObj._set_tipper ta'
    (World (TipperObj.mk ot None fq ra am ae ph pe mr mi ar ai me ane) lg)
  = (Ok tt,
     World (TipperObj.mk (Some ta') None fq ra
              (Some (amplitude_of ta')) None (Some (phase_of ta')) None
              (Some (mag_real_of ta')) (Some (mag_imag_of ta'))
              (Some (angle_real_of ta')) (Some (angle_imag_of ta'))
              None None) lg).
Proof.
  unfold TipperObj._set_tipper.
  bind_step ltac:(reflexivity). bind_step ltac:(reflexivity).
  cbn [TipperObj._tipper TipperObj.set_tipper]. rewrite Nat.eqb_refl.
  cbn [negb].
  bind_step ltac:(reflexivity).
  cbn [TipperObj._tipper TipperObj._tipper_err TipperObj._freq
       TipperObj.rotation_angle TipperObj.amplitude TipperObj.amplitude_err
       TipperObj._phase TipperObj._phase_err TipperObj.mag_real
       TipperObj.mag_imag TipperObj.angle_real TipperObj.angle_imag
       TipperObj.mag_err TipperObj.angle_err TipperObj.set_tipper].
  bind_step ltac:(apply compute_mag_direction_None).
  apply compute_amp_phase_None.
Qed.

Lemma set_tipper_Some ta' ea ot fq ra am ae ph pe mr mi ar ai me ane lg :
  length ea = length ta' ->
  TipperObj._set_tipper ta'
    (World (TipperObj.mk ot (Some ea) fq ra am ae ph pe mr mi ar ai me ane)
       lg)
  = (Ok tt,
     World (TipperObj.mk (Some ta') (Some ea) fq ra
              (Some (amplitude_of ta')) (Some (amplitude_err_of ta' ea))
              (Some (phase_of ta')) (Some (phase_err_of ta' ea))
              (Some (mag_real_of ta')) (Some (mag_imag_of ta'))
              (Some (angle_real_of ta')) (Some (angle_imag_of ta'))
              (Some (map (fun v => sqrt (v0 v ^ 2 + v1 v ^ 2)) ea))
              (Some (map (fun v => pymod (math_degrees (atan2 (v0 v) (v1 v)))
                                         45) ea))) lg).
Proof.
  intro Hlen. unfold TipperObj._set_tipper.
  bind_step ltac:(reflexivity). bind_step ltac:(reflexivity).
  cbn [TipperObj._tipper TipperObj.set_tipper]. rewrite Nat.eqb_refl.
  cbn [negb].
  bind_step ltac:(reflexivity).
  cbn [TipperObj._tipper TipperObj._tipper_err TipperObj._freq
       TipperObj.rotation_angle TipperObj.amplitude TipperObj.amplitude_err
       TipperObj._phase TipperObj._phase_err TipperObj.mag_real
       TipperObj.mag_imag TipperObj.angle_real TipperObj.angle_imag
       TipperObj.mag_err TipperObj.angle_err TipperObj.set_tipper].
  bind_step ltac:(apply compute_mag_direction_Some).
  apply compute_amp_phase_Some. exact Hlen.
Qed.

End TipperSetters.

Section TipperRotate.

Context `{Calculator}.

Lemma get_tipper_run (s : TipperObj.t) lg :
  TipperObj._get_tipper (World s lg) = (Ok (TipperObj._tipper s), World s lg).
Proof. reflexivity. Qed.

Lemma tipper_rotate_block_None s lg ta lo k acc t a b :
  TipperObj._tipper s = Some ta -> TipperObj._tipper_err s = None ->
  nth_error ta k = Some t -> nth_error lo k = Some a ->
  nth_error acc k = Some b ->
  TipperObj.rotate_block lo k (acc, None) (World s lg)
  = (Ok (upd acc k (rotatevector_no_errors t a), None), World s lg).
Proof.
  intros Ht He Hk Ha Hb.
  unfold TipperObj.rotate_block, TipperObj._get_tipper,
    TipperObj._get_tipper_err, bind, getself, ret, lift, block, item1,
    setblock.
  repeat (progress (cbn beta iota delta [self];
                    rewrite ?Ht, ?He, ?Hk, ?Ha, ?Hb)).
  reflexivity.
Qed.

Lemma tipper_rotate_block_Some s lg ta ea lo k acc era t a e b eb :
  TipperObj._tipper s = Some ta -> TipperObj._tipper_err s = Some ea ->
  nth_error ta k = Some t -> nth_error lo k = Some a ->
  nth_error ea k = Some e ->
  nth_error acc k = Some b -> nth_error era k = Some eb ->
  TipperObj.rotate_block lo k (acc, Some era) (World s lg)
  = (Ok (upd acc k (fst (rotatevector_incl_errors t a e)),
         Some (upd era k (snd (rotatevector_incl_errors t a e)))),
     World s lg).
Proof.
  intros Ht He Hk Ha Hek Hb Heb.
  unfold TipperObj.rotate_block, TipperObj._get_tipper,
    TipperObj._get_tipper_err, bind, getself, ret, lift, block, item1,
    setblock.
  repeat (progress (cbn beta iota delta [self];
                    rewrite ?Ht, ?He, ?Hk, ?Ha, ?Hek)).
  destruct (rotatevector_incl_errors t a e) as [tr er].
  repeat (progress (cbn beta iota delta [fst snd]; rewrite ?Hb, ?Heb)).
  reflexivity.
Qed.

Lemma tipper_rotate_loop_None s lg ta lo m : forall k acc,
  TipperObj._tipper s = Some ta -> TipperObj._tipper_err s = None ->
  (k + m <= length ta)%nat -> (k + m <= length lo)%nat ->
  length acc = length ta ->
  fold_each (seq k m) (TipperObj.rotate_block lo) (acc, None) (World s lg)
  = (Ok (fill (fun i => rotatevector_no_errors (nth i ta (mkVec2 C0 C0))
                                               (nth i lo 0))
              (seq k m) acc, None),
     World s lg).
Proof.
  induction m; intros k acc Ht He Hk Hlo Hacc.
  - reflexivity.
  - cbn [seq fold_each]. unfold bind at 1.
    destruct (nth_error acc k) as [b|] eqn:Eb;
      [|apply nth_error_None in Eb; lia].
    rewrite (tipper_rotate_block_None s lg ta lo k acc
               (nth k ta (mkVec2 C0 C0)) (nth k lo 0) b); auto;
      try (apply nth_error_nth'; lia).
    rewrite IHm by (rewrite ?upd_length; auto; lia).
    reflexivity.
Qed.

Lemma tipper_rotate_loop_Some s lg ta ea lo m : forall k acc era,
  TipperObj._tipper s = Some ta -> TipperObj._tipper_err s = Some ea ->
  (k + m <= length ta)%nat -> (k + m <= length lo)%nat ->
  (k + m <= length ea)%nat ->
  length acc = length ta -> length era = length ea ->
  fold_each (seq k m) (TipperObj.rotate_block lo) (acc, Some era) (World s lg)
  = (Ok (fill (fun i => fst (rotatevector_incl_errors
                               (nth i ta (mkVec2 C0 C0)) (nth i lo 0)
                               (nth i ea (mkVec2 0 0))))
              (seq k m) acc,
         Some (fill (fun i => snd (rotatevector_incl_errors
                                     (nth i ta (mkVec2 C0 C0)) (nth i lo 0)
                                     (nth i ea (mkVec2 0 0))))
                    (seq k m) era)),
     World s lg).
Proof.
  induction m; intros k acc era Ht He Hk Hlo Hea Hacc Hera.
  - reflexivity.
  - cbn [seq fold_each]. unfold bind at 1.
    destruct (nth_error acc k) as [b|] eqn:Eb;
      [|apply nth_error_None in Eb; lia].
    destruct (nth_error era k) as [eb|] eqn:Eeb;
      [|apply nth_error_None in Eeb; lia].
    rewrite (tipper_rotate_block_Some s lg ta ea lo k acc era
               (nth k ta (mkVec2 C0 C0)) (nth k lo 0) (nth k ea (mkVec2 0 0))
               b eb);
      auto; try (apply nth_error_nth'; lia).
    rewrite IHm by (rewrite ?upd_length; auto; lia).
    reflexivity.
Qed.

(** [rotate] up to the two setters: the angles are advanced and the loop
    builds the rotated arrays. *)
Lemma tipper_rotate_None ta fq old am ae ph pe mr mi ar ai me ane lg a :
  (length old <= length ta)%nat ->
  TipperObj.rotate (Scalar a)
    (World (TipperObj.mk (Some ta) None fq (RotArray old) am ae ph pe
              mr mi ar ai me ane) lg)
  = (Raise AttributeError,
     let tr := rotated_tipper ta None (pymod a 360) in
     World (TipperObj.mk (Some tr) None fq
              (RotArray (map (fun o => pymod (o + a) 360) old))
              (Some (amplitude_of tr)) None (Some (phase_of tr)) None
              (Some (mag_real_of tr)) (Some (mag_imag_of tr))
              (Some (angle_real_of tr)) (Some (angle_imag_of tr))
              None None) lg).
Proof.
  intro Hold. cbn zeta.
  unfold TipperObj.rotate, ZObj.lo_angles_of, range.
  bind_step ltac:(apply get_tipper_run). cbn [TipperObj._tipper].
  bind_step ltac:(reflexivity).
  cbn [TipperObj.rotation_angle].
  rewrite accumulate_scalar by assumption.
  bind_step ltac:(reflexivity).
  bind_step ltac:(reflexivity).
  bind_step ltac:(apply get_tipper_run).
  cbn [TipperObj._tipper TipperObj.set_rotation_angle TipperObj._tipper_err
       TipperObj._freq TipperObj.amplitude TipperObj.amplitude_err
       TipperObj._phase TipperObj._phase_err TipperObj.mag_real
       TipperObj.mag_imag TipperObj.angle_real TipperObj.angle_imag
       TipperObj.mag_err TipperObj.angle_err ZObj.len].
  bind_step ltac:(reflexivity).
  rewrite repeat_length, Nat.eqb_refl. cbn [negb].
  bind_step ltac:(reflexivity). cbn [TipperObj._tipper TipperObj._tipper_err].
  bind_step ltac:(reflexivity).
  erewrite bind_Ok
    by (apply (tipper_rotate_loop_None _ lg ta); auto;
        rewrite ?repeat_length; lia).
  cbn beta iota zeta delta [fst snd].
  bind_step ltac:(apply set_tipper_None).
  unfold rotated_tipper, TipperObj._set_tipper_err, bind, raise.
  rewrite (fill_is_map (fun t => rotatevector_no_errors t (pymod a 360))
             _ ta _ (mkVec2 C0 C0)); [reflexivity | reflexivity | reflexivity |].
  intros i Hi. f_equal. apply nth_error_nth. apply nth_error_repeat. exact Hi.
Qed.

(** The setter of the error, handed an array of the shape of the
    tipper. *)
Lemma set_tipper_err_Some ta er oe fq ra am ae ph pe mr mi ar ai me ane lg :
  length er = length ta ->
  TipperObj._set_tipper_err (Some er)
    (World (TipperObj.mk (Some ta) oe fq ra am ae ph pe mr mi ar ai me ane)
       lg)
  = (Ok tt,
     World (TipperObj.mk (Some ta) (Some er) fq ra
              (Some (amplitude_of ta)) (Some (amplitude_err_of ta er))
              (Some (phase_of ta)) (Some (phase_err_of ta er))
              (Some (mag_real_of ta)) (Some (mag_imag_of ta))
              (Some (angle_real_of ta)) (Some (angle_imag_of ta))
              (Some (map (fun v => sqrt (v0 v ^ 2 + v1 v ^ 2)) er))
              (Some (map (fun v => pymod (math_degrees (atan2 (v0 v) (v1 v)))
                                         45) er))) lg).
Proof.
  intro Hlen. unfold TipperObj._set_tipper_err.
  bind_step ltac:(reflexivity). bind_step ltac:(reflexivity).
  cbn [TipperObj._tipper TipperObj._tipper_err TipperObj.set_tipper_err].
  rewrite Hlen, Nat.eqb_refl. cbn [negb].
  bind_step ltac:(reflexivity). bind_step ltac:(reflexivity).
  cbn [TipperObj._tipper_err TipperObj.set_tipper_err].
  rewrite ?Hlen, Nat.eqb_refl. cbn [negb].
  bind_step ltac:(reflexivity).
  cbn [TipperObj._tipper TipperObj._tipper_err TipperObj._freq
       TipperObj.rotation_angle TipperObj.amplitude TipperObj.amplitude_err
       TipperObj._phase TipperObj._phase_err TipperObj.mag_real
       TipperObj.mag_imag TipperObj.angle_real TipperObj.angle_imag
       TipperObj.mag_err TipperObj.angle_err TipperObj.set_tipper_err].
  bind_step ltac:(apply compute_mag_direction_Some).
  apply compute_amp_phase_Some. exact Hlen.
Qed.

Lemma tipper_rotate_Some ta ea fq old am ae ph pe mr mi ar ai me ane lg a :
  length ea = length ta -> (length old <= length ta)%nat ->
  TipperObj.rotate (Scalar a)
    (World (TipperObj.mk (Some ta) (Some ea) fq (RotArray old) am ae ph pe
              mr mi ar ai me ane) lg)
  = (Ok tt,
     let tr := rotated_tipper ta (Some ea) (pymod a 360) in
     let er := rotated_tipper_err ta ea (pymod a 360) in
     World (TipperObj.mk (Some tr) (Some er) fq
              (RotArray (map (fun o => pymod (o + a) 360) old))
              (Some (amplitude_of tr)) (Some (amplitude_err_of tr er))
              (Some (phase_of tr)) (Some (phase_err_of tr er))
              (Some (mag_real_of tr)) (Some (mag_imag_of tr))
              (Some (angle_real_of tr)) (Some (angle_imag_of tr))
              (Some (map (fun v => sqrt (v0 v ^ 2 + v1 v ^ 2)) er))
              (Some (map (fun v => pymod (math_degrees (atan2 (v0 v) (v1 v)))
                                         45) er))) lg).
Proof.
  intros Hlen Hold. cbn zeta.
  assert (Lc : length ta = length (combine ta ea))
    by (rewrite length_combine; lia).
  assert (Ltr : length (rotated_tipper ta (Some ea) (pymod a 360))
                = length ta)
    by (unfold rotated_tipper; rewrite length_map; lia).
  assert (Ler : length (rotated_tipper_err ta ea (pymod a 360)) = length ta)
    by (unfold rotated_tipper_err; rewrite length_map; lia).
  assert (Hn : forall i, (i < length ta)%nat ->
                 nth i (repeat (pymod a 360) (length ta)) 0 = pymod a 360).
  { intros i Hi. apply nth_error_nth. apply nth_error_repeat. exact Hi. }
  unfold TipperObj.rotate, ZObj.lo_angles_of, range.
  bind_step ltac:(apply get_tipper_run). cbn [TipperObj._tipper].
  bind_step ltac:(reflexivity).
  cbn [TipperObj.rotation_angle].
  rewrite accumulate_scalar by assumption.
  bind_step ltac:(reflexivity).
  bind_step ltac:(reflexivity).
  bind_step ltac:(apply get_tipper_run).
  cbn [TipperObj._tipper TipperObj.set_rotation_angle TipperObj._tipper_err
       TipperObj._freq TipperObj.amplitude TipperObj.amplitude_err
       TipperObj._phase TipperObj._phase_err TipperObj.mag_real
       TipperObj.mag_imag TipperObj.angle_real TipperObj.angle_imag
       TipperObj.mag_err TipperObj.angle_err ZObj.len].
  bind_step ltac:(reflexivity).
  rewrite repeat_length, Nat.eqb_refl. cbn [negb].
  bind_step ltac:(reflexivity). cbn [TipperObj._tipper TipperObj._tipper_err].
  bind_step ltac:(reflexivity).
  erewrite bind_Ok
    by (apply (tipper_rotate_loop_Some _ lg ta ea); auto;
        rewrite ?repeat_length; lia).
  cbn beta iota zeta delta [fst snd].
  rewrite (fill_is_map
             (fun p => fst (rotatevector_incl_errors (fst p) (pymod a 360)
                              (snd p)))
             _ (combine ta ea) _ (mkVec2 C0 C0, mkVec2 0 0))
    by (try lia; intros i Hi; rewrite <- Lc in Hi;
        rewrite combine_nth, Hn by lia; reflexivity).
  rewrite (fill_is_map
             (fun p => snd (rotatevector_incl_errors (fst p) (pymod a 360)
                              (snd p)))
             _ (combine ta ea) _ (mkVec2 C0 C0, mkVec2 0 0))
    by (try lia; intros i Hi; rewrite <- Lc in Hi;
        rewrite combine_nth, Hn by lia; reflexivity).
  fold (rotated_tipper ta (Some ea) (pymod a 360)).
  fold (rotated_tipper_err ta ea (pymod a 360)).
  bind_step ltac:(apply set_tipper_Some; lia).
  bind_step ltac:(apply set_tipper_err_Some; lia).
  bind_step ltac:(apply compute_mag_direction_Some).
  apply compute_amp_phase_Some. lia.
Qed.

End TipperRotate.

Section TipperFacts.

Context `{Calculator}.

(** X23.  [Tipper.rotate] handed one angle, on an object that holds a
    tipper and no error array (and an array of rotation angles no longer
    than the tipper): the call raises [AttributeError], since the setter
    of [tipper_err] is handed [None] and reads its [shape].  By then the
    rotation is done: every block is the one that
    [rotatevector_incl_errors], called without an error, gives for the
    angle modulo 360, every entry of [rotation_angle] is advanced by the
    angle, modulo 360, and amplitude and phase are those of the rotated
    tipper. *)
Theorem Tipper_rotate_without_error_raises st lg ta old a :
  TipperObj._tipper st = Some ta -> TipperObj._tipper_err st = None ->
  TipperObj.rotation_angle st = RotArray old ->
  (length old <= length ta)%nat ->
  exists w',
    TipperObj.rotate (Scalar a) (World st lg) = (Raise AttributeError, w') /\
    TipperObj._tipper (self w')
    = Some (map (fun t => rotatevector_no_errors t (pymod a 360)) ta) /\
    TipperObj._tipper_err (self w') = None /\
    TipperObj._freq (self w') = TipperObj._freq st /\
    TipperObj.rotation_angle (self w')
    = RotArray (map (fun o => pymod (o + a) 360) old) /\
    TipperObj.amplitude (self w')
    = Some (amplitude_of
              (map (fun t => rotatevector_no_errors t (pymod a 360)) ta)) /\
    TipperObj._phase (self w')
    = Some (phase_of
              (map (fun t => rotatevector_no_errors t (pymod a 360)) ta)).
Proof.
  intros Ht He Hra Hold.
  destruct st as [ot oe fq ra am ae ph pe mr mi ar ai me ane].
  cbn [TipperObj._tipper TipperObj._tipper_err TipperObj.rotation_angle
       TipperObj._freq] in *.
  subst ot oe ra.
  rewrite (tipper_rotate_None ta fq old am ae ph pe mr mi ar ai me ane lg a
             Hold).
  eexists. split; [reflexivity|]. cbn zeta.
  cbn [self TipperObj._tipper TipperObj._tipper_err TipperObj._freq
       TipperObj.rotation_angle TipperObj.amplitude TipperObj._phase].
  unfold rotated_tipper.
  split; [reflexivity|]. split; [reflexivity|]. split; [reflexivity|].
  split; [reflexivity|]. split; reflexivity.
Qed.

(** X24.  [Tipper.rotate] handed one angle, on an object that holds a
    tipper and an error array of its shape (and an array of rotation
    angles no longer than the tipper): the call returns; every block and
    its error are the ones that [rotatevector_incl_errors] gives for the
    angle modulo 360; the frequencies are kept; every entry of
    [rotation_angle] is advanced by the angle, modulo 360; amplitude and
    phase are those of the rotated tipper. *)
Theorem Tipper_rotate_by_an_angle st lg ta ea old a :
  TipperObj._tipper st = Some ta -> TipperObj._tipper_err st = Some ea ->
  length ea = length ta ->
  TipperObj.rotation_angle st = RotArray old ->
  (length old <= length ta)%nat ->
  exists w',
    TipperObj.rotate (Scalar a) (World st lg) = (Ok tt, w') /\
    TipperObj._tipper (self w')
    = Some (rotated_tipper ta (Some ea) (pymod a 360)) /\
    TipperObj._tipper_err (self w')
    = Some (rotated_tipper_err ta ea (pymod a 360)) /\
    TipperObj._freq (self w') = TipperObj._freq st /\
    TipperObj.rotation_angle (self w')
    = RotArray (map (fun o => pymod (o + a) 360) old) /\
    TipperObj.amplitude (self w')
    = Some (amplitude_of (rotated_tipper ta (Some ea) (pymod a 360))) /\
    TipperObj._phase (self w')
    = Some (phase_of (rotated_tipper ta (Some ea) (pymod a 360))).
Proof.
  intros Ht He Hlen Hra Hold.
  destruct st as [ot oe fq ra am ae ph pe mr mi ar ai me ane].
  cbn [TipperObj._tipper TipperObj._tipper_err TipperObj.rotation_angle
       TipperObj._freq] in *.
  subst ot oe ra.
  rewrite (tipper_rotate_Some ta ea fq old am ae ph pe mr mi ar ai me ane lg a
             Hlen Hold).
  eexists. split; [reflexivity|]. cbn zeta.
  cbn [self TipperObj._tipper TipperObj._tipper_err TipperObj._freq
       TipperObj.rotation_angle TipperObj.amplitude TipperObj._phase].
  split; [reflexivity|]. split; [reflexivity|]. split; [reflexivity|].
  split; [reflexivity|]. split; reflexivity.
Qed.

(** X25.  The setter of [tipper], on an object without error array,
    returns and stores whatever array it is handed: the test of the shape
    compares the array with itself, so an array of another length
    replaces the old one.  Amplitude, phase, magnitudes and angles are
    those of the new array; the frequencies and [rotation_angle] are left
    as they were, so a float [rotation_angle] stays a float.  The angles
    are [arctan2] of the negated parts ([np_arctan2_neg]): for a tipper
    of real numbers, whose imaginary parts are zero, [angle_imag] is
    [-180] at every index. *)
Theorem Tipper_setter_takes_any_shape st lg ta' :
  TipperObj._tipper_err st = None ->
  exists w',
    TipperObj._set_tipper ta' (World st lg) = (Ok tt, w') /\
    TipperObj._tipper (self w') = Some ta' /\
    TipperObj._freq (self w') = TipperObj._freq st /\
    TipperObj.rotation_angle (self w') = TipperObj.rotation_angle st /\
    TipperObj.amplitude (self w') = Some (amplitude_of ta') /\
    TipperObj._phase (self w') = Some (phase_of ta') /\
    TipperObj.mag_real (self w') = Some (mag_real_of ta') /\
    TipperObj.mag_imag (self w') = Some (mag_imag_of ta') /\
    TipperObj.angle_real (self w') = Some (angle_real_of ta') /\
    TipperObj.angle_imag (self w') = Some (angle_imag_of ta').
Proof.
  intro He.
  destruct st as [ot oe fq ra am ae ph pe mr mi ar ai me ane].
  cbn [TipperObj._tipper_err TipperObj._freq TipperObj.rotation_angle] in *.
  subst oe. rewrite set_tipper_None.
  eexists. split; [reflexivity|].
  cbn [self TipperObj._tipper TipperObj._freq TipperObj.rotation_angle
       TipperObj.amplitude TipperObj._phase TipperObj.mag_real
       TipperObj.mag_imag TipperObj.angle_real TipperObj.angle_imag].
  repeat (split; [reflexivity|]). reflexivity.
Qed.

(** X26.  A [Tipper] built without arguments and then handed a tipper by
    the setter cannot be rotated: the setter returns and stores the
    array, [rotation_angle] stays the float [0.] (the setter tests
    [self.rotation_angle is float], which is never true), and [rotate]
    raises [TypeError] where it enumerates [rotation_angle], for every
    argument, leaving the object as it was. *)
Theorem Tipper_rotate_after_the_setter fq ta alpha :
  exists w1,
    TipperObj._set_tipper ta (snd (new_Tipper None None fq)) = (Ok tt, w1) /\
    TipperObj._tipper (self w1) = Some ta /\
    TipperObj.rotation_angle (self w1) = RotFloat 0 /\
    TipperObj.rotate alpha w1 = (Raise TypeError, w1).
Proof.
  assert (Hnew : snd (new_Tipper None None fq)
                 = World (TipperObj.mk None None fq (RotFloat 0) None None
                            None None None None None None None None) [])
    by reflexivity.
  rewrite Hnew, set_tipper_None.
  eexists. split; [reflexivity|].
  split; [reflexivity|]. split; [reflexivity|].
  unfold TipperObj.rotate.
  bind_step ltac:(apply get_tipper_run). cbn [TipperObj._tipper].
  bind_step ltac:(reflexivity). reflexivity.
Qed.

(** X27.  [Tipper._set_freq] compares the two lengths with [is not].  On
    an object that holds a tipper (and no error, or one of its shape): a
    list of another length, or of more than 256 entries whatever the
    length of the tipper, is refused with a message and the object is
    left as it was; a list of the length of the tipper and of at most 256
    entries is stored, and the call returns. *)
Theorem Tipper_set_freq_compares_identities st lg ta l :
  TipperObj._tipper st = Some ta ->
  same_shape (TipperObj._tipper_err st) ta ->
  ((length l <> length ta \/ 256 < length l)%nat ->
   exists msg,
     TipperObj._set_freq (Seq l) (World st lg)
     = (Ok tt, World st (lg ++ [(INFO, msg)]))) /\
  (length l = length ta -> (length l <= 256)%nat ->
   exists w',
     TipperObj._set_freq (Seq l) (World st lg) = (Ok tt, w') /\
     TipperObj._freq (self w') = Some l /\
     TipperObj._tipper (self w') = Some ta /\
     TipperObj._tipper_err (self w') = TipperObj._tipper_err st).
Proof.
  intros Ht Hsh.
  destruct st as [ot oe fq ra am ae ph pe mr mi ar ai me ane].
  cbn [TipperObj._tipper TipperObj._tipper_err] in *. subst ot.
  split.
  - intro Hbad.
    assert (E : int_is (length l) (length ta) = false).
    { unfold int_is. destruct Hbad as [Hne | Hbig].
      - apply Nat.eqb_neq in Hne. rewrite Hne. reflexivity.
      - apply andb_false_iff. right. apply Nat.leb_gt. exact Hbig. }
    eexists. unfold TipperObj._set_freq.
    bind_step ltac:(reflexivity).
    bind_step ltac:(apply get_tipper_run).
    cbn [TipperObj._tipper ZObj.len].
    bind_step ltac:(reflexivity).
    rewrite E. reflexivity.
  - intros Heq Hle.
    assert (E : int_is (length l) (length ta) = true).
    { unfold int_is. apply andb_true_iff. split;
        [apply Nat.eqb_eq; exact Heq | apply Nat.leb_le; exact Hle]. }
    unfold TipperObj._set_freq.
    bind_step ltac:(reflexivity).
    bind_step ltac:(apply get_tipper_run).
    cbn [TipperObj._tipper ZObj.len].
    bind_step ltac:(reflexivity).
    rewrite E. cbn [negb].
    bind_step ltac:(reflexivity).
    unfold TipperObj.set_freq.
    cbn [self log TipperObj._tipper TipperObj._tipper_err
         TipperObj._freq TipperObj.rotation_angle TipperObj.amplitude
         TipperObj.amplitude_err TipperObj._phase TipperObj._phase_err
         TipperObj.mag_real TipperObj.mag_imag TipperObj.angle_real
         TipperObj.angle_imag TipperObj.mag_err TipperObj.angle_err].
    destruct oe as [ea|]; cbn [same_shape] in Hsh.
    + rewrite compute_amp_phase_Some by exact Hsh.
      eexists. split; [reflexivity|]. repeat split; reflexivity.
    + rewrite compute_amp_phase_None.
      eexists. split; [reflexivity|]. repeat split; reflexivity.
Qed.

End TipperFacts.

Lemma Tipper_rotate_without_error_raises_sample :
  (TipperObj._tipper (self sample_Tipper) = Some tipper_test /\
   TipperObj._tipper_err (self sample_Tipper) = None /\
   TipperObj.rotation_angle (self sample_Tipper) = RotArray [0] /\
   (length [0] <= length tipper_test)%nat) /\
  exists w',
    @TipperObj.rotate first_order (Scalar 30) (World (self sample_Tipper) [])
    = (Raise AttributeError, w') /\
    TipperObj._tipper (self w')
    = Some (map (fun t => @rotatevector_no_errors first_order t (pymod 30 360))
                tipper_test) /\
    TipperObj.rotation_angle (self w')
    = RotArray (map (fun o => pymod (o + 30) 360) [0]).
Proof.
  assert (Ht : TipperObj._tipper (self sample_Tipper) = Some tipper_test)
    by (run; reflexivity).
  assert (He : TipperObj._tipper_err (self sample_Tipper) = None)
    by (run; reflexivity).
  assert (Hr : TipperObj.rotation_angle (self sample_Tipper) = RotArray [0])
    by (run; reflexivity).
  assert (Hl : (length [0] <= length tipper_test)%nat) by (cbn; lia).
  split; [split; [exact Ht | split; [exact He | split; [exact Hr | exact Hl]]]|].
  destruct (@Tipper_rotate_without_error_raises first_order
              (self sample_Tipper) [] tipper_test [0] 30 Ht He Hr Hl)
    as (w' & Hrun & Htr & _ & _ & Hra & _).
  exists w'. split; [exact Hrun|]. split; [exact Htr | exact Hra].
Defined.

Lemma Tipper_rotate_by_an_angle_sample :
  (TipperObj._tipper (self sample_Tipper_err) = Some tipper_test /\
   TipperObj._tipper_err (self sample_Tipper_err) = Some [mkVec2 0.01 0.01] /\
   length [mkVec2 0.01 0.01] = length tipper_test /\
   TipperObj.rotation_angle (self sample_Tipper_err) = RotArray [0] /\
   (length [0] <= length tipper_test)%nat) /\
  exists w',
    @TipperObj.rotate first_order (Scalar 30)
      (World (self sample_Tipper_err) [])
    = (Ok tt, w') /\
    TipperObj._tipper (self w')
    = Some (@rotated_tipper first_order tipper_test
              (Some [mkVec2 0.01 0.01]) (pymod 30 360)) /\
    TipperObj.rotation_angle (self w')
    = RotArray (map (fun o => pymod (o + 30) 360) [0]).
Proof.
  assert (Ht : TipperObj._tipper (self sample_Tipper_err) = Some tipper_test)
    by (run; reflexivity).
  assert (He : TipperObj._tipper_err (self sample_Tipper_err)
               = Some [mkVec2 0.01 0.01])
    by (run; reflexivity).
  assert (Hs : length [mkVec2 0.01 0.01] = length tipper_test)
    by reflexivity.
  assert (Hr : TipperObj.rotation_angle (self sample_Tipper_err)
               = RotArray [0])
    by (run; reflexivity).
  assert (Hl : (length [0] <= length tipper_test)%nat) by (cbn; lia).
  split.
  { split; [exact Ht|]. split; [exact He|]. split; [exact Hs|].
    split; [exact Hr | exact Hl]. }
  destruct (@Tipper_rotate_by_an_angle first_order
              (self sample_Tipper_err) [] tipper_test [mkVec2 0.01 0.01]
              [0] 30 Ht He Hs Hr Hl)
    as (w' & Hrun & Htr & _ & _ & Hra & _).
  exists w'. split; [exact Hrun|]. split; [exact Htr | exact Hra].
Defined.

Lemma degrees_minus_PI : math_degrees (- PI) = - 180.
Proof. unfold math_degrees. pose proof PI_neq0. field. assumption. Qed.

(** The angles of the arrows of a tipper without imaginary parts and with
    positive real parts, such as [tipper_test]: the negated zeros are
    [-0.0], the angle of the imaginary arrow is [-180]. *)
Lemma angle_imag_of_real_tipper (ta : list (Vec2 C)) :
  Forall (fun v => Im (v0 v) = 0 /\ Im (v1 v) = 0) ta ->
  angle_imag_of ta = map (fun _ => - 180) ta.
Proof.
  intro Hre. unfold angle_imag_of. apply map_ext_in. intros v Hin.
  rewrite Forall_forall in Hre. destruct (Hre v Hin) as [E0 E1].
  unfold np_arctan2_neg. rewrite E0, E1.
  destruct (Req_dec_T 0 0) as [_|E]; [|contradiction E; reflexivity].
  destruct (Rle_dec 0 0) as [_|E]; [|contradiction E; lra].
  apply degrees_minus_PI.
Qed.

Lemma Tipper_setter_takes_any_shape_sample :
  TipperObj._tipper_err (self sample_Tipper) = None /\
  exists w',
    @TipperObj._set_tipper first_order (tipper_test ++ tipper_test)
      (World (self sample_Tipper) [])
    = (Ok tt, w') /\
    TipperObj._tipper (self w') = Some (tipper_test ++ tipper_test) /\
    TipperObj.rotation_angle (self w')
    = TipperObj.rotation_angle (self sample_Tipper) /\
    TipperObj.amplitude (self w')
    = Some (amplitude_of (tipper_test ++ tipper_test)) /\
    TipperObj.angle_real (self w')
    = Some (angle_real_of (tipper_test ++ tipper_test)) /\
    TipperObj.angle_imag (self w') = Some [- 180; - 180].
Proof.
  assert (He : TipperObj._tipper_err (self sample_Tipper) = None)
    by (run; reflexivity).
  split; [exact He|].
  destruct (@Tipper_setter_takes_any_shape first_order (self sample_Tipper) []
              (tipper_test ++ tipper_test) He)
    as (w' & Hrun & Ht & _ & Hra & Ham & _ & _ & _ & Har & Hai).
  exists w'. split; [exact Hrun|]. split; [exact Ht|].
  split; [exact Hra|]. split; [exact Ham|]. split; [exact Har|].
  rewrite Hai. f_equal.
  apply (angle_imag_of_real_tipper (tipper_test ++ tipper_test)).
  unfold tipper_test. cbn [app].
  constructor; [split; reflexivity|]. constructor; [split; reflexivity|].
  constructor.
Defined.

Lemma Tipper_set_freq_compares_identities_sample :
  (TipperObj._tipper (self sample_Tipper) = Some tipper_test /\
   same_shape (TipperObj._tipper_err (self sample_Tipper)) tipper_test) /\
  ((length [1; 2] <> length tipper_test \/ 256 < length [1; 2])%nat ->
   exists msg,
     @TipperObj._set_freq first_order (Seq [1; 2])
       (World (self sample_Tipper) [])
     = (Ok tt, World (self sample_Tipper) ([] ++ [(INFO, msg)]))) /\
  (length [1; 2] = length tipper_test -> (length [1; 2] <= 256)%nat ->
   exists w',
     @TipperObj._set_freq first_order (Seq [1; 2])
       (World (self sample_Tipper) [])
     = (Ok tt, w') /\
     TipperObj._freq (self w') = Some [1; 2] /\
     TipperObj._tipper (self w') = Some tipper_test /\
     TipperObj._tipper_err (self w')
     = TipperObj._tipper_err (self sample_Tipper)).
Proof.
  assert (Ht : TipperObj._tipper (self sample_Tipper) = Some tipper_test)
    by (run; reflexivity).
  assert (He : TipperObj._tipper_err (self sample_Tipper) = None)
    by (run; reflexivity).
  assert (Hs : same_shape (TipperObj._tipper_err (self sample_Tipper))
                 tipper_test)
    by (rewrite He; exact I).
  split; [split; [exact Ht | exact Hs]|].
  exact (@Tipper_set_freq_compares_identities first_order
           (self sample_Tipper) [] tipper_test [1; 2] Ht Hs).
Defined.

(** ** The array handed out by [Tipper.freq] *)

Module TipperFreqStoreFacts.

Import FreqStore.

Lemma read_setitem_same h r a i v :
  read h r = Some a -> (i < length a)%nat ->
  read (setitem h r i v) r = Some (upd a i v).
Proof.
  intros Hr Hi. unfold setitem, read in *. rewrite Hr.
  replace (i <? length a)%nat with true by (symmetry; apply Nat.ltb_lt; lia).
  eapply nth_error_upd_eq. exact Hr.
Qed.

(** X28.  On a [Tipper] whose frequencies are set, [_get_freq] replaces
    the stored array by a new one with the same entries and hands out
    that very array: the frequencies the object sees are what they were,
    and whatever is then written into the array handed out is written
    into the frequencies of the object. *)
Theorem Tipper_get_freq_hands_out_the_stored_array
  (o : TipperFreqStore.tref) (h : store) r a :
  TipperFreqStore._freq o = Some r -> read h r = Some a ->
  exists r1 o1 h1,
    TipperFreqStore._get_freq o h = (Some r1, o1, h1) /\
    TipperFreqStore._freq o1 = Some r1 /\
    TipperFreqStore.obj o1 = TipperFreqStore.obj o /\
    read h1 r1 = Some a /\
    TipperFreqStore.view o1 h1 = TipperFreqStore.view o h /\
    forall i v, (i < length a)%nat ->
      TipperObj._freq (TipperFreqStore.view o1 (setitem h1 r1 i v))
      = Some (upd a i v).
Proof.
  intros Hf Hr.
  exists (length h), (TipperFreqStore.mktref (TipperFreqStore.obj o)
                        (Some (length h))), (h ++ [a]).
  assert (Hnew : read (h ++ [a]) (length h) = Some a)
    by apply (FreqStoreFacts.read_np_array_new h a).
  unfold TipperFreqStore._get_freq. rewrite Hf, Hr. cbn [np_array].
  split; [reflexivity|]. split; [reflexivity|]. split; [reflexivity|].
  split; [exact Hnew|]. split.
  - unfold TipperFreqStore.view.
    cbn [TipperFreqStore._freq TipperFreqStore.obj].
    rewrite Hf, Hnew, Hr. reflexivity.
  - intros i v Hi. unfold TipperFreqStore.view.
    cbn [TipperFreqStore._freq TipperFreqStore.obj].
    rewrite (read_setitem_same _ _ a i v Hnew Hi).
    destruct (TipperFreqStore.obj o); reflexivity.
Qed.

End TipperFreqStoreFacts.

Lemma Tipper_get_freq_sample :
  (TipperFreqStore._freq sample_tref = Some 0%nat /\
   FreqStore.read sample_store 0%nat = Some [1; 2]) /\
  exists r1 o1 h1,
    TipperFreqStore._get_freq sample_tref sample_store = (Some r1, o1, h1) /\
    TipperFreqStore._freq o1 = Some r1 /\
    TipperObj._freq
      (TipperFreqStore.view o1 (FreqStore.setitem h1 r1 0%nat 99))
    = Some (upd [1; 2] 0%nat 99).
Proof.
  assert (Hf : TipperFreqStore._freq sample_tref = Some 0%nat) by reflexivity.
  assert (Hr : FreqStore.read sample_store 0%nat = Some [1; 2])
    by reflexivity.
  split; [split; assumption|].
  destruct (TipperFreqStoreFacts.Tipper_get_freq_hands_out_the_stored_array
              sample_tref sample_store 0%nat [1; 2] Hf Hr)
    as (r1 & o1 & h1 & Hg & Hs & _ & _ & _ & Hw).
  exists r1, o1, h1. split; [exact Hg|]. split; [exact Hs|].
  apply Hw. cbn. lia.
Defined.

(** ** From polar form and back *)

Lemma degrees_radians x : math_degrees (math_radians x) = x.
Proof.
  unfold math_radians, math_degrees. pose proof PI_neq0. field. assumption.
Qed.

Lemma np_abs_rect r phi : np_abs (cmath_rect r phi) = Rabs r.
Proof.
  unfold np_abs, cmath_rect. cbn [Re Im].
  replace (r * cos phi * (r * cos phi) + r * sin phi * (r * sin phi))
    with (r² * ((sin phi)² + (cos phi)²)) by (unfold Rsqr; ring).
  rewrite sin2_cos2, Rmult_1_r. apply sqrt_Rsqr_abs.
Qed.

Lemma tan_shift x : cos x <> 0 -> tan (x + PI) = tan x.
Proof.
  intro Hc. unfold tan. rewrite neg_sin, neg_cos. field. assumption.
Qed.

(** [cmath.phase(cmath.rect(r, phi))] for a positive [r] and an angle in
    (-pi, pi] *)
Lemma phase_rect r phi :
  0 < r -> - PI < phi <= PI -> cmath_phase (cmath_rect r phi) = phi.
Proof.
  intros Hr [Hlo Hhi]. pose proof PI_RGT_0 as Hpi.
  unfold cmath_phase, cmath_rect, atan2. cbn [Re Im].
  assert (Htan : cos phi <> 0 -> r * sin phi / (r * cos phi) = tan phi).
  { intro Hc. unfold tan. field. split; lra. }
  destruct (Rtotal_order phi (- (PI / 2))) as [L1|[E1|G1]].
  - (* -pi < phi < -pi/2 *)
    assert (Hc : cos phi < 0).
    { replace phi with ((phi + PI) - PI) by ring.
      unfold Rminus. rewrite cos_plus, cos_neg, sin_neg, cos_PI, sin_PI.
      assert (0 < cos (phi + PI)) by (apply cos_gt_0; lra). lra. }
    assert (Hs : sin phi < 0) by (apply sin_lt_0_var; lra).
    assert (Hxn : r * cos phi < 0)
      by (rewrite <- (Rmult_0_r r); apply Rmult_lt_compat_l; lra).
    assert (Hyn : r * sin phi < 0)
      by (rewrite <- (Rmult_0_r r); apply Rmult_lt_compat_l; lra).
    destruct (total_order_T 0 (r * cos phi)) as [[Hx|Hx]|Hx]; try lra.
    destruct (Rle_dec 0 (r * sin phi)) as [Hy|Hy]; [lra|].
    rewrite Htan by lra. rewrite <- tan_shift by lra.
    rewrite atan_tan by lra. ring.
  - (* phi = -pi/2 *)
    subst phi. rewrite cos_neg, sin_neg, cos_PI2, sin_PI2.
    destruct (total_order_T 0 (r * 0)) as [[Hx|Hx]|Hx]; try lra.
    destruct (total_order_T 0 _) as [[Hy|Hy]|Hy]; try lra.
  - destruct (Rtotal_order phi (PI / 2)) as [L2|[E2|G2]].
    + (* -pi/2 < phi < pi/2 *)
      assert (Hc : 0 < cos phi) by (apply cos_gt_0; lra).
      assert (Hxp : 0 < r * cos phi) by (apply Rmult_lt_0_compat; lra).
      destruct (total_order_T 0 (r * cos phi)) as [[Hx|Hx]|Hx]; try lra.
      rewrite Htan by lra. apply atan_tan. lra.
    + (* phi = pi/2 *)
      subst phi. rewrite cos_PI2, sin_PI2.
      destruct (total_order_T 0 (r * 0)) as [[Hx|Hx]|Hx]; try lra.
      destruct (total_order_T 0 _) as [[Hy|Hy]|Hy]; try lra.
    + (* pi/2 < phi <= pi *)
      assert (Hc : cos phi < 0) by (apply cos_lt_0; lra).
      assert (Hs : 0 <= sin phi).
      { destruct (Req_dec phi PI) as [->|Hne]; [rewrite sin_PI; lra|].
        left. apply sin_gt_0; lra. }
      assert (Hxn : r * cos phi < 0)
        by (rewrite <- (Rmult_0_r r); apply Rmult_lt_compat_l; lra).
      assert (Hyp : 0 <= r * sin phi) by (apply Rmult_le_pos; lra).
      destruct (total_order_T 0 (r * cos phi)) as [[Hx|Hx]|Hx]; try lra.
      destruct (Rle_dec 0 (r * sin phi)) as [Hy|Hy]; [|lra].
      rewrite Htan by lra.
      replace phi with ((phi - PI) + PI) at 1 by ring.
      assert (Hc' : cos (phi - PI) <> 0).
      { unfold Rminus. rewrite cos_plus, cos_neg, sin_neg, cos_PI, sin_PI.
        lra. }
      rewrite tan_shift by exact Hc'.
      rewrite atan_tan by lra. ring.
Qed.

Lemma phase_value_rect r p :
  0 < r -> -180 < p <= 180 ->
  phase_value (cmath_rect r (math_radians p)) = p.
Proof.
  intros Hr [Hlo Hhi]. unfold phase_value. pose proof PI_RGT_0 as Hpi.
  rewrite phase_rect; [apply degrees_radians | exact Hr |].
  unfold math_radians. split.
  - replace (- PI) with (-180 * (PI / 180)) by (field; lra).
    apply Rmult_lt_compat_r; [|exact Hlo].
    apply Rdiv_lt_0_compat; lra.
  - replace PI with (180 * (PI / 180)) at 2 by (field; lra).
    apply Rmult_le_compat_r; [|exact Hhi].
    left. apply Rdiv_lt_0_compat; lra.
Qed.

Lemma amplitude_of_polar rs : forall ps,
  length ps = length rs -> all_entries2 (fun r => 0 <= r) rs ->
  amplitude_of (tipper_from_polar rs ps) = rs.
Proof.
  unfold amplitude_of, tipper_from_polar, all_entries2.
  induction rs as [|r rs IH]; intros [|p ps] Hl Hpos; cbn in Hl;
    try discriminate; [reflexivity|].
  inversion Hpos as [|? ? [H0 H1] Hrest]; subst.
  cbn [combine map fst snd v0 v1]. rewrite !np_abs_rect.
  rewrite !Rabs_pos_eq by assumption.
  rewrite IH by (auto; lia). destruct r; reflexivity.
Qed.

Lemma phase_of_polar rs : forall ps,
  length ps = length rs -> all_entries2 (fun r => 0 < r) rs ->
  all_entries2 (fun p => -180 < p <= 180) ps ->
  phase_of (tipper_from_polar rs ps) = ps.
Proof.
  unfold phase_of, tipper_from_polar, all_entries2.
  induction rs as [|r rs IH]; intros [|p ps] Hl Hpos Hrng; cbn in Hl;
    try discriminate; [reflexivity|].
  inversion Hpos as [|? ? [H0 H1] Hrest]; subst.
  inversion Hrng as [|? ? [P0 P1] Prest]; subst.
  cbn [combine map fst snd v0 v1].
  rewrite !phase_value_rect by assumption.
  rewrite IH by (auto; lia). destruct p; reflexivity.
Qed.

Section TipperPolar.

Context `{Calculator}.

Lemma set_amp_phase_block w rs ps k acc rb pb ab :
  nth_error rs k = Some rb -> nth_error ps k = Some pb ->
  nth_error acc k = Some ab ->
  fold_each range2 (fun jj acc =>
    TipperObj.set_amp_phase_entry rs ps k jj acc) acc w
  = (Ok (upd acc k
           (mkVec2 (cmath_rect (v0 rb) (math_radians (v0 pb)))
                   (cmath_rect (v1 rb) (math_radians (v1 pb))))), w).
Proof.
  intros Hr Hp Ha.
  unfold range2, fold_each, TipperObj.set_amp_phase_entry, bind, lift, ret,
    item2, setitem2.
  repeat (progress (cbn beta iota; rewrite ?Hr, ?Hp, ?Ha, ?upd_upd;
                    rewrite ?(nth_error_upd_eq _ _ _ _ Ha))).
  reflexivity.
Qed.

Lemma set_amp_phase_loop (w : world TipperObj.t) rs ps acc :
  length ps = length rs -> length acc = length rs ->
  fold_each (seq 0 (length rs)) (fun idx_f acc =>
    fold_each range2 (fun jj acc =>
      TipperObj.set_amp_phase_entry rs ps idx_f jj acc) acc) acc w
  = (Ok (tipper_from_polar rs ps), w).
Proof.
  intros Hp Ha.
  rewrite (fold_each_fill
             (fun i => let rb := nth i rs (mkVec2 0 0) in
                       let pb := nth i ps (mkVec2 0 0) in
                       mkVec2 (cmath_rect (v0 rb) (math_radians (v0 pb)))
                              (cmath_rect (v1 rb) (math_radians (v1 pb))))
             _ w (length rs));
    [| | lia | exact Ha].
  - unfold tipper_from_polar. do 2 f_equal.
    apply (fill_is_map _ _ (combine rs ps) _ (mkVec2 0 0, mkVec2 0 0)).
    + rewrite length_combine. lia.
    + rewrite length_combine. lia.
    + intros i Hi. rewrite combine_nth by lia. reflexivity.
  - intros i acc' Hi Hl.
    destruct (nth_error acc' i) as [ab|] eqn:Eab;
      [|apply nth_error_None in Eab; lia].
    apply set_amp_phase_block with (ab := ab); auto;
      apply nth_error_nth'; lia.
Qed.

(** X29.  [Tipper.set_amp_phase] on an object without error array,
    handed amplitudes and phases of one shape (the shape of the tipper,
    when there is one): the call returns and every entry of the tipper
    is [cmath.rect(r, radians(phi))].  When no amplitude is negative the
    amplitudes read back are the ones handed in; when all are positive
    and the phases lie in (-180, 180], so are the phases. *)
Theorem Tipper_set_amp_phase_reads_back st lg rs ps :
  TipperObj._tipper_err st = None ->
  same_shape (TipperObj._tipper st) rs -> length ps = length rs ->
  exists w',
    TipperObj.set_amp_phase rs ps (World st lg) = (Ok tt, w') /\
    TipperObj._tipper (self w') = Some (tipper_from_polar rs ps) /\
    (all_entries2 (fun r => 0 <= r) rs ->
     TipperObj.amplitude (self w') = Some rs) /\
    (all_entries2 (fun r => 0 < r) rs ->
     all_entries2 (fun p => -180 < p <= 180) ps ->
     TipperObj._phase (self w') = Some ps).
Proof.
  intros He Hsh Hp.
  destruct st as [ot oe fq ra am ae ph pe mr mi ar ai me ane].
  cbn [TipperObj._tipper TipperObj._tipper_err] in *. subst oe.
  assert (Hbody : forall acc, length acc = length rs ->
    (tipper_new <- fold_each (range (length rs)) (fun idx_f acc =>
        fold_each range2 (fun jj acc =>
          TipperObj.set_amp_phase_entry rs ps idx_f jj acc) acc) acc ;;
     TipperObj._set_tipper tipper_new ;;
     TipperObj._compute_amp_phase)
      (World (TipperObj.mk ot None fq ra am ae ph pe mr mi ar ai me ane) lg)
    = (Ok tt,
       World (TipperObj.mk (Some (tipper_from_polar rs ps)) None fq ra
                (Some (amplitude_of (tipper_from_polar rs ps))) None
                (Some (phase_of (tipper_from_polar rs ps))) None
                (Some (mag_real_of (tipper_from_polar rs ps)))
                (Some (mag_imag_of (tipper_from_polar rs ps)))
                (Some (angle_real_of (tipper_from_polar rs ps)))
                (Some (angle_imag_of (tipper_from_polar rs ps)))
                None None) lg)).
  { intros acc Ha. unfold range.
    bind_step ltac:(apply set_amp_phase_loop; assumption).
    bind_step ltac:(apply set_tipper_None).
    apply compute_amp_phase_None. }
  eexists. split; [|split; [|split]].
  - unfold TipperObj.set_amp_phase.
    bind_step ltac:(apply get_tipper_run). cbn [TipperObj._tipper].
    destruct ot as [ta|]; cbn [same_shape] in Hsh.
    + rewrite Hsh, Hp, Nat.eqb_refl. cbn [negb].
      apply Hbody. exact Hsh.
    + rewrite Hp, Nat.eqb_refl. cbn [negb].
      apply Hbody. apply length_map.
  - reflexivity.
  - intro Hnn. cbn [self TipperObj.amplitude].
    rewrite amplitude_of_polar by assumption. reflexivity.
  - intros Hpos Hrng. cbn [self TipperObj._phase].
    rewrite phase_of_polar by assumption. reflexivity.
Qed.

End TipperPolar.

Lemma Tipper_set_amp_phase_reads_back_sample :
  (TipperObj._tipper_err (self sample_Tipper) = None /\
   same_shape (TipperObj._tipper (self sample_Tipper)) [mkVec2 2 3] /\
   length [mkVec2 90 (-45)] = length [mkVec2 2 3]) /\
  exists w',
    @TipperObj.set_amp_phase first_order [mkVec2 2 3] [mkVec2 90 (-45)]
      (World (self sample_Tipper) [])
    = (Ok tt, w') /\
    TipperObj._tipper (self w')
    = Some (tipper_from_polar [mkVec2 2 3] [mkVec2 90 (-45)]) /\
    TipperObj.amplitude (self w') = Some [mkVec2 2 3] /\
    TipperObj._phase (self w') = Some [mkVec2 90 (-45)].
Proof.
  assert (He : TipperObj._tipper_err (self sample_Tipper) = None)
    by (run; reflexivity).
  assert (Ht : TipperObj._tipper (self sample_Tipper) = Some tipper_test)
    by (run; reflexivity).
  assert (Hs : same_shape (TipperObj._tipper (self sample_Tipper))
                 [mkVec2 2 3])
    by (rewrite Ht; reflexivity).
  assert (Hl : length [mkVec2 90 (-45)] = length [mkVec2 2 3])
    by reflexivity.
  split; [split; [exact He | split; [exact Hs | exact Hl]]|].
  destruct (@Tipper_set_amp_phase_reads_back first_order (self sample_Tipper)
              [] [mkVec2 2 3] [mkVec2 90 (-45)] He Hs Hl)
    as (w' & Hrun & Htp & Ham & Hph).
  exists w'. split; [exact Hrun|]. split; [exact Htp|]. split.
  - apply Ham. apply Forall_cons; [cbn [v0 v1]; lra | apply Forall_nil].
  - apply Hph.
    + apply Forall_cons; [cbn [v0 v1]; lra | apply Forall_nil].
    + apply Forall_cons; [cbn [v0 v1]; lra | apply Forall_nil].
Defined.

Lemma res_value_polar f r p :
  0 < f -> 0 <= r -> res_value (z_entry_from_polar f r p) f = r.
Proof.
  intros Hf Hr. unfold res_value, z_entry_from_polar.
  rewrite np_abs_rect, Rabs_pos_eq by apply sqrt_pos.
  replace (sqrt (5 * f * r) ^ 2) with (5 * f * r)
    by (rewrite <- Rsqr_pow2, Rsqr_sqrt; [reflexivity | nra]).
  replace 0.2 with (/ 5) by lra. field. lra.
Qed.

Lemma phase_value_polar f r p :
  0 < f -> 0 < r -> -180 < p <= 180 ->
  phase_value (z_entry_from_polar f r p) = p.
Proof.
  intros Hf Hr Hp. unfold z_entry_from_polar.
  apply phase_value_rect; [|exact Hp].
  apply sqrt_lt_R0. nra.
Qed.

Section FromPolar.

Context `{Calculator}.

Lemma set_res_phase_block_polar w fs rs ps k acc f rb pb ab :
  ZObj._freq (self w) = Some fs ->
  nth_error fs k = Some f -> nth_error rs k = Some rb ->
  nth_error ps k = Some pb -> nth_error acc k = Some ab ->
  fold_each range2 (fun ii acc =>
    fold_each range2 (fun jj acc =>
      ZObj.set_res_phase_entry rs ps k ii jj acc) acc) acc w
  = (Ok (upd acc k
           (mkMat2 (z_entry_from_polar f (m00 rb) (m00 pb))
                   (z_entry_from_polar f (m01 rb) (m01 pb))
                   (z_entry_from_polar f (m10 rb) (m10 pb))
                   (z_entry_from_polar f (m11 rb) (m11 pb)))), w).
Proof.
  intros Hfs Hf Hr Hp Ha.
  unfold range2, fold_each.
  unfold bind at 1 2.
  erewrite set_res_phase_entry_ok by eassumption.
  unfold bind at 1.
  erewrite set_res_phase_entry_ok; try eassumption;
    try (eapply nth_error_upd_eq; eassumption).
  unfold bind at 1 2. cbn [ret].
  erewrite set_res_phase_entry_ok; try eassumption;
    try (eapply nth_error_upd_eq, nth_error_upd_eq; eassumption).
  unfold bind at 1.
  erewrite set_res_phase_entry_ok; try eassumption;
    try (eapply nth_error_upd_eq, nth_error_upd_eq, nth_error_upd_eq;
         eassumption).
  cbn [ret]. rewrite !upd_upd. reflexivity.
Qed.

(** The setter of [z], handed an array of blocks on an object with a
    frequency for every block: it returns, and resistivity and phase are
    those of the array. *)
Lemma set_z_stack_ok s lg l fs :
  ZObj._freq s = Some fs -> (length l <= length fs)%nat ->
  covers (ZObj._z_err s) l ->
  exists w' rs ps,
    ZObj._set_z (Stack l) (World s lg) = (Ok tt, w') /\
    ZObj._z (self w') = Some l /\
    ZObj._resistivity (self w') = Some rs /\
    ZObj._phase (self w') = Some ps /\
    forall i z f,
      nth_error l i = Some z -> nth_error fs i = Some f ->
      nth_error rs i = Some (mmap (fun c => res_value c f) z) /\
      nth_error ps i = Some (mmap phase_value z).
Proof.
  intros Hf Hlen Hcov.
  destruct s as [oz oe ofr ra r0 re0 p0 pe0].
  cbn [ZObj._freq ZObj._z_err] in *. subst ofr.
  assert (Hrec : forall ra',
    exists w' rs ps,
      ZObj.recompute_guarded
        (World (ZObj.mk (Some l) oe (Some fs) ra' r0 re0 p0 pe0) lg)
      = (Ok tt, w') /\
      ZObj._z (self w') = Some l /\
      ZObj._resistivity (self w') = Some rs /\
      ZObj._phase (self w') = Some ps /\
      forall i z f,
        nth_error l i = Some z -> nth_error fs i = Some f ->
        nth_error rs i = Some (mmap (fun c => res_value c f) z) /\
        nth_error ps i = Some (mmap phase_value z)).
  { intro ra'.
    edestruct (compute_res_phase_ok
      (ZObj.mk (Some l) oe (Some fs) ra' r0 re0 p0 pe0) lg l fs)
      as (rs & ps & ore & ope & Hc & _ & _ & Hent); try reflexivity;
      try assumption.
    unfold ZObj.recompute_guarded, try_except. rewrite Hc.
    eexists _, rs, ps. split; [reflexivity|].
    split; [reflexivity|]. split; [reflexivity|]. split; [reflexivity|].
    exact Hent. }
  unfold ZObj._set_z, try_except, bind, getself, ret, modify, lift, ZObj.len.
  cbn -[ZObj.recompute_guarded].
  destruct ra as [a|old]; cbn -[ZObj.recompute_guarded]; apply Hrec.
Qed.

(** X30.  [Z.set_res_phase] without error arrays, on an object with
    positive frequencies, one for every block of the arrays handed in
    (which have one shape, the shape of the tensor when there is one):
    the call returns and every entry of the tensor is
    [cmath.rect(sqrt(5 * freq * res), radians(phase))].  When no
    resistivity handed in is negative, the resistivity read back is the
    one handed in; where it is positive and the phase lies in
    (-180, 180], so is the phase read back. *)
Theorem set_res_phase_reads_back s lg fs rs ps :
  ZObj._freq s = Some fs -> Forall (fun f => 0 < f) fs ->
  length fs = length rs -> length ps = length rs ->
  same_shape (ZObj._z s) rs -> covers (ZObj._z_err s) rs ->
  all_entries3 (fun r => 0 <= r) rs ->
  exists w',
    ZObj.set_res_phase rs ps None None (World s lg) = (Ok tt, w') /\
    forall i ii jj f r p,
      nth_error fs i = Some f -> nth_error rs i = Some r ->
      nth_error ps i = Some p ->
      ZObj.subscript3 (ZObj._z (self w')) i ii jj
      = Ok (z_entry_from_polar f (mget r ii jj) (mget p ii jj)) /\
      ZObj.subscript3 (ZObj._resistivity (self w')) i ii jj
      = Ok (mget r ii jj) /\
      (0 < mget r ii jj -> -180 < mget p ii jj <= 180 ->
       ZObj.subscript3 (ZObj._phase (self w')) i ii jj = Ok (mget p ii jj)).
Proof.
  intros Hf Hpos Hlf Hlp Hsh Hcov Hnn.
  set (blk := fun i =>
         let f := nth i fs 0 in
         let rb := nth i rs (mconst 0) in
         let pb := nth i ps (mconst 0) in
         mkMat2 (z_entry_from_polar f (m00 rb) (m00 pb))
                (z_entry_from_polar f (m01 rb) (m01 pb))
                (z_entry_from_polar f (m10 rb) (m10 pb))
                (z_entry_from_polar f (m11 rb) (m11 pb))).
  assert (Hloop : forall acc, length acc = length rs ->
    fold_each (seq 0 (length rs)) (fun idx_f acc =>
      fold_each range2 (fun ii acc =>
        fold_each range2 (fun jj acc =>
          ZObj.set_res_phase_entry rs ps idx_f ii jj acc) acc) acc)
      acc (World s lg)
    = (Ok (fill blk (seq 0 (length rs)) acc), World s lg)).
  { intros acc Ha.
    apply (fold_each_fill blk _ (World s lg) (length rs)); [|lia|exact Ha].
    intros i acc' Hi Hl.
    destruct (nth_error acc' i) as [ab|] eqn:Eab;
      [|apply nth_error_None in Eab; lia].
    apply set_res_phase_block_polar with (fs := fs) (ab := ab); auto;
      apply nth_error_nth'; lia. }
  set (acc := match ZObj._z s with
              | Some za => za
              | None => map (fun _ => mconst C0) rs
              end).
  assert (Ha : length acc = length rs).
  { unfold acc, same_shape in *. destruct (ZObj._z s); [exact Hsh|].
    apply length_map. }
  destruct (set_z_stack_ok s lg (fill blk (seq 0 (length rs)) acc) fs Hf)
    as (w' & rs' & ps' & Hset & Hz' & Hr' & Hp' & Hent).
  { rewrite fill_length. lia. }
  { unfold covers in *. destruct (ZObj._z_err s); [|exact I].
    rewrite fill_length. lia. }
  exists w'. split.
  - unfold ZObj.set_res_phase, ZObj._get_z, ZObj._get_freq, range.
    unfold bind, getself, ret, raise. cbn beta iota delta [self].
    unfold same_shape in Hsh. subst acc.
    destruct (ZObj._z s) as [za|] eqn:Hz.
    + rewrite Hsh, Hlp, Nat.eqb_refl. cbn beta iota delta [negb self].
      rewrite Hf. rewrite Hlf, Nat.eqb_refl. cbn beta iota delta [negb self].
      rewrite (Hloop za Hsh). rewrite Hset. reflexivity.
    + rewrite Hlp, Nat.eqb_refl. cbn beta iota delta [negb self].
      rewrite Hf. rewrite Hlf, Nat.eqb_refl. cbn beta iota delta [negb self].
      rewrite length_map, (Hloop _ Ha). rewrite Hset. reflexivity.
  - intros i ii jj f r p Hfi Hri Hpi.
    assert (Hi : (i < length rs)%nat) by (apply nth_error_Some; congruence).
    assert (Hblk : nth_error (fill blk (seq 0 (length rs)) acc) i
                   = Some (blk i)).
    { rewrite fill_nth_error by lia.
      destruct (Nat.leb_spec 0 i), (Nat.ltb_spec i (0 + length rs));
        cbn [andb]; try lia. reflexivity. }
    assert (Hb : mget (blk i) ii jj
                 = z_entry_from_polar f (mget r ii jj) (mget p ii jj)).
    { unfold blk. cbn zeta.
      rewrite (nth_error_nth _ _ _ Hfi), (nth_error_nth _ _ _ Hri),
        (nth_error_nth _ _ _ Hpi).
      destruct ii, jj; reflexivity. }
    destruct (Hent i (blk i) f Hblk Hfi) as [Hre Hph].
    assert (Hfpos : 0 < f).
    { rewrite Forall_forall in Hpos. apply Hpos.
      eapply nth_error_In; eassumption. }
    assert (Hrnn : 0 <= mget r ii jj).
    { unfold all_entries3 in Hnn. rewrite Forall_forall in Hnn.
      apply Hnn. eapply nth_error_In; eassumption. }
    rewrite Hz', Hr', Hp'. unfold ZObj.subscript3, item3.
    rewrite Hblk, Hre, Hph. rewrite !mmap_mget, Hb.
    split; [reflexivity|]. split.
    + rewrite res_value_polar by assumption. reflexivity.
    + intros Hrp Hrng. rewrite phase_value_polar by assumption. reflexivity.
Qed.

End FromPolar.

Lemma set_res_phase_reads_back_sample :
  (ZObj._freq (self sample_Z_empty) = Some [2] /\
   Forall (fun f => 0 < f) [2] /\
   length [2] = length [mconst 100] /\
   length [mconst 45] = length [mconst 100] /\
   same_shape (ZObj._z (self sample_Z_empty)) [mconst 100] /\
   covers (ZObj._z_err (self sample_Z_empty)) [mconst 100] /\
   all_entries3 (fun r => 0 <= r) [mconst 100]) /\
  exists w',
    @ZObj.set_res_phase first_order [mconst 100] [mconst 45] None None
      (World (self sample_Z_empty) [])
    = (Ok tt, w') /\
    ZObj.subscript3 (ZObj._resistivity (self w')) 0 i0 i1 = Ok 100 /\
    ZObj.subscript3 (ZObj._phase (self w')) 0 i0 i1 = Ok 45.
Proof.
  assert (Hf : ZObj._freq (self sample_Z_empty) = Some [2])
    by (run; reflexivity).
  assert (Hz : ZObj._z (self sample_Z_empty) = None) by (run; reflexivity).
  assert (He : ZObj._z_err (self sample_Z_empty) = None)
    by (run; reflexivity).
  assert (Hp : Forall (fun f => 0 < f) [2])
    by (apply Forall_cons; [lra | apply Forall_nil]).
  assert (L1 : length [2] = length [mconst 100]) by reflexivity.
  assert (L2 : length [mconst 45] = length [mconst 100]) by reflexivity.
  assert (Hs : same_shape (ZObj._z (self sample_Z_empty)) [mconst 100])
    by (rewrite Hz; exact I).
  assert (Hc : covers (ZObj._z_err (self sample_Z_empty)) [mconst 100])
    by (rewrite He; exact I).
  assert (Hn : all_entries3 (fun r => 0 <= r) [mconst 100]).
  { apply Forall_cons; [|apply Forall_nil].
    intros [] []; cbn [mget mconst m00 m01 m10 m11]; lra. }
  split.
  { split; [exact Hf|]. split; [exact Hp|]. split; [exact L1|].
    split; [exact L2|]. split; [exact Hs|]. split; [exact Hc | exact Hn]. }
  destruct (@set_res_phase_reads_back first_order (self sample_Z_empty) []
              [2] [mconst 100] [mconst 45] Hf Hp L1 L2 Hs Hc Hn)
    as (w' & Hrun & Hent).
  exists w'. split; [exact Hrun|].
  destruct (Hent 0%nat i0 i1 2 (mconst 100) (mconst 45)
              eq_refl eq_refl eq_refl) as (_ & Hr & Hph).
  split; [exact Hr|].
  apply Hph; cbn [mget mconst m01]; lra.
Defined.

(** * From resistivity and phase back to the tensor (C3) *)

Section RoundTripClaim.

Context `{Calculator}.



End RoundTripClaim.


(** * What the doubles do to the claims C1 and C3 *)

(** The object [Z(z_array=[z_test, z_test, z_test], freq=[1, 1, 1])]
    after [z_err = two blocks]: the setter has returned, tensor and
    frequencies are the ones the object had, and resistivity and phase at
    [(2, 0, 1)] are 0 where the formulas give 0.4 and 45. *)
Lemma sample_Z3_err2_is_stale :
  let r := @ZObj._set_z_err first_order (Some [e_test; e_test]) sample_Z3 in
  fst r = Ok tt /\
  ZObj._z (self (snd r)) = Some [z_test; z_test; z_test] /\
  ZObj._freq (self (snd r)) = Some [1; 1; 1] /\
  ZObj.subscript3 (ZObj._resistivity (self (snd r))) 2 i0 i1 = Ok 0 /\
  ZObj.subscript3 (ZObj._phase (self (snd r))) 2 i0 i1 = Ok 0 /\
  res_value (mget z_test i0 i1) 1 = 0.4 /\
  phase_value (mget z_test i0 i1) = 45.
Proof.
  cbn zeta. split; [run; reflexivity|]. split; [run; reflexivity|].
  split; [run; reflexivity|]. split; [run; reflexivity|].
  split; [run; reflexivity|].
  split; [exact res_value_scenario | exact phase_value_scenario].
Qed.

Module DoublesFacts.
Import PrimFloat.
#[local] Set Warnings "-inexact-float".

(** The claim C1 as it stands fails twice.  It speaks of every [Z] that
    holds a tensor and frequencies: on [sample_Z3] after
    [z_err = two blocks] the resistivity and the phase of the third block
    are 0 where the formulas give 0.4 and 45.  And the resistivity of its
    scenario is 0.4 in exact arithmetic only: on doubles [np.abs(1+1j)] is
    the rounded square root of 2, and [np.abs(z) ** 2 / 1 * 0.2] is
    [0.40000000000000013], which is not the double [0.4]. *)
Lemma derived_arrays_stale_or_rounded :
  (let r := @ZObj._set_z_err first_order (Some [e_test; e_test]) sample_Z3 in
   fst r = Ok tt /\
   ZObj._z (self (snd r)) = Some [z_test; z_test; z_test] /\
   ZObj._freq (self (snd r)) = Some [1; 1; 1] /\
   ZObj.subscript3 (ZObj._resistivity (self (snd r))) 2 i0 i1 = Ok 0%R /\
   ZObj.subscript3 (ZObj._phase (self (snd r))) 2 i0 i1 = Ok 0%R /\
   res_value (mget z_test i0 i1) 1 = 0.4%R /\
   phase_value (mget z_test i0 i1) = 45%R) /\
  Doubles.resistivity (sqrt 2) 1 = 0.40000000000000013%float /\
  (Doubles.resistivity (sqrt 2) 1 =? 0.4)%float = false.
Proof.
  split; [exact sample_Z3_err2_is_stale|]. split; reflexivity.
Qed.


End DoublesFacts.
